(** * LiDAR Viewer: file formats, octree import/export and point selection

    A shallow embedding of the parts of the LiDAR processing package that
    read and write its on-disk artifacts (octree files, normal files, offset
    files, saved-primitive files), of the preprocessor's LAS and xyzi point
    loaders, of the exporter's point savers, and of the point selector tool's
    per-frame protocol, together with the properties the design document
    states about them.

    Conventions.
    - A file is a [list byte]; positions are byte offsets counted from 0.
    - Every binary file is written and read with [Misc::LittleEndian].
    - [double] is IEEE binary64, embedded as Rocq's primitive [float].
    - [Scalar] of LidarTypes.h (the coordinate type of LiDAR points) is an
      interface, [ScalarType], because the header that fixes it is not part
      of the sources at hand.
    - Fallible code returns [result]: [Ok v] or [Err e] for a thrown
      exception. *)

From Stdlib Require Import ZArith NArith List Bool String Ascii Lia.
From Stdlib Require Import Strings.Byte.
From Stdlib Require Import Floats.
From stdpp Require Import base list option.
Import ListNotations.

#[local] Set Warnings "-inexact-float".
Local Open Scope Z_scope.

(** ** Exceptions as results *)

Inductive result (E A : Type) : Type :=
| Ok (a : A)
| Err (e : E).
Arguments Ok {E A} a.
Arguments Err {E A} e.

Definition rbind {E A B} (m : result E A) (k : A -> result E B) : result E B :=
  match m with
  | Ok a => k a
  | Err e => Err e
  end.

Notation "x <- m ;; k" := (rbind m (fun x => k))
  (at level 20, m at level 50, k at level 200, only parsing).
Notation "' p <- m ;; k" := (rbind m (fun x => match x with p => k end))
  (at level 20, p pattern, m at level 50, k at level 200, only parsing).

(** ** Little-endian binary I/O (IO::File with Misc::LittleEndian) *)

Module LE.

Definition byte_of_Z (z : Z) : byte :=
  match Byte.of_N (Z.to_N (z mod 256)) with
  | Some b => b
  | None => x00
  end.

Definition Z_of_byte (b : byte) : Z := Z.of_N (Byte.to_N b).

(** [encode n z]: the [n] low-order bytes of [z], least significant first. *)
Fixpoint encode (n : nat) (z : Z) : list byte :=
  match n with
  | O => []
  | S n' => byte_of_Z z :: encode n' (z / 256)
  end.

Fixpoint decode (bs : list byte) : Z :=
  match bs with
  | [] => 0
  | b :: bs' => Z_of_byte b + 256 * decode bs'
  end.

(** Two's complement reading of a [w]-bit pattern. *)
Definition signed (w : Z) (z : Z) : Z :=
  if z <? 2 ^ (w - 1) then z else z - 2 ^ w.

End LE.

Lemma Z_of_byte_range (b : byte) : 0 <= LE.Z_of_byte b < 256.
Proof.
  unfold LE.Z_of_byte. pose proof (Byte.to_N_bounded b) as H.
  split; [apply N2Z.is_nonneg|].
  apply N.lt_succ_r in H. change (N.succ 255) with 256%N in H.
  change 256 with (Z.of_N 256). now apply N2Z.inj_lt.
Qed.

Lemma Z_of_byte_of_Z (z : Z) : LE.Z_of_byte (LE.byte_of_Z z) = z mod 256.
Proof.
  unfold LE.Z_of_byte, LE.byte_of_Z.
  assert (Hr : 0 <= z mod 256 < 256) by (apply Z.mod_pos_bound; lia).
  destruct (Byte.of_N (Z.to_N (z mod 256))) as [b|] eqn:E.
  - apply Byte.to_of_N in E. rewrite E. rewrite Z2N.id; lia.
  - apply Byte.of_N_None_iff in E.
    assert (Z.to_N (z mod 256) < 256)%N.
    { change 256%N with (Z.to_N 256). apply Z2N.inj_lt; lia. }
    lia.
Qed.

Lemma encode_length (n : nat) (z : Z) : length (LE.encode n z) = n.
Proof. revert z; induction n as [|n IH]; intros z; simpl; [reflexivity|]. now rewrite IH. Qed.

Lemma decode_encode (n : nat) (z : Z) :
  LE.decode (LE.encode n z) = z mod 256 ^ Z.of_nat n.
Proof.
  revert z; induction n as [|n IH]; intros z.
  - simpl. now rewrite Z.mod_1_r.
  - cbn [LE.encode LE.decode]. rewrite IH, Z_of_byte_of_Z.
    rewrite Nat2Z.inj_succ, Z.pow_succ_r by lia.
    rewrite Z.rem_mul_r by lia. reflexivity.
Qed.

Lemma decode_range (bs : list byte) :
  0 <= LE.decode bs < 256 ^ Z.of_nat (length bs).
Proof.
  induction bs as [|b bs IH].
  - simpl. lia.
  - cbn [LE.decode length]. rewrite Nat2Z.inj_succ, Z.pow_succ_r by lia.
    pose proof (Z_of_byte_range b). lia.
Qed.

(** ** IEEE binary64 values and their byte images *)

Module Float64.

(** Bit pattern of a [double]: sign (1 bit), biased exponent (11 bits),
    fraction (52 bits).  Every NaN is mapped to the canonical quiet NaN. *)
Definition to_bits (f : float) : Z :=
  let sign (s : bool) : Z := if s then 2 ^ 63 else 0 in
  match Prim2SF f with
  | S754_zero s => sign s
  | S754_infinity s => sign s + 2047 * 2 ^ 52
  | S754_nan => 2047 * 2 ^ 52 + 2 ^ 51
  | S754_finite s m e =>
      if Z.pos m <? 2 ^ 52
      then sign s + Z.pos m
      else sign s + (e + 1075) * 2 ^ 52 + (Z.pos m - 2 ^ 52)
  end.

Definition of_bits (z : Z) : float :=
  let s := Z.testbit z 63 in
  let ex := (z / 2 ^ 52) mod 2048 in
  let fr := z mod 2 ^ 52 in
  SF2Prim
    (if ex =? 0 then
       match fr with
       | Z.pos m => S754_finite s m (-1074)
       | _ => S754_zero s
       end
     else if ex =? 2047 then
       (if fr =? 0 then S754_infinity s else S754_nan)
     else
       match fr + 2 ^ 52 with
       | Z.pos m => S754_finite s m (ex - 1075)
       | _ => S754_zero s
       end).

Definition encode (f : float) : list byte := LE.encode 8 (to_bits f).
Definition decode (bs : list byte) : float := of_bits (LE.decode bs).

(** [Math::floor] followed by the conversion to an integer. *)
Definition floorZ (f : float) : Z :=
  match Prim2SF f with
  | S754_finite s m e =>
      let n := if s then Z.neg m else Z.pos m in
      if 0 <=? e then n * 2 ^ e else n / 2 ^ (- e)
  | _ => 0
  end.

(** Whether the floor of a double fits the type [int]: the double is
    neither an infinity nor NaN and its floor lies in -2^31 .. 2^31-1. *)
Definition fitsInt (f : float) : bool :=
  match Prim2SF f with
  | S754_zero _ => true
  | S754_finite _ _ _ => (- 2 ^ 31 <=? floorZ f) && (floorZ f <? 2 ^ 31)
  | _ => false
  end.

(** [int(Math::floor(f))].  C++ defines the conversion of a double to
    [int] only when the value fits the type; [None] where it does not. *)
Definition floorInt (f : float) : option Z :=
  if fitsInt f then Some (floorZ f) else None.

(** The value of a finite double as a multiple of 2^-1074, the smallest
    positive double: an integer, since no double has a smaller exponent.
    Infinities and NaN have none. *)
Definition units (f : float) : option Z :=
  match Prim2SF f with
  | S754_zero _ => Some 0
  | S754_finite s m e => Some ((if s then Z.neg m else Z.pos m) * 2 ^ (e + 1074))
  | _ => None
  end.

(** [x + y] is exact: the operands are finite and the computed sum is
    their sum as real numbers, nothing was rounded away. *)
Definition exact_add (x y : float) : bool :=
  match units x, units y, units (x + y) with
  | Some a, Some b, Some c => c =? a + b
  | _, _, _ => false
  end.

End Float64.

Lemma Float64_encode_length (f : float) : length (Float64.encode f) = 8%nat.
Proof. apply encode_length. Qed.

Example Float64_bits_one : Float64.to_bits 1%float = 0x3FF0000000000000.
Proof. vm_compute. reflexivity. Qed.

Example Float64_bits_roundtrip :
  map (fun f => Float64.decode (Float64.encode f))
      [0.1; -2.5; 1e300; 5e-324; 0; infinity]%float
  = [0.1; -2.5; 1e300; 5e-324; 0; infinity]%float.
Proof. vm_compute. reflexivity. Qed.

Example Float64_floorZ_ex :
  map Float64.floorZ [2.5; -2.5; 3; -0.25; 1e3]%float = [2; -3; 3; -1; 1000].
Proof. vm_compute. reflexivity. Qed.

(** *** A double survives the trip through its byte image *)

Lemma digits2_pos_bounds (m : positive) :
  2 ^ (Z.pos (digits2_pos m) - 1) <= Z.pos m < 2 ^ Z.pos (digits2_pos m).
Proof.
  induction m as [m IH|m IH|]; cbn [digits2_pos].
  - change (PosDef.Pos.succ (digits2_pos m)) with (Pos.succ (digits2_pos m)).
    rewrite Pos2Z.inj_succ.
    replace (Z.succ (Z.pos (digits2_pos m)) - 1) with (Z.succ (Z.pos (digits2_pos m) - 1)) by lia.
    rewrite !Z.pow_succ_r by lia. lia.
  - change (PosDef.Pos.succ (digits2_pos m)) with (Pos.succ (digits2_pos m)).
    rewrite Pos2Z.inj_succ.
    replace (Z.succ (Z.pos (digits2_pos m)) - 1) with (Z.succ (Z.pos (digits2_pos m) - 1)) by lia.
    rewrite !Z.pow_succ_r by lia. lia.
  - cbn. lia.
Qed.

Lemma finite_double_bounds (s : bool) (m : positive) (e : Z) :
  valid_binary (S754_finite s m e) = true ->
  (Z.pos m < 2 ^ 52 /\ e = -1074)
  \/ (2 ^ 52 <= Z.pos m < 2 ^ 53 /\ -1074 <= e <= 971).
Proof.
  unfold valid_binary, SpecFloat.valid_binary, bounded, canonical_mantissa, fexp,
    SpecFloat.emin, prec, emax.
  intros H. apply andb_prop in H as [H1 H2].
  apply Z.eqb_eq in H1. apply Z.leb_le in H2.
  pose proof (digits2_pos_bounds m) as [Hlo Hhi].
  set (d := Z.pos (digits2_pos m)) in *.
  change (IntDef.Z.max) with Z.max in H1.
  assert (Hd : 0 < d) by (unfold d; lia).
  destruct (Z_lt_le_dec d 53) as [Hlt|Hge].
  - left. split; [|lia].
    apply Z.lt_le_trans with (2 ^ d); [exact Hhi|].
    apply Z.pow_le_mono_r; lia.
  - right. assert (d = 53) by lia.
    replace d with 53 in * by lia.
    change (2 ^ (53 - 1)) with (2 ^ 52) in Hlo. lia.
Qed.

Lemma to_bits_range (x : float) : 0 <= Float64.to_bits x < 2 ^ 64.
Proof.
  unfold Float64.to_bits. pose proof (Prim2SF_valid x) as Hv.
  destruct (Prim2SF x) as [s|s| |s m e].
  - destruct s; lia.
  - destruct s; lia.
  - lia.
  - apply finite_double_bounds in Hv.
    destruct (Z.ltb_spec (Z.pos m) (2 ^ 52)); destruct s; lia.
Qed.

Lemma testbit_63 (s : bool) (r : Z) :
  0 <= r < 2 ^ 63 -> Z.testbit ((if s then 2 ^ 63 else 0) + r) 63 = s.
Proof.
  intros Hr. destruct s.
  - rewrite Z.testbit_true by lia.
    replace ((2 ^ 63 + r) / 2 ^ 63) with 1 by (apply Z.div_unique with r; lia).
    reflexivity.
  - rewrite Z.add_0_l. apply Z.bits_above_log2; [lia|].
    destruct (Z.eq_dec r 0) as [->|]; [cbn; lia|].
    apply Z.log2_lt_pow2; lia.
Qed.

Lemma of_bits_to_bits (x : float) : Float64.of_bits (Float64.to_bits x) = x.
Proof.
  rewrite <- (SF2Prim_Prim2SF x) at 2.
  unfold Float64.of_bits, Float64.to_bits.
  pose proof (Prim2SF_valid x) as Hv.
  destruct (Prim2SF x) as [s|s| |s m e].
  - f_equal.
    replace (Z.testbit _ 63) with s
      by (symmetry; rewrite <- (Z.add_0_r (if s then _ else _)); apply testbit_63; lia).
    replace (((if s then 2 ^ 63 else 0) / 2 ^ 52) mod 2048) with 0 by (destruct s; reflexivity).
    replace ((if s then 2 ^ 63 else 0) mod 2 ^ 52) with 0 by (destruct s; reflexivity).
    reflexivity.
  - f_equal.
    replace (Z.testbit _ 63) with s by (symmetry; apply testbit_63; lia).
    replace ((((if s then 2 ^ 63 else 0) + 2047 * 2 ^ 52) / 2 ^ 52) mod 2048) with 2047
      by (destruct s; reflexivity).
    replace (((if s then 2 ^ 63 else 0) + 2047 * 2 ^ 52) mod 2 ^ 52) with 0
      by (destruct s; reflexivity).
    reflexivity.
  - reflexivity.
  - f_equal. apply finite_double_bounds in Hv.
    destruct (Z.ltb_spec (Z.pos m) (2 ^ 52)) as [Hm|Hm].
    + assert (e = -1074) by lia. subst e.
      replace (Z.testbit _ 63) with s by (symmetry; apply testbit_63; lia).
      set (sg := if s then 2 ^ 63 else 0).
      assert (Hex : ((sg + Z.pos m) / 2 ^ 52) mod 2048 = 0).
      { replace ((sg + Z.pos m) / 2 ^ 52) with (if s then 2048 else 0);
          [destruct s; reflexivity|].
        apply Z.div_unique with (Z.pos m); [lia|]. unfold sg. destruct s; lia. }
      assert (Hfr : (sg + Z.pos m) mod 2 ^ 52 = Z.pos m).
      { symmetry. apply Z.mod_unique with (if s then 2048 else 0); [lia|].
        unfold sg. destruct s; lia. }
      rewrite Hex, Hfr. reflexivity.
    + destruct Hv as [[? ?]|[Hm' He]]; [lia|].
      set (sg := if s then 2 ^ 63 else 0).
      replace (sg + (e + 1075) * 2 ^ 52 + (Z.pos m - 2 ^ 52))
        with (sg + ((e + 1075) * 2 ^ 52 + (Z.pos m - 2 ^ 52))) by lia.
      replace (Z.testbit _ 63) with s by (symmetry; apply testbit_63; lia).
      assert (Hex : ((sg + ((e + 1075) * 2 ^ 52 + (Z.pos m - 2 ^ 52))) / 2 ^ 52) mod 2048
                    = e + 1075).
      { replace ((sg + ((e + 1075) * 2 ^ 52 + (Z.pos m - 2 ^ 52))) / 2 ^ 52)
          with ((if s then 2048 else 0) + (e + 1075)).
        - destruct s; [|apply Z.mod_small; lia].
          symmetry. apply Z.mod_unique with 1; lia.
        - apply Z.div_unique with (Z.pos m - 2 ^ 52); [lia|]. unfold sg. destruct s; lia. }
      assert (Hfr : (sg + ((e + 1075) * 2 ^ 52 + (Z.pos m - 2 ^ 52))) mod 2 ^ 52
                    = Z.pos m - 2 ^ 52).
      { symmetry. apply Z.mod_unique with ((if s then 2048 else 0) + (e + 1075)); [lia|].
        unfold sg. destruct s; lia. }
      rewrite Hex, Hfr.
      destruct (Z.eqb_spec (e + 1075) 0); [lia|].
      destruct (Z.eqb_spec (e + 1075) 2047); [lia|].
      replace (Z.pos m - 2 ^ 52 + 2 ^ 52) with (Z.pos m) by lia.
      replace (e + 1075 - 1075) with e by lia. reflexivity.
Qed.

Lemma Float64_decode_encode (x : float) : Float64.decode (Float64.encode x) = x.
Proof.
  unfold Float64.decode, Float64.encode. rewrite decode_encode.
  change (256 ^ Z.of_nat 8) with (2 ^ 64).
  rewrite Z.mod_small by apply to_bits_range. apply of_bits_to_bits.
Qed.

(** ** Exceptions thrown by the modelled code *)

Inductive exn : Type :=
| ReadError
    (* IO::File::Error: a read ran past the end of the file, or a seek
       position was invalid *)
| OctreeCorrupted (x y z : float)
    (* "Octree file corrupted around position (%f, %f, %f)" *)
| NotValidPrimitiveFile
    (* "Not a valid version 1.3 primitive file" *)
| UnknownPrimitiveType (primitiveType : Z)
    (* "Unknown primitive type %d" *)
| OutOfFuel
    (* not an exception of the program: the recursion budget of a fuelled
       definition ran out, the program itself would still be running *).

(** [for (i = 0; i < n; ++i) body] over a state that can fail. *)
Fixpoint for_loop_from {St : Type} (i : nat) (n : nat)
    (body : nat -> St -> result exn St) (s : St) : result exn St :=
  match n with
  | O => Ok s
  | S n' => s' <- body i s ;; for_loop_from (S i) n' body s'
  end.

Definition for_loop {St : Type} (n : nat) (body : nat -> St -> result exn St) (s : St)
  : result exn St := for_loop_from 0 n body s.

(** ** Files with a read and a write position (IO::SeekableFile) *)

Module File.

Record t := mk { content : list byte; readPos : Z; writePos : Z }.

Definition open (bytes : list byte) : t := mk bytes 0 0.

Definition setReadPosAbs (pos : Z) (f : t) : t := mk (content f) pos (writePos f).
Definition setWritePosAbs (pos : Z) (f : t) : t := mk (content f) (readPos f) pos.

(** [read n f]: the next [n] bytes; throws when fewer are left. *)
Definition read (n : nat) (f : t) : result exn (list byte * t) :=
  if (0 <=? readPos f) && (readPos f + Z.of_nat n <=? Z.of_nat (length (content f)))
  then Ok (take n (drop (Z.to_nat (readPos f)) (content f)),
           mk (content f) (readPos f + Z.of_nat n) (writePos f))
  else Err ReadError.

Definition eof (f : t) : bool := Z.of_nat (length (content f)) <=? readPos f.

(** Overwrite (or append) [data] at byte position [pos]; a gap between the
    old end of the file and [pos] reads as zero bytes. *)
Definition pwrite (pos : nat) (data : list byte) (c : list byte) : list byte :=
  take pos (c ++ replicate (pos - length c) x00) ++ data ++ drop (pos + length data) c.

Definition write (data : list byte) (f : t) : t :=
  mk (pwrite (Z.to_nat (writePos f)) data (content f))
     (readPos f) (writePos f + Z.of_nat (length data)).

Definition read_u32 (f : t) : result exn (Z * t) :=
  '(bs, f) <- read 4 f ;; Ok (LE.decode bs, f).
Definition read_i32 (f : t) : result exn (Z * t) :=
  '(bs, f) <- read 4 f ;; Ok (LE.signed 32 (LE.decode bs), f).
Definition read_u64 (f : t) : result exn (Z * t) :=
  '(bs, f) <- read 8 f ;; Ok (LE.decode bs, f).
Definition read_i64 (f : t) : result exn (Z * t) :=
  '(bs, f) <- read 8 f ;; Ok (LE.signed 64 (LE.decode bs), f).
Definition read_f64 (f : t) : result exn (float * t) :=
  '(bs, f) <- read 8 f ;; Ok (Float64.decode bs, f).

Definition write_u32 (z : Z) : t -> t := write (LE.encode 4 z).
Definition write_u64 (z : Z) : t -> t := write (LE.encode 8 z).
Definition write_f64 (x : float) : t -> t := write (Float64.encode x).

End File.

(** ** The scalar type of LiDAR points (LidarTypes.h) *)

Class ScalarType := {
  Scalar : Type;
  sizeofScalar : nat;                       (* sizeof(Scalar) *)
  encodeScalar : Scalar -> list byte;       (* file.write(Scalar) *)
  decodeScalar : list byte -> Scalar;       (* file.read(Scalar&) *)
  toDouble : Scalar -> float;               (* double(x) *)
  ofDouble : float -> Scalar;               (* Scalar(x) *)
  encodeScalar_length : forall x, length (encodeScalar x) = sizeofScalar
}.

(** The configuration in which points are stored in double precision. *)
#[export] Instance Float64Scalar : ScalarType := {|
  Scalar := float;
  sizeofScalar := 8;
  encodeScalar := Float64.encode;
  decodeScalar := Float64.decode;
  toDouble := fun x => x;
  ofDouble := fun x => x;
  encodeScalar_length := Float64_encode_length
|}.

(** Three components: Geometry::Point, Geometry::Vector. *)
Record Vec3 (A : Type) := mkVec3 { vx : A; vy : A; vz : A }.
Arguments mkVec3 {A} _ _ _.
Arguments vx {A} _.
Arguments vy {A} _.
Arguments vz {A} _.

Definition Vec3_map {A B} (f : A -> B) (v : Vec3 A) : Vec3 B :=
  mkVec3 (f (vx v)) (f (vy v)) (f (vz v)).
Definition Vec3_zip {A B C} (f : A -> B -> C) (u : Vec3 A) (v : Vec3 B) : Vec3 C :=
  mkVec3 (f (vx u) (vx v)) (f (vy u) (vy v)) (f (vz u) (vz v)).
Definition Vec3_list {A} (v : Vec3 A) : list A := [vx v; vy v; vz v].

(** Four colour channels: the [value] of a LidarPoint. *)
Record RGBA := mkRGBA { red : byte; green : byte; blue : byte; alpha : byte }.
Definition RGBA_bytes (c : RGBA) : list byte := [red c; green c; blue c; alpha c].
Definition RGBA_of_bytes (bs : list byte) : RGBA :=
  mkRGBA (nth 0 bs x00) (nth 1 bs x00) (nth 2 bs x00) (nth 3 bs x00).

(** ** LiDAR points and octrees *)

Section Lidar.
Context {ST : ScalarType}.

(** LidarPoint: a position of three [Scalar]s valued with an RGBA colour. *)
Record LidarPoint := mkLidarPoint { position : Vec3 Scalar; value : RGBA }.

Definition sizeofLidarPoint : nat := 3 * sizeofScalar + 4.

Definition encodeComponents (v : Vec3 Scalar) : list byte :=
  encodeScalar (vx v) ++ encodeScalar (vy v) ++ encodeScalar (vz v).

Definition decodeComponents (bs : list byte) : Vec3 Scalar :=
  mkVec3 (decodeScalar (take sizeofScalar bs))
         (decodeScalar (take sizeofScalar (drop sizeofScalar bs)))
         (decodeScalar (take sizeofScalar (drop (2 * sizeofScalar) bs))).

Definition encodeLidarPoint (p : LidarPoint) : list byte :=
  encodeComponents (position p) ++ RGBA_bytes (value p).

(** [file.read(p.getComponents(),3); file.read(p.value.getRgba(),4)] *)
Definition readLidarPoint (f : File.t) : result exn (LidarPoint * File.t) :=
  '(cs, f) <- File.read (3 * sizeofScalar) f ;;
  '(rgba, f) <- File.read 4 f ;;
  Ok (mkLidarPoint (decodeComponents cs) (RGBA_of_bytes rgba), f).

(** The in-memory octree a finished data set describes: the points stored
    at a node and its children, none for a leaf and eight for an interior
    node. *)
Inductive Octree : Type :=
| OctNode (points : list LidarPoint) (children : list Octree).

Definition nodePoints (t : Octree) : list LidarPoint :=
  match t with OctNode pts _ => pts end.
Definition nodeChildren (t : Octree) : list Octree :=
  match t with OctNode _ cs => cs end.
Definition isLeaf (t : Octree) : bool :=
  match nodeChildren t with [] => true | _ => false end.
Definition getNumPoints (t : Octree) : nat := length (nodePoints t).

(** The points stored at the leaves, left to right. *)
Fixpoint leafPoints (t : Octree) : list LidarPoint :=
  match t with
  | OctNode pts [] => pts
  | OctNode _ cs => flat_map leafPoints cs
  end.

(** The points stored at interior nodes (the level-of-detail subsamples). *)
Fixpoint interiorPoints (t : Octree) : list LidarPoint :=
  match t with
  | OctNode _ [] => []
  | OctNode pts cs => pts ++ flat_map interiorPoints cs
  end.

Fixpoint height (t : Octree) : nat :=
  match t with
  | OctNode _ cs => S (foldr Nat.max 0%nat (map height cs))
  end.

End Lidar.

(** ** Re-importing octrees into the preprocessor (LidarPreprocessor.cpp) *)

Module Preprocessor.
Section Loaders.
Context {ST : ScalarType}.

(** PointAccumulator, as far as the loaders see it: the sequence of
    [addPoint] calls received, each with the position converted to the
    accumulator's double-precision point type and the colour. *)
Definition PointAccumulator : Type := list (Vec3 float * RGBA).

Definition addPoint (pos : Vec3 float) (col : RGBA) (pa : PointAccumulator)
  : PointAccumulator := pa ++ [(pos, col)].

(** [pa.addPoint(PointAccumulator::Point(p.getComponents()),
                 PointAccumulator::Color(p.value.getRgba()))] *)
Definition accumulated (p : LidarPoint) : Vec3 float * RGBA :=
  (Vec3_map toDouble (position p), value p).

Definition addLidarPoint (p : LidarPoint) (pa : PointAccumulator) : PointAccumulator :=
  addPoint (Vec3_map toDouble (position p)) (value p) pa.

(** *** Old octree format: <stem>.oct and <stem>.obin *)

Record OldLidarOctreeFileHeader := {
  center : Vec3 Scalar;
  radius : Scalar;
  maxNumPointsPerNode : Z
}.

Definition OldLidarOctreeFileHeader_read (file : File.t)
  : result exn (OldLidarOctreeFileHeader * File.t) :=
  '(c, file) <- File.read (3 * sizeofScalar) file ;;
  '(r, file) <- File.read sizeofScalar file ;;
  '(n, file) <- File.read_u32 file ;;
  Ok ({| center := decodeComponents c; radius := decodeScalar r;
         maxNumPointsPerNode := n |}, file).

Definition OldLidarOctreeFileHeader_getSize : nat := 3 * sizeofScalar + sizeofScalar + 4.

Record OldLidarOctreeFileNode := {
  childrenOffset : Z;   (* IO::SeekableFile::Offset, 0 for a leaf *)
  detailSize : Scalar;
  numPoints : Z;        (* unsigned int *)
  pointsOffset : Z      (* IO::SeekableFile::Offset *)
}.

Definition OldLidarOctreeFileNode_read (file : File.t)
  : result exn (OldLidarOctreeFileNode * File.t) :=
  '(co, file) <- File.read_i64 file ;;
  '(ds, file) <- File.read sizeofScalar file ;;
  '(po, file) <- File.read_i64 file ;;
  '(np, file) <- File.read_u32 file ;;
  Ok ({| childrenOffset := co; detailSize := decodeScalar ds;
         numPoints := np; pointsOffset := po |}, file).

Definition OldLidarOctreeFileNode_getSize : nat := 8 + sizeofScalar + 8 + 4.

(** The loader's state: the accumulator and the two open files. *)
Definition LoaderState : Type := PointAccumulator * File.t * File.t.

Fixpoint readOctreeFileSubtree (fuel : nat) (st : LoaderState) : result exn LoaderState :=
  match fuel with
  | O => Err OutOfFuel
  | S fuel' =>
      let '(pa, octFile, obinFile) := st in
      (* Read the node's header from the octree file: *)
      '(ofn, octFile) <- OldLidarOctreeFileNode_read octFile ;;
      if negb (childrenOffset ofn =? 0) then
        (* Recurse into the node's children: *)
        for_loop 8
          (fun childIndex '(pa, octFile, obinFile) =>
             let childOffset :=
               childrenOffset ofn
               + Z.of_nat childIndex * Z.of_nat OldLidarOctreeFileNode_getSize in
             readOctreeFileSubtree fuel'
               (pa, File.setReadPosAbs childOffset octFile, obinFile))
          (pa, octFile, obinFile)
      else if 0 <? numPoints ofn then
        (* Read the node's points from the octree point file: *)
        for_loop (Z.to_nat (numPoints ofn))
          (fun _ '(pa, octFile, obinFile) =>
             '(p, obinFile) <- readLidarPoint obinFile ;;
             Ok (addLidarPoint p pa, octFile, obinFile))
          (pa, octFile, File.setReadPosAbs (pointsOffset ofn) obinFile)
      else Ok (pa, octFile, obinFile)
  end.

(** [loadPointFileOctree], from the contents of the two files. *)
Definition loadPointFileOctree (fuel : nat) (pa : PointAccumulator)
    (oct obin : list byte) : result exn PointAccumulator :=
  let octFile := File.open oct in
  let obinFile := File.open obin in
  (* Read the octree structure file header: *)
  '(ofh, octFile) <- OldLidarOctreeFileHeader_read octFile ;;
  (* Read all original points from the octree: *)
  '(pa, _, _) <- readOctreeFileSubtree fuel (pa, octFile, obinFile) ;;
  Ok pa.

(** *** New octree format: LidarProcessOctree *)

(** LidarFileLoader::operator() *)
Definition LidarFileLoader_call (node : Octree) (nodeLevel : nat)
    (pa : PointAccumulator) : PointAccumulator :=
  (* Check if this node is a leaf: *)
  if isLeaf node then
    (* Add each node point to the point accumulator: *)
    foldl (fun pa i =>
             match nodePoints node !! i with
             | Some p => addLidarPoint p pa
             | None => pa
             end)
          pa (seq 0 (getNumPoints node))
  else pa.

(** Modelled from the spec: LidarProcessOctree::processNodesPostfix, whose
    source is not at hand; the design document has it visit every node,
    children before parent, handing the functor the node and its level. *)
Fixpoint processNodesPostfix {St : Type} (fn : Octree -> nat -> St -> St)
    (node : Octree) (nodeLevel : nat) (s : St) : St :=
  match node with
  | OctNode pts cs =>
      fn node nodeLevel
         (foldl (fun s c => processNodesPostfix fn c (S nodeLevel) s) s cs)
  end.

Definition loadLidarFile (lpo : Octree) (pa : PointAccumulator) : PointAccumulator :=
  processNodesPostfix LidarFileLoader_call lpo 0 pa.

End Loaders.
End Preprocessor.

(** ** Reasoning principles *)

Section OctreeInduction.
Context {ST : ScalarType}.
Variable P : Octree -> Prop.
Hypothesis Hnode : forall pts cs, Forall P cs -> P (OctNode pts cs).

Fixpoint Octree_nested_ind (t : Octree) : P t :=
  match t with
  | OctNode pts cs =>
      Hnode pts cs
        ((fix go (l : list Octree) : Forall P l :=
            match l with
            | [] => Forall_nil P
            | c :: l' => Forall_cons P c l' (Octree_nested_ind c) (go l')
            end) cs)
  end.
End OctreeInduction.

Lemma for_loop_from_app {St} (i n m : nat) (body : nat -> St -> result exn St) (s : St) :
  for_loop_from i (n + m) body s
  = (s' <- for_loop_from i n body s ;; for_loop_from (i + n) m body s').
Proof.
  revert i s; induction n as [|n IH]; intros i s; simpl.
  - now rewrite Nat.add_0_r.
  - destruct (body i s) as [s'|e]; simpl; [|reflexivity].
    rewrite IH. now rewrite Nat.add_succ_r.
Qed.

Section ImportFacts.
Context {ST : ScalarType}.
Import Preprocessor.

Lemma foldl_addLidarPoint (pts : list LidarPoint) (pa : PointAccumulator) :
  foldl (fun pa p => addLidarPoint p pa) pa pts = pa ++ map accumulated pts.
Proof.
  revert pa; induction pts as [|p pts IH]; intros pa; simpl.
  - now rewrite app_nil_r.
  - rewrite IH. unfold addLidarPoint, addPoint, accumulated.
    now rewrite <- app_assoc.
Qed.

Lemma foldl_indexed_addLidarPoint (pre pts : list LidarPoint) (pa : PointAccumulator) :
  foldl (fun pa i => match (pre ++ pts) !! i with
                     | Some p => addLidarPoint p pa
                     | None => pa
                     end)
        pa (seq (length pre) (length pts))
  = pa ++ map accumulated pts.
Proof.
  revert pre pa; induction pts as [|p pts IH]; intros pre pa; simpl.
  - now rewrite app_nil_r.
  - rewrite list_lookup_middle by reflexivity.
    replace (pre ++ p :: pts) with ((pre ++ [p]) ++ pts) by now rewrite <- app_assoc.
    replace (S (length pre)) with (length (pre ++ [p])) by (rewrite length_app; simpl; lia).
    rewrite IH. unfold addLidarPoint, addPoint, accumulated.
    now rewrite <- app_assoc.
Qed.

Lemma LidarFileLoader_call_leaf (pts : list LidarPoint) (lvl : nat) (pa : PointAccumulator) :
  LidarFileLoader_call (OctNode pts []) lvl pa = pa ++ map accumulated pts.
Proof.
  unfold LidarFileLoader_call, isLeaf, getNumPoints. simpl.
  apply (foldl_indexed_addLidarPoint [] pts pa).
Qed.

Lemma LidarFileLoader_call_interior (pts : list LidarPoint) (c : Octree)
    (cs : list Octree) (lvl : nat) (pa : PointAccumulator) :
  LidarFileLoader_call (OctNode pts (c :: cs)) lvl pa = pa.
Proof. reflexivity. Qed.

Lemma processNodesPostfix_loader (t : Octree) :
  forall lvl pa,
    processNodesPostfix LidarFileLoader_call t lvl pa
    = pa ++ map accumulated (leafPoints t).
Proof.
  induction t as [pts cs IH] using Octree_nested_ind; intros lvl pa.
  destruct cs as [|c cs].
  - simpl. apply LidarFileLoader_call_leaf.
  - cbn [processNodesPostfix]. rewrite LidarFileLoader_call_interior.
    cbn [leafPoints]. generalize (c :: cs) IH pa. clear.
    intros l; induction l as [|d l IHl]; intros HF pa; simpl.
    + now rewrite app_nil_r.
    + inversion HF as [|? ? Hd Hl]; subst.
      rewrite Hd, IHl by assumption.
      now rewrite map_app, app_assoc.
Qed.

End ImportFacts.

(** *** What it means for a pair of old-format files to hold an octree *)

Section OldFormat.
Context {ST : ScalarType}.
Import Preprocessor.

(** [n] consecutive point records, starting at the read position. *)
Fixpoint readLidarPoints (n : nat) (f : File.t) : result exn (list LidarPoint * File.t) :=
  match n with
  | O => Ok ([], f)
  | S n' =>
      '(p, f) <- readLidarPoint f ;;
      '(ps, f) <- readLidarPoints n' f ;;
      Ok (p :: ps, f)
  end.

(** The points a node record addresses in the point file. *)
Definition storedPoints (obin : list byte) (ofn : OldLidarOctreeFileNode)
  : result exn (list LidarPoint) :=
  if 0 <? numPoints ofn then
    '(ps, _) <- readLidarPoints (Z.to_nat (numPoints ofn))
                                (File.mk obin (pointsOffset ofn) 0) ;;
    Ok ps
  else Ok [].

(** [Represents oct obin pos t]: the node record at byte [pos] of the
    structure file [oct], with the records and points it addresses, is the
    octree [t]. *)
Inductive Represents (oct obin : list byte) : Z -> Octree -> Prop :=
| Represents_leaf (pos : Z) ofn f pts :
    OldLidarOctreeFileNode_read (File.mk oct pos 0) = Ok (ofn, f) ->
    childrenOffset ofn = 0 ->
    storedPoints obin ofn = Ok pts ->
    Represents oct obin pos (OctNode pts [])
| Represents_interior (pos : Z) ofn f pts cs :
    OldLidarOctreeFileNode_read (File.mk oct pos 0) = Ok (ofn, f) ->
    childrenOffset ofn <> 0 ->
    storedPoints obin ofn = Ok pts ->
    length cs = 8%nat ->
    (forall (i : nat) (c : Octree),
        cs !! i = Some c ->
        Represents oct obin
          (childrenOffset ofn + Z.of_nat i * Z.of_nat OldLidarOctreeFileNode_getSize) c) ->
    Represents oct obin pos (OctNode pts cs).

End OldFormat.

Section OldFormatFacts.
Context {ST : ScalarType}.
Import Preprocessor.

Lemma File_read_inv (n : nat) (c : list byte) (p : Z) (bs : list byte) (f : File.t) :
  File.read n (File.mk c p 0) = Ok (bs, f) ->
  f = File.mk c (p + Z.of_nat n) 0.
Proof.
  unfold File.read; simpl.
  destruct ((0 <=? p) && (p + Z.of_nat n <=? Z.of_nat (length c))); [|discriminate].
  now intros [= _ <-].
Qed.

Ltac read_step H :=
  match type of H with
  | context [File.read ?n (File.mk ?c ?p 0)] =>
      let E := fresh "E" in
      let bs := fresh "bs" in
      let g := fresh "g" in
      destruct (File.read n (File.mk c p 0)) as [[bs g]|] eqn:E;
      [apply File_read_inv in E; subst g; cbn [rbind] in H | discriminate H]
  end.

Lemma OldLidarOctreeFileNode_read_inv (c : list byte) (p : Z) ofn (f : File.t) :
  OldLidarOctreeFileNode_read (File.mk c p 0) = Ok (ofn, f) ->
  exists p', f = File.mk c p' 0.
Proof.
  unfold OldLidarOctreeFileNode_read, File.read_i64, File.read_u32. intros H.
  cbn [rbind] in H.
  repeat (read_step H).
  injection H as _ <-. eauto.
Qed.

Lemma readLidarPoint_inv (c : list byte) (q : Z) pt (f : File.t) :
  readLidarPoint (File.mk c q 0) = Ok (pt, f) ->
  exists q', f = File.mk c q' 0.
Proof.
  unfold readLidarPoint. intros H. cbn [rbind] in H.
  repeat (read_step H).
  injection H as _ <-. eauto.
Qed.

Lemma points_loop (c : list byte) (octFile : File.t) :
  forall (n i : nat) (q : Z) (pa : PointAccumulator) (pts : list LidarPoint) (f : File.t),
    readLidarPoints n (File.mk c q 0) = Ok (pts, f) ->
    exists q',
      for_loop_from i n
        (fun _ '(pa, octFile, obinFile) =>
           '(p, obinFile) <- readLidarPoint obinFile ;;
           Ok (addLidarPoint p pa, octFile, obinFile))
        (pa, octFile, File.mk c q 0)
      = Ok (pa ++ map accumulated pts, octFile, File.mk c q' 0).
Proof.
  induction n as [|n IH]; intros i q pa pts f H; simpl in *.
  - injection H as <- _. rewrite app_nil_r. eauto.
  - destruct (readLidarPoint (File.mk c q 0)) as [[p g]|] eqn:Ep; [|discriminate].
    destruct (readLidarPoint_inv _ _ _ _ Ep) as [q1 ->].
    cbn [rbind] in *.
    destruct (readLidarPoints n (File.mk c q1 0)) as [[ps g]|] eqn:Eps; [|discriminate].
    cbn [rbind] in H. injection H as <- _.
    destruct (IH (S i) q1 (addLidarPoint p pa) ps g Eps) as [q' ->].
    exists q'. unfold addLidarPoint, addPoint, accumulated. simpl.
    now rewrite <- app_assoc.
Qed.

Lemma height_child (cs : list Octree) (i : nat) (c : Octree) :
  cs !! i = Some c -> (height c <= foldr Nat.max 0 (map height cs))%nat.
Proof.
  revert i; induction cs as [|d cs IH]; intros [|i] H; simpl in *; try discriminate.
  - injection H as ->. lia.
  - specialize (IH i H). lia.
Qed.

Lemma children_loop (oct obin : list byte) (co : Z) (fuel : nat) :
  forall (cs : list Octree) (i : nat) (pa : PointAccumulator) (p q : Z),
    (forall (k : nat) (c : Octree),
        cs !! k = Some c ->
        forall pa q, exists p' q',
          readOctreeFileSubtree fuel
            (pa,
             File.mk oct (co + Z.of_nat (i + k) * Z.of_nat OldLidarOctreeFileNode_getSize) 0,
             File.mk obin q 0)
          = Ok (pa ++ map accumulated (leafPoints c), File.mk oct p' 0, File.mk obin q' 0)) ->
    exists p' q',
      for_loop_from i (length cs)
        (fun childIndex '(pa, octFile, obinFile) =>
           let childOffset :=
             co + Z.of_nat childIndex * Z.of_nat OldLidarOctreeFileNode_getSize in
           readOctreeFileSubtree fuel
             (pa, File.setReadPosAbs childOffset octFile, obinFile))
        (pa, File.mk oct p 0, File.mk obin q 0)
      = Ok (pa ++ map accumulated (flat_map leafPoints cs),
            File.mk oct p' 0, File.mk obin q' 0).
Proof.
  induction cs as [|c cs IH]; intros i pa p q H.
  - simpl. rewrite app_nil_r. eauto.
  - cbn [length for_loop_from flat_map].
    destruct (H 0%nat c eq_refl pa q) as (p1 & q1 & E).
    rewrite Nat.add_0_r in E.
    change (File.setReadPosAbs ?x (File.mk oct p 0)) with (File.mk oct x 0).
    rewrite E. cbn [rbind].
    destruct (IH (S i) (pa ++ map accumulated (leafPoints c)) p1 q1) as (p' & q' & E').
    { intros k d Hk pa' q0.
      replace (S i + k)%nat with (i + S k)%nat by lia.
      apply (H (S k) d Hk). }
    exists p', q'. rewrite map_app, app_assoc. exact E'.
Qed.

Lemma readOctreeFileSubtree_represents (oct obin : list byte) (pos : Z) (t : Octree) :
  Represents oct obin pos t ->
  forall (fuel : nat) (pa : PointAccumulator) (q : Z),
    (height t <= fuel)%nat ->
    exists p' q',
      readOctreeFileSubtree fuel (pa, File.mk oct pos 0, File.mk obin q 0)
      = Ok (pa ++ map accumulated (leafPoints t), File.mk oct p' 0, File.mk obin q' 0).
Proof.
  induction 1 as [pos ofn f pts Hread Hco Hpts
                 |pos ofn f pts cs Hread Hco Hpts Hlen Hcs IH];
    intros fuel pa q Hfuel.
  - destruct fuel as [|fuel]; [simpl in Hfuel; lia|].
    cbn [readOctreeFileSubtree]. rewrite Hread. cbn [rbind].
    destruct (OldLidarOctreeFileNode_read_inv _ _ _ _ Hread) as [p1 ->].
    rewrite Hco. cbn [Z.eqb negb].
    unfold storedPoints in Hpts.
    destruct (0 <? numPoints ofn).
    + destruct (readLidarPoints _ _) as [[ps g]|] eqn:Eps; [|discriminate].
      cbn [rbind] in Hpts. injection Hpts as ->.
      unfold for_loop, File.setReadPosAbs. cbn [File.content File.writePos].
      destruct (points_loop obin (File.mk oct p1 0) _ 0%nat _ pa _ _ Eps) as [q' ->].
      cbn [leafPoints]. eauto.
    + injection Hpts as <-. cbn [leafPoints map]. rewrite app_nil_r. eauto.
  - destruct fuel as [|fuel]; [simpl in Hfuel; lia|].
    cbn [readOctreeFileSubtree]. rewrite Hread. cbn [rbind].
    destruct (OldLidarOctreeFileNode_read_inv _ _ _ _ Hread) as [p1 ->].
    apply Z.eqb_neq in Hco. rewrite Hco. cbn [negb].
    unfold for_loop. rewrite <- Hlen.
    destruct (children_loop oct obin (childrenOffset ofn) fuel cs 0%nat pa p1 q)
      as (p' & q' & E).
    { intros k c Hk pa' q0. cbn [Nat.add].
      apply (IH k c Hk). cbn [height] in Hfuel.
      pose proof (height_child cs k c Hk). lia. }
    exists p', q'.
    replace (leafPoints (OctNode pts cs)) with (flat_map leafPoints cs)
      by (destruct cs; [discriminate Hlen | reflexivity]).
    exact E.
Qed.

End OldFormatFacts.

Section ReimportTheorem.
Context {ST : ScalarType}.
Import Preprocessor.

Lemma File_read_ok (n : nat) (c : list byte) (p : Z) :
  0 <= p -> p + Z.of_nat n <= Z.of_nat (length c) ->
  File.read n (File.mk c p 0)
  = Ok (take n (drop (Z.to_nat p) c), File.mk c (p + Z.of_nat n) 0).
Proof.
  intros H0 H1. unfold File.read; simpl.
  destruct (Z.leb_spec 0 p); [|lia].
  destruct (Z.leb_spec (p + Z.of_nat n) (Z.of_nat (length c))); [|lia].
  reflexivity.
Qed.

Lemma File_read_bounds (n : nat) (c : list byte) (p : Z) r :
  File.read n (File.mk c p 0) = Ok r ->
  0 <= p /\ p + Z.of_nat n <= Z.of_nat (length c).
Proof.
  unfold File.read; simpl.
  destruct (Z.leb_spec 0 p); simpl; [|discriminate].
  destruct (Z.leb_spec (p + Z.of_nat n) (Z.of_nat (length c))); [|discriminate].
  intros _. lia.
Qed.

Lemma Represents_bounds (oct obin : list byte) (pos : Z) (t : Octree) :
  Represents oct obin pos t -> 0 <= pos /\ pos + 8 <= Z.of_nat (length oct).
Proof.
  assert (Hn : forall ofn f,
             OldLidarOctreeFileNode_read (File.mk oct pos 0) = Ok (ofn, f) ->
             0 <= pos /\ pos + 8 <= Z.of_nat (length oct)).
  { intros ofn f. unfold OldLidarOctreeFileNode_read, File.read_i64.
    destruct (File.read 8 (File.mk oct pos 0)) as [r|] eqn:E; [|discriminate].
    intros _. apply File_read_bounds in E. lia. }
  destruct 1; eauto.
Qed.

Lemma OldLidarOctreeFileHeader_read_ok (oct : list byte) :
  Z.of_nat OldLidarOctreeFileHeader_getSize <= Z.of_nat (length oct) ->
  exists ofh,
    OldLidarOctreeFileHeader_read (File.open oct)
    = Ok (ofh, File.mk oct (Z.of_nat OldLidarOctreeFileHeader_getSize) 0).
Proof.
  unfold OldLidarOctreeFileHeader_getSize, OldLidarOctreeFileHeader_read,
    File.read_u32, File.open. intros H.
  rewrite File_read_ok by lia. cbn [rbind].
  rewrite File_read_ok by lia. cbn [rbind].
  rewrite File_read_ok by lia. cbn [rbind].
  eexists. do 3 f_equal. lia.
Qed.

Lemma loadPointFileOctree_represents (oct obin : list byte) (t : Octree)
    (fuel : nat) (pa : PointAccumulator) :
  Represents oct obin (Z.of_nat OldLidarOctreeFileHeader_getSize) t ->
  (height t <= fuel)%nat ->
  loadPointFileOctree fuel pa oct obin = Ok (pa ++ map accumulated (leafPoints t)).
Proof.
  intros HR Hfuel. unfold loadPointFileOctree.
  destruct (OldLidarOctreeFileHeader_read_ok oct) as [ofh ->].
  { apply Represents_bounds in HR. lia. }
  cbn [rbind].
  destruct (readOctreeFileSubtree_represents _ _ _ _ HR fuel pa 0 Hfuel)
    as (p' & q' & E).
  unfold File.open. rewrite E. reflexivity.
Qed.

(** C3.  Re-importing an octree adds to the point accumulator exactly the
    points stored at its leaves, each once and in leaf order, and none of
    the points stored at interior nodes.  New format: the loader functor
    adds a leaf's points and nothing at an interior node, so the postfix
    traversal appends the leaf points.  Old format: a node record with a
    non-zero children offset makes the loader descend into the eight child
    records and add nothing of its own, one with a zero offset makes it add
    its [numPoints] stored points; over files that hold the octree [t] the
    load appends the leaf points of [t]. *)
Theorem reimport_adds_exactly_leaf_points :
  (forall (pts : list LidarPoint) (lvl : nat) (pa : PointAccumulator),
      LidarFileLoader_call (OctNode pts []) lvl pa = pa ++ map accumulated pts)
  /\ (forall (t : Octree) (lvl : nat) (pa : PointAccumulator),
         isLeaf t = false -> LidarFileLoader_call t lvl pa = pa)
  /\ (forall (t : Octree) (pa : PointAccumulator),
         loadLidarFile t pa = pa ++ map accumulated (leafPoints t))
  /\ (forall (oct obin : list byte) (t : Octree) (fuel : nat) (pa : PointAccumulator),
         Represents oct obin (Z.of_nat OldLidarOctreeFileHeader_getSize) t ->
         (height t <= fuel)%nat ->
         loadPointFileOctree fuel pa oct obin
         = Ok (pa ++ map accumulated (leafPoints t))).
Proof.
  split; [|split; [|split]].
  - apply LidarFileLoader_call_leaf.
  - intros [pts [|c cs]] lvl pa Hleaf; [discriminate Hleaf|].
    apply LidarFileLoader_call_interior.
  - intros t pa. apply processNodesPostfix_loader.
  - intros oct obin t fuel pa. apply loadPointFileOctree_represents.
Qed.

End ReimportTheorem.

(** *** A small old-format data set: a root with eight leaves *)

Module ReimportSample.
Import Preprocessor.

Definition pt (x y z : float) (r g b : byte) : LidarPoint :=
  mkLidarPoint (mkVec3 x y z) (mkRGBA r g b xff).

Definition pA : LidarPoint := pt 0.25 0.25 0.25 x10 x20 x30.
Definition pB : LidarPoint := pt 0.125 0.375 0.25 x11 x21 x31.
Definition pC : LidarPoint := pt 0.75 0.75 0.25 x12 x22 x32.

(** The root keeps a subsample (a copy of [pA]); children 0 and 3 hold the
    original points. *)
Definition tree : Octree :=
  OctNode [pA]
    [OctNode [pA; pB] []; OctNode [] []; OctNode [] []; OctNode [pC] [];
     OctNode [] []; OctNode [] []; OctNode [] []; OctNode [] []].

Definition nodeRecord (co : Z) (ds : float) (po : Z) (np : Z) : list byte :=
  LE.encode 8 co ++ Float64.encode ds ++ LE.encode 8 po ++ LE.encode 4 np.

Definition oct : list byte :=
  (* header: centre, radius, maximum number of points per node *)
  Float64.encode 0.5 ++ Float64.encode 0.5 ++ Float64.encode 0.5
  ++ Float64.encode 0.5 ++ LE.encode 4 2
  (* root record at byte 36, its children at byte 64 *)
  ++ nodeRecord 64 0.5 0 1
  ++ nodeRecord 0 0.25 28 2 ++ nodeRecord 0 0.25 0 0
  ++ nodeRecord 0 0.25 0 0 ++ nodeRecord 0 0.25 84 1
  ++ nodeRecord 0 0.25 0 0 ++ nodeRecord 0 0.25 0 0
  ++ nodeRecord 0 0.25 0 0 ++ nodeRecord 0 0.25 0 0.

Definition obin : list byte :=
  encodeLidarPoint pA ++ encodeLidarPoint pA ++ encodeLidarPoint pB
  ++ encodeLidarPoint pC.

Definition fileNode (co : Z) (ds : float) (po : Z) (np : Z) : OldLidarOctreeFileNode :=
  {| childrenOffset := co; detailSize := ds; numPoints := np; pointsOffset := po |}.

Lemma sample_leaf (pos po np : Z) (pts : list LidarPoint) :
  OldLidarOctreeFileNode_read (File.mk oct pos 0)
  = Ok (fileNode 0 0.25 po np, File.mk oct (pos + 28) 0) ->
  storedPoints obin (fileNode 0 0.25 po np) = Ok pts ->
  Represents oct obin pos (OctNode pts []).
Proof.
  intros Hread Hpts.
  exact (Represents_leaf oct obin pos _ _ pts Hread eq_refl Hpts).
Defined.

Lemma sample_represents : Represents oct obin 36 tree.
Proof.
  unfold tree.
  apply (Represents_interior oct obin 36 (fileNode 64 0.5 0 1) (File.mk oct 64 0)).
  - reflexivity.
  - discriminate.
  - reflexivity.
  - reflexivity.
  - intros i c Hi.
    destruct i as [|i]; [injection Hi as <-|].
    { apply (sample_leaf _ 28 2); reflexivity. }
    destruct i as [|i]; [injection Hi as <-|].
    { apply (sample_leaf _ 0 0); reflexivity. }
    destruct i as [|i]; [injection Hi as <-|].
    { apply (sample_leaf _ 0 0); reflexivity. }
    destruct i as [|i]; [injection Hi as <-|].
    { apply (sample_leaf _ 84 1); reflexivity. }
    do 4 (destruct i as [|i];
          [injection Hi as <-; apply (sample_leaf _ 0 0); reflexivity|]).
    discriminate Hi.
Defined.

End ReimportSample.

Lemma reimport_adds_exactly_leaf_points_witness :
  Preprocessor.loadPointFileOctree 2 [] ReimportSample.oct ReimportSample.obin
  = Ok (map Preprocessor.accumulated
          [ReimportSample.pA; ReimportSample.pB; ReimportSample.pC]).
Proof.
  apply (proj2 (proj2 (proj2 reimport_adds_exactly_leaf_points))
           ReimportSample.oct ReimportSample.obin ReimportSample.tree 2%nat []).
  - exact ReimportSample.sample_represents.
  - apply Nat.leb_le. reflexivity.
Defined.

Example reimport_sample_runs :
  Preprocessor.loadPointFileOctree 2 [] ReimportSample.oct ReimportSample.obin
  = Ok [ (mkVec3 0.25 0.25 0.25, mkRGBA x10 x20 x30 xff);
         (mkVec3 0.125 0.375 0.25, mkRGBA x11 x21 x31 xff);
         (mkVec3 0.75 0.75 0.25, mkRGBA x12 x22 x32 xff) ]%float.
Proof. reflexivity. Qed.

Example reimport_sample_truncated :
  Preprocessor.loadPointFileOctree 2 [] ReimportSample.oct (take 100 ReimportSample.obin)
  = Err ReadError.
Proof. reflexivity. Qed.

(** ** Facts about positioned writes *)

Lemma pwrite_prefix_length (pos : nat) (c : list byte) :
  length (take pos (c ++ replicate (pos - length c) x00)) = pos.
Proof. rewrite length_take, length_app, length_replicate. lia. Qed.

Lemma pwrite_length (pos : nat) (data c : list byte) :
  length (File.pwrite pos data c) = Nat.max (pos + length data) (length c).
Proof.
  unfold File.pwrite. rewrite !length_app, pwrite_prefix_length, length_drop. lia.
Qed.

Lemma pwrite_slice (pos : nat) (data c : list byte) :
  take (length data) (drop pos (File.pwrite pos data c)) = data.
Proof.
  unfold File.pwrite.
  rewrite drop_app_length' by (now rewrite pwrite_prefix_length).
  apply take_app_length.
Qed.

Lemma pwrite_lookup_before (pos : nat) (data c : list byte) (k : nat) :
  (k < pos)%nat -> (k < length c)%nat -> File.pwrite pos data c !! k = c !! k.
Proof.
  intros Hk Hc. unfold File.pwrite.
  rewrite lookup_app_l by (rewrite pwrite_prefix_length; lia).
  rewrite lookup_take_lt by lia. now rewrite lookup_app_l by lia.
Qed.

Lemma pwrite_lookup_after (pos : nat) (data c : list byte) (k : nat) :
  (pos + length data <= k)%nat -> File.pwrite pos data c !! k = c !! k.
Proof.
  intros Hk. unfold File.pwrite.
  rewrite lookup_app_r by (rewrite pwrite_prefix_length; lia).
  rewrite pwrite_prefix_length.
  rewrite lookup_app_r by lia.
  rewrite lookup_drop. f_equal. lia.
Qed.

Lemma File_read_content (n : nat) (f f' : File.t) (bs : list byte) :
  File.read n f = Ok (bs, f') -> File.content f' = File.content f.
Proof.
  unfold File.read. destruct (_ && _); [|discriminate].
  now intros [= _ <-].
Qed.

Lemma for_loop_from_ext {St : Type} (body1 body2 : nat -> St -> result exn St) :
  (forall i s, body1 i s = body2 i s) ->
  forall n i s, for_loop_from i n body1 s = for_loop_from i n body2 s.
Proof.
  intros Hext. induction n as [|n IH]; intros i s; cbn [for_loop_from].
  - reflexivity.
  - rewrite Hext. destruct (body2 i s); cbn [rbind]; [apply IH|reflexivity].
Qed.

Lemma for_loop_from_invariant {St : Type} (P : St -> Prop)
    (body : nat -> St -> result exn St) :
  (forall i s s', P s -> body i s = Ok s' -> P s') ->
  forall n i s s', P s -> for_loop_from i n body s = Ok s' -> P s'.
Proof.
  intros Hstep. induction n as [|n IH]; intros i s s' Hs; cbn [for_loop_from].
  - now intros [= <-].
  - destruct (body i s) as [s1|e] eqn:E; cbn [rbind]; [|discriminate].
    apply IH. eapply Hstep; eassumption.
Qed.

(** ** The node normal calculator (NormalCalculator.icpp) *)

(** Modelled from the spec: LidarDataFileHeader, whose declaration is not
    among the sources; the design document gives the normals file a header
    holding the record size, followed by the records. *)
Module LidarDataFileHeader.
Definition getFileSize : nat := 4.
Definition write (recordSize : Z) (f : File.t) : File.t := File.write_u32 recordSize f.
End LidarDataFileHeader.

Module NormalCalculator.
Section Calculator.
Context {ST : ScalarType}.

Definition Vector : Type := Vec3 Scalar.

(** What the calculator uses of a LidarProcessOctree::Node. *)
Variable Cube : Type.
Record Node := mkNode {
  getDomain : Cube;
  getDetailSize : Scalar;
  getDataOffset : N;
  getPoints : list LidarPoint;
  nodeIsLeaf : bool
}.
Definition nodeNumPoints (n : Node) : nat := length (getPoints n).

(** Library and template code the calculator is compiled against. *)
Variable sqrDist : Vec3 Scalar -> Vec3 Scalar -> Scalar.   (* Geometry::sqrDist *)
Variable isZero : Scalar -> bool.                          (* x==Scalar(0) *)
Variable findChild : Cube -> Vec3 Scalar -> nat.           (* Cube::findChild *)
(** The indices of a node's points that
    LidarProcessOctree::processNodePointsDirected hands to its functor, in
    order, for a query point and squared query radius. *)
Variable directedOrder : Node -> Vec3 Scalar -> Scalar -> list nat.
Variable zeroRadius2 : Scalar.                             (* Scalar(0) *)
(** The plane-fitting functor of calcThreadMethod and the averaging of
    subsampleThreadMethod (lines 243 to 258): floating-point accumulations
    whose values the statements below do not depend on. *)
Variable planeNormal : Node -> nat -> Vector.
Variable averagedNormal : Node -> (nat -> Node) -> (nat -> list Vector)
                          -> nat -> nat -> Vector -> Vector.

(** class FindPoint *)
Record FindPoint := mkFindPoint {
  queryPoint : Vec3 Scalar;
  foundPoint : option nat   (* the found point, as its index in the node's array *)
}.

Definition FindPoint_new (sQueryPoint : Vec3 Scalar) : FindPoint :=
  mkFindPoint sQueryPoint None.

(** FindPoint::operator() on the point [lp] stored at index [idx]. *)
Definition FindPoint_call (fp : FindPoint) (idx : nat) (lp : LidarPoint) : FindPoint :=
  if isZero (sqrDist (position lp) (queryPoint fp))
  then mkFindPoint (queryPoint fp) (Some idx)
  else fp.

Definition getQueryRadius2 (fp : FindPoint) : Scalar := zeroRadius2.

Definition processNodePointsDirected (node : Node) (fp : FindPoint) : FindPoint :=
  foldl (fun fp idx =>
           match getPoints node !! idx with
           | Some lp => FindPoint_call fp idx lp
           | None => fp
           end)
        fp (directedOrder node (queryPoint fp) (getQueryRadius2 fp)).

(** The first half of the body of the loop of subsampleThreadMethod: find
    the child holding the ancestor of point [i], the ancestor's index and
    its normal vector. *)
Definition findAncestor (currentNode : Node) (currentChildren : nat -> Node)
    (childNormalBuffers : nat -> list Vector) (zeroV : Vector) (i : nat)
  : result exn (nat * nat * Vector) :=
  match getPoints currentNode !! i with
  | None => Err ReadError (* not reached: [i] is below the number of points *)
  | Some p =>
      (* Find the child node containing this point's ancestor: *)
      let pointChildIndex := findChild (getDomain currentNode) (position p) in
      let pointChild := currentChildren pointChildIndex in
      (* Find the point's ancestor: *)
      let fp := processNodePointsDirected pointChild (FindPoint_new (position p)) in
      match foundPoint fp with
      | None =>
          Err (OctreeCorrupted (toDouble (vx (position p)))
                               (toDouble (vy (position p)))
                               (toDouble (vz (position p))))
      | Some j =>
          (* Retrieve the ancestor's normal vector: *)
          Ok (pointChildIndex, j, nth j (childNormalBuffers pointChildIndex) zeroV)
      end
  end.

(** The index range of a worker thread, in unsigned int arithmetic. *)
Definition firstI (threadIndex numThreads numPoints : Z) : Z :=
  ((threadIndex * numPoints) mod 2 ^ 32) / numThreads.
Definition lastI (threadIndex numThreads numPoints : Z) : Z :=
  (((threadIndex + 1) mod 2 ^ 32 * numPoints) mod 2 ^ 32) / numThreads.

Definition threadRange (threadIndex numThreads : nat) (numPoints : nat) : nat * nat :=
  let f := Z.to_nat (firstI (Z.of_nat threadIndex) (Z.of_nat numThreads) (Z.of_nat numPoints)) in
  let l := Z.to_nat (lastI (Z.of_nat threadIndex) (Z.of_nat numThreads) (Z.of_nat numPoints)) in
  (f, (l - f)%nat).

(** One job of calcThreadMethod (between its two barriers). *)
Definition calcJob (currentNode : Node) (numThreads threadIndex : nat)
    (normalBuffer : list Vector) : result exn (list Vector) :=
  let '(first, count) := threadRange threadIndex numThreads (nodeNumPoints currentNode) in
  for_loop_from first count
    (fun i buf => Ok (<[i := planeNormal currentNode i]> buf)) normalBuffer.

(** One job of subsampleThreadMethod (between its two barriers). *)
Definition subsampleJob (currentNode : Node) (currentChildren : nat -> Node)
    (childNormalBuffers : nat -> list Vector) (zeroV : Vector)
    (numThreads threadIndex : nat) (normalBuffer : list Vector)
  : result exn (list Vector) :=
  let '(first, count) := threadRange threadIndex numThreads (nodeNumPoints currentNode) in
  for_loop_from first count
    (fun i buf =>
       '(pointChildIndex, j, pointNormal) <-
          findAncestor currentNode currentChildren childNormalBuffers zeroV i ;;
       Ok (<[i := averagedNormal currentNode currentChildren childNormalBuffers
                    i pointChildIndex pointNormal]> buf))
    normalBuffer.

(** *** The calculator object and its normal file *)

Record Calculator := mkCalculator {
  normalBuffer : list Vector;
  normalDataSize : nat;
  normalFile : File.t;
  numThreads : nat;
  numProcessedNodes : nat
}.

Definition encodeNormals (ns : list Vector) : list byte :=
  concat (map encodeComponents ns).

Definition decodeNormals (n : nat) (bs : list byte) : list Vector :=
  map (fun k => decodeComponents (drop (k * (3 * sizeofScalar)) bs)) (seq 0 n).

(** The constructor: allocate the buffer, open the file, write its header. *)
Definition NodeNormalCalculator (maxNumPointsPerNode : nat) (zeroV : Vector)
    (file : list byte) (sNumThreads : nat) : Calculator :=
  let normalDataSize := (sizeofScalar * 3)%nat in
  let normalFile := File.open file in
  (* Write the normal file's header: *)
  let normalFile := LidarDataFileHeader.write (Z.of_nat normalDataSize) normalFile in
  mkCalculator (replicate maxNumPointsPerNode zeroV) normalDataSize normalFile
               sNumThreads 0.

(** Byte position of the records of a node with the given data offset. *)
Definition normalPos (c : Calculator) (dataOffset : N) : Z :=
  Z.of_nat LidarDataFileHeader.getFileSize + Z.of_nat (normalDataSize c) * Z.of_N dataOffset.

(** All worker threads run their job between the two barriers; they write
    disjoint entries of the buffer, so running them in turn gives the
    buffer the control thread sees after the second barrier. *)
Definition runThreads (job : nat -> list Vector -> result exn (list Vector))
    (n : nat) (buf : list Vector) : result exn (list Vector) :=
  for_loop n job buf.

(** NodeNormalCalculator::operator() *)
Definition operator_call (zeroV : Vector) (node : Node) (currentChildren : nat -> Node)
    (c : Calculator) : result exn Calculator :=
  '(buf, file) <-
    (if nodeIsLeaf node then
       buf <- runThreads (calcJob node (numThreads c)) (numThreads c) (normalBuffer c) ;;
       Ok (buf, normalFile c)
     else
       (* Get pointers to the node's children and load their normal vector
          arrays: *)
       '(bufs, file) <-
         for_loop 8
           (fun childIndex '(bufs, file) =>
              let child := currentChildren childIndex in
              if (0 <? nodeNumPoints child)%nat then
                let file := File.setReadPosAbs (normalPos c (getDataOffset child)) file in
                '(bs, file) <- File.read (nodeNumPoints child * normalDataSize c) file ;;
                Ok (<[childIndex := decodeNormals (nodeNumPoints child) bs]> bufs, file)
              else Ok (bufs, file))
           (replicate 8 [], normalFile c) ;;
       let childNormalBuffers := fun k => nth k bufs [] in
       buf <- runThreads
                (subsampleJob node currentChildren childNormalBuffers zeroV (numThreads c))
                (numThreads c) (normalBuffer c) ;;
       Ok (buf, file)) ;;
  (* Write the node's normal vectors to the normal file: *)
  let file := File.setWritePosAbs (normalPos c (getDataOffset node)) file in
  let file := File.write (encodeNormals (take (nodeNumPoints node) buf)) file in
  (* Update the progress counter: *)
  Ok (mkCalculator buf (normalDataSize c) file (numThreads c) (S (numProcessedNodes c))).

(** *** Facts about the ancestor search *)

Lemma for_loop_from_guarded {R : Type} (g : nat -> result exn R)
    (h : nat -> R -> list Vector -> list Vector)
    (body : nat -> list Vector -> result exn (list Vector)) :
  (forall i b, body i b = (r <- g i ;; Ok (h i r b))) ->
  forall (count first : nat) (buf : list Vector),
    match for_loop_from first count body buf with
    | Ok _ => forall i, (first <= i < first + count)%nat -> exists r, g i = Ok r
    | Err e => exists i, (first <= i < first + count)%nat /\ g i = Err e
    end.
Proof.
  intros Hbody.
  induction count as [|count IH]; intros first buf; cbn [for_loop_from].
  - intros i Hi. lia.
  - rewrite Hbody. destruct (g first) as [r|e] eqn:Eg; cbn [rbind].
    + specialize (IH (S first) (h first r buf)).
      destruct (for_loop_from (S first) count _ _) as [b|e].
      * intros i Hi. destruct (decide (i = first)) as [->|Hne]; [eauto|].
        apply IH. lia.
      * destruct IH as (i & Hi & Ei). exists i. split; [lia|assumption].
    + exists first. split; [lia|assumption].
Qed.

Lemma FindPoint_fold (node : Node) (q : Vec3 Scalar) :
  forall (l : list nat) (fp0 : FindPoint),
    queryPoint fp0 = q ->
    let fp := foldl (fun fp idx =>
                       match getPoints node !! idx with
                       | Some lp => FindPoint_call fp idx lp
                       | None => fp
                       end) fp0 l in
    queryPoint fp = q
    /\ match foundPoint fp with
       | Some j =>
           foundPoint fp0 = Some j
           \/ (In j l /\ exists lp, getPoints node !! j = Some lp
                                   /\ isZero (sqrDist (position lp) q) = true)
       | None =>
           foundPoint fp0 = None
           /\ forall idx lp, In idx l -> getPoints node !! idx = Some lp ->
                             isZero (sqrDist (position lp) q) = false
       end.
Proof.
  induction l as [|idx l IH]; intros fp0 Hq; cbn [foldl].
  - split; [assumption|]. destruct (foundPoint fp0); [now left|].
    split; [reflexivity|]. intros ? ? [].
  - set (fp1 := match getPoints node !! idx with
                | Some lp => FindPoint_call fp0 idx lp
                | None => fp0
                end).
    assert (Hq1 : queryPoint fp1 = q).
    { unfold fp1. destruct (getPoints node !! idx) as [lp|]; [|assumption].
      unfold FindPoint_call. destruct (isZero _); assumption. }
    destruct (IH fp1 Hq1) as [Hq' Hf]. split; [assumption|].
    destruct (foundPoint (foldl _ fp1 l)) as [j|].
    + destruct Hf as [Hf|(Hin & lp & Hlp & Hz)].
      * unfold fp1 in Hf. destruct (getPoints node !! idx) as [lp|] eqn:El; [|now left].
        unfold FindPoint_call in Hf. rewrite Hq in Hf.
        destruct (isZero (sqrDist (position lp) q)) eqn:Ez; [|now left].
        injection Hf as <-. right. split; [now left|]. eauto.
      * right. split; [now right|]. eauto.
    + destruct Hf as [Hf Hall]. unfold fp1 in Hf.
      destruct (getPoints node !! idx) as [lp|] eqn:El.
      * unfold FindPoint_call in Hf. rewrite Hq in Hf.
        destruct (isZero (sqrDist (position lp) q)) eqn:Ez; [discriminate Hf|].
        split; [assumption|]. intros k lk [<-|Hk] Hlk.
        -- rewrite El in Hlk. injection Hlk as <-. assumption.
        -- eapply Hall; eassumption.
      * split; [assumption|]. intros k lk [<-|Hk] Hlk.
        -- rewrite El in Hlk. discriminate Hlk.
        -- eapply Hall; eassumption.
Qed.

Lemma findAncestor_spec (node : Node) (children : nat -> Node)
    (bufs : nat -> list Vector) (zeroV : Vector) (i : nat) (p : LidarPoint) :
  getPoints node !! i = Some p ->
  let ci := findChild (getDomain node) (position p) in
  match findAncestor node children bufs zeroV i with
  | Ok (ci', j, n) =>
      ci' = ci /\ n = nth j (bufs ci) zeroV
      /\ exists lp, getPoints (children ci) !! j = Some lp
                    /\ isZero (sqrDist (position lp) (position p)) = true
  | Err e =>
      e = OctreeCorrupted (toDouble (vx (position p))) (toDouble (vy (position p)))
                          (toDouble (vz (position p)))
      /\ forall idx lp,
           In idx (directedOrder (children ci) (position p) zeroRadius2) ->
           getPoints (children ci) !! idx = Some lp ->
           isZero (sqrDist (position lp) (position p)) = false
  end.
Proof.
  intros Hp ci. unfold findAncestor. rewrite Hp. fold ci.
  unfold processNodePointsDirected, getQueryRadius2.
  destruct (FindPoint_fold (children ci) (position p)
              (directedOrder (children ci) (position p) zeroRadius2)
              (FindPoint_new (position p)) eq_refl) as [_ Hf].
  cbn [queryPoint FindPoint_new] in *.
  destruct (foundPoint _) as [j|].
  - destruct Hf as [Hf|(_ & lp & Hlp & Hz)]; [discriminate Hf|].
    repeat split; eauto.
  - destruct Hf as [_ Hall]. split; [reflexivity|exact Hall].
Qed.

Lemma threadRange_cover (T n i : nat) :
  (0 < T)%nat -> Z.of_nat T * Z.of_nat n < 2 ^ 32 -> (i < n)%nat ->
  exists t, (t < T)%nat
            /\ (fst (threadRange t T n) <= i
                < fst (threadRange t T n) + snd (threadRange t T n))%nat.
Proof.
  intros HT Hov Hi.
  change (2 ^ 32) with 4294967296 in *.
  set (t := ((Z.of_nat i + 1) * Z.of_nat T - 1) / Z.of_nat n).
  assert (Hn : 0 < Z.of_nat n) by lia.
  assert (HT32 : Z.of_nat T < 4294967296) by nia.
  assert (Ht : Z.of_nat n * t <= (Z.of_nat i + 1) * Z.of_nat T - 1
               < Z.of_nat n * t + Z.of_nat n).
  { unfold t. pose proof (Z.mul_div_le ((Z.of_nat i + 1) * Z.of_nat T - 1) _ Hn).
    pose proof (Z.mul_succ_div_gt ((Z.of_nat i + 1) * Z.of_nat T - 1) _ Hn). lia. }
  assert (Ht0 : 0 <= t) by (unfold t; apply Z.div_pos; nia).
  assert (HtT : t < Z.of_nat T) by nia.
  exists (Z.to_nat t). split; [lia|].
  unfold threadRange, firstI, lastI. cbn [fst snd].
  rewrite Z2Nat.id by lia.
  rewrite (Z.mod_small (t * Z.of_nat n)) by nia.
  rewrite (Z.mod_small (t + 1)) by lia.
  rewrite (Z.mod_small ((t + 1) * Z.of_nat n)) by nia.
  assert (H1 : t * Z.of_nat n / Z.of_nat T < Z.of_nat i + 1)
    by (apply Z.div_lt_upper_bound; nia).
  assert (H2 : Z.of_nat i + 1 <= (t + 1) * Z.of_nat n / Z.of_nat T)
    by (apply Z.div_le_lower_bound; nia).
  assert (H3 : 0 <= t * Z.of_nat n / Z.of_nat T) by (apply Z.div_pos; nia).
  lia.
Qed.

(** C1.  In the subsampling phase, for a point [p] stored at index [i] of
    an interior node the calculator searches the child selected by
    [findChild] for the point; a found ancestor is a point of that child at
    squared distance exactly zero, and when no point of the child is at
    squared distance zero the search raises "Octree file corrupted around
    position" with the coordinates of [p]: no nearest point stands in.  A
    worker's job fails with the error of one of the points of its range and
    succeeds only when every point of its range found its ancestor; without
    unsigned overflow the ranges of the workers cover every point. *)
Theorem subsample_exact_ancestor_or_error
    (node : Node) (children : nat -> Node) (bufs : nat -> list Vector)
    (zeroV : Vector) :
  (forall (i : nat) (p : LidarPoint),
      getPoints node !! i = Some p ->
      let child := children (findChild (getDomain node) (position p)) in
      let corrupted :=
        OctreeCorrupted (toDouble (vx (position p))) (toDouble (vy (position p)))
                        (toDouble (vz (position p))) in
      match findAncestor node children bufs zeroV i with
      | Ok (ci, j, n) =>
          ci = findChild (getDomain node) (position p)
          /\ n = nth j (bufs ci) zeroV
          /\ exists lp, getPoints child !! j = Some lp
                        /\ isZero (sqrDist (position lp) (position p)) = true
      | Err e => e = corrupted
      end
      /\ ((forall lp, In lp (getPoints child) ->
                      isZero (sqrDist (position lp) (position p)) = false) ->
          findAncestor node children bufs zeroV i = Err corrupted))
  /\ (forall (T t : nat) (buf : list Vector),
         match subsampleJob node children bufs zeroV T t buf with
         | Ok _ =>
             forall i, (fst (threadRange t T (nodeNumPoints node)) <= i
                        < fst (threadRange t T (nodeNumPoints node))
                          + snd (threadRange t T (nodeNumPoints node)))%nat ->
                       exists r, findAncestor node children bufs zeroV i = Ok r
         | Err e =>
             exists i, (fst (threadRange t T (nodeNumPoints node)) <= i
                        < fst (threadRange t T (nodeNumPoints node))
                          + snd (threadRange t T (nodeNumPoints node)))%nat
                       /\ findAncestor node children bufs zeroV i = Err e
         end)
  /\ (forall (T i : nat),
         (0 < T)%nat -> Z.of_nat T * Z.of_nat (nodeNumPoints node) < 2 ^ 32 ->
         (i < nodeNumPoints node)%nat ->
         exists t, (t < T)%nat
                   /\ (fst (threadRange t T (nodeNumPoints node)) <= i
                       < fst (threadRange t T (nodeNumPoints node))
                         + snd (threadRange t T (nodeNumPoints node)))%nat).
Proof.
  split; [|split].
  - intros i p Hp child corrupted.
    pose proof (findAncestor_spec node children bufs zeroV i p Hp) as H.
    cbn zeta in H. split.
    + destruct (findAncestor node children bufs zeroV i) as [[[ci j] n]|e].
      * destruct H as (-> & -> & H). auto.
      * apply H.
    + intros Hnone.
      destruct (findAncestor node children bufs zeroV i) as [[[ci j] n]|e].
      * destruct H as (_ & _ & lp & Hlp & Hz).
        apply list_elem_of_lookup_2, list_elem_of_In in Hlp.
        rewrite (Hnone lp Hlp) in Hz. discriminate Hz.
      * destruct H as [-> _]. reflexivity.
  - intros T t buf. unfold subsampleJob.
    destruct (threadRange t T (nodeNumPoints node)) as [first count]. cbn [fst snd].
    apply (for_loop_from_guarded
             (findAncestor node children bufs zeroV)
             (fun i '(pointChildIndex, j, pointNormal) b =>
                <[i := averagedNormal node children bufs i pointChildIndex pointNormal]> b)).
    intros i b. destruct (findAncestor node children bufs zeroV i) as [[[ci j] n]|e];
      reflexivity.
  - intros T i. apply threadRange_cover.
Qed.

(** *** Facts about the normal file *)

Lemma encodeComponents_length (v : Vector) :
  length (encodeComponents v) = (sizeofScalar * 3)%nat.
Proof.
  unfold encodeComponents. rewrite !length_app, !encodeScalar_length. lia.
Qed.

Lemma encodeNormals_length (ns : list Vector) :
  length (encodeNormals ns) = (length ns * (sizeofScalar * 3))%nat.
Proof.
  unfold encodeNormals. induction ns as [|v ns IH]; cbn [map concat length].
  - reflexivity.
  - rewrite length_app, encodeComponents_length, IH. lia.
Qed.

Lemma encodeNormals_record (ns : list Vector) (k : nat) (v : Vector) :
  ns !! k = Some v ->
  take (sizeofScalar * 3) (drop (k * (sizeofScalar * 3)) (encodeNormals ns))
  = encodeComponents v.
Proof.
  unfold encodeNormals. revert k; induction ns as [|w ns IH]; intros k Hk.
  - discriminate Hk.
  - cbn [map concat]. destruct k as [|k].
    + injection Hk as ->. cbn [Nat.mul drop].
      apply take_app_length'. now rewrite encodeComponents_length.
    + cbn [Nat.mul].
      rewrite drop_app_ge by (rewrite encodeComponents_length; lia).
      rewrite encodeComponents_length.
      replace (sizeofScalar * 3 + k * (sizeofScalar * 3) - sizeofScalar * 3)%nat
        with (k * (sizeofScalar * 3))%nat by lia.
      apply IH. exact Hk.
Qed.

Lemma insert_job_length (L : nat) (g : nat -> result exn Vector) :
  forall n i (b b' : list Vector),
    length b = L ->
    for_loop_from i n (fun i buf => v <- g i ;; Ok (<[i := v]> buf)) b = Ok b' ->
    length b' = L.
Proof.
  apply (for_loop_from_invariant (fun b : list Vector => length b = L)).
  intros i b b' Hb. destruct (g i) as [v|e]; cbn [rbind]; [|discriminate].
  intros [= <-]. now rewrite length_insert.
Qed.

Lemma calcJob_length (node : Node) (T t : nat) (b b' : list Vector) :
  calcJob node T t b = Ok b' -> length b' = length b.
Proof.
  unfold calcJob. destruct (threadRange t T (nodeNumPoints node)) as [first count].
  apply (insert_job_length (length b) (fun i => Ok (planeNormal node i))).
  reflexivity.
Qed.

Lemma subsampleJob_length (node : Node) (children : nat -> Node)
    (bufs : nat -> list Vector) (zeroV : Vector) (T t : nat) (b b' : list Vector) :
  subsampleJob node children bufs zeroV T t b = Ok b' -> length b' = length b.
Proof.
  unfold subsampleJob. destruct (threadRange t T (nodeNumPoints node)) as [first count].
  intros H.
  apply (insert_job_length (length b)
           (fun i => '(ci, j, n) <- findAncestor node children bufs zeroV i ;;
                     Ok (averagedNormal node children bufs i ci n))
           count first b b' eq_refl).
  rewrite <- H. apply for_loop_from_ext.
  intros i s. destruct (findAncestor node children bufs zeroV i) as [[[ci j] n]|e];
    reflexivity.
Qed.

Lemma runThreads_length (job : nat -> list Vector -> result exn (list Vector))
    (n : nat) (b b' : list Vector) :
  (forall t x x', job t x = Ok x' -> length x' = length x) ->
  runThreads job n b = Ok b' -> length b' = length b.
Proof.
  intros Hjob. unfold runThreads, for_loop.
  apply (for_loop_from_invariant (fun x : list Vector => length x = length b));
    [|reflexivity].
  intros t x x' Hx E. rewrite (Hjob t x x' E). exact Hx.
Qed.

Lemma operator_call_inv (zeroV : Vector) (node : Node) (children : nat -> Node)
    (c c' : Calculator) :
  operator_call zeroV node children c = Ok c' ->
  exists (buf : list Vector) (file : File.t),
    length buf = length (normalBuffer c)
    /\ File.content file = File.content (normalFile c)
    /\ c' = mkCalculator buf (normalDataSize c)
              (File.write (encodeNormals (take (nodeNumPoints node) buf))
                 (File.setWritePosAbs (normalPos c (getDataOffset node)) file))
              (numThreads c) (S (numProcessedNodes c)).
Proof.
  unfold operator_call. destruct (nodeIsLeaf node).
  - destruct (runThreads _ _ _) as [buf|e] eqn:E; cbn [rbind]; [|discriminate].
    intros [= <-]. exists buf, (normalFile c). repeat split.
    eapply runThreads_length; [|exact E].
    intros t x x'. apply calcJob_length.
  - destruct (for_loop 8 _ _) as [[bufs file]|e] eqn:Eload; cbn [rbind]; [|discriminate].
    destruct (runThreads _ _ _) as [buf|e] eqn:E; cbn [rbind]; [|discriminate].
    intros [= <-]. exists buf, file. repeat split.
    + eapply runThreads_length; [|exact E].
      intros t x x'. apply subsampleJob_length.
    + unfold for_loop in Eload.
      apply (for_loop_from_invariant
               (fun s : list (list Vector) * File.t =>
                  File.content (snd s) = File.content (normalFile c))
               _) in Eload; [exact Eload| |reflexivity].
      intros i [bs f] [bs' f'] Hf. cbn [snd] in *.
      destruct (0 <? nodeNumPoints (children i))%nat.
      * destruct (File.read _ _) as [[r g]|e] eqn:Er; cbn [rbind]; [|discriminate].
        intros [= _ <-]. apply File_read_content in Er. rewrite Er. exact Hf.
      * intros [= _ <-]. exact Hf.
Qed.

(** C2.  The normal file starts with a data header holding the record size
    (three scalars), and processing a node writes the first
    [getNumPoints] normal vectors of the buffer as that many consecutive
    records starting at byte [headerSize + recordSize * dataOffset]: the
    [k]-th record of the node is the [k]-th normal, and no byte of the file
    outside that range changes. *)
Theorem normals_written_at_node_offset :
  (forall (maxNumPointsPerNode : nat) (zeroV : Vector) (file : list byte) (T : nat),
      let c0 := NodeNormalCalculator maxNumPointsPerNode zeroV file T in
      take LidarDataFileHeader.getFileSize (File.content (normalFile c0))
      = LE.encode 4 (Z.of_nat (sizeofScalar * 3))
      /\ normalDataSize c0 = (sizeofScalar * 3)%nat
      /\ length (normalBuffer c0) = maxNumPointsPerNode)
  /\ (forall (zeroV : Vector) (node : Node) (children : nat -> Node)
             (c c' : Calculator),
         normalDataSize c = (sizeofScalar * 3)%nat ->
         (nodeNumPoints node <= length (normalBuffer c))%nat ->
         operator_call zeroV node children c = Ok c' ->
         let recordSize := normalDataSize c in
         let pos := (LidarDataFileHeader.getFileSize
                     + recordSize * N.to_nat (getDataOffset node))%nat in
         let old := File.content (normalFile c) in
         let new := File.content (normalFile c') in
         let normals := take (nodeNumPoints node) (normalBuffer c') in
         length normals = nodeNumPoints node
         /\ take (nodeNumPoints node * recordSize) (drop pos new) = encodeNormals normals
         /\ (forall (k : nat) (v : Vector),
                normals !! k = Some v ->
                take recordSize (drop (pos + k * recordSize) new) = encodeComponents v)
         /\ (forall k : nat,
                (k < pos \/ pos + nodeNumPoints node * recordSize <= k)%nat ->
                (k < length old)%nat -> new !! k = old !! k)
         /\ normalDataSize c' = recordSize
         /\ length (normalBuffer c') = length (normalBuffer c)).
Proof.
  split.
  - intros maxN zeroV file T c0. unfold c0, NodeNormalCalculator.
    cbn [normalFile normalDataSize normalBuffer].
    split; [|split; [reflexivity|apply length_replicate]].
    unfold LidarDataFileHeader.write, LidarDataFileHeader.getFileSize, File.write_u32,
      File.write, File.open. cbn [File.content File.writePos Z.to_nat].
    pose proof (pwrite_slice 0 (LE.encode 4 (Z.of_nat (sizeofScalar * 3))) file) as H.
    rewrite encode_length in H. exact H.
  - intros zeroV node children c c' Hrs Hbuf Hcall recordSize pos old new normals.
    destruct (operator_call_inv _ _ _ _ _ Hcall) as (buf & file & Hlen & Hcont & ->).
    subst normals new old. cbn [normalBuffer normalFile normalDataSize].
    unfold File.write, File.setWritePosAbs. cbn [File.content File.writePos].
    rewrite Hcont.
    assert (Hpos : Z.to_nat (normalPos c (getDataOffset node)) = pos).
    { unfold normalPos, pos, recordSize. lia. }
    rewrite Hpos.
    set (data := encodeNormals (take (nodeNumPoints node) buf)).
    assert (Hn : length (take (nodeNumPoints node) buf) = nodeNumPoints node)
      by (apply length_take_le; lia).
    assert (Hdata : length data = (nodeNumPoints node * recordSize)%nat).
    { unfold data, recordSize. rewrite encodeNormals_length, Hn, Hrs. reflexivity. }
    split; [exact Hn|]. split; [|split; [|split; [|split]]].
    + rewrite <- Hdata. apply pwrite_slice.
    + intros k v Hk.
      assert (Hkn : (k < nodeNumPoints node)%nat).
      { rewrite <- Hn. apply lookup_lt_is_Some. eauto. }
      rewrite <- drop_drop.
      rewrite take_drop_commute.
      replace (take (k * recordSize + recordSize)
                 (drop pos (File.pwrite pos data (File.content (normalFile c)))))
        with (take (k * recordSize + recordSize) data).
      * rewrite <- take_drop_commute. unfold recordSize. rewrite Hrs.
        apply encodeNormals_record. exact Hk.
      * rewrite <- (pwrite_slice pos data (File.content (normalFile c))) at 1.
        rewrite take_take. f_equal. rewrite Hdata. nia.
    + intros k [Hk|Hk] Hold.
      * now apply pwrite_lookup_before.
      * apply pwrite_lookup_after. rewrite Hdata. exact Hk.
    + reflexivity.
    + exact Hlen.
Qed.

End Calculator.
End NormalCalculator.

(** *** A concrete calculator: double-precision points, exhaustive search *)

Module NormalSample.
Import NormalCalculator.

Definition sqrDist (p q : Vec3 float) : float :=
  ((vx p - vx q) * (vx p - vx q) + (vy p - vy q) * (vy p - vy q)
   + (vz p - vz q) * (vz p - vz q))%float.
Definition isZero (x : float) : bool := PrimFloat.eqb x 0.
(** The child of the unit cube holding a point, by the x coordinate only. *)
Definition findChild (_ : unit) (p : Vec3 float) : nat :=
  if PrimFloat.ltb (vx p) 0.5 then 0%nat else 1%nat.
Definition directedOrder (n : Node unit) (_ : Vec3 float) (_ : float) : list nat :=
  seq 0 (length (getPoints unit n)).
Definition planeNormal (_ : Node unit) (i : nat) : Vec3 float :=
  mkVec3 0%float 0%float (PrimFloat.of_uint63 (Uint63.of_Z (Z.of_nat i + 1))).
Definition averagedNormal (_ : Node unit) (_ : nat -> Node unit)
    (_ : nat -> list (Vec3 float)) (_ _ : nat) (pointNormal : Vec3 float) : Vec3 float :=
  pointNormal.

Definition zeroV : Vec3 float := mkVec3 0%float 0%float 0%float.

Definition pt (x y z : float) : LidarPoint :=
  mkLidarPoint (mkVec3 x y z) (mkRGBA x80 x80 x80 xff).

Definition leaf0 : Node unit :=
  mkNode unit tt 0.25%float 3 [pt 0.25 0.25 0.25; pt 0.125 0.375 0.25] true.
Definition leaf1 : Node unit :=
  mkNode unit tt 0.25%float 5 [pt 0.75 0.5 0.25] true.
Definition empty : Node unit := mkNode unit tt 0.25%float 6 [] true.

(** An interior node whose first point is a point of child 0 and whose
    second point is a near miss of the only point of child 1. *)
Definition interior : Node unit :=
  mkNode unit tt 0.5%float 0 [pt 0.25 0.25 0.25; pt 0.75 0.5 0.2500001] false.

Definition children (k : nat) : Node unit :=
  match k with
  | 0%nat => leaf0
  | 1%nat => leaf1
  | _ => empty
  end.

Definition childNormals (k : nat) : list (Vec3 float) :=
  match k with
  | 0%nat => [mkVec3 0 0 1; mkVec3 0 1 0]%float
  | 1%nat => [mkVec3 1 0 0]%float
  | _ => []
  end.

Definition find (n : Node unit) (i : nat) : result exn (nat * nat * Vec3 float) :=
  findAncestor unit sqrDist isZero findChild directedOrder 0%float
    n children childNormals zeroV i.

Example ancestor_found : find interior 0 = Ok (0%nat, 0%nat, mkVec3 0 0 1)%float.
Proof. reflexivity. Qed.

Example near_miss_is_an_error :
  find interior 1 = Err (OctreeCorrupted 0.75 0.5 0.2500001).
Proof. reflexivity. Qed.

Definition calculator0 : Calculator := NodeNormalCalculator 4 zeroV [] 2.

Definition run (n : Node unit) (c : Calculator) : result exn Calculator :=
  operator_call unit sqrDist isZero findChild directedOrder 0%float
    planeNormal averagedNormal zeroV n children c.

Definition calculator1 : Calculator :=
  match run leaf0 calculator0 with
  | Ok c => c
  | Err _ => calculator0
  end.

Example leaf0_runs : run leaf0 calculator0 = Ok calculator1.
Proof. reflexivity. Qed.

Example leaf0_file_length :
  length (File.content (normalFile calculator1)) = (4 + 24 * 3 + 2 * 24)%nat.
Proof. reflexivity. Qed.

End NormalSample.

Lemma subsample_exact_ancestor_or_error_witness :
  NormalSample.find NormalSample.interior 1
  = Err (OctreeCorrupted 0.75 0.5 0.2500001).
Proof.
  apply (proj2 (proj1 (NormalCalculator.subsample_exact_ancestor_or_error
                         (ST := Float64Scalar) unit NormalSample.sqrDist NormalSample.isZero
                         NormalSample.findChild NormalSample.directedOrder 0%float
                         NormalSample.averagedNormal NormalSample.interior
                         NormalSample.children NormalSample.childNormals
                         NormalSample.zeroV)
                  1%nat (NormalSample.pt 0.75 0.5 0.2500001) eq_refl)).
  intros lp [<-|[]]. reflexivity.
Defined.

Lemma normals_written_at_node_offset_witness :
  take (2 * 24)
       (drop (4 + 24 * 3) (File.content (NormalCalculator.normalFile NormalSample.calculator1)))
  = NormalCalculator.encodeNormals [mkVec3 0 0 1; mkVec3 0 0 2]%float.
Proof.
  exact (proj1 (proj2 (proj2 (NormalCalculator.normals_written_at_node_offset
                         (ST := Float64Scalar) unit NormalSample.sqrDist NormalSample.isZero
                         NormalSample.findChild NormalSample.directedOrder 0%float
                         NormalSample.planeNormal NormalSample.averagedNormal)
                  NormalSample.zeroV NormalSample.leaf0 NormalSample.children
                  NormalSample.calculator0 NormalSample.calculator1
                  eq_refl (le_S _ _ (le_S _ _ (le_n 2))) NormalSample.leaf0_runs))).
Defined.

(** ** The offset file (LidarPreprocessor.cpp, end of main) *)

Module OffsetFile.

(** Geometry::Vector::operator!=: some component differs (IEEE comparison,
    so [-0] equals [0] and a NaN differs from everything). *)
Definition Vector_neq (u v : Vec3 float) : bool :=
  negb (PrimFloat.eqb (vx u) (vx v))
  || negb (PrimFloat.eqb (vy u) (vy v))
  || negb (PrimFloat.eqb (vz u) (vz v)).

Definition Vector_zero : Vec3 float := mkVec3 0%float 0%float 0%float.

(** The last step of the preprocessor's main: [None] when no file is
    written, else the contents of <output>/Offset. *)
Definition writeOffsetFile (pointOffset : Vec3 float) : option (list byte) :=
  (* Check if a point offset was defined: *)
  if Vector_neq pointOffset Vector_zero then
    (* Write the point offsets to an offset file: *)
    let offsetFile := File.open [] in
    let offsetFile := File.write_f64 (vx pointOffset) offsetFile in
    let offsetFile := File.write_f64 (vy pointOffset) offsetFile in
    let offsetFile := File.write_f64 (vz pointOffset) offsetFile in
    Some (File.content offsetFile)
  else None.

End OffsetFile.

(** ** The exporter (LidarExporter.cpp) *)

Module Exporter.
Section Savers.
Context {ST : ScalarType}.

(** Box: an axis-aligned box in stored (LiDAR) coordinates. *)
Record Box := mkBox { bmin : Vec3 Scalar; bmax : Vec3 Scalar }.

(** What the exporter uses of a LidarProcessOctree: the data set's offset
    vector, the centre of its domain, and the points its two traversals hand
    to a functor, in order. *)
Record LidarProcessOctree := mkLpo {
  getOffset : Vec3 float;
  getDomainCenter : Vec3 Scalar;
  processPoints : list LidarPoint;
  processPointsInBox : Box -> list LidarPoint
}.

Definition double3 (p : LidarPoint) : Vec3 float := Vec3_map toDouble (position p).

(** *** PointSaver: one text line per point *)

(** The arguments of
    [fprintf(file,"%.12g %.12g %.12g %u %u %u\n",pos[0],pos[1],pos[2],r,g,b)];
    the decimal rendering itself is not modelled. *)
Record AsciiLine := mkAsciiLine { linePos : Vec3 float; lineRGB : byte * byte * byte }.

Record PointSaver := mkPointSaver {
  ps_offset : Vec3 float;
  ps_resultFile : list AsciiLine;
  ps_numPoints : nat
}.

Definition PointSaver_new (sOffset : Vec3 float) : PointSaver := mkPointSaver sOffset [] 0.

Definition PointSaver_call (ps : PointSaver) (point : LidarPoint) : PointSaver :=
  let pos := Vec3_zip PrimFloat.add (double3 point) (ps_offset ps) in
  mkPointSaver (ps_offset ps)
    (ps_resultFile ps
     ++ [mkAsciiLine pos (red (value point), green (value point), blue (value point))])
    (S (ps_numPoints ps)).

(** *** BinaryPointSaver *)

Record BinaryPointSaver := mkBinaryPointSaver {
  bps_resultFile : File.t;
  bps_numPoints : nat
}.

Definition BinaryPointSaver_new (offset : Vec3 float) : BinaryPointSaver :=
  let resultFile := File.open [] in
  (* Write the point offset vector: *)
  let resultFile := File.write_f64 (vx offset) resultFile in
  let resultFile := File.write_f64 (vy offset) resultFile in
  let resultFile := File.write_f64 (vz offset) resultFile in
  (* Write the initial number of points: *)
  let resultFile := File.write_u32 0 resultFile in
  mkBinaryPointSaver resultFile 0.

Definition BinaryPointSaver_call (ps : BinaryPointSaver) (point : LidarPoint)
  : BinaryPointSaver :=
  (* Write the point: *)
  let resultFile := File.write (encodeComponents (position point)) (bps_resultFile ps) in
  let resultFile := File.write (RGBA_bytes (value point)) resultFile in
  (* Update the file header: *)
  mkBinaryPointSaver resultFile (S (bps_numPoints ps)).

(** The destructor: write the final number of points. *)
Definition BinaryPointSaver_delete (ps : BinaryPointSaver) : list byte :=
  let resultFile := File.setWritePosAbs (3 * 8) (bps_resultFile ps) in
  let resultFile := File.write_u32 (Z.of_nat (bps_numPoints ps)) resultFile in
  File.content resultFile.

(** *** LasPointSaver *)

(** Math::Constants<double>::max and ::min, from the Math library. *)
Variable Constants_max Constants_min : float.

Record LasPointSaver := mkLasPointSaver {
  lasFile : File.t;
  lpoOffset : Vec3 float;
  las_scale : Vec3 float;
  las_offset : Vec3 float;
  las_min : Vec3 float;
  las_max : Vec3 float;
  las_numPoints : nat
}.

Definition write_u8 (z : Z) : File.t -> File.t := File.write (LE.encode 1 z).
Definition write_u16 (z : Z) : File.t -> File.t := File.write (LE.encode 2 z).
Definition write_f64_3 (v : Vec3 float) (f : File.t) : File.t :=
  File.write_f64 (vz v) (File.write_f64 (vy v) (File.write_f64 (vx v) f)).

Definition LasPointSaver_new (sLpoOffset sScale sOffset : Vec3 float) : LasPointSaver :=
  let min := mkVec3 Constants_max Constants_max Constants_max in
  let max := mkVec3 Constants_min Constants_min Constants_min in
  (* Create the initial LAS file header: *)
  let f := File.open [] in
  let f := File.write (list_byte_of_string "LASF") f in   (* LAS signature *)
  let f := write_u16 0 f in                               (* File source ID *)
  let f := write_u16 0 f in                               (* Reserved field *)
  let f := File.write_u32 0 f in                          (* Project ID *)
  let f := write_u16 0 f in                               (* Project ID *)
  let f := write_u16 0 f in                               (* Project ID *)
  let f := File.write (replicate 8 x00) f in              (* Project ID *)
  let f := write_u8 1 f in                                (* File version number *)
  let f := write_u8 2 f in                                (* File version number *)
  let f := File.write (replicate 32 x00) f in             (* System identifier *)
  let f := File.write (replicate 32 x00) f in             (* Generating software *)
  let f := write_u16 1 f in                               (* File creation day of year *)
  let f := write_u16 2011 f in                            (* File creation year *)
  let f := write_u16 227 f in                             (* LAS header size *)
  let f := File.write_u32 227 f in                        (* Point data offset *)
  let f := File.write_u32 0 f in                          (* Number of variable-length records *)
  let f := write_u8 2 f in                                (* Point data format *)
  let f := write_u16 26 f in                              (* Point data record length *)
  let f := File.write_u32 0 f in                          (* Number of point records *)
  let f := File.write_u32 0 f in                          (* Number of point records by return *)
  let f := File.write_u32 0 f in
  let f := File.write_u32 0 f in
  let f := File.write_u32 0 f in
  let f := File.write_u32 0 f in
  let f := write_f64_3 sScale f in                        (* Quantization scale factor *)
  let f := write_f64_3 (Vec3_zip PrimFloat.add sOffset sLpoOffset) f in
                                                          (* Quantization offset vector *)
  (* Point position bounding box: *)
  let f := File.write_f64 (vx min) (File.write_f64 (vx max) f) in
  let f := File.write_f64 (vy min) (File.write_f64 (vy max) f) in
  let f := File.write_f64 (vz min) (File.write_f64 (vz max) f) in
  mkLasPointSaver f sLpoOffset sScale sOffset min max 0.

(** [int(Math::floor((double(x)-offset)/scale+0.5))]; [None] where the
    floor does not fit [int] and the conversion is undefined. *)
Definition quantize (x offset scale : float) : option Z :=
  Float64.floorInt ((x - offset) / scale + 0.5)%float.

(** operator(): [None] when the behaviour of the call is undefined. *)
Definition LasPointSaver_call (ps : LasPointSaver) (point : LidarPoint)
  : option LasPointSaver :=
  let d := double3 point in
  (* Quantize the point position: *)
  match quantize (vx d) (vx (las_offset ps)) (vx (las_scale ps)),
        quantize (vy d) (vy (las_offset ps)) (vy (las_scale ps)),
        quantize (vz d) (vz (las_offset ps)) (vz (las_scale ps)) with
  | Some p0, Some p1, Some p2 =>
  let p := mkVec3 p0 p1 p2 in
  (* Calculate point intensity from RGB color: *)
  let intensity :=
    (LE.Z_of_byte (red (value point)) + LE.Z_of_byte (green (value point))
     + LE.Z_of_byte (blue (value point)) + 1) / 3 in
  (* Write the point record: *)
  let f := lasFile ps in
  let f := File.write (LE.encode 4 (vx p) ++ LE.encode 4 (vy p) ++ LE.encode 4 (vz p)) f in
  let f := write_u16 intensity f in       (* Point intensity *)
  let f := write_u8 0 f in                (* Return data *)
  let f := write_u8 0 f in                (* Point classification *)
  let f := write_u8 0 f in                (* Laser angle *)
  let f := write_u8 0 f in                (* User data *)
  let f := write_u16 0 f in               (* Source *)
  let f := write_u16 (LE.Z_of_byte (blue (value point)))
             (write_u16 (LE.Z_of_byte (green (value point)))
                (write_u16 (LE.Z_of_byte (red (value point))) f)) in
  (* Update LAS header: *)
  let lower (m x : float) := if PrimFloat.ltb x m then x else m in
  let upper (m x : float) := if PrimFloat.ltb m x then x else m in
  Some (mkLasPointSaver f (lpoOffset ps) (las_scale ps) (las_offset ps)
          (Vec3_zip lower (las_min ps) d) (Vec3_zip upper (las_max ps) d)
          (S (las_numPoints ps)))
  | _, _, _ => None
  end.

(** A traversal hands the points to the functor one after the other; once
    a call is undefined, so is the rest. *)
Fixpoint processWith {Saver : Type} (call : Saver -> LidarPoint -> option Saver)
    (ps : Saver) (pts : list LidarPoint) : option Saver :=
  match pts with
  | [] => Some ps
  | point :: rest =>
      match call ps point with
      | Some ps => processWith call ps rest
      | None => None
      end
  end.

(** The destructor: write the final LAS header. *)
Definition LasPointSaver_delete (ps : LasPointSaver) : list byte :=
  let f := File.setWritePosAbs 107 (lasFile ps) in
  let f := File.write_u32 (Z.of_nat (las_numPoints ps)) f in
  let f := File.write_u32 (Z.of_nat (las_numPoints ps)) f in
  let f := File.setWritePosAbs 179 f in
  let bound (m o : float) := (m + o)%float in
  let f := File.write_f64 (bound (vx (las_min ps)) (vx (lpoOffset ps)))
             (File.write_f64 (bound (vx (las_max ps)) (vx (lpoOffset ps))) f) in
  let f := File.write_f64 (bound (vy (las_min ps)) (vy (lpoOffset ps)))
             (File.write_f64 (bound (vy (las_max ps)) (vy (lpoOffset ps))) f) in
  let f := File.write_f64 (bound (vz (las_min ps)) (vz (lpoOffset ps)))
             (File.write_f64 (bound (vz (las_max ps)) (vz (lpoOffset ps))) f) in
  File.content f.

(** *** main, after the command line has been parsed *)

Inductive Output : Type :=
| AsciiFile (lines : list AsciiLine)
| BinaryFile (bytes : list byte)
| LasFile (bytes : list byte).

Record Export := mkExport {
  lbox : option Box;        (* the box handed to processPointsInBox, if any *)
  visited : list LidarPoint;  (* the points handed to the saver *)
  output : Output;
  saved : nat                 (* "<n> points saved" *)
}.

Definition main (lpo : LidarProcessOctree) (outputFileType : Z)
    (lasScale : Vec3 float) (haveBox : bool) (boxMin boxMax : Vec3 float)
  : option Export :=
  (* Transform the box to LiDAR coordinates: *)
  let lbox :=
    mkBox (Vec3_map ofDouble (Vec3_zip PrimFloat.sub boxMin (getOffset lpo)))
          (Vec3_map ofDouble (Vec3_zip PrimFloat.sub boxMax (getOffset lpo))) in
  let pts := if haveBox then processPointsInBox lpo lbox else processPoints lpo in
  let query := if haveBox then Some lbox else None in
  if outputFileType =? 2 then
    (* Use octree file's center point as quantization offset: *)
    let lasOffset := Vec3_map toDouble (getDomainCenter lpo) in
    match processWith LasPointSaver_call
            (LasPointSaver_new (getOffset lpo) lasScale lasOffset) pts with
    | Some ps =>
        Some (mkExport query pts (LasFile (LasPointSaver_delete ps)) (las_numPoints ps))
    | None => None
    end
  else if outputFileType =? 1 then
    let ps := foldl BinaryPointSaver_call (BinaryPointSaver_new (getOffset lpo)) pts in
    Some (mkExport query pts (BinaryFile (BinaryPointSaver_delete ps)) (bps_numPoints ps))
  else
    let ps := foldl PointSaver_call (PointSaver_new (getOffset lpo)) pts in
    Some (mkExport query pts (AsciiFile (ps_resultFile ps)) (ps_numPoints ps)).

End Savers.
End Exporter.

(** ** Facts about sequential writes *)

(** A file written front to back: the write position is its end. *)
Definition appended (c : list byte) : File.t := File.mk c 0 (Z.of_nat (length c)).

Lemma pwrite_at_end (d c : list byte) : File.pwrite (length c) d c = c ++ d.
Proof.
  unfold File.pwrite. rewrite Nat.sub_diag. cbn [replicate].
  rewrite app_nil_r, take_ge by lia.
  rewrite drop_ge by lia. now rewrite app_nil_r.
Qed.

Lemma write_appended (d c : list byte) : File.write d (appended c) = appended (c ++ d).
Proof.
  unfold File.write, appended. cbn [File.content File.writePos File.readPos].
  rewrite Nat2Z.id, pwrite_at_end. f_equal.
  rewrite length_app. lia.
Qed.

Lemma open_appended : File.open [] = appended [].
Proof. reflexivity. Qed.

Lemma pwrite_middle (a b d r : list byte) :
  length b = length d ->
  File.pwrite (length a) d (a ++ b ++ r) = a ++ d ++ r.
Proof.
  intros Hlen. unfold File.pwrite.
  rewrite !length_app.
  replace (length a - (length a + (length b + length r)))%nat with 0%nat by lia.
  cbn [replicate]. rewrite app_nil_r, take_app_length.
  rewrite drop_app_ge by lia.
  replace (length a + length d - length a)%nat with (length b) by lia.
  now rewrite drop_app_length.
Qed.

Lemma patch_appended (pos : nat) (a b d r : list byte) :
  length a = pos -> length b = length d ->
  File.content (File.write d (File.setWritePosAbs (Z.of_nat pos) (appended (a ++ b ++ r))))
  = a ++ d ++ r.
Proof.
  intros <- Hlen. unfold File.write, File.setWritePosAbs, appended.
  cbn [File.content File.writePos]. rewrite Nat2Z.id. now apply pwrite_middle.
Qed.

Lemma pwrite_adjacent (p : nat) (d1 d2 c : list byte) :
  File.pwrite (p + length d1) d2 (File.pwrite p d1 c) = File.pwrite p (d1 ++ d2) c.
Proof.
  unfold File.pwrite at 1.
  rewrite pwrite_length.
  replace (p + length d1 - Nat.max (p + length d1) (length c))%nat with 0%nat by lia.
  cbn [replicate]. rewrite app_nil_r.
  unfold File.pwrite.
  set (A := take p (c ++ replicate (p - length c) x00)).
  assert (HA : length A = p) by apply pwrite_prefix_length.
  rewrite (app_assoc A d1).
  rewrite take_app_length' by (rewrite length_app; lia).
  rewrite drop_app_ge by (rewrite length_app; lia).
  rewrite length_app, HA.
  replace (p + length d1 + length d2 - (p + length d1))%nat with (length d2) by lia.
  rewrite drop_drop, length_app.
  rewrite <- !app_assoc. do 3 f_equal. f_equal. lia.
Qed.

Lemma write_write (d1 d2 : list byte) (f : File.t) :
  0 <= File.writePos f ->
  File.write d2 (File.write d1 f) = File.write (d1 ++ d2) f.
Proof.
  intros Hwp. unfold File.write. cbn [File.content File.writePos File.readPos].
  replace (Z.to_nat (File.writePos f + Z.of_nat (length d1)))
    with (Z.to_nat (File.writePos f) + length d1)%nat by lia.
  rewrite pwrite_adjacent. f_equal. rewrite length_app. lia.
Qed.

Lemma patch_file (pos : nat) (a b d r c : list byte) (rp wp : Z) :
  c = a ++ b ++ r -> length a = pos -> length b = length d ->
  File.write d (File.setWritePosAbs (Z.of_nat pos) (File.mk c rp wp))
  = File.mk (a ++ d ++ r) rp (Z.of_nat pos + Z.of_nat (length d)).
Proof.
  intros -> <- Hlen. unfold File.write, File.setWritePosAbs.
  cbn [File.content File.writePos File.readPos]. rewrite Nat2Z.id.
  now rewrite pwrite_middle.
Qed.

(** ** Facts about the exporter *)

Section ExporterFacts.
Context {ST : ScalarType}.
Variable Constants_max Constants_min : float.
Import Exporter.

Definition enc3 (v : Vec3 float) : list byte :=
  Float64.encode (vx v) ++ Float64.encode (vy v) ++ Float64.encode (vz v).

Definition asciiLine (offset : Vec3 float) (p : LidarPoint) : AsciiLine :=
  mkAsciiLine (Vec3_zip PrimFloat.add (double3 p) offset)
              (red (value p), green (value p), blue (value p)).

(** The layout of the LAS-like file the exporter writes. *)
Definition lasHead107 : list byte :=
  list_byte_of_string "LASF" ++ LE.encode 2 0 ++ LE.encode 2 0 ++ LE.encode 4 0
  ++ LE.encode 2 0 ++ LE.encode 2 0 ++ replicate 8 x00
  ++ LE.encode 1 1 ++ LE.encode 1 2 ++ replicate 32 x00 ++ replicate 32 x00
  ++ LE.encode 2 1 ++ LE.encode 2 2011 ++ LE.encode 2 227 ++ LE.encode 4 227
  ++ LE.encode 4 0 ++ LE.encode 1 2 ++ LE.encode 2 26.

Definition lasMid (scale qoffset : Vec3 float) : list byte :=
  LE.encode 4 0 ++ LE.encode 4 0 ++ LE.encode 4 0 ++ LE.encode 4 0
  ++ enc3 scale ++ enc3 qoffset.

Definition bboxBytes (mx mn : Vec3 float) : list byte :=
  Float64.encode (vx mx) ++ Float64.encode (vx mn)
  ++ Float64.encode (vy mx) ++ Float64.encode (vy mn)
  ++ Float64.encode (vz mx) ++ Float64.encode (vz mn).

(** The floor that quantize converts to [int]. *)
Definition gridIndex (x offset scale : float) : Z :=
  Float64.floorZ ((x - offset) / scale + 0.5)%float.

(** The three quantized coordinates of the point fit the type [int]. *)
Definition quantizable (lasOffset scale : Vec3 float) (p : LidarPoint) : bool :=
  Float64.fitsInt ((vx (double3 p) - vx lasOffset) / vx scale + 0.5)%float
  && Float64.fitsInt ((vy (double3 p) - vy lasOffset) / vy scale + 0.5)%float
  && Float64.fitsInt ((vz (double3 p) - vz lasOffset) / vz scale + 0.5)%float.

(** The record of a point whose coordinates can be quantized. *)
Definition lasRecord (lasOffset scale : Vec3 float) (p : LidarPoint) : list byte :=
  LE.encode 4 (gridIndex (vx (double3 p)) (vx lasOffset) (vx scale))
  ++ LE.encode 4 (gridIndex (vy (double3 p)) (vy lasOffset) (vy scale))
  ++ LE.encode 4 (gridIndex (vz (double3 p)) (vz lasOffset) (vz scale))
  ++ LE.encode 2 ((LE.Z_of_byte (red (value p)) + LE.Z_of_byte (green (value p))
                   + LE.Z_of_byte (blue (value p)) + 1) / 3)
  ++ LE.encode 1 0 ++ LE.encode 1 0 ++ LE.encode 1 0 ++ LE.encode 1 0
  ++ LE.encode 2 0
  ++ LE.encode 2 (LE.Z_of_byte (red (value p)))
  ++ LE.encode 2 (LE.Z_of_byte (green (value p)))
  ++ LE.encode 2 (LE.Z_of_byte (blue (value p))).

(** The running bounding box of the stored positions. *)
Definition boundsFrom (b : Vec3 float * Vec3 float) (pts : list LidarPoint)
  : Vec3 float * Vec3 float :=
  foldl (fun b p =>
           (Vec3_zip (fun m x => if PrimFloat.ltb x m then x else m) (fst b) (double3 p),
            Vec3_zip (fun m x => if PrimFloat.ltb m x then x else m) (snd b) (double3 p)))
        b pts.

Definition lasBounds (pts : list LidarPoint) : Vec3 float * Vec3 float :=
  boundsFrom (mkVec3 Constants_max Constants_max Constants_max,
              mkVec3 Constants_min Constants_min Constants_min) pts.

Lemma writeOffsetFile_content (o : Vec3 float) :
  OffsetFile.writeOffsetFile o
  = if OffsetFile.Vector_neq o OffsetFile.Vector_zero then Some (enc3 o) else None.
Proof.
  unfold OffsetFile.writeOffsetFile.
  destruct (OffsetFile.Vector_neq o OffsetFile.Vector_zero); [|reflexivity].
  unfold File.write_f64. rewrite open_appended, !write_appended.
  unfold appended, enc3. cbn [File.content app]. now rewrite <- !app_assoc.
Qed.

Lemma PointSaver_fold (pts : list LidarPoint) :
  forall ps,
    foldl PointSaver_call ps pts
    = mkPointSaver (ps_offset ps)
        (ps_resultFile ps ++ map (asciiLine (ps_offset ps)) pts)
        (ps_numPoints ps + length pts).
Proof.
  induction pts as [|p pts IH]; intros [o f n]; cbn [foldl map length].
  - cbn. now rewrite app_nil_r, Nat.add_0_r.
  - rewrite IH. unfold PointSaver_call. cbn. f_equal.
    + now rewrite <- app_assoc.
    + lia.
Qed.

Lemma BinaryPointSaver_fold (pts : list LidarPoint) :
  forall c n,
    foldl BinaryPointSaver_call (mkBinaryPointSaver (appended c) n) pts
    = mkBinaryPointSaver (appended (c ++ concat (map encodeLidarPoint pts)))
                         (n + length pts).
Proof.
  induction pts as [|p pts IH]; intros c n; cbn [foldl map concat length].
  - now rewrite app_nil_r, Nat.add_0_r.
  - unfold BinaryPointSaver_call at 2. cbn [bps_resultFile bps_numPoints].
    rewrite !write_appended, IH. unfold encodeLidarPoint. f_equal.
    + f_equal. now rewrite <- !app_assoc.
    + lia.
Qed.

Lemma BinaryPointSaver_export (offset : Vec3 float) (pts : list LidarPoint) :
  let ps := foldl BinaryPointSaver_call (BinaryPointSaver_new offset) pts in
  BinaryPointSaver_delete ps
  = enc3 offset ++ LE.encode 4 (Z.of_nat (length pts))
    ++ concat (map encodeLidarPoint pts)
  /\ bps_numPoints ps = length pts.
Proof.
  unfold BinaryPointSaver_new, File.write_f64, File.write_u32.
  rewrite open_appended, !write_appended. cbn [app].
  rewrite BinaryPointSaver_fold. cbn zeta. split; [|reflexivity].
  unfold BinaryPointSaver_delete, File.write_u32. cbn [bps_resultFile bps_numPoints Nat.add].
  rewrite <- !app_assoc.
  change (3 * 8) with (Z.of_nat 24).
  rewrite (app_assoc (Float64.encode (vx offset))),
          (app_assoc (Float64.encode (vx offset) ++ Float64.encode (vy offset))).
  rewrite patch_appended.
  - unfold enc3. now rewrite <- !app_assoc.
  - rewrite !length_app, !Float64_encode_length. reflexivity.
  - now rewrite !encode_length.
Qed.

Lemma enc3_length (v : Vec3 float) : length (enc3 v) = 24%nat.
Proof. unfold enc3. now rewrite !length_app, !Float64_encode_length. Qed.

Lemma bboxBytes_length (mx mn : Vec3 float) : length (bboxBytes mx mn) = 48%nat.
Proof. unfold bboxBytes. now rewrite !length_app, !Float64_encode_length. Qed.

Lemma lasMid_length (s q : Vec3 float) : length (lasMid s q) = 64%nat.
Proof. unfold lasMid. now rewrite !length_app, !encode_length, !enc3_length. Qed.

Lemma lasHead107_length : length lasHead107 = 107%nat.
Proof. reflexivity. Qed.

Lemma writePos_write_nonneg (d : list byte) (f : File.t) :
  0 <= File.writePos f -> 0 <= File.writePos (File.write d f).
Proof. unfold File.write. cbn [File.writePos]. lia. Qed.

Lemma writePos_set_nonneg (p : Z) (f : File.t) :
  0 <= p -> 0 <= File.writePos (File.setWritePosAbs p f).
Proof. intros H. exact H. Qed.

Lemma LasPointSaver_new_file (l s o : Vec3 float) :
  LasPointSaver_new Constants_max Constants_min l s o
  = mkLasPointSaver
      (appended (lasHead107 ++ (LE.encode 4 0 ++ LE.encode 4 0)
                 ++ lasMid s (Vec3_zip PrimFloat.add o l)
                 ++ bboxBytes (mkVec3 Constants_min Constants_min Constants_min)
                              (mkVec3 Constants_max Constants_max Constants_max)))
      l s o
      (mkVec3 Constants_max Constants_max Constants_max)
      (mkVec3 Constants_min Constants_min Constants_min) 0.
Proof.
  unfold LasPointSaver_new, write_f64_3, write_u8, write_u16, File.write_u32, File.write_f64.
  rewrite open_appended, !write_appended.
  unfold lasHead107, lasMid, bboxBytes, enc3. cbn [vx vy vz].
  rewrite <- !app_assoc. reflexivity.
Qed.

Lemma LasPointSaver_call_quantizable (ps : LasPointSaver) (p : LidarPoint) :
  quantizable (las_offset ps) (las_scale ps) p = false ->
  LasPointSaver_call ps p = None.
Proof.
  unfold quantizable, LasPointSaver_call, quantize, Float64.floorInt.
  destruct (Float64.fitsInt _); [|reflexivity].
  destruct (Float64.fitsInt _); [|reflexivity].
  destruct (Float64.fitsInt _); [discriminate|reflexivity].
Qed.

Lemma LasPointSaver_fold (l s o : Vec3 float) (pts : list LidarPoint) :
  forall c mn mx n,
    processWith LasPointSaver_call (mkLasPointSaver (appended c) l s o mn mx n) pts
    = if forallb (quantizable o s) pts
      then Some (mkLasPointSaver (appended (c ++ concat (map (lasRecord o s) pts))) l s o
                   (fst (boundsFrom (mn, mx) pts)) (snd (boundsFrom (mn, mx) pts))
                   (n + length pts))
      else None.
Proof.
  induction pts as [|p pts IH]; intros c mn mx n;
    cbn [processWith forallb map concat length].
  - cbn [boundsFrom foldl fst snd]. now rewrite app_nil_r, Nat.add_0_r.
  - destruct (quantizable o s p) eqn:Hq.
    2:{ now rewrite LasPointSaver_call_quantizable. }
    cbn [andb]. unfold quantizable in Hq.
    apply andb_prop in Hq as [Hq Hz]. apply andb_prop in Hq as [Hx Hy].
    unfold LasPointSaver_call, quantize, Float64.floorInt.
    cbn [lasFile lpoOffset las_scale las_offset las_min las_max las_numPoints].
    rewrite Hx, Hy, Hz.
    unfold write_u8, write_u16. rewrite !write_appended, IH.
    unfold boundsFrom at 3 4. cbn [foldl fst snd]. fold (boundsFrom).
    destruct (forallb (quantizable o s) pts); [|reflexivity].
    f_equal. f_equal.
    + f_equal. unfold lasRecord, gridIndex. cbn [Vec3_zip vx vy vz fst snd].
      rewrite <- !app_assoc. reflexivity.
    + lia.
Qed.

Lemma LasPointSaver_delete_content (h c8 mid bb r : list byte)
    (l s o mn mx : Vec3 float) (n : nat) :
  length h = 107%nat -> length c8 = 8%nat -> length mid = 64%nat -> length bb = 48%nat ->
  LasPointSaver_delete
    (mkLasPointSaver (appended (h ++ c8 ++ mid ++ bb ++ r)) l s o mn mx n)
  = h ++ (LE.encode 4 (Z.of_nat n) ++ LE.encode 4 (Z.of_nat n)) ++ mid
    ++ bboxBytes (Vec3_zip PrimFloat.add mx l) (Vec3_zip PrimFloat.add mn l) ++ r.
Proof.
  intros Hh Hc Hm Hb. unfold LasPointSaver_delete, File.write_u32, File.write_f64.
  cbn [lasFile lpoOffset las_min las_max las_numPoints].
  rewrite !write_write
    by (repeat apply writePos_write_nonneg; apply writePos_set_nonneg; lia).
  unfold appended.
  change 107 with (Z.of_nat 107).
  rewrite (patch_file 107 h c8 _ (mid ++ bb ++ r)); [|reflexivity|exact Hh|].
  2:{ now rewrite Hc, length_app, !encode_length. }
  change 179 with (Z.of_nat 179).
  rewrite (patch_file 179
             (h ++ (LE.encode 4 (Z.of_nat n) ++ LE.encode 4 (Z.of_nat n)) ++ mid) bb _ r).
  - cbn [File.content]. unfold bboxBytes. cbn [Vec3_zip vx vy vz].
    rewrite <- !app_assoc. reflexivity.
  - rewrite <- !app_assoc. reflexivity.
  - rewrite !length_app, !encode_length, Hh, Hm. reflexivity.
  - rewrite Hb, !length_app, !Float64_encode_length. reflexivity.
Qed.

(** The bytes of the LAS file for points that can all be quantized. *)
Definition lasFileBytes (l s o : Vec3 float) (pts : list LidarPoint) : list byte :=
  lasHead107
  ++ (LE.encode 4 (Z.of_nat (length pts)) ++ LE.encode 4 (Z.of_nat (length pts)))
  ++ lasMid s (Vec3_zip PrimFloat.add o l)
  ++ bboxBytes (Vec3_zip PrimFloat.add (snd (lasBounds pts)) l)
               (Vec3_zip PrimFloat.add (fst (lasBounds pts)) l)
  ++ concat (map (lasRecord o s) pts).

Lemma LasPointSaver_export (l s o : Vec3 float) (pts : list LidarPoint) :
  match processWith LasPointSaver_call
          (LasPointSaver_new Constants_max Constants_min l s o) pts with
  | Some ps =>
      forallb (quantizable o s) pts = true
      /\ LasPointSaver_delete ps = lasFileBytes l s o pts
      /\ las_numPoints ps = length pts
  | None => forallb (quantizable o s) pts = false
  end.
Proof.
  rewrite LasPointSaver_new_file, LasPointSaver_fold.
  destruct (forallb (quantizable o s) pts); [|reflexivity].
  split; [reflexivity|]. split; [|reflexivity]. unfold lasFileBytes.
  rewrite <- !app_assoc.
  rewrite (app_assoc (LE.encode 4 0) (LE.encode 4 0)).
  rewrite LasPointSaver_delete_content.
  - reflexivity.
  - apply lasHead107_length.
  - now rewrite length_app, !encode_length.
  - apply lasMid_length.
  - apply bboxBytes_length.
Qed.

End ExporterFacts.

(** ** Exported positions and the data set's offset *)

Section ExportedPositions.
Context {ST : ScalarType}.
Variable Constants_max Constants_min : float.
Import Exporter.

Definition float_of_Z (z : Z) : float :=
  if z <? 0 then (- PrimFloat.of_uint63 (Uint63.of_Z (- z)))%float
  else PrimFloat.of_uint63 (Uint63.of_Z z).

Definition decode3 (bs : list byte) : Vec3 float :=
  mkVec3 (Float64.decode (take 8 bs)) (Float64.decode (take 8 (drop 8 bs)))
         (Float64.decode (take 8 (drop 16 bs))).

Definition decodeInt3 (bs : list byte) : Vec3 Z :=
  mkVec3 (LE.signed 32 (LE.decode (take 4 bs)))
         (LE.signed 32 (LE.decode (take 4 (drop 4 bs))))
         (LE.signed 32 (LE.decode (take 4 (drop 8 bs)))).

(** The positions held by the point records of an export file, read off
    the records alone: the three numbers of a text line as they are handed
    to fprintf, the three stored components of a binary record, the three
    integers of a LAS record. *)
Definition recordPositions (o : Output) : list (Vec3 float) :=
  match o with
  | AsciiFile lines => map linePos lines
  | BinaryFile bytes =>
      let body := drop 28 bytes in
      let stride := (3 * sizeofScalar + 4)%nat in
      map (fun k => Vec3_map toDouble (decodeComponents (drop (k * stride) body)))
          (seq 0 (length body / stride))
  | LasFile bytes =>
      let body := drop 227 bytes in
      map (fun k => Vec3_map float_of_Z (decodeInt3 (drop (k * 26) body)))
          (seq 0 (length body / 26))
  end.

(** The positions a reader reconstructs with the header of the file: the
    offset vector of a binary file added to each record, the integers of a
    LAS record times the header's scale plus the header's offset.  A text
    file has no header. *)
Definition headerPositions (o : Output) : list (Vec3 float) :=
  match o with
  | AsciiFile lines => map linePos lines
  | BinaryFile bytes =>
      map (fun p => Vec3_zip PrimFloat.add p (decode3 bytes)) (recordPositions o)
  | LasFile bytes =>
      let scale := decode3 (drop 131 bytes) in
      let offset := decode3 (drop 155 bytes) in
      map (fun q => Vec3_zip PrimFloat.add (Vec3_zip PrimFloat.mul q scale) offset)
          (recordPositions o)
  end.

(** The stored positions plus the offset vector of the data set. *)
Definition originalPositions (lpo : LidarProcessOctree) (pts : list LidarPoint)
  : list (Vec3 float) :=
  map (fun p => Vec3_zip PrimFloat.add (double3 p) (getOffset lpo)) pts.

(** The statement under test: the position output for every visited point
    is the stored position plus the offset vector of the data set. *)
Definition exports_original_positions (lpo : LidarProcessOctree) (e : Export) : Prop :=
  recordPositions (output e) = originalPositions lpo (visited e).

(** The box and the points of a run of the exporter. *)
Definition queryBox (lpo : LidarProcessOctree) (boxMin boxMax : Vec3 float) : Box :=
  mkBox (Vec3_map ofDouble (Vec3_zip PrimFloat.sub boxMin (getOffset lpo)))
        (Vec3_map ofDouble (Vec3_zip PrimFloat.sub boxMax (getOffset lpo))).

Definition exportedPoints (lpo : LidarProcessOctree) (haveBox : bool)
    (boxMin boxMax : Vec3 float) : list LidarPoint :=
  if haveBox then processPointsInBox lpo (queryBox lpo boxMin boxMax)
  else processPoints lpo.

Definition exportOf (lpo : LidarProcessOctree) (haveBox : bool)
    (boxMin boxMax : Vec3 float) (o : Output) : Export :=
  mkExport (if haveBox then Some (queryBox lpo boxMin boxMax) else None)
           (exportedPoints lpo haveBox boxMin boxMax) o
           (length (exportedPoints lpo haveBox boxMin boxMax)).

Lemma main_ascii (lpo : LidarProcessOctree) (outputFileType : Z)
    (lasScale : Vec3 float) (haveBox : bool) (boxMin boxMax : Vec3 float) :
  outputFileType <> 1 -> outputFileType <> 2 ->
  main Constants_max Constants_min lpo outputFileType lasScale haveBox boxMin boxMax
  = Some (exportOf lpo haveBox boxMin boxMax
            (AsciiFile (map (asciiLine (getOffset lpo))
                          (exportedPoints lpo haveBox boxMin boxMax)))).
Proof.
  intros H1 H2. unfold main.
  apply Z.eqb_neq in H1, H2. rewrite H1, H2.
  rewrite PointSaver_fold. reflexivity.
Qed.

Lemma main_binary (lpo : LidarProcessOctree)
    (lasScale : Vec3 float) (haveBox : bool) (boxMin boxMax : Vec3 float) :
  main Constants_max Constants_min lpo 1 lasScale haveBox boxMin boxMax
  = Some (exportOf lpo haveBox boxMin boxMax
            (BinaryFile
               (enc3 (getOffset lpo)
                ++ LE.encode 4 (Z.of_nat (length (exportedPoints lpo haveBox boxMin boxMax)))
                ++ concat (map encodeLidarPoint
                             (exportedPoints lpo haveBox boxMin boxMax))))).
Proof.
  unfold main, exportOf, exportedPoints, queryBox. cbn [Z.eqb Pos.eqb].
  set (pts := if haveBox then processPointsInBox _ _ else processPoints _).
  destruct (BinaryPointSaver_export (getOffset lpo) pts) as [-> ->].
  reflexivity.
Qed.

Lemma main_las (lpo : LidarProcessOctree)
    (lasScale : Vec3 float) (haveBox : bool) (boxMin boxMax : Vec3 float) :
  let lasOffset := Vec3_map toDouble (getDomainCenter lpo) in
  let pts := exportedPoints lpo haveBox boxMin boxMax in
  main Constants_max Constants_min lpo 2 lasScale haveBox boxMin boxMax
  = if forallb (quantizable lasOffset lasScale) pts
    then Some (exportOf lpo haveBox boxMin boxMax
                 (LasFile (lasFileBytes Constants_max Constants_min (getOffset lpo)
                             lasScale lasOffset pts)))
    else None.
Proof.
  unfold main, exportOf, exportedPoints, queryBox. cbn [Z.eqb Pos.eqb]. cbv zeta.
  set (pts := if haveBox then processPointsInBox _ _ else processPoints _).
  pose proof (LasPointSaver_export Constants_max Constants_min (getOffset lpo) lasScale
                (Vec3_map toDouble (getDomainCenter lpo)) pts) as H.
  destruct (processWith _ _ pts) as [ps|].
  - destruct H as (-> & -> & ->). reflexivity.
  - now rewrite H.
Qed.

Lemma ascii_positions (offset : Vec3 float) (pts : list LidarPoint) :
  map linePos (map (asciiLine offset) pts)
  = map (fun p => Vec3_zip PrimFloat.add (double3 p) offset) pts.
Proof. rewrite map_map. reflexivity. Qed.

(** C4, as amended.  The preprocessor writes the offset file exactly when
    the accumulated point offset differs from zero, and the file then holds
    the three components as little-endian float64.  The exporter turns a
    query box into stored coordinates by subtracting the data set's offset
    from its bounds, and visits the points of that box, or all points
    without one.  In the default text mode the position output for every
    visited point is the stored position plus the offset, as the number
    handed to the formatted print.  In binary mode the offset is written
    once, in the file header, and every record holds the stored position
    unchanged.  In LAS mode, when the quantized coordinates of every
    visited point fit a 32-bit integer, the offset is added to the header's
    quantization offset and bounding box and every record holds the stored
    position quantized against the centre of the domain; when one does not
    fit, the conversion is undefined and the run has no defined output. *)
Theorem offset_recovers_original_coordinates :
  (forall o : Vec3 float,
      OffsetFile.writeOffsetFile o
      = if OffsetFile.Vector_neq o OffsetFile.Vector_zero then Some (enc3 o) else None)
  /\ (forall (lpo : LidarProcessOctree) (outputFileType : Z) (lasScale : Vec3 float)
             (haveBox : bool) (boxMin boxMax : Vec3 float),
         let run := main Constants_max Constants_min lpo outputFileType lasScale
                         haveBox boxMin boxMax in
         let pts := exportedPoints lpo haveBox boxMin boxMax in
         let lasOffset := Vec3_map toDouble (getDomainCenter lpo) in
         (outputFileType <> 1 -> outputFileType <> 2 ->
          run = Some (exportOf lpo haveBox boxMin boxMax
                        (AsciiFile (map (asciiLine (getOffset lpo)) pts)))
          /\ forall e : Export, run = Some e -> exports_original_positions lpo e)
         /\ (outputFileType = 1 ->
             run = Some (exportOf lpo haveBox boxMin boxMax
                           (BinaryFile (enc3 (getOffset lpo)
                                        ++ LE.encode 4 (Z.of_nat (length pts))
                                        ++ concat (map encodeLidarPoint pts)))))
         /\ (outputFileType = 2 ->
             run = if forallb (quantizable lasOffset lasScale) pts
                   then Some (exportOf lpo haveBox boxMin boxMax
                                (LasFile (lasHead107
                                          ++ (LE.encode 4 (Z.of_nat (length pts))
                                              ++ LE.encode 4 (Z.of_nat (length pts)))
                                          ++ lasMid lasScale
                                               (Vec3_zip PrimFloat.add lasOffset
                                                  (getOffset lpo))
                                          ++ bboxBytes
                                               (Vec3_zip PrimFloat.add
                                                  (snd (lasBounds Constants_max
                                                          Constants_min pts))
                                                  (getOffset lpo))
                                               (Vec3_zip PrimFloat.add
                                                  (fst (lasBounds Constants_max
                                                          Constants_min pts))
                                                  (getOffset lpo))
                                          ++ concat (map (lasRecord lasOffset lasScale)
                                                       pts))))
                   else None)).
Proof.
  split; [apply writeOffsetFile_content|].
  intros lpo outputFileType lasScale haveBox boxMin boxMax run pts lasOffset.
  split; [|split].
  - intros H1 H2.
    pose proof (main_ascii lpo outputFileType lasScale haveBox boxMin boxMax H1 H2)
      as Hrun.
    fold run pts in Hrun. split; [exact Hrun|].
    intros e He. rewrite Hrun in He. injection He as <-.
    unfold exports_original_positions, exportOf. cbn [output visited recordPositions].
    apply ascii_positions.
  - intros ->. apply main_binary.
  - intros ->. apply main_las.
Qed.

End ExportedPositions.

(** *** A one-point data set with offset (100, 0, 0) *)

Module ExportSample.
Import Exporter.

Definition dblMax : float := 0x1.fffffffffffffp+1023%float.
Definition dblMin : float := 0x1p-1022%float.

Definition stored : LidarPoint :=
  mkLidarPoint (mkVec3 1 2 3)%float (mkRGBA x0a x14 x1e xff).

Definition lpo : LidarProcessOctree :=
  mkLpo (mkVec3 100 0 0)%float (mkVec3 0.5 0.5 0.5)%float [stored] (fun _ => []).

(** A point between two steps of the default quantization: 1.0004 lies
    0.0004 above the step 1.000. *)
Definition storedFine : LidarPoint :=
  mkLidarPoint (mkVec3 1.0004 2 3)%float (mkRGBA x0a x14 x1e xff).

Definition lpoFine : LidarProcessOctree :=
  mkLpo (mkVec3 100 0 0)%float (mkVec3 0.5 0.5 0.5)%float [storedFine] (fun _ => []).

(** A point 3e9 scale steps from the centre of the domain. *)
Definition storedFar : LidarPoint :=
  mkLidarPoint (mkVec3 3e6 2 3)%float (mkRGBA x0a x14 x1e xff).

Definition lpoFar : LidarProcessOctree :=
  mkLpo (mkVec3 100 0 0)%float (mkVec3 0.5 0.5 0.5)%float [storedFar] (fun _ => []).

Definition scale : Vec3 float := (mkVec3 0.001 0.001 0.001)%float.
Definition noBox : Vec3 float := (mkVec3 0 0 0)%float.

Definition export (outputFileType : Z) : option Export :=
  main dblMax dblMin lpo outputFileType scale false noBox noBox.

Definition exportFine (outputFileType : Z) : option Export :=
  main dblMax dblMin lpoFine outputFileType scale false noBox noBox.

Example ascii_export :
  option_map output (export 0)
  = Some (AsciiFile [mkAsciiLine (mkVec3 101 2 3)%float (x0a, x14, x1e)]).
Proof. reflexivity. Qed.

Example binary_export :
  option_map output (export 1)
  = Some (BinaryFile (Float64.encode 100 ++ Float64.encode 0 ++ Float64.encode 0
                      ++ LE.encode 4 1
                      ++ Float64.encode 1 ++ Float64.encode 2 ++ Float64.encode 3
                      ++ [x0a; x14; x1e; xff])).
Proof. reflexivity. Qed.

Example binary_positions :
  option_map (fun e => recordPositions (output e)) (export 1) = Some [mkVec3 1 2 3]%float
  /\ option_map (fun e => headerPositions (output e)) (export 1)
     = Some [mkVec3 101 2 3]%float.
Proof. split; reflexivity. Qed.

Example las_positions :
  option_map (fun e => recordPositions (output e)) (export 2)
  = Some [mkVec3 500 1500 2500]%float
  /\ option_map (fun e => headerPositions (output e)) (export 2)
     = Some [mkVec3 101 2 3]%float
  /\ option_map (fun e => headerPositions (output e)) (exportFine 2)
     = Some [mkVec3 101 2 3]%float
  /\ originalPositions lpoFine [storedFine] = [mkVec3 101.0004 2 3]%float.
Proof. split; [|split; [|split]]; vm_compute; reflexivity. Qed.

Example las_out_of_range :
  main dblMax dblMin lpoFar 2 scale false noBox noBox = None
  /\ main dblMax dblMin lpoFar 2 (mkVec3 0 0.001 0.001)%float false noBox noBox = None
  /\ (exists e, main dblMax dblMin lpoFar 2 (mkVec3 0.01 0.01 0.01)%float false
                  noBox noBox = Some e).
Proof. split; [reflexivity|]. split; [reflexivity|]. eexists. reflexivity. Qed.

Example box_in_stored_coordinates :
  option_map lbox (main dblMax dblMin lpo 0 scale true (mkVec3 90 (-1) (-1))%float
                     (mkVec3 110 1 1)%float)
  = Some (Some (mkBox (mkVec3 (-10) (-1) (-1)) (mkVec3 10 1 1))%float).
Proof. reflexivity. Qed.

Example offset_file_written :
  OffsetFile.writeOffsetFile (mkVec3 100 0 0)%float
  = Some (Float64.encode 100 ++ Float64.encode 0 ++ Float64.encode 0).
Proof. reflexivity. Qed.

Example offset_file_not_written :
  OffsetFile.writeOffsetFile (mkVec3 0 (-0) 0)%float = None.
Proof. reflexivity. Qed.

End ExportSample.

(** For the stored point (1, 2, 3) of a data set with offset (100, 0, 0)
    the record of a binary export holds (1, 2, 3) and the record of a LAS
    export the integers (500, 1500, 2500), not (101, 2, 3).  For the stored
    point (1.0004, 2, 3) the LAS export does not hold the original position
    101.0004 even when read with the scale and the offset of its header:
    the quantization has moved it to 101. *)
Lemma non_text_exports_keep_stored_positions :
  exists binary las lasFine : Exporter.Export,
    ExportSample.export 1 = Some binary
    /\ ~ exports_original_positions ExportSample.lpo binary
    /\ ExportSample.export 2 = Some las
    /\ ~ exports_original_positions ExportSample.lpo las
    /\ ExportSample.exportFine 2 = Some lasFine
    /\ headerPositions (Exporter.output lasFine)
       <> originalPositions ExportSample.lpoFine (Exporter.visited lasFine).
Proof.
  assert (Hne : forall a b : list (Vec3 float),
             map (fun v => PrimFloat.eqb (vx v) 101) a
             <> map (fun v => PrimFloat.eqb (vx v) 101) b -> a <> b).
  { intros a b H ->. now apply H. }
  do 3 eexists.
  split; [reflexivity|].
  split; [unfold exports_original_positions; apply Hne; vm_compute; discriminate|].
  split; [reflexivity|].
  split; [unfold exports_original_positions; apply Hne; vm_compute; discriminate|].
  split; [reflexivity|].
  apply Hne. vm_compute. discriminate.
Qed.

Lemma offset_recovers_original_coordinates_witness :
  exists e : Exporter.Export,
    ExportSample.export 0 = Some e
    /\ exports_original_positions ExportSample.lpo e.
Proof.
  destruct (proj1 (proj2 (offset_recovers_original_coordinates
                            ExportSample.dblMax ExportSample.dblMin)
                     ExportSample.lpo 0 ExportSample.scale false
                     ExportSample.noBox ExportSample.noBox)
              ltac:(discriminate) ltac:(discriminate)) as [Hrun Hall].
  eexists. split; [exact Hrun|]. apply Hall. exact Hrun.
Defined.

(** ** The point selector tool (PointSelectorTool.cpp) *)

Module LidarViewer.

(** LidarViewer::SelectorMode *)
Inductive SelectorMode : Type := Add | Subtract.

(** LidarOctree::Interactor: a sphere of influence. *)
Record Interactor := mkInteractor { i_center : Vec3 float; i_radius : float }.

(** The calls a frame makes on the application's octrees, by index. *)
Inductive OctreeCall : Type :=
| interact (octree : nat) (interactor : Interactor)
| selectPoints (octree : nat) (interactor : Interactor)
| deselectPoints (octree : nat) (interactor : Interactor).

Definition isInteract (c : OctreeCall) : bool :=
  match c with interact _ _ => true | _ => false end.
Definition isSelect (c : OctreeCall) : bool :=
  match c with selectPoints _ _ => true | _ => false end.
Definition isDeselect (c : OctreeCall) : bool :=
  match c with deselectPoints _ _ => true | _ => false end.

(** What the tool uses of the application object. *)
Record Application := mkApplication {
  numOctrees : nat;
  showOctrees : list bool;
  defaultSelectorRadius : float;
  defaultSelectorMode : SelectorMode
}.

Record PointSelectorTool := mkPointSelectorTool {
  radius : float;
  selectorMode : SelectorMode;
  initMask : Z;
  active : bool
}.

(** The constructor. *)
Definition PointSelectorTool_new : PointSelectorTool :=
  mkPointSelectorTool 0%float Add 0 false.

(** PointSelectorTool::initialize *)
Definition initialize (application : Application) (t : PointSelectorTool)
  : PointSelectorTool :=
  let r := if Z.land (initMask t) 1 =? 0 then defaultSelectorRadius application
           else radius t in
  let m := if Z.land (initMask t) 2 =? 0 then defaultSelectorMode application
           else selectorMode t in
  mkPointSelectorTool r m (initMask t) (active t).

(** PointSelectorTool::buttonCallback *)
Definition buttonCallback (newButtonState : bool) (t : PointSelectorTool)
  : PointSelectorTool :=
  (* Check if the button was pressed or released: *)
  if newButtonState
  then mkPointSelectorTool (radius t) (selectorMode t) (initMask t) true
  else mkPointSelectorTool (radius t) (selectorMode t) (initMask t) false.

(** [for(int i=0;i<numOctrees;++i) if(showOctrees[i]) octrees[i]->call] *)
Definition forShownOctrees (application : Application) (call : nat -> OctreeCall)
  : list OctreeCall :=
  map call (filter (fun i => nth i (showOctrees application) false)
                   (seq 0 (numOctrees application))).

(** PointSelectorTool::frame, as the sequence of calls it makes.
    [devicePosition] is the button device's position in navigational
    coordinates and [scaling] the scaling of the inverse navigation
    transformation, both supplied by the toolkit. *)
Definition frame (application : Application) (devicePosition : Vec3 float)
    (scaling : float) (t : PointSelectorTool) : list OctreeCall :=
  (* Bail out if not active: *)
  if negb (active t) then []
  else
    (* Create a LiDAR interactor: *)
    let interactor := mkInteractor devicePosition (scaling * radius t)%float in
    (* Let all octrees prepare for interaction: *)
    forShownOctrees application (fun i => interact i interactor)
    (* Select or deselect points: *)
    ++ match selectorMode t with
       | Add => forShownOctrees application (fun i => selectPoints i interactor)
       | Subtract => forShownOctrees application (fun i => deselectPoints i interactor)
       end.

Definition shownOctrees (application : Application) : list nat :=
  filter (fun i => nth i (showOctrees application) false)
         (seq 0 (numOctrees application)).

End LidarViewer.

Section SelectorFacts.
Import LidarViewer.

Lemma forShownOctrees_map (application : Application) (call : nat -> OctreeCall) :
  forShownOctrees application call = map call (shownOctrees application).
Proof. reflexivity. Qed.

(** C6.  A frame of an inactive tool makes no call.  A frame of an active
    tool first calls [interact] on every shown octree, with the sphere at
    the device position, and only then, on the same octrees, [selectPoints]
    in Add mode or [deselectPoints] in Subtract mode: every [interact] call
    of the frame comes before every selection call, an Add frame has no
    [deselectPoints] call and a Subtract frame no [selectPoints] call.  The
    tool is active exactly while its button is held. *)
Theorem frame_interacts_before_selecting
    (application : Application) (devicePosition : Vec3 float) (scaling : float)
    (t : PointSelectorTool) :
  let calls := frame application devicePosition scaling t in
  let sphere := mkInteractor devicePosition (scaling * radius t)%float in
  let shown := shownOctrees application in
  (forall b, active (buttonCallback b t) = b)
  /\ (active t = false -> calls = [])
  /\ (active t = true ->
      calls = map (fun i => interact i sphere) shown
              ++ match selectorMode t with
                 | Add => map (fun i => selectPoints i sphere) shown
                 | Subtract => map (fun i => deselectPoints i sphere) shown
                 end)
  /\ (active t = true ->
      forall i, In i shown -> In (interact i sphere) calls)
  /\ (forall (a b : nat) (ca cb : OctreeCall),
         calls !! a = Some ca -> calls !! b = Some cb ->
         isInteract ca = true -> isSelect cb || isDeselect cb = true ->
         (a < b)%nat)
  /\ (selectorMode t = Add -> Forall (fun c => isDeselect c = false) calls)
  /\ (selectorMode t = Subtract -> Forall (fun c => isSelect c = false) calls).
Proof.
  intros calls sphere shown.
  assert (Hact : active t = true ->
                 calls = map (fun i => interact i sphere) shown
                         ++ match selectorMode t with
                            | Add => map (fun i => selectPoints i sphere) shown
                            | Subtract => map (fun i => deselectPoints i sphere) shown
                            end).
  { intros Ha. unfold calls, frame. rewrite Ha. cbn [negb].
    rewrite !forShownOctrees_map. destruct (selectorMode t); reflexivity. }
  assert (Hin : active t = false -> calls = []).
  { intros Ha. unfold calls, frame. now rewrite Ha. }
  split; [intros []; reflexivity|].
  split; [exact Hin|]. split; [exact Hact|].
  split; [|split; [|split]].
  - intros Ha i Hi. rewrite (Hact Ha). apply in_or_app. left.
    apply in_map_iff. eauto.
  - intros a b ca cb Hca Hcb Hia Hsb.
    destruct (active t) eqn:Ha; [|rewrite (Hin eq_refl) in Hca; discriminate Hca].
    rewrite (Hact eq_refl) in Hca, Hcb.
    set (pre := map (fun i => interact i sphere) shown) in *.
    set (post := match selectorMode t with
                 | Add => map (fun i => selectPoints i sphere) shown
                 | Subtract => map (fun i => deselectPoints i sphere) shown
                 end) in *.
    assert (Hpre : Forall (fun c => isSelect c || isDeselect c = false) pre).
    { unfold pre. apply List.Forall_forall. intros c Hc.
      apply in_map_iff in Hc. destruct Hc as (i & <- & _). reflexivity. }
    assert (Hpost : Forall (fun c => isInteract c = false) post).
    { unfold post. apply List.Forall_forall. intros c Hc.
      destruct (selectorMode t); apply in_map_iff in Hc;
        destruct Hc as (i & <- & _); reflexivity. }
    destruct (decide (a < length pre)%nat) as [Hla|Hla].
    + destruct (decide (b < length pre)%nat) as [Hlb|Hlb]; [|lia].
      rewrite lookup_app_l in Hcb by assumption.
      rewrite Forall_lookup in Hpre. rewrite (Hpre b cb Hcb) in Hsb. discriminate Hsb.
    + rewrite lookup_app_r in Hca by lia.
      rewrite Forall_lookup in Hpost. rewrite (Hpost _ ca Hca) in Hia. discriminate Hia.
  - intros Hm. unfold calls, frame. destruct (negb (active t)); [constructor|].
    rewrite Hm, !forShownOctrees_map. apply Forall_app. split;
      apply List.Forall_forall; intros c Hc; apply in_map_iff in Hc;
      destruct Hc as (i & <- & _); reflexivity.
  - intros Hm. unfold calls, frame. destruct (negb (active t)); [constructor|].
    rewrite Hm, !forShownOctrees_map. apply Forall_app. split;
      apply List.Forall_forall; intros c Hc; apply in_map_iff in Hc;
      destruct Hc as (i & <- & _); reflexivity.
Qed.

End SelectorFacts.

(** ** Selection state of the resident points *)

Module Selection.
Import LidarViewer.

(** Modelled from the spec: LidarOctree, whose source is not at hand.  The
    design document keeps one selection flag per currently resident point,
    has [interact] walk the nodes that meet the interactor's region, and has
    [selectPoints] and [deselectPoints] set and clear the flags of the
    resident points inside the region (the add and subtract of the selector
    modes).  An octree is the list of its resident points with their
    flags. *)
Record ResidentPoint := mkResident { r_position : Vec3 float; r_selected : bool }.
Definition LidarOctree : Type := list ResidentPoint.

Definition sqr (x : float) : float := (x * x)%float.

(** Inside the sphere of the interactor: squared distance to the centre at
    most the squared radius. *)
Definition inside (x : Interactor) (p : Vec3 float) : bool :=
  PrimFloat.leb
    (sqr (vx p - vx (i_center x)) + sqr (vy p - vy (i_center x))
     + sqr (vz p - vz (i_center x)))%float
    (sqr (i_radius x)).

Definition setFlag (x : Interactor) (flag : bool) (o : LidarOctree) : LidarOctree :=
  map (fun rp => if inside x (r_position rp)
                 then mkResident (r_position rp) flag
                 else rp) o.

Definition octree_interact (x : Interactor) (o : LidarOctree) : LidarOctree := o.
Definition octree_selectPoints (x : Interactor) (o : LidarOctree) : LidarOctree :=
  setFlag x true o.
Definition octree_deselectPoints (x : Interactor) (o : LidarOctree) : LidarOctree :=
  setFlag x false o.

(** The effect of a frame's calls on the application's octrees. *)
Definition perform (c : OctreeCall) (octrees : list LidarOctree) : list LidarOctree :=
  match c with
  | interact i x => alter (octree_interact x) i octrees
  | selectPoints i x => alter (octree_selectPoints x) i octrees
  | deselectPoints i x => alter (octree_deselectPoints x) i octrees
  end.

Definition performAll (calls : list OctreeCall) (octrees : list LidarOctree)
  : list LidarOctree := foldl (fun os c => perform c os) octrees calls.

(** One frame of a tool, applied to the octrees. *)
Definition runFrame (application : Application) (devicePosition : Vec3 float)
    (scaling : float) (t : PointSelectorTool) (octrees : list LidarOctree)
  : list LidarOctree :=
  performAll (frame application devicePosition scaling t) octrees.

(** No resident point inside the sphere is selected yet: the selection to
    add is disjoint from the present one. *)
Definition disjoint (x : Interactor) (o : LidarOctree) : Prop :=
  forall rp, In rp o -> inside x (r_position rp) = true -> r_selected rp = false.

End Selection.

Section SelectionFacts.
Import LidarViewer Selection.

Lemma deselect_select (x : Interactor) (o : LidarOctree) :
  octree_deselectPoints x (octree_selectPoints x o) = octree_deselectPoints x o.
Proof.
  unfold octree_deselectPoints, octree_selectPoints, setFlag.
  rewrite map_map. apply map_ext. intros [p s]. cbn [r_position].
  destruct (inside x p) eqn:E; cbn [r_position]; now rewrite E.
Qed.

Lemma deselect_disjoint (x : Interactor) (o : LidarOctree) :
  disjoint x o -> octree_deselectPoints x o = o.
Proof.
  unfold disjoint, octree_deselectPoints, setFlag. intros H.
  induction o as [|[p s] o IH]; cbn [map]; [reflexivity|].
  rewrite IH by (intros rp Hrp; apply H; now right).
  f_equal. cbn [r_position]. destruct (inside x p) eqn:E; [|reflexivity].
  f_equal. symmetry. exact (H (mkResident p s) (or_introl eq_refl) E).
Qed.

Lemma performAll_lookup (f : LidarOctree -> LidarOctree) (mk : nat -> OctreeCall) :
  (forall i os, perform (mk i) os = alter f i os) ->
  forall (idxs : list nat) (os : list LidarOctree) (k : nat),
    NoDup idxs ->
    performAll (map mk idxs) os !! k
    = if decide (k ∈ idxs) then f <$> os !! k else os !! k.
Proof.
  intros Hmk. unfold performAll.
  induction idxs as [|i idxs IH]; intros os k Hnd; cbn [map foldl].
  - destruct (decide (k ∈ [])) as [Hin|]; [|reflexivity].
    now apply elem_of_nil in Hin.
  - apply list.NoDup_cons in Hnd as [Hi Hnd].
    rewrite IH by assumption. rewrite Hmk.
    destruct (decide (k = i)) as [->|Hne].
    + rewrite list_lookup_alter_eq.
      destruct (decide (i ∈ idxs)) as [Hin|_]; [contradiction|].
      destruct (decide (i ∈ i :: idxs)) as [_|Hn]; [reflexivity|].
      exfalso. apply Hn. apply elem_of_cons. now left.
    + rewrite list_lookup_alter_ne by congruence.
      destruct (decide (k ∈ idxs)) as [Hin|Hin];
        destruct (decide (k ∈ i :: idxs)) as [Hin'|Hin']; try reflexivity.
      * exfalso. apply Hin'. apply elem_of_cons. now right.
      * exfalso. apply elem_of_cons in Hin' as [->|]; [now apply Hne|contradiction].
Qed.

Lemma performAll_app (c1 c2 : list OctreeCall) (os : list LidarOctree) :
  performAll (c1 ++ c2) os = performAll c2 (performAll c1 os).
Proof. unfold performAll. apply foldl_app. Qed.

Lemma shownOctrees_NoDup (application : Application) : NoDup (shownOctrees application).
Proof. unfold shownOctrees. apply list.NoDup_filter, NoDup_seq. Qed.

End SelectionFacts.

Section SelectionTheorem.
Import LidarViewer Selection.

Lemma frame_active (application : Application) (devicePosition : Vec3 float)
    (scaling : float) (t : PointSelectorTool) :
  active t = true ->
  frame application devicePosition scaling t
  = map (fun i => interact i (mkInteractor devicePosition (scaling * radius t)%float))
        (shownOctrees application)
    ++ match selectorMode t with
       | Add =>
           map (fun i => selectPoints i
                           (mkInteractor devicePosition (scaling * radius t)%float))
               (shownOctrees application)
       | Subtract =>
           map (fun i => deselectPoints i
                           (mkInteractor devicePosition (scaling * radius t)%float))
               (shownOctrees application)
       end.
Proof.
  intros Ha. unfold frame. rewrite Ha. cbn [negb].
  rewrite !forShownOctrees_map. destruct (selectorMode t); reflexivity.
Qed.

Lemma runFrame_lookup (application : Application) (devicePosition : Vec3 float)
    (scaling : float) (t : PointSelectorTool) (octrees : list LidarOctree) (k : nat) :
  active t = true ->
  let sphere := mkInteractor devicePosition (scaling * radius t)%float in
  runFrame application devicePosition scaling t octrees !! k
  = if decide (k ∈ shownOctrees application)
    then (match selectorMode t with
          | Add => octree_selectPoints sphere
          | Subtract => octree_deselectPoints sphere
          end) <$> octrees !! k
    else octrees !! k.
Proof.
  intros Ha sphere. unfold runFrame. rewrite (frame_active _ _ _ _ Ha).
  fold sphere. rewrite performAll_app.
  pose proof (shownOctrees_NoDup application) as Hnd.
  destruct (selectorMode t).
  - rewrite (performAll_lookup (octree_selectPoints sphere)
               (fun i => selectPoints i sphere)) by (reflexivity || assumption).
    rewrite (performAll_lookup (octree_interact sphere)
               (fun i => interact i sphere)) by (reflexivity || assumption).
    destruct (decide (k ∈ shownOctrees application)); [|reflexivity].
    destruct (octrees !! k); reflexivity.
  - rewrite (performAll_lookup (octree_deselectPoints sphere)
               (fun i => deselectPoints i sphere)) by (reflexivity || assumption).
    rewrite (performAll_lookup (octree_interact sphere)
               (fun i => interact i sphere)) by (reflexivity || assumption).
    destruct (decide (k ∈ shownOctrees application)); [|reflexivity].
    destruct (octrees !! k); reflexivity.
Qed.

(** C5.  A frame of an active tool in Add mode applies [selectPoints] to
    every shown octree and one in Subtract mode applies [deselectPoints],
    and leaves the other octrees alone.  Selecting the points in a sphere
    and then deselecting the same sphere leaves exactly the flags that
    deselecting alone would leave; when no resident point inside the sphere
    was selected before (the added selection is disjoint from the present
    one), every octree is back in its state from before the selection. *)
Theorem select_then_deselect_restores
    (application : Application) (devicePosition : Vec3 float) (scaling : float)
    (tAdd tSub : PointSelectorTool) (octrees : list LidarOctree) :
  active tAdd = true -> selectorMode tAdd = Add ->
  active tSub = true -> selectorMode tSub = Subtract ->
  radius tSub = radius tAdd ->
  let sphere := mkInteractor devicePosition (scaling * radius tAdd)%float in
  let selected := runFrame application devicePosition scaling tAdd octrees in
  let deselected := runFrame application devicePosition scaling tSub selected in
  (forall k, selected !! k
             = if decide (k ∈ shownOctrees application)
               then octree_selectPoints sphere <$> octrees !! k
               else octrees !! k)
  /\ (forall k, deselected !! k
                = if decide (k ∈ shownOctrees application)
                  then octree_deselectPoints sphere <$> octrees !! k
                  else octrees !! k)
  /\ ((forall k o, k ∈ shownOctrees application -> octrees !! k = Some o ->
                   disjoint sphere o) ->
      deselected = octrees).
Proof.
  intros HaA HmA HaS HmS Hr sphere selected deselected.
  assert (Hsel : forall k, selected !! k
                           = if decide (k ∈ shownOctrees application)
                             then octree_selectPoints sphere <$> octrees !! k
                             else octrees !! k).
  { intros k. unfold selected. rewrite runFrame_lookup by assumption.
    rewrite HmA. reflexivity. }
  assert (Hdes : forall k, deselected !! k
                           = if decide (k ∈ shownOctrees application)
                             then octree_deselectPoints sphere <$> octrees !! k
                             else octrees !! k).
  { intros k. unfold deselected. rewrite runFrame_lookup by assumption.
    rewrite HmS, Hr. fold sphere. rewrite Hsel.
    destruct (decide (k ∈ shownOctrees application)); [|reflexivity].
    destruct (octrees !! k) as [o|]; [|reflexivity].
    cbn. now rewrite deselect_select. }
  split; [exact Hsel|]. split; [exact Hdes|].
  intros Hdisj. apply list_eq. intros k. rewrite Hdes.
  destruct (decide (k ∈ shownOctrees application)) as [Hk|]; [|reflexivity].
  destruct (octrees !! k) as [o|] eqn:Eo; [|reflexivity].
  cbn. f_equal. apply deselect_disjoint. exact (Hdisj k o Hk Eo).
Qed.

End SelectionTheorem.

(** *** The sphere of radius 0.1 about (0.5, 0.5, 0.5) *)

Module SelectionSample.
Import LidarViewer Selection.

Definition application : Application :=
  mkApplication 3 [true; false; true] 0.1%float Add.

Definition centre : Vec3 float := (mkVec3 0.5 0.5 0.5)%float.

Definition adder : PointSelectorTool :=
  buttonCallback true (initialize application PointSelectorTool_new).
Definition subtractor : PointSelectorTool :=
  mkPointSelectorTool 0.1%float Subtract 3 true.

Definition unselected (x y z : float) : ResidentPoint := mkResident (mkVec3 x y z) false.

(** Octree 0 has points inside and outside the sphere, none selected;
    octree 1 is hidden; octree 2 has a selected point outside the sphere. *)
Definition octrees : list LidarOctree :=
  [ [unselected 0.5 0.5 0.5; unselected 0.55 0.5 0.45; unselected 0.9 0.1 0.5];
    [unselected 0.5 0.5 0.5];
    [mkResident (mkVec3 0.7 0.5 0.5)%float true; unselected 0.5 0.45 0.5] ].

Example add_frame_calls :
  frame application centre 1%float adder
  = [ interact 0 (mkInteractor centre 0.1%float);
      interact 2 (mkInteractor centre 0.1%float);
      selectPoints 0 (mkInteractor centre 0.1%float);
      selectPoints 2 (mkInteractor centre 0.1%float) ].
Proof. reflexivity. Qed.

Example selection_after_add :
  map (map r_selected) (runFrame application centre 1%float adder octrees)
  = [[true; true; false]; [false]; [true; true]].
Proof. reflexivity. Qed.

(** A point selected before and lying inside the sphere does not get its
    flag back: the add and the subtract are inverse only on disjoint
    selections. *)
Example overlapping_selection_not_restored :
  map (map r_selected)
      (runFrame application centre 1%float subtractor
         (runFrame application centre 1%float adder
            [[mkResident centre true]]))
  = [[false]].
Proof. reflexivity. Qed.

End SelectionSample.

Lemma select_then_deselect_restores_witness :
  Selection.runFrame SelectionSample.application SelectionSample.centre 1%float
    SelectionSample.subtractor
    (Selection.runFrame SelectionSample.application SelectionSample.centre 1%float
       SelectionSample.adder SelectionSample.octrees)
  = SelectionSample.octrees.
Proof.
  apply (select_then_deselect_restores
           SelectionSample.application SelectionSample.centre 1%float
           SelectionSample.adder SelectionSample.subtractor SelectionSample.octrees
           eq_refl eq_refl eq_refl eq_refl eq_refl).
  intros k o Hk Ho rp Hrp Hin.
  destruct k as [|[|[|k]]]; try discriminate Ho; injection Ho as <-.
  - destruct Hrp as [<-|[<-|[<-|[]]]]; reflexivity.
  - destruct Hrp as [<-|[]]; reflexivity.
  - destruct Hrp as [<-|[<-|[]]]; [discriminate Hin|reflexivity].
Defined.

Lemma frame_interacts_before_selecting_witness :
  LidarViewer.frame SelectionSample.application SelectionSample.centre 1%float
    SelectionSample.adder
  = [ LidarViewer.interact 0 (LidarViewer.mkInteractor SelectionSample.centre 0.1%float);
      LidarViewer.interact 2 (LidarViewer.mkInteractor SelectionSample.centre 0.1%float);
      LidarViewer.selectPoints 0 (LidarViewer.mkInteractor SelectionSample.centre 0.1%float);
      LidarViewer.selectPoints 2 (LidarViewer.mkInteractor SelectionSample.centre 0.1%float) ].
Proof.
  exact (proj1 (proj2 (proj2 (frame_interacts_before_selecting
                                SelectionSample.application SelectionSample.centre
                                1%float SelectionSample.adder)))
           eq_refl).
Defined.

(** ** Saved-primitive files (Primitive.cpp, the primitive classes,
       LidarViewer.cpp) *)

(** IO::File read front to back: the bytes not yet read. *)
Module SeqFile.

Definition t : Type := list byte.

Definition read (n : nat) (f : t) : result exn (list byte * t) :=
  if decide (n <= length f)%nat then Ok (take n f, drop n f) else Err ReadError.

Definition eof (f : t) : bool := match f with [] => true | _ => false end.

(** [skip<T>(n)] with [n * sizeof(T)] bytes: reads them and drops them. *)
Definition skip (n : nat) (f : t) : result exn t :=
  '(_, f) <- read n f ;; Ok f.

Definition read_u8 (f : t) : result exn (Z * t) :=
  '(bs, f) <- read 1 f ;; Ok (LE.decode bs, f).
Definition read_u16 (f : t) : result exn (Z * t) :=
  '(bs, f) <- read 2 f ;; Ok (LE.decode bs, f).
Definition read_u32 (f : t) : result exn (Z * t) :=
  '(bs, f) <- read 4 f ;; Ok (LE.decode bs, f).
Definition read_i32 (f : t) : result exn (Z * t) :=
  '(bs, f) <- read 4 f ;; Ok (LE.signed 32 (LE.decode bs), f).
Definition read_u64 (f : t) : result exn (Z * t) :=
  '(bs, f) <- read 8 f ;; Ok (LE.decode bs, f).
Definition read_f64 (f : t) : result exn (float * t) :=
  '(bs, f) <- read 8 f ;; Ok (Float64.decode bs, f).
Definition read_f64_3 (f : t) : result exn (Vec3 float * t) :=
  '(x, f) <- read_f64 f ;; '(y, f) <- read_f64 f ;; '(z, f) <- read_f64 f ;;
  Ok (mkVec3 x y z, f).
Definition read_f64_2 (f : t) : result exn (float * float * t) :=
  '(x, f) <- read_f64 f ;; '(y, f) <- read_f64 f ;; Ok (x, y, f).
Definition read_i32_2 (f : t) : result exn (Z * Z * t) :=
  '(x, f) <- read_i32 f ;; '(y, f) <- read_i32 f ;; Ok (x, y, f).

End SeqFile.

(** Misc::writeCppString and Misc::readCppString of the toolkit's string
    marshaller: an interface, with the round trip the toolkit provides for
    the strings it can marshal. *)
Class StringMarshaller := {
  writeCppString : string -> list byte;
  readCppString : SeqFile.t -> result exn (string * SeqFile.t);
  marshallable : string -> Prop;
  readCppString_write :
    forall s rest, marshallable s -> readCppString (writeCppString s ++ rest) = Ok (s, rest);
  readCppString_shorter :
    forall f s rest, readCppString f = Ok (s, rest) -> (length rest <= length f)%nat
}.

Module Primitives.
Section PrimitiveFile.
Context {SM : StringMarshaller}.

(** class Primitive: what is written to files. *)
Record Primitive_ := mkPrimitive {
  numPoints : Z;       (* Misc::UInt64 *)
  rms : float;
  label : string
}.

(** class PointPrimitive, and SpherePrimitive with its radius. *)
Record PointPrimitive_ := mkPointPrimitive { pointBase : Primitive_; point : Vec3 float }.

(** class LinePrimitive, and CylinderPrimitive with radius and grid. *)
Record LinePrimitive_ := mkLinePrimitive {
  lineBase : Primitive_;
  lineCenter : Vec3 float;
  axis : Vec3 float;
  axisLength : float;           (* [length] in the source *)
  lineExtents : float * float
}.

(** class PlanePrimitive, and BruntonPrimitive, which adds no field. *)
Record PlanePrimitive_ := mkPlanePrimitive {
  planeBase : Primitive_;
  planeCenter : Vec3 float;
  normal : Vec3 float;
  axes : Vec3 float * Vec3 float;
  planeExtents : (float * float) * (float * float);
  planeNumLines : Z * Z         (* int numLines[2] *)
}.

(** The dynamic type of a primitive object. *)
Inductive Primitive : Type :=
| PointPrimitive (p : PointPrimitive_)
| SpherePrimitive (p : PointPrimitive_) (radius : float)
| LinePrimitive (l : LinePrimitive_)
| CylinderPrimitive (l : LinePrimitive_) (radius : float) (numLines : Z * Z)
| PlanePrimitive (p : PlanePrimitive_)
| BruntonPrimitive (p : PlanePrimitive_).

Definition add3 (p v : Vec3 float) : Vec3 float := Vec3_zip PrimFloat.add p v.
Definition neg3 (v : Vec3 float) : Vec3 float := Vec3_map PrimFloat.opp v.
Definition enc3 (v : Vec3 float) : list byte :=
  Float64.encode (vx v) ++ Float64.encode (vy v) ++ Float64.encode (vz v).
Definition enc2 (e : float * float) : list byte :=
  Float64.encode (fst e) ++ Float64.encode (snd e).
Definition encInt2 (n : Z * Z) : list byte := LE.encode 4 (fst n) ++ LE.encode 4 (snd n).

(** *** write(IO::File&,const Vector& translation) *)

Definition Primitive_write (b : Primitive_) (translation : Vec3 float) : list byte :=
  (* Write the number of points and the approximation RMS: *)
  LE.encode 8 (numPoints b) ++ Float64.encode (rms b)
  (* Write the primitive label: *)
  ++ writeCppString (label b).

Definition PointPrimitive_write (p : PointPrimitive_) (translation : Vec3 float) : list byte :=
  Primitive_write (pointBase p) translation
  (* Write the translated point: *)
  ++ enc3 (add3 (point p) translation).

Definition SpherePrimitive_write (p : PointPrimitive_) (radius : float)
    (translation : Vec3 float) : list byte :=
  PointPrimitive_write p translation ++ Float64.encode radius.

Definition LinePrimitive_write (l : LinePrimitive_) (translation : Vec3 float) : list byte :=
  Primitive_write (lineBase l) translation
  (* Write the translated center point: *)
  ++ enc3 (add3 (lineCenter l) translation)
  (* Write the axis direction and length: *)
  ++ enc3 (axis l) ++ Float64.encode (axisLength l)
  (* Write the extents of the line's visual representation: *)
  ++ enc2 (lineExtents l).

Definition CylinderPrimitive_write (l : LinePrimitive_) (radius : float)
    (numLines : Z * Z) (translation : Vec3 float) : list byte :=
  LinePrimitive_write l translation ++ Float64.encode radius ++ encInt2 numLines.

Definition PlanePrimitive_write (p : PlanePrimitive_) (translation : Vec3 float) : list byte :=
  Primitive_write (planeBase p) translation
  (* Write the translated center point and the normal vector: *)
  ++ enc3 (add3 (planeCenter p) translation) ++ enc3 (normal p)
  (* Write the plane's visual representation: *)
  ++ enc3 (fst (axes p)) ++ enc3 (snd (axes p))
  ++ enc2 (fst (planeExtents p)) ++ enc2 (snd (planeExtents p))
  ++ encInt2 (planeNumLines p).

(** The virtual call of [write(file,translation)] on a stored primitive. *)
Definition write (p : Primitive) (translation : Vec3 float) : list byte :=
  match p with
  | PointPrimitive d => PointPrimitive_write d translation
  | SpherePrimitive d r => SpherePrimitive_write d r translation
  | LinePrimitive d => LinePrimitive_write d translation
  | CylinderPrimitive d r n => CylinderPrimitive_write d r n translation
  | PlanePrimitive d => PlanePrimitive_write d translation
  | BruntonPrimitive d => PlanePrimitive_write d translation
  end.

(** *** read(IO::File&,const Vector& translation) *)

Definition Primitive_read (f : SeqFile.t) (translation : Vec3 float)
  : result exn (Primitive_ * SeqFile.t) :=
  (* Read the number of points and the approximation RMS: *)
  '(n, f) <- SeqFile.read_u64 f ;;
  '(r, f) <- SeqFile.read_f64 f ;;
  (* Read the primitive label: *)
  '(l, f) <- readCppString f ;;
  Ok (mkPrimitive n r l, f).

Definition PointPrimitive_read (f : SeqFile.t) (translation : Vec3 float)
  : result exn (PointPrimitive_ * SeqFile.t) :=
  '(b, f) <- Primitive_read f translation ;;
  (* Read the point and apply the translation: *)
  '(pt, f) <- SeqFile.read_f64_3 f ;;
  Ok (mkPointPrimitive b (add3 pt translation), f).

Definition SpherePrimitive_read (f : SeqFile.t) (translation : Vec3 float)
  : result exn (Primitive * SeqFile.t) :=
  '(d, f) <- PointPrimitive_read f translation ;;
  '(r, f) <- SeqFile.read_f64 f ;;
  Ok (SpherePrimitive d r, f).

Definition LinePrimitive_read (f : SeqFile.t) (translation : Vec3 float)
  : result exn (LinePrimitive_ * SeqFile.t) :=
  '(b, f) <- Primitive_read f translation ;;
  (* Read the center point and apply the translation: *)
  '(c, f) <- SeqFile.read_f64_3 f ;;
  (* Read the axis direction and length: *)
  '(a, f) <- SeqFile.read_f64_3 f ;;
  '(len, f) <- SeqFile.read_f64 f ;;
  (* Read the extents of the line's visual representation: *)
  '(e0, e1, f) <- SeqFile.read_f64_2 f ;;
  Ok (mkLinePrimitive b (add3 c translation) a len (e0, e1), f).

Definition CylinderPrimitive_read (f : SeqFile.t) (translation : Vec3 float)
  : result exn (Primitive * SeqFile.t) :=
  '(d, f) <- LinePrimitive_read f translation ;;
  '(r, f) <- SeqFile.read_f64 f ;;
  '(n0, n1, f) <- SeqFile.read_i32_2 f ;;
  Ok (CylinderPrimitive d r (n0, n1), f).

Definition PlanePrimitive_read (f : SeqFile.t) (translation : Vec3 float)
  : result exn (PlanePrimitive_ * SeqFile.t) :=
  '(b, f) <- Primitive_read f translation ;;
  (* Read the center point and the normal vector and apply the translation: *)
  '(c, f) <- SeqFile.read_f64_3 f ;;
  '(n, f) <- SeqFile.read_f64_3 f ;;
  (* Read the plane's visual representation: *)
  '(a0, f) <- SeqFile.read_f64_3 f ;;
  '(a1, f) <- SeqFile.read_f64_3 f ;;
  '(e00, e01, f) <- SeqFile.read_f64_2 f ;;
  '(e10, e11, f) <- SeqFile.read_f64_2 f ;;
  '(l0, l1, f) <- SeqFile.read_i32_2 f ;;
  Ok (mkPlanePrimitive b (add3 c translation) n (a0, a1) ((e00, e01), (e10, e11)) (l0, l1), f).

(** *** Saving: LidarViewer::savePrimitivesOKCallback *)

Definition headerText : string :=
  "LidarViewer primitive file v1.3       " ++ String "010"%char EmptyString.

(** [char header[40]; snprintf(header,sizeof(header),text)]: at most 39
    characters and the terminating zero. *)
Definition snprintf40 (text : string) : list byte :=
  take 39 (list_byte_of_string text) ++ [x00].

Definition header : list byte := snprintf40 headerText.

(** The dynamic casts that pick the type tag. *)
Definition isPointPrimitive (p : Primitive) : bool :=
  match p with PointPrimitive _ | SpherePrimitive _ _ => true | _ => false end.
Definition isSpherePrimitive (p : Primitive) : bool :=
  match p with SpherePrimitive _ _ => true | _ => false end.
Definition isLinePrimitive (p : Primitive) : bool :=
  match p with LinePrimitive _ | CylinderPrimitive _ _ _ => true | _ => false end.
Definition isCylinderPrimitive (p : Primitive) : bool :=
  match p with CylinderPrimitive _ _ _ => true | _ => false end.
Definition isPlanePrimitive (p : Primitive) : bool :=
  match p with PlanePrimitive _ | BruntonPrimitive _ => true | _ => false end.
Definition isBruntonPrimitive (p : Primitive) : bool :=
  match p with BruntonPrimitive _ => true | _ => false end.

(** The bytes written for the type of a primitive. *)
Definition writeType (p : Primitive) : list byte :=
  if isPointPrimitive p then
    (if isSpherePrimitive p then LE.encode 4 1 else LE.encode 4 0)
  else if isLinePrimitive p then
    (if isCylinderPrimitive p then LE.encode 4 3 else LE.encode 4 2)
  else if isPlanePrimitive p then
    (if isBruntonPrimitive p then LE.encode 4 5 else LE.encode 4 4)
  else [].

Definition savePrimitives (offsets : Vec3 float) (primitives : list Primitive) : list byte :=
  (* Write the file header: *)
  header
  (* Write all primitives to the file: *)
  ++ concat (map (fun p => writeType p ++ write p offsets) primitives).

(** *** Loading: LidarViewer::loadPrimitivesOKCallback *)

(** [strcmp(a,b)==0] for [a] in a buffer and [b] a literal with its
    terminating zero; running off either array is not reached when the
    buffer is as long as the literal. *)
Fixpoint strcmp_eq (a b : list byte) : bool :=
  match a, b with
  | x :: a', y :: b' =>
      if Byte.eqb x y then (if Byte.eqb x x00 then true else strcmp_eq a' b')
      else false
  | _, _ => false
  end.

(** One turn of the reading loop: the type tag and the primitive. *)
Definition readPrimitive (offsets : Vec3 float) (f : SeqFile.t)
  : result exn (Primitive * SeqFile.t) :=
  (* Read the primitive type: *)
  '(primitiveType, f) <- SeqFile.read_i32 f ;;
  (* Create a primitive of the appropriate type: *)
  match primitiveType with
  | 0 => '(d, f) <- PointPrimitive_read f (neg3 offsets) ;; Ok (PointPrimitive d, f)
  | 1 => SpherePrimitive_read f (neg3 offsets)
  | 2 => '(d, f) <- LinePrimitive_read f (neg3 offsets) ;; Ok (LinePrimitive d, f)
  | 3 => CylinderPrimitive_read f (neg3 offsets)
  | 4 => '(d, f) <- PlanePrimitive_read f (neg3 offsets) ;; Ok (PlanePrimitive d, f)
  | 5 => '(d, f) <- PlanePrimitive_read f (neg3 offsets) ;; Ok (BruntonPrimitive d, f)
  | _ => Err (UnknownPrimitiveType primitiveType)
  end.

(** The reading loop; [primitives] are the primitives stored so far, which
    stay in the application when an exception ends the loop. *)
Fixpoint readPrimitives (fuel : nat) (offsets : Vec3 float) (f : SeqFile.t)
    (primitives : list Primitive) : list Primitive * option exn :=
  if SeqFile.eof f then (primitives, None)
  else
    match fuel with
    | O => (primitives, Some OutOfFuel)
    | S fuel' =>
        match readPrimitive offsets f with
        | Ok (newPrimitive, f') =>
            (* Store the primitive: *)
            readPrimitives fuel' offsets f' (primitives ++ [newPrimitive])
        | Err e => (primitives, Some e)
        end
    end.

(** The primitives added to the application and the exception reported to
    the user, if any. *)
Definition loadPrimitives (offsets : Vec3 float) (file : list byte)
  : list Primitive * option exn :=
  (* Read the file header: *)
  match SeqFile.read 40 file with
  | Err e => ([], Some e)
  | Ok (hdr, f) =>
      if negb (strcmp_eq hdr header) then ([], Some NotValidPrimitiveFile)
      else
        (* Read all primitives in the file: *)
        readPrimitives (length f) offsets f []
  end.

End PrimitiveFile.
End Primitives.

(** ** Facts about sequential reads *)

Lemma SeqFile_read_app (d rest : list byte) :
  SeqFile.read (length d) (d ++ rest) = Ok (d, rest).
Proof.
  unfold SeqFile.read. rewrite length_app.
  destruct (decide (length d <= length d + length rest)%nat); [|lia].
  now rewrite take_app_length, drop_app_length.
Qed.

Lemma SeqFile_read_shorter (n : nat) (f : SeqFile.t) (bs : list byte) (f' : SeqFile.t) :
  SeqFile.read n f = Ok (bs, f') -> (length f' + n = length f)%nat.
Proof.
  unfold SeqFile.read. destruct (decide (n <= length f)%nat); [|discriminate].
  intros [= _ <-]. rewrite length_drop. lia.
Qed.

(** A double after a trip through its byte image. *)
Definition reread (x : float) : float := Float64.decode (Float64.encode x).
Definition reread3 (v : Vec3 float) : Vec3 float := Vec3_map reread v.

Lemma read_u64_encode (n : Z) (rest : list byte) :
  SeqFile.read_u64 (LE.encode 8 n ++ rest) = Ok (n mod 2 ^ 64, rest).
Proof.
  unfold SeqFile.read_u64.
  rewrite <- (encode_length 8 n) at 1. rewrite SeqFile_read_app. cbn [rbind].
  now rewrite decode_encode.
Qed.

Lemma read_i32_encode (n : Z) (rest : list byte) :
  SeqFile.read_i32 (LE.encode 4 n ++ rest) = Ok (LE.signed 32 (n mod 2 ^ 32), rest).
Proof.
  unfold SeqFile.read_i32.
  rewrite <- (encode_length 4 n) at 1. rewrite SeqFile_read_app. cbn [rbind].
  now rewrite decode_encode.
Qed.

Lemma read_f64_encode (x : float) (rest : list byte) :
  SeqFile.read_f64 (Float64.encode x ++ rest) = Ok (reread x, rest).
Proof.
  unfold SeqFile.read_f64.
  rewrite <- (Float64_encode_length x) at 1. rewrite SeqFile_read_app. reflexivity.
Qed.

Lemma read_f64_3_enc3 (v : Vec3 float) (rest : list byte) :
  SeqFile.read_f64_3 (Primitives.enc3 v ++ rest) = Ok (reread3 v, rest).
Proof.
  unfold SeqFile.read_f64_3, Primitives.enc3. rewrite <- !app_assoc.
  rewrite !read_f64_encode. cbn [rbind].
  rewrite !read_f64_encode. cbn [rbind].
  rewrite !read_f64_encode. reflexivity.
Qed.

Lemma read_f64_2_enc2 (e : float * float) (rest : list byte) :
  SeqFile.read_f64_2 (Primitives.enc2 e ++ rest) = Ok (reread (fst e), reread (snd e), rest).
Proof.
  unfold SeqFile.read_f64_2, Primitives.enc2. rewrite <- !app_assoc.
  rewrite !read_f64_encode. cbn [rbind].
  rewrite !read_f64_encode. reflexivity.
Qed.

Lemma read_i32_2_encInt2 (n : Z * Z) (rest : list byte) :
  SeqFile.read_i32_2 (Primitives.encInt2 n ++ rest)
  = Ok (LE.signed 32 (fst n mod 2 ^ 32), LE.signed 32 (snd n mod 2 ^ 32), rest).
Proof.
  unfold SeqFile.read_i32_2, Primitives.encInt2. rewrite <- !app_assoc.
  rewrite !read_i32_encode. cbn [rbind].
  rewrite !read_i32_encode. reflexivity.
Qed.

(** ** Facts about saved-primitive files *)

Section PrimitiveFileFacts.
Context {SM : StringMarshaller}.
Import Primitives.

(** The type tag of the saved-primitive format. *)
Definition typeTag (p : Primitive) : Z :=
  match p with
  | PointPrimitive _ => 0
  | SpherePrimitive _ _ => 1
  | LinePrimitive _ => 2
  | CylinderPrimitive _ _ _ => 3
  | PlanePrimitive _ => 4
  | BruntonPrimitive _ => 5
  end.

Definition marshallablePrimitive (p : Primitive) : Prop :=
  match p with
  | PointPrimitive d | SpherePrimitive d _ => marshallable (label (pointBase d))
  | LinePrimitive d | CylinderPrimitive d _ _ => marshallable (label (lineBase d))
  | PlanePrimitive d | BruntonPrimitive d => marshallable (label (planeBase d))
  end.

(** A primitive after saving with [offsets] and loading with the same
    offsets: integers reduced to their width, doubles through their byte
    image, the position translated forth and back. *)
Definition reloadBase (b : Primitive_) : Primitive_ :=
  mkPrimitive (numPoints b mod 2 ^ 64) (reread (rms b)) (label b).
Definition reloadPosition (offsets p : Vec3 float) : Vec3 float :=
  add3 (reread3 (add3 p offsets)) (neg3 offsets).
Definition reloadInt2 (n : Z * Z) : Z * Z :=
  (LE.signed 32 (fst n mod 2 ^ 32), LE.signed 32 (snd n mod 2 ^ 32)).
Definition reloadPoint (offsets : Vec3 float) (d : PointPrimitive_) : PointPrimitive_ :=
  mkPointPrimitive (reloadBase (pointBase d)) (reloadPosition offsets (point d)).
Definition reloadLine (offsets : Vec3 float) (d : LinePrimitive_) : LinePrimitive_ :=
  mkLinePrimitive (reloadBase (lineBase d)) (reloadPosition offsets (lineCenter d))
    (reread3 (axis d)) (reread (axisLength d))
    (reread (fst (lineExtents d)), reread (snd (lineExtents d))).
Definition reloadPlane (offsets : Vec3 float) (d : PlanePrimitive_) : PlanePrimitive_ :=
  mkPlanePrimitive (reloadBase (planeBase d)) (reloadPosition offsets (planeCenter d))
    (reread3 (normal d)) (reread3 (fst (axes d)), reread3 (snd (axes d)))
    ((reread (fst (fst (planeExtents d))), reread (snd (fst (planeExtents d)))),
     (reread (fst (snd (planeExtents d))), reread (snd (snd (planeExtents d)))))
    (reloadInt2 (planeNumLines d)).
Definition reload (offsets : Vec3 float) (p : Primitive) : Primitive :=
  match p with
  | PointPrimitive d => PointPrimitive (reloadPoint offsets d)
  | SpherePrimitive d r => SpherePrimitive (reloadPoint offsets d) (reread r)
  | LinePrimitive d => LinePrimitive (reloadLine offsets d)
  | CylinderPrimitive d r n =>
      CylinderPrimitive (reloadLine offsets d) (reread r) (reloadInt2 n)
  | PlanePrimitive d => PlanePrimitive (reloadPlane offsets d)
  | BruntonPrimitive d => BruntonPrimitive (reloadPlane offsets d)
  end.

Lemma Primitive_read_write (b : Primitive_) (t t' : Vec3 float) (rest : list byte) :
  marshallable (label b) ->
  Primitive_read (Primitive_write b t ++ rest) t' = Ok (reloadBase b, rest).
Proof.
  intros Hl. unfold Primitive_read, Primitive_write. rewrite <- !app_assoc.
  rewrite read_u64_encode. cbn [rbind].
  rewrite read_f64_encode. cbn [rbind].
  rewrite readCppString_write by assumption. reflexivity.
Qed.

Lemma PointPrimitive_read_write (d : PointPrimitive_) (o : Vec3 float) (rest : list byte) :
  marshallable (label (pointBase d)) ->
  PointPrimitive_read (PointPrimitive_write d o ++ rest) (neg3 o)
  = Ok (reloadPoint o d, rest).
Proof.
  intros Hl. unfold PointPrimitive_read, PointPrimitive_write. rewrite <- !app_assoc.
  rewrite Primitive_read_write by assumption. cbn [rbind].
  rewrite read_f64_3_enc3. reflexivity.
Qed.

Lemma LinePrimitive_read_write (d : LinePrimitive_) (o : Vec3 float) (rest : list byte) :
  marshallable (label (lineBase d)) ->
  LinePrimitive_read (LinePrimitive_write d o ++ rest) (neg3 o)
  = Ok (reloadLine o d, rest).
Proof.
  intros Hl. unfold LinePrimitive_read, LinePrimitive_write. rewrite <- !app_assoc.
  rewrite Primitive_read_write by assumption. cbn [rbind].
  rewrite read_f64_3_enc3. cbn [rbind].
  rewrite read_f64_3_enc3. cbn [rbind].
  rewrite read_f64_encode. cbn [rbind].
  rewrite read_f64_2_enc2. reflexivity.
Qed.

Lemma PlanePrimitive_read_write (d : PlanePrimitive_) (o : Vec3 float) (rest : list byte) :
  marshallable (label (planeBase d)) ->
  PlanePrimitive_read (PlanePrimitive_write d o ++ rest) (neg3 o)
  = Ok (reloadPlane o d, rest).
Proof.
  intros Hl. unfold PlanePrimitive_read, PlanePrimitive_write. rewrite <- !app_assoc.
  rewrite Primitive_read_write by assumption. cbn [rbind].
  do 4 (rewrite read_f64_3_enc3; cbn [rbind]).
  do 2 (rewrite read_f64_2_enc2; cbn [rbind]).
  rewrite read_i32_2_encInt2. reflexivity.
Qed.

Lemma writeType_tag (p : Primitive) : writeType p = LE.encode 4 (typeTag p).
Proof. destruct p; reflexivity. Qed.

Lemma readPrimitive_write (p : Primitive) (o : Vec3 float) (rest : list byte) :
  marshallablePrimitive p ->
  readPrimitive o (writeType p ++ write p o ++ rest) = Ok (reload o p, rest).
Proof.
  intros Hl. unfold readPrimitive. rewrite writeType_tag, read_i32_encode. cbn [rbind].
  destruct p as [d|d r|d|d r n|d|d]; cbn [typeTag write marshallablePrimitive] in *.
  - change (LE.signed 32 (0 mod 2 ^ 32)) with 0. cbn match.
    rewrite PointPrimitive_read_write by assumption. reflexivity.
  - change (LE.signed 32 (1 mod 2 ^ 32)) with 1. cbn match.
    unfold SpherePrimitive_read, SpherePrimitive_write. rewrite <- !app_assoc.
    rewrite PointPrimitive_read_write by assumption. cbn [rbind].
    rewrite read_f64_encode. reflexivity.
  - change (LE.signed 32 (2 mod 2 ^ 32)) with 2. cbn match.
    rewrite LinePrimitive_read_write by assumption. reflexivity.
  - change (LE.signed 32 (3 mod 2 ^ 32)) with 3. cbn match.
    unfold CylinderPrimitive_read, CylinderPrimitive_write. rewrite <- !app_assoc.
    rewrite LinePrimitive_read_write by assumption. cbn [rbind].
    rewrite read_f64_encode. cbn [rbind].
    rewrite read_i32_2_encInt2. reflexivity.
  - change (LE.signed 32 (4 mod 2 ^ 32)) with 4. cbn match.
    rewrite PlanePrimitive_read_write by assumption. reflexivity.
  - change (LE.signed 32 (5 mod 2 ^ 32)) with 5. cbn match.
    rewrite PlanePrimitive_read_write by assumption. reflexivity.
Qed.

End PrimitiveFileFacts.

Section PrimitiveFileLoop.
Context {SM : StringMarshaller}.
Import Primitives.

(** The records of a saved-primitive file. *)
Definition records (offsets : Vec3 float) (ps : list Primitive) : list byte :=
  concat (map (fun p => writeType p ++ write p offsets) ps).

Lemma writeType_length (p : Primitive) : length (writeType p) = 4%nat.
Proof. rewrite writeType_tag. apply encode_length. Qed.

Lemma records_length (offsets : Vec3 float) (ps : list Primitive) :
  (length ps <= length (records offsets ps))%nat.
Proof.
  unfold records. induction ps as [|p ps IH]; cbn [map concat length]; [lia|].
  rewrite !length_app, writeType_length. lia.
Qed.

Lemma eof_encode (n : Z) (rest : list byte) : SeqFile.eof (LE.encode 4 n ++ rest) = false.
Proof. reflexivity. Qed.

Lemma readPrimitives_records (o : Vec3 float) (ps : list Primitive) :
  Forall marshallablePrimitive ps ->
  forall (fuel : nat) (rest : list byte) (acc : list Primitive),
    readPrimitives (length ps + fuel) o (records o ps ++ rest) acc
    = readPrimitives fuel o rest (acc ++ map (reload o) ps).
Proof.
  induction 1 as [|p ps Hp Hps IH]; intros fuel rest acc.
  - cbn. now rewrite app_nil_r.
  - unfold records. cbn [map concat length Nat.add]. fold (records o ps).
    rewrite <- !app_assoc. cbn [readPrimitives].
    rewrite writeType_tag at 1. rewrite eof_encode.
    rewrite readPrimitive_write by assumption.
    rewrite IH. cbn [map]. now rewrite <- app_assoc.
Qed.

(** *** Every turn of the loop consumes input *)

Ltac bind_step H :=
  match type of H with
  | rbind ?m _ = Ok _ =>
      let E := fresh "E" in
      let r := fresh "r" in
      destruct m as [r|] eqn:E; [cbn [rbind] in H | discriminate H];
      repeat match type of H with
             | context [match ?p with pair _ _ => _ end] => destruct p
             end
  end.

Lemma read_i32_shorter f z f' :
  SeqFile.read_i32 f = Ok (z, f') -> (length f' + 4 = length f)%nat.
Proof.
  unfold SeqFile.read_i32. intros H. bind_step H. injection H as _ <-.
  now apply SeqFile_read_shorter in E.
Qed.

Lemma read_u64_shorter f z f' :
  SeqFile.read_u64 f = Ok (z, f') -> (length f' <= length f)%nat.
Proof.
  unfold SeqFile.read_u64. intros H. bind_step H. injection H as _ <-.
  apply SeqFile_read_shorter in E. lia.
Qed.

Lemma read_f64_shorter f z f' :
  SeqFile.read_f64 f = Ok (z, f') -> (length f' <= length f)%nat.
Proof.
  unfold SeqFile.read_f64. intros H. bind_step H. injection H as _ <-.
  apply SeqFile_read_shorter in E. lia.
Qed.

Lemma read_f64_3_shorter f z f' :
  SeqFile.read_f64_3 f = Ok (z, f') -> (length f' <= length f)%nat.
Proof.
  unfold SeqFile.read_f64_3. intros H. do 3 bind_step H. injection H as _ <-.
  apply read_f64_shorter in E, E0, E1. lia.
Qed.

Lemma read_f64_2_shorter f x y f' :
  SeqFile.read_f64_2 f = Ok (x, y, f') -> (length f' <= length f)%nat.
Proof.
  unfold SeqFile.read_f64_2. intros H. do 2 bind_step H. injection H as _ _ <-.
  apply read_f64_shorter in E, E0. lia.
Qed.

Lemma read_i32_2_shorter f x y f' :
  SeqFile.read_i32_2 f = Ok (x, y, f') -> (length f' <= length f)%nat.
Proof.
  unfold SeqFile.read_i32_2. intros H. do 2 bind_step H. injection H as _ _ <-.
  apply read_i32_shorter in E, E0. lia.
Qed.

Lemma Primitive_read_shorter f t b f' :
  Primitive_read f t = Ok (b, f') -> (length f' <= length f)%nat.
Proof.
  unfold Primitive_read. intros H. do 3 bind_step H. injection H as _ <-.
  apply read_u64_shorter in E. apply read_f64_shorter in E0.
  apply readCppString_shorter in E1. lia.
Qed.

Lemma PointPrimitive_read_shorter f t d f' :
  PointPrimitive_read f t = Ok (d, f') -> (length f' <= length f)%nat.
Proof.
  unfold PointPrimitive_read. intros H. do 2 bind_step H. injection H as _ <-.
  apply Primitive_read_shorter in E. apply read_f64_3_shorter in E0. lia.
Qed.

Lemma LinePrimitive_read_shorter f t d f' :
  LinePrimitive_read f t = Ok (d, f') -> (length f' <= length f)%nat.
Proof.
  unfold LinePrimitive_read. intros H. do 5 bind_step H. injection H as _ <-.
  apply Primitive_read_shorter in E. apply read_f64_3_shorter in E0, E1.
  apply read_f64_shorter in E2. apply read_f64_2_shorter in E3. lia.
Qed.

Lemma PlanePrimitive_read_shorter f t d f' :
  PlanePrimitive_read f t = Ok (d, f') -> (length f' <= length f)%nat.
Proof.
  unfold PlanePrimitive_read. intros H. do 8 bind_step H. injection H as _ <-.
  apply Primitive_read_shorter in E. apply read_f64_3_shorter in E0, E1, E2, E3.
  apply read_f64_2_shorter in E4, E5. apply read_i32_2_shorter in E6. lia.
Qed.

Lemma readPrimitive_shorter o f p f' :
  readPrimitive o f = Ok (p, f') -> (length f' < length f)%nat.
Proof.
  unfold readPrimitive. intros H. bind_step H.
  apply read_i32_shorter in E.
  destruct z as [|[[[|p2|]|[|p2|]|]|[[|p2|]|[|p2|]|]|]|]; try discriminate H;
    unfold SpherePrimitive_read, CylinderPrimitive_read in H;
    repeat bind_step H; injection H as _ <-;
    repeat match goal with
           | E : PointPrimitive_read _ _ = Ok _ |- _ =>
               apply PointPrimitive_read_shorter in E
           | E : LinePrimitive_read _ _ = Ok _ |- _ =>
               apply LinePrimitive_read_shorter in E
           | E : PlanePrimitive_read _ _ = Ok _ |- _ =>
               apply PlanePrimitive_read_shorter in E
           | E : SeqFile.read_f64 _ = Ok _ |- _ => apply read_f64_shorter in E
           | E : SeqFile.read_i32_2 _ = Ok _ |- _ => apply read_i32_2_shorter in E
           end;
    lia.
Qed.

(** The loop ends before its budget does: any budget of at least the
    number of unread bytes gives the same result. *)
Lemma readPrimitives_fuel (o : Vec3 float) :
  forall (fuel1 fuel2 : nat) (f : SeqFile.t) (acc : list Primitive),
    (length f <= fuel1)%nat -> (length f <= fuel2)%nat ->
    readPrimitives fuel1 o f acc = readPrimitives fuel2 o f acc.
Proof.
  induction fuel1 as [|fuel1 IH]; intros fuel2 f acc H1 H2.
  - destruct f; [|cbn in H1; lia]. destruct fuel2; reflexivity.
  - destruct f as [|b f]; [destruct fuel2; reflexivity|].
    destruct fuel2 as [|fuel2]; [cbn in H2; lia|].
    cbn [readPrimitives SeqFile.eof].
    destruct (readPrimitive o (b :: f)) as [[p f']|e] eqn:E; [|reflexivity].
    apply readPrimitive_shorter in E. cbn [length] in *.
    apply IH; lia.
Qed.

End PrimitiveFileLoop.

Section PrimitiveFileTheorem.
Context {SM : StringMarshaller}.
Import Primitives.

Lemma strcmp_eq_literal (l : list byte) :
  forallb (fun b => negb (Byte.eqb b x00)) l = true ->
  forall a, length a = length (l ++ [x00]) ->
            (strcmp_eq a (l ++ [x00]) = true <-> a = l ++ [x00]).
Proof.
  induction l as [|y l IH]; intros Hnz a Hlen.
  - destruct a as [|x [|? ?]]; try discriminate Hlen. cbn.
    destruct (Byte.eqb x x00) eqn:E.
    + apply Byte.byte_dec_bl in E. subst x. split; reflexivity || auto.
    + split; [discriminate|]. intros [= ->]. discriminate E.
  - cbn [forallb] in Hnz. apply andb_prop in Hnz as [Hy Hnz].
    destruct a as [|x a]; [discriminate Hlen|]. cbn [app strcmp_eq].
    injection Hlen as Hlen. specialize (IH Hnz a Hlen).
    destruct (Byte.eqb x y) eqn:E.
    + apply Byte.byte_dec_bl in E. subst x.
      apply negb_true_iff in Hy. rewrite Hy.
      rewrite IH. split; [now intros ->|now intros [= ->]].
    + split; [discriminate|]. intros [= -> _].
      rewrite Byte.byte_dec_lb in E by reflexivity. discriminate E.
Qed.

Lemma header_length : length header = 40%nat.
Proof. reflexivity. Qed.

Lemma header_text : header = list_byte_of_string headerText ++ [x00].
Proof. reflexivity. Qed.

Lemma strcmp_header (hdr : list byte) :
  length hdr = 40%nat -> (strcmp_eq hdr header = true <-> hdr = header).
Proof.
  intros Hlen. rewrite header_text.
  apply strcmp_eq_literal; [reflexivity|].
  rewrite <- header_text, header_length. exact Hlen.
Qed.

Lemma loadPrimitives_header (offsets : Vec3 float) (body : list byte) :
  loadPrimitives offsets (header ++ body)
  = readPrimitives (length body) offsets body [].
Proof.
  unfold loadPrimitives.
  change 40%nat with (length header). rewrite SeqFile_read_app.
  replace (strcmp_eq header header) with true; [reflexivity|].
  symmetry. now apply strcmp_header.
Qed.

Lemma readPrimitive_unknown (offsets : Vec3 float) (tag : Z) (rest : list byte) :
  LE.signed 32 (tag mod 2 ^ 32) < 0 \/ 5 < LE.signed 32 (tag mod 2 ^ 32) ->
  readPrimitive offsets (LE.encode 4 tag ++ rest)
  = Err (UnknownPrimitiveType (LE.signed 32 (tag mod 2 ^ 32))).
Proof.
  intros Ht. unfold readPrimitive. rewrite read_i32_encode. cbn [rbind].
  destruct (LE.signed 32 (tag mod 2 ^ 32))
    as [|[[[|p2|]|[|p2|]|]|[[|p2|]|[|p2|]|]|]|]; try reflexivity; lia.
Qed.

Lemma savePrimitives_records (offsets : Vec3 float) (ps : list Primitive) :
  savePrimitives offsets ps = header ++ records offsets ps.
Proof. reflexivity. Qed.

Lemma typeTag_reload (offsets : Vec3 float) (ps : list Primitive) :
  map typeTag (map (reload offsets) ps) = map typeTag ps.
Proof. rewrite map_map. apply map_ext. intros []; reflexivity. Qed.

(** C7.  A saved-primitive file is the 40-byte header, the version-1.3
    text with its terminating zero, followed by one record per primitive: a
    little-endian int32 type tag (0 point, 1 sphere, 2 line, 3 cylinder,
    4 plane, 5 Brunton) and the fields of the primitive.  Loading reports
    a read error for a file without 40 bytes, "not a valid version 1.3
    primitive file" for any other first 40 bytes than the header, and
    "unknown primitive type" at a record whose tag lies outside 0..5,
    keeping the primitives read before it; on a saved file it creates one
    primitive per record, of the saved types and in the saved order, and
    stops at the end of the file. *)
Theorem saved_primitive_file_format (offsets : Vec3 float) :
  (length header = 40%nat /\ header = list_byte_of_string headerText ++ [x00])
  /\ (forall p : Primitive,
         writeType p = LE.encode 4 (typeTag p) /\ 0 <= typeTag p <= 5)
  /\ (forall ps : list Primitive,
         savePrimitives offsets ps
         = header ++ concat (map (fun p => LE.encode 4 (typeTag p) ++ write p offsets) ps))
  /\ (forall file : list byte,
         (length file < 40)%nat -> loadPrimitives offsets file = ([], Some ReadError))
  /\ (forall file : list byte,
         (40 <= length file)%nat -> take 40 file <> header ->
         loadPrimitives offsets file = ([], Some NotValidPrimitiveFile))
  /\ (forall (ps : list Primitive) (tag : Z) (rest : list byte),
         Forall marshallablePrimitive ps ->
         LE.signed 32 (tag mod 2 ^ 32) < 0 \/ 5 < LE.signed 32 (tag mod 2 ^ 32) ->
         loadPrimitives offsets (savePrimitives offsets ps ++ LE.encode 4 tag ++ rest)
         = (map (reload offsets) ps,
            Some (UnknownPrimitiveType (LE.signed 32 (tag mod 2 ^ 32)))))
  /\ (forall ps : list Primitive,
         Forall marshallablePrimitive ps ->
         loadPrimitives offsets (savePrimitives offsets ps)
         = (map (reload offsets) ps, None)
         /\ map typeTag (map (reload offsets) ps) = map typeTag ps)
  /\ (forall (body : list byte) (fuel : nat),
         (length body <= fuel)%nat ->
         readPrimitives fuel offsets body [] = loadPrimitives offsets (header ++ body)).
Proof.
  split; [split; [apply header_length|apply header_text]|].
  split; [intros p; split; [apply writeType_tag|destruct p; cbn; lia]|].
  split.
  { intros ps. unfold savePrimitives. f_equal. f_equal.
    apply map_ext. intros p. now rewrite writeType_tag. }
  split.
  { intros file Hlen. unfold loadPrimitives, SeqFile.read.
    destruct (decide (40 <= length file)%nat); [lia|reflexivity]. }
  split.
  { intros file Hlen Hne. unfold loadPrimitives, SeqFile.read.
    destruct (decide (40 <= length file)%nat); [|lia].
    destruct (strcmp_eq (take 40 file) header) eqn:E; [|reflexivity].
    apply strcmp_header in E; [contradiction|].
    rewrite length_take. lia. }
  split.
  { intros ps tag rest Hps Htag.
    rewrite savePrimitives_records, <- app_assoc, loadPrimitives_header.
    set (tail := LE.encode 4 tag ++ rest).
    rewrite (readPrimitives_fuel offsets _
               (length ps + S (length (records offsets ps ++ tail)))) by lia.
    rewrite readPrimitives_records by assumption.
    cbn [readPrimitives]. unfold tail at 1. rewrite eof_encode.
    unfold tail. rewrite readPrimitive_unknown by assumption. reflexivity. }
  split.
  { intros ps Hps. split; [|apply typeTag_reload].
    rewrite savePrimitives_records, loadPrimitives_header.
    rewrite <- (app_nil_r (records offsets ps)) at 2.
    rewrite (readPrimitives_fuel offsets _ (length ps + length (records offsets ps)))
      by (rewrite ?app_nil_r; lia).
    rewrite readPrimitives_records by assumption.
    destruct (length (records offsets ps)); reflexivity. }
  intros body fuel Hfuel. rewrite loadPrimitives_header.
  apply readPrimitives_fuel; lia.
Qed.

End PrimitiveFileTheorem.

(** *** A string marshaller: 32-bit length, then the characters *)

Module LengthPrefixed.

Definition write (s : string) : list byte :=
  LE.encode 4 (Z.of_nat (String.length s)) ++ list_byte_of_string s.

Definition read (f : SeqFile.t) : result exn (string * SeqFile.t) :=
  '(n, f) <- SeqFile.read 4 f ;;
  '(bs, f) <- SeqFile.read (Z.to_nat (LE.decode n)) f ;;
  Ok (string_of_list_byte bs, f).

Definition fits (s : string) : Prop := Z.of_nat (String.length s) < 2 ^ 32.

End LengthPrefixed.

Lemma list_byte_of_string_length (s : string) :
  length (list_byte_of_string s) = String.length s.
Proof.
  induction s as [|a s IH]; [reflexivity|].
  change (list_byte_of_string (String a s))
    with (byte_of_ascii a :: list_byte_of_string s).
  cbn [length String.length]. now rewrite IH.
Qed.

Lemma LengthPrefixed_read_write (s : string) (rest : list byte) :
  LengthPrefixed.fits s ->
  LengthPrefixed.read (LengthPrefixed.write s ++ rest) = Ok (s, rest).
Proof.
  unfold LengthPrefixed.fits, LengthPrefixed.read, LengthPrefixed.write. intros Hs.
  rewrite <- app_assoc.
  rewrite <- (encode_length 4 (Z.of_nat (String.length s))) at 1.
  rewrite SeqFile_read_app. cbn [rbind].
  rewrite decode_encode.
  change (256 ^ Z.of_nat 4) with (2 ^ 32). rewrite Z.mod_small by lia.
  rewrite Nat2Z.id, <- list_byte_of_string_length, SeqFile_read_app. cbn [rbind].
  now rewrite string_of_list_byte_of_string.
Qed.

Lemma LengthPrefixed_read_shorter (f : SeqFile.t) (s : string) (rest : SeqFile.t) :
  LengthPrefixed.read f = Ok (s, rest) -> (length rest <= length f)%nat.
Proof.
  unfold LengthPrefixed.read.
  destruct (SeqFile.read 4 f) as [[n f1]|] eqn:E1; [|discriminate]. cbn [rbind].
  destruct (SeqFile.read _ f1) as [[bs f2]|] eqn:E2; [|discriminate]. cbn [rbind].
  intros [= _ <-]. apply SeqFile_read_shorter in E1, E2. lia.
Qed.

#[export] Instance LengthPrefixedMarshaller : StringMarshaller := {|
  writeCppString := LengthPrefixed.write;
  readCppString := LengthPrefixed.read;
  marshallable := LengthPrefixed.fits;
  readCppString_write := LengthPrefixed_read_write;
  readCppString_shorter := LengthPrefixed_read_shorter
|}.

(** *** Four primitives of a session with offset (100, 200, 300) *)

Module PrimitiveSample.
Import Primitives.

Definition offsets : Vec3 float := (mkVec3 100 200 300)%float.

Definition corner : Primitive :=
  PointPrimitive (mkPointPrimitive (mkPrimitive 3 0 "corner") (mkVec3 1 2 3)%float).
Definition ball : Primitive :=
  SpherePrimitive (mkPointPrimitive (mkPrimitive 250 0.125 "ball") (mkVec3 4 5 6)%float)
                  0.5%float.
Definition pipe : Primitive :=
  CylinderPrimitive
    (mkLinePrimitive (mkPrimitive 1000 0.25 "") (mkVec3 0 0 1)%float
       (mkVec3 0 0 1)%float 2%float (-1, 1)%float)
    0.25%float (8, 16).
Definition wall : Primitive :=
  PlanePrimitive
    (mkPlanePrimitive (mkPrimitive 5000 0.5 "wall") (mkVec3 7 8 9)%float
       (mkVec3 1 0 0)%float ((mkVec3 0 1 0)%float, (mkVec3 0 0 1)%float)
       ((-2, 2)%float, (-1, 1)%float) (5, 3)).

Definition primitives : list Primitive := [corner; ball; pipe; wall].

Definition file : list byte := savePrimitives offsets primitives.

Example file_length : length file = (40 + 54 + 60 + 112 + 164)%nat.
Proof. reflexivity. Qed.

Example file_reloads : loadPrimitives offsets file = (primitives, None).
Proof. reflexivity. Qed.

Example older_version_rejected :
  loadPrimitives offsets
    (snprintf40 ("LidarViewer primitive file v1.2       " ++ String "010"%char EmptyString)
     ++ records offsets primitives)
  = ([], Some NotValidPrimitiveFile).
Proof. reflexivity. Qed.

Example unknown_tag_rejected :
  loadPrimitives offsets (savePrimitives offsets [corner; ball] ++ LE.encode 4 6)
  = ([corner; ball], Some (UnknownPrimitiveType 6)).
Proof. reflexivity. Qed.

Example truncated_record :
  loadPrimitives offsets (take 100 file) = ([corner], Some ReadError).
Proof. reflexivity. Qed.

End PrimitiveSample.

Lemma saved_primitive_file_format_witness :
  Primitives.loadPrimitives PrimitiveSample.offsets
    (Primitives.savePrimitives PrimitiveSample.offsets PrimitiveSample.primitives)
  = (map (reload PrimitiveSample.offsets) PrimitiveSample.primitives, None).
Proof.
  apply (proj1 (proj2 (proj2 (proj2 (proj2 (proj2 (proj2
           (saved_primitive_file_format PrimitiveSample.offsets)))))))).
  repeat constructor.
Defined.

(** ** Saving and loading translate by the offset vector and back *)

Lemma units_opp (x : float) :
  Float64.units (- x) = option_map Z.opp (Float64.units x).
Proof.
  unfold Float64.units. rewrite opp_spec.
  destruct (Prim2SF x) as [s|s| |s m e]; try reflexivity.
  cbn [SFopp option_map]. f_equal. destruct s; cbn [negb]; lia.
Qed.

(** A sum computed exactly, then the sum with the negated second operand
    computed exactly, has the value of the first operand. *)
Lemma exact_add_cancel (x o : float) :
  Float64.exact_add x o = true ->
  Float64.exact_add (x + o) (- o) = true ->
  Float64.units (x + o + - o) = Float64.units x /\ Float64.units x <> None.
Proof.
  unfold Float64.exact_add. rewrite units_opp.
  destruct (Float64.units x) as [a|]; [|discriminate].
  destruct (Float64.units o) as [b|]; [|discriminate].
  destruct (Float64.units (x + o)) as [c|]; [|discriminate].
  cbn [option_map].
  destruct (Float64.units (x + o + - o)) as [d|]; [|discriminate].
  intros H1 H2. apply Z.eqb_eq in H1, H2. split; [f_equal; lia|discriminate].
Qed.

Section PrimitiveCoordinates.
Context {SM : StringMarshaller}.
Import Primitives.

(** The characteristic point of a primitive: the point of a point or
    sphere, the centre of a line, cylinder, plane or Brunton plane. *)
Definition characteristicPoint (p : Primitive) : Vec3 float :=
  match p with
  | PointPrimitive d | SpherePrimitive d _ => point d
  | LinePrimitive d | CylinderPrimitive d _ _ => lineCenter d
  | PlanePrimitive d | BruntonPrimitive d => planeCenter d
  end.

(** The part of class Primitive. *)
Definition primitiveBase (p : Primitive) : Primitive_ :=
  match p with
  | PointPrimitive d | SpherePrimitive d _ => pointBase d
  | LinePrimitive d | CylinderPrimitive d _ _ => lineBase d
  | PlanePrimitive d | BruntonPrimitive d => planeBase d
  end.

Definition exact_add3 (p v : Vec3 float) : bool :=
  Float64.exact_add (vx p) (vx v) && Float64.exact_add (vy p) (vy v)
  && Float64.exact_add (vz p) (vz v).

Definition units3 (p : Vec3 float) : Vec3 (option Z) := Vec3_map Float64.units p.

Lemma reread3_id (v : Vec3 float) : reread3 v = v.
Proof.
  destruct v as [x y z]. unfold reread3, Vec3_map, reread. cbn [vx vy vz].
  now rewrite !Float64_decode_encode.
Qed.

Lemma characteristicPoint_reload (offsets : Vec3 float) (p : Primitive) :
  characteristicPoint (reload offsets p)
  = add3 (add3 (characteristicPoint p) offsets) (neg3 offsets).
Proof.
  destruct p; cbn [characteristicPoint reload reloadPoint reloadLine reloadPlane
                     point lineCenter planeCenter];
    unfold reloadPosition; now rewrite reread3_id.
Qed.

Lemma write_characteristicPoint (p : Primitive) (offsets : Vec3 float) :
  exists tail : list byte,
    write p offsets
    = Primitive_write (primitiveBase p) offsets
      ++ enc3 (add3 (characteristicPoint p) offsets) ++ tail.
Proof.
  destruct p as [d|d r|d|d r n|d|d]; cbn [write primitiveBase characteristicPoint];
    unfold SpherePrimitive_write, CylinderPrimitive_write, PointPrimitive_write,
      LinePrimitive_write, PlanePrimitive_write.
  - exists []. now rewrite app_nil_r.
  - eexists. rewrite <- !app_assoc. reflexivity.
  - eexists. reflexivity.
  - eexists. rewrite <- !app_assoc. reflexivity.
  - eexists. reflexivity.
  - eexists. reflexivity.
Qed.

Lemma loadPrimitives_saved (offsets : Vec3 float) (ps : list Primitive) :
  Forall marshallablePrimitive ps ->
  loadPrimitives offsets (savePrimitives offsets ps) = (map (reload offsets) ps, None).
Proof.
  intros Hps. rewrite savePrimitives_records, loadPrimitives_header.
  rewrite <- (app_nil_r (records offsets ps)) at 2.
  rewrite (readPrimitives_fuel offsets _ (length ps + length (records offsets ps)))
    by (rewrite ?app_nil_r; lia).
  rewrite readPrimitives_records by assumption.
  destruct (length (records offsets ps)); reflexivity.
Qed.

Lemma add3_cancel (c offsets : Vec3 float) :
  exact_add3 c offsets = true ->
  exact_add3 (add3 c offsets) (neg3 offsets) = true ->
  units3 (add3 (add3 c offsets) (neg3 offsets)) = units3 c
  /\ vx (units3 c) <> None /\ vy (units3 c) <> None /\ vz (units3 c) <> None.
Proof.
  destruct c as [x y z], offsets as [ox oy oz].
  unfold exact_add3, units3, add3, neg3, Vec3_zip, Vec3_map. cbn [vx vy vz].
  intros H1 H2.
  apply andb_prop in H1 as [H1 Hz1]. apply andb_prop in H1 as [Hx1 Hy1].
  apply andb_prop in H2 as [H2 Hz2]. apply andb_prop in H2 as [Hx2 Hy2].
  destruct (exact_add_cancel x ox Hx1 Hx2) as [-> ?].
  destruct (exact_add_cancel y oy Hy1 Hy2) as [-> ?].
  destruct (exact_add_cancel z oz Hz1 Hz2) as [-> ?].
  auto.
Qed.

(** C8.  Saving translates the characteristic point of every primitive by
    the offset vector: the record holds the byte image of position +
    offsets after the fields of class Primitive.  Loading a saved list
    succeeds, gives one primitive per saved primitive in the same order,
    and adds the negated offset vector to what it read, so the loaded
    position is (position + offsets) + (-offsets), component by component in
    double arithmetic.  Whenever both additions are exact in every
    component, the loaded position has the value of the saved one. *)
Theorem save_load_restores_coordinates (offsets : Vec3 float) (ps : list Primitive) :
  Forall marshallablePrimitive ps ->
  (forall p : Primitive, p ∈ ps ->
     exists tail : list byte,
       write p offsets
       = Primitive_write (primitiveBase p) offsets
         ++ enc3 (add3 (characteristicPoint p) offsets) ++ tail)
  /\ exists loaded : list Primitive,
       loadPrimitives offsets (savePrimitives offsets ps) = (loaded, None)
       /\ length loaded = length ps
       /\ forall (i : nat) (p : Primitive), ps !! i = Some p ->
            exists q : Primitive,
              loaded !! i = Some q
              /\ typeTag q = typeTag p
              /\ characteristicPoint q
                 = add3 (add3 (characteristicPoint p) offsets) (neg3 offsets)
              /\ (exact_add3 (characteristicPoint p) offsets = true ->
                  exact_add3 (add3 (characteristicPoint p) offsets) (neg3 offsets) = true ->
                  units3 (characteristicPoint q) = units3 (characteristicPoint p)
                  /\ vx (units3 (characteristicPoint p)) <> None
                  /\ vy (units3 (characteristicPoint p)) <> None
                  /\ vz (units3 (characteristicPoint p)) <> None).
Proof.
  intros Hps. split; [intros p _; apply write_characteristicPoint|].
  exists (map (reload offsets) ps).
  split; [now apply loadPrimitives_saved|].
  split; [apply length_map|].
  intros i p Hi. exists (reload offsets p).
  split; [now rewrite list_lookup_fmap, Hi|].
  split; [destruct p; reflexivity|].
  split; [apply characteristicPoint_reload|].
  rewrite characteristicPoint_reload. apply add3_cancel.
Qed.

End PrimitiveCoordinates.

Lemma save_load_restores_coordinates_witness :
  exists loaded : list Primitives.Primitive,
    Primitives.loadPrimitives PrimitiveSample.offsets
      (Primitives.savePrimitives PrimitiveSample.offsets PrimitiveSample.primitives)
    = (loaded, None)
    /\ length loaded = 4%nat.
Proof.
  destruct (save_load_restores_coordinates PrimitiveSample.offsets
              PrimitiveSample.primitives) as [_ (loaded & Hl & Hn & _)].
  - repeat constructor.
  - exists loaded. split; [exact Hl|exact Hn].
Defined.

(** In the sample both additions are exact for every primitive, and the
    loaded positions are the saved ones. *)
Example sample_additions_exact :
  forallb (fun p => exact_add3 (characteristicPoint p) PrimitiveSample.offsets
                    && exact_add3
                         (Primitives.add3 (characteristicPoint p) PrimitiveSample.offsets)
                         (Primitives.neg3 PrimitiveSample.offsets))
          PrimitiveSample.primitives = true.
Proof. vm_compute. reflexivity. Qed.

(** An addition that rounds: 1e-20 is lost against an offset of 1, and the
    loaded position is 0. *)
Example rounded_addition_is_not_undone :
  let offsets := (mkVec3 1 0 0)%float in
  let p := Primitives.PointPrimitive
             (Primitives.mkPointPrimitive (Primitives.mkPrimitive 1 0 "")
                (mkVec3 1e-20 0 0)%float) in
  exact_add3 (characteristicPoint p) offsets = false
  /\ Primitives.loadPrimitives offsets (Primitives.savePrimitives offsets [p])
     = ([Primitives.PointPrimitive
           (Primitives.mkPointPrimitive (Primitives.mkPrimitive 1 0 "")
              (mkVec3 0 0 0)%float)], None).
Proof. split; reflexivity. Qed.

(** ** Point-file loaders: LAS and ASCII xyzi (LidarPreprocessor.cpp) *)

Module PointFiles.
Section PointLoaders.

(** Geometry::OrthogonalTransformation<double,3> and the colour mask of
    the accumulator; the loaders never look at them. *)
Context {Transform ColorMask : Type}.

(** One call of [addPoint]: the raw position and colour handed over, and
    the point offset of the accumulator at the time of the call. *)
Record AddedPoint := mkAddedPoint {
  rawPosition : Vec3 float;
  rawColor : Vec3 float;
  offsetInForce : Vec3 float
}.

(** Modelled from the spec: class PointAccumulator, whose declaration is
    not part of the sources at hand.  [addPoint] applies the transform and
    subtracts the point offset, then buffers the point; the model keeps
    the calls in order, each with the offset it was made under, and the
    configuration the setters of the class change. *)
Record PointAccumulator := mkPointAccumulator {
  pointOffset : Vec3 float;
  transform : Transform;
  colorMask : ColorMask;
  added : list AddedPoint
}.

Definition getPointOffset (pa : PointAccumulator) : Vec3 float := pointOffset pa.

Definition setPointOffset (newPointOffset : Vec3 float) (pa : PointAccumulator)
  : PointAccumulator :=
  mkPointAccumulator newPointOffset (transform pa) (colorMask pa) (added pa).

Definition addPoint (p c : Vec3 float) (pa : PointAccumulator) : PointAccumulator :=
  mkPointAccumulator (pointOffset pa) (transform pa) (colorMask pa)
    (added pa ++ [mkAddedPoint p c (pointOffset pa)]).

(** What a loader prints to std::cout or std::cerr. *)
Inductive Diagnostic : Type :=
| WrongPointRecordLength (pointDataFormat pointDataRecordLength expected : Z)
    (* "Ignoring LAS file ... with point data format %d due to wrong point
       record length (%d instead of %d)" *)
| UnknownPointDataFormat (pointDataFormat : Z)
    (* "Ignoring LAS file ... due to unknown point data format %d" *)
| ShortFileHeader (pointDataOffset : Z)
    (* "Ignoring LAS file ... due to short file header (%d bytes)" *)
| PointParsingError (lineNumber : nat)
    (* "loadPointFileXyzi: Point parsing error in line %d" *).

(** How a call of a loader ends: the accumulator as the call leaves it,
    what was printed, and the exception that ended the call, if any. *)
Record Outcome := mkOutcome {
  accumulator : PointAccumulator;
  printed : list Diagnostic;
  thrown : option exn
}.

(** *** loadPointFileLas *)

Definition LASF : list byte := list_byte_of_string "LASF".

(** [memcmp(a,b,n)==0] for two arrays of [n] bytes. *)
Fixpoint memcmp_eq (a b : list byte) : bool :=
  match a, b with
  | [], [] => true
  | x :: a', y :: b' => Byte.eqb x y && memcmp_eq a' b'
  | _, _ => false
  end.

(** The fields of the LAS file header the loader keeps. *)
Record LasHeader := mkLasHeader {
  pointDataOffset : Z;          (* unsigned int *)
  pointDataFormat : Z;          (* unsigned char *)
  pointDataRecordLength : Z;    (* unsigned short *)
  numPointRecords : Z;          (* unsigned int *)
  scale : Vec3 float;
  offset : Vec3 float
}.

(** The header after the signature. *)
Definition readLasHeader (f : SeqFile.t) : result exn (LasHeader * SeqFile.t) :=
  f <- SeqFile.skip 2 f ;;  (* Ignore file source ID *)
  f <- SeqFile.skip 2 f ;;  (* Ignore reserved field *)
  f <- SeqFile.skip 4 f ;;  (* Ignore project ID *)
  f <- SeqFile.skip 2 f ;;  (* Ignore project ID *)
  f <- SeqFile.skip 2 f ;;  (* Ignore project ID *)
  f <- SeqFile.skip 8 f ;;  (* Ignore project ID *)
  f <- SeqFile.skip 2 f ;;  (* Ignore file version number *)
  f <- SeqFile.skip 32 f ;; (* Ignore system identifier *)
  f <- SeqFile.skip 32 f ;; (* Ignore generating software *)
  f <- SeqFile.skip 2 f ;;  (* Ignore file creation day of year *)
  f <- SeqFile.skip 2 f ;;  (* Ignore file creation year *)
  f <- SeqFile.skip 2 f ;;  (* Ignore header size *)
  '(pointDataOffset, f) <- SeqFile.read_u32 f ;;
  f <- SeqFile.skip 4 f ;;  (* Ignore number of variable-length records *)
  '(pointDataFormat, f) <- SeqFile.read_u8 f ;;
  '(pointDataRecordLength, f) <- SeqFile.read_u16 f ;;
  '(numPointRecords, f) <- SeqFile.read_u32 f ;;
  f <- SeqFile.skip 20 f ;; (* unsigned int numPointsByReturn[5], not used *)
  '(scale, f) <- SeqFile.read_f64_3 f ;;
  '(offset, f) <- SeqFile.read_f64_3 f ;;
  f <- SeqFile.skip 48 f ;; (* double max[i], min[i] for i<3, not used *)
  Ok (mkLasHeader pointDataOffset pointDataFormat pointDataRecordLength
        numPointRecords scale offset, f).

Definition expectedPointDataRecordLengths : list Z := [20; 28; 26; 34; 57; 63].
Definition haveTimes : list bool := [false; true; false; true; true; true].
Definition haveRgb : list bool := [false; false; true; true; false; false].

(** One turn of the loop over the point records, up to the class test:
    the position, the colour, the class bit and the rest of the file. *)
Definition readPointRecord (h : LasHeader) (skipToClass skipToColor skipToEnd : nat)
    (f : SeqFile.t) : result exn (Vec3 float * Vec3 float * Z * SeqFile.t) :=
  (* Read the point position: *)
  '(pos0, f) <- SeqFile.read_i32 f ;;
  '(pos1, f) <- SeqFile.read_i32 f ;;
  '(pos2, f) <- SeqFile.read_i32 f ;;
  let p := Vec3_zip PrimFloat.mul (Vec3_map float_of_Z (mkVec3 pos0 pos1 pos2)) (scale h) in
  (* Read the point intensity: *)
  '(intensity, f) <- SeqFile.read_u16 f ;;
  (* Skip to the point classification: *)
  f <- SeqFile.skip skipToClass f ;;
  (* Read the point classification: *)
  '(class, f) <- SeqFile.read_u8 f ;;
  let classBit := Z.shiftl 1 (Z.land class 0x1f) in
  (* Skip to the (optional) point color: *)
  f <- SeqFile.skip skipToColor f ;;
  '(c, f) <-
    (if nth (Z.to_nat (pointDataFormat h)) haveRgb false
     then
       (* Assign point color from stored RGB data: *)
       '(r, f) <- SeqFile.read_u16 f ;;
       '(g, f) <- SeqFile.read_u16 f ;;
       '(b, f) <- SeqFile.read_u16 f ;;
       Ok (Vec3_map float_of_Z (mkVec3 r g b), f)
     else
       (* Assign point color from intensity: *)
       Ok (Vec3_map float_of_Z (mkVec3 intensity intensity intensity), f)) ;;
  (* Skip any extra data at the end of the point record: *)
  f <- SeqFile.skip skipToEnd f ;;
  Ok (p, c, classBit, f).

(** The loop over the point records.  An exception leaves the loop, and
    the function, with the accumulator as it is. *)
Fixpoint readPointRecords (n : nat)
    (readRecord : SeqFile.t -> result exn (Vec3 float * Vec3 float * Z * SeqFile.t))
    (classMask : Z) (f : SeqFile.t) (pa : PointAccumulator)
  : PointAccumulator * option exn :=
  match n with
  | O => (pa, None)
  | S n' =>
      match readRecord f with
      | Err e => (pa, Some e)
      | Ok (p, c, classBit, f') =>
          readPointRecords n' readRecord classMask f'
            (if Z.land classMask classBit =? 0 then pa
             else (* Store the point: *) addPoint p c pa)
      end
  end.

Definition loadPointFileLas (pa : PointAccumulator) (file : list byte) (classMask : Z)
  : Outcome :=
  (* Read the LAS file header: *)
  match SeqFile.read 4 file with
  | Err e => mkOutcome pa [] (Some e)
  | Ok (signature, f) =>
  if negb (memcmp_eq signature LASF) then mkOutcome pa [] None
  else
  match readLasHeader f with
  | Err e => mkOutcome pa [] (Some e)
  | Ok (h, f) =>
  (* Check the point record format for sanity: *)
  let expected := nth (Z.to_nat (pointDataFormat h)) expectedPointDataRecordLengths 0 in
  if (pointDataFormat h <? 6) && (pointDataRecordLength h <? expected) then
    mkOutcome pa
      [WrongPointRecordLength (pointDataFormat h) (pointDataRecordLength h) expected] None
  else if 6 <=? pointDataFormat h then
    mkOutcome pa [UnknownPointDataFormat (pointDataFormat h)] None
  else
  let skipToClass := 1%nat in
  let skipToColor :=
    (2 * 1 + 2 + (if nth (Z.to_nat (pointDataFormat h)) haveTimes false then 8 else 0))%nat in
  let skipToEnd := Z.to_nat (pointDataRecordLength h - expected) in
  (* Skip to the beginning of the point records: *)
  if pointDataOffset h <? 227 then
    mkOutcome pa [ShortFileHeader (pointDataOffset h)] None
  else
  match SeqFile.skip (Z.to_nat (pointDataOffset h - 227)) f with
  | Err e => mkOutcome pa [] (Some e)
  | Ok f =>
  (* Apply the LAS offset to the point accumulator's point offset: *)
  let originalPointOffset := getPointOffset pa in
  let pa := setPointOffset (Primitives.add3 originalPointOffset (offset h)) pa in
  (* Read all points: *)
  match readPointRecords (Z.to_nat (numPointRecords h))
          (readPointRecord h skipToClass skipToColor skipToEnd) classMask f pa with
  | (pa, Some e) => mkOutcome pa [] (Some e)
  | (pa, None) =>
      (* Reset the point accumulator's point offset: *)
      mkOutcome (setPointOffset originalPointOffset pa) [] None
  end
  end
  end
  end.

(** *** loadPointFileXyzi *)

(** The file as its lines, each without the newline that ends it; the
    reader's newline is punctuation, so no number runs across lines. *)
Section Xyzi.

(** IO::ValueSource::readNumber on what is left of the current line: the
    number and the rest of the line behind it and the whitespace that
    follows, or nothing when the reader throws NumberError. *)
Variable readNumber : string -> option (float * string).

(** The conversion from double to float. *)
Variable toFloat : float -> float.

Definition isWhitespace (c : ascii) : bool :=
  match c with
  | " "%char | "009"%char | "011"%char | "012"%char | "013"%char => true
  | _ => false
  end.

Fixpoint skipWs (line : string) : string :=
  match line with
  | String c rest => if isWhitespace c then skipWs rest else line
  | EmptyString => line
  end.

(** The next character: at the end of the line, the newline. *)
Definition peekc (line : string) : ascii :=
  match line with
  | String c _ => c
  | EmptyString => "010"%char
  end.

(** The body of the try block up to the call of addPoint. *)
Definition parsePoint (line : string) : option (Vec3 float * Vec3 float) :=
  match readNumber line with
  | None => None
  | Some (p0, line) =>
  match readNumber line with
  | None => None
  | Some (p1, line) =>
  match readNumber line with
  | None => None
  | Some (p2, line) =>
  match readNumber line with
  | None => None
  | Some (i, line) =>
      let intensity := toFloat i in
      Some (mkVec3 p0 p1 p2, mkVec3 intensity intensity intensity)
  end
  end
  end
  end.

(** One turn of the loop over the lines; [line] starts behind the
    whitespace skipped at the end of the turn before. *)
Definition readLine (lineNumber : nat) (line : string)
    (s : PointAccumulator * list Diagnostic) : PointAccumulator * list Diagnostic :=
  let line := skipWs line in
  (* Check for comment or empty lines: *)
  if negb (Ascii.eqb (peekc line) "#") && negb (Ascii.eqb (peekc line) "010") then
    match parsePoint line with
    | Some (p, c) => (* Store the point: *) (addPoint p c (fst s), snd s)
    | None => (fst s, snd s ++ [PointParsingError lineNumber])
    end
  else s.

Fixpoint readLines (lines : list string) (lineNumber : nat)
    (s : PointAccumulator * list Diagnostic) : PointAccumulator * list Diagnostic :=
  match lines with
  | [] => s
  | line :: rest => readLines rest (S lineNumber) (readLine lineNumber line s)
  end.

Definition loadPointFileXyzi (pa : PointAccumulator) (lines : list string) : Outcome :=
  let '(pa, out) := readLines lines 1 (pa, []) in
  mkOutcome pa out None.

End Xyzi.

End PointLoaders.

Arguments PointAccumulator : clear implicits.
Arguments Outcome : clear implicits.

End PointFiles.

(** ** Facts about the LAS loader *)

Lemma SeqFile_read_ok (n : nat) (f : SeqFile.t) :
  (n <= length f)%nat -> SeqFile.read n f = Ok (take n f, drop n f).
Proof. intros H. unfold SeqFile.read. now destruct (decide (n <= length f)%nat). Qed.

Lemma SeqFile_read_short (n : nat) (f : SeqFile.t) :
  (length f < n)%nat -> SeqFile.read n f = Err ReadError.
Proof.
  intros H. unfold SeqFile.read. destruct (decide (n <= length f)%nat); [lia|reflexivity].
Qed.

Lemma SeqFile_skip_ok (n : nat) (f : SeqFile.t) :
  (n <= length f)%nat -> SeqFile.skip n f = Ok (drop n f).
Proof. intros H. unfold SeqFile.skip. now rewrite SeqFile_read_ok. Qed.

Lemma SeqFile_read_u8_ok (f : SeqFile.t) :
  (1 <= length f)%nat -> SeqFile.read_u8 f = Ok (LE.decode (take 1 f), drop 1 f).
Proof. intros H. unfold SeqFile.read_u8. now rewrite SeqFile_read_ok. Qed.

Lemma SeqFile_read_u16_ok (f : SeqFile.t) :
  (2 <= length f)%nat -> SeqFile.read_u16 f = Ok (LE.decode (take 2 f), drop 2 f).
Proof. intros H. unfold SeqFile.read_u16. now rewrite SeqFile_read_ok. Qed.

Lemma SeqFile_read_u32_ok (f : SeqFile.t) :
  (4 <= length f)%nat -> SeqFile.read_u32 f = Ok (LE.decode (take 4 f), drop 4 f).
Proof. intros H. unfold SeqFile.read_u32. now rewrite SeqFile_read_ok. Qed.

Lemma SeqFile_read_f64_3_ok (f : SeqFile.t) :
  (24 <= length f)%nat -> SeqFile.read_f64_3 f = Ok (decode3 f, drop 24 f).
Proof.
  intros H. unfold SeqFile.read_f64_3, SeqFile.read_f64, decode3.
  rewrite SeqFile_read_ok by lia. cbn [rbind].
  rewrite SeqFile_read_ok by (rewrite length_drop; lia). cbn [rbind].
  rewrite SeqFile_read_ok by (rewrite !length_drop; lia). cbn [rbind].
  rewrite !drop_drop. reflexivity.
Qed.

Lemma memcmp_eq_true (a b : list byte) : PointFiles.memcmp_eq a b = true <-> a = b.
Proof.
  revert b. induction a as [|x a IH]; intros [|y b]; cbn [PointFiles.memcmp_eq];
    try (split; [discriminate|discriminate]); [now split|].
  rewrite andb_true_iff, IH. split.
  - intros [E ->]. apply Byte.byte_dec_bl in E. now subst.
  - intros [= -> ->]. split; [now apply Byte.byte_dec_lb|reflexivity].
Qed.

(** The header fields by their byte positions in the file. *)
Definition lasHeaderOf (file : list byte) : PointFiles.LasHeader :=
  PointFiles.mkLasHeader
    (LE.decode (take 4 (drop 96 file)))
    (LE.decode (take 1 (drop 104 file)))
    (LE.decode (take 2 (drop 105 file)))
    (LE.decode (take 4 (drop 107 file)))
    (decode3 (drop 131 file))
    (decode3 (drop 155 file)).

Lemma readLasHeader_complete (file : list byte) :
  (227 <= length file)%nat ->
  PointFiles.readLasHeader (drop 4 file) = Ok (lasHeaderOf file, drop 227 file).
Proof.
  intros Hlen. unfold PointFiles.readLasHeader.
  repeat (first [ rewrite SeqFile_skip_ok by (rewrite length_drop; lia)
                | rewrite SeqFile_read_u32_ok by (rewrite length_drop; lia)
                | rewrite SeqFile_read_u16_ok by (rewrite length_drop; lia)
                | rewrite SeqFile_read_u8_ok by (rewrite length_drop; lia)
                | rewrite SeqFile_read_f64_3_ok by (rewrite length_drop; lia) ];
          cbn [rbind]; rewrite drop_drop; cbn [Nat.add]).
  reflexivity.
Qed.

Section LasLoaderFacts.
Context {Transform ColorMask : Type}.
Import PointFiles.

(** What the loop over the point records leaves alone, and what it adds. *)
Lemma readPointRecords_frame (n : nat) readRecord (classMask : Z) :
  forall (f : SeqFile.t) (pa : PointAccumulator Transform ColorMask),
    let r := readPointRecords n readRecord classMask f pa in
    pointOffset (fst r) = pointOffset pa
    /\ transform (fst r) = transform pa
    /\ colorMask (fst r) = colorMask pa
    /\ exists new : list AddedPoint,
         added (fst r) = added pa ++ new
         /\ Forall (fun q => offsetInForce q = pointOffset pa) new.
Proof.
  induction n as [|n IH]; intros f pa; cbn [readPointRecords].
  - cbn. repeat split. exists []. now rewrite app_nil_r.
  - destruct (readRecord f) as [[[[p c] classBit] f']|e].
    + destruct (Z.land classMask classBit =? 0).
      * apply IH.
      * specialize (IH f' (addPoint p c pa)). cbv zeta in IH.
        destruct IH as (Ho & Ht & Hc & new & Ha & Hn). cbn in Ho, Ht, Hc, Ha, Hn.
        cbv zeta. repeat split; try assumption.
        exists (mkAddedPoint p c (pointOffset pa) :: new).
        split; [now rewrite Ha, <- app_assoc|].
        constructor; [reflexivity|exact Hn].
    + cbn. repeat split. exists []. now rewrite app_nil_r.
Qed.

(** The call by the way it ends. *)
Inductive LasRun (pa : PointAccumulator Transform ColorMask) (file : list byte) (classMask : Z)
  : Outcome Transform ColorMask -> Prop :=
| las_rejected (out : list Diagnostic) (e : option exn) :
    (* the call ended before the loader touched the accumulator *)
    LasRun pa file classMask (mkOutcome pa out e)
| las_interrupted (h : LasHeader) (f : SeqFile.t) (new : list AddedPoint) (e : exn) :
    (* an exception left the loop over the point records *)
    readLasHeader (drop 4 file) = Ok (h, f) ->
    Forall (fun q => offsetInForce q = Primitives.add3 (pointOffset pa) (offset h)) new ->
    LasRun pa file classMask
      (mkOutcome
         (mkPointAccumulator (Primitives.add3 (pointOffset pa) (offset h))
            (transform pa) (colorMask pa) (added pa ++ new))
         [] (Some e))
| las_read (h : LasHeader) (f : SeqFile.t) (new : list AddedPoint) :
    (* all point records were read *)
    take 4 file = LASF ->
    readLasHeader (drop 4 file) = Ok (h, f) ->
    pointDataFormat h < 6 ->
    nth (Z.to_nat (pointDataFormat h)) expectedPointDataRecordLengths 0
    <= pointDataRecordLength h ->
    227 <= pointDataOffset h ->
    Forall (fun q => offsetInForce q = Primitives.add3 (pointOffset pa) (offset h)) new ->
    LasRun pa file classMask
      (mkOutcome
         (mkPointAccumulator (pointOffset pa) (transform pa) (colorMask pa)
            (added pa ++ new))
         [] None).

Lemma Accumulator_eta (pa : PointAccumulator Transform ColorMask) :
  pa = mkPointAccumulator (pointOffset pa) (transform pa) (colorMask pa) (added pa).
Proof. now destruct pa. Qed.

Lemma LasRun_frame (pa : PointAccumulator Transform ColorMask) (file : list byte)
    (classMask : Z) (r : Outcome Transform ColorMask) :
  LasRun pa file classMask r ->
  transform (accumulator r) = transform pa
  /\ colorMask (accumulator r) = colorMask pa
  /\ exists new : list AddedPoint, added (accumulator r) = added pa ++ new.
Proof.
  intros [out e|h f new e _ _|h f new _ _ _ _ _ _]; cbn; repeat split;
    first [exists []; now rewrite app_nil_r | now exists new].
Qed.

Lemma loadPointFileLas_run (pa : PointAccumulator Transform ColorMask) (file : list byte) (classMask : Z) :
  LasRun pa file classMask (loadPointFileLas pa file classMask).
Proof.
  unfold loadPointFileLas, SeqFile.read.
  destruct (decide (4 <= length file)%nat) as [Hlen|Hlen]; [|constructor].
  destruct (memcmp_eq (take 4 file) LASF) eqn:Hsig; cbn [negb]; [|constructor].
  apply memcmp_eq_true in Hsig.
  destruct (readLasHeader (drop 4 file)) as [[h f]|e] eqn:Hh; [|constructor].
  cbv zeta.
  destruct (Z.ltb_spec (pointDataFormat h) 6) as [Hf|Hf]; cbn [andb].
  2:{ destruct (Z.leb_spec 6 (pointDataFormat h)); [constructor|lia]. }
  destruct (Z.ltb_spec (pointDataRecordLength h)
              (nth (Z.to_nat (pointDataFormat h)) expectedPointDataRecordLengths 0))
    as [Hl|Hl]; [constructor|].
  destruct (Z.leb_spec 6 (pointDataFormat h)); [lia|].
  destruct (Z.ltb_spec (pointDataOffset h) 227) as [Ho|Ho]; [constructor|].
  destruct (SeqFile.skip _ f) as [f'|e]; [|constructor].
  match goal with
  | |- context [readPointRecords ?n ?rr ?m ?g ?a] =>
      pose proof (readPointRecords_frame n rr m g a) as Hframe;
      destruct (readPointRecords n rr m g a) as [pa' [e|]]
  end;
    cbv zeta in Hframe; cbn [fst] in Hframe;
    destruct Hframe as (Hpo & Htr & Hcm & new & Hadd & Hnew);
    unfold setPointOffset, getPointOffset in *;
    cbn [pointOffset transform colorMask added] in *.
  - rewrite (Accumulator_eta pa'), Hpo, Htr, Hcm, Hadd.
    eapply las_interrupted; eassumption.
  - rewrite Htr, Hcm, Hadd. eapply las_read; eassumption.
Qed.

(** A file whose first four bytes are not the signature. *)
Lemma loadPointFileLas_signature (pa : PointAccumulator Transform ColorMask)
    (file : list byte) (classMask : Z) :
  (4 <= length file)%nat -> take 4 file <> LASF ->
  loadPointFileLas pa file classMask = mkOutcome pa [] None.
Proof.
  intros Hlen Hsig. unfold loadPointFileLas. rewrite SeqFile_read_ok by exact Hlen.
  destruct (memcmp_eq (take 4 file) LASF) eqn:E; [|reflexivity].
  apply memcmp_eq_true in E. contradiction.
Qed.

(** A file with the signature and a complete header that fails one of the
    checks. *)
Lemma loadPointFileLas_rejects (pa : PointAccumulator Transform ColorMask)
    (file : list byte) (classMask : Z) :
  (227 <= length file)%nat -> take 4 file = LASF ->
  let h := lasHeaderOf file in
  let expected := nth (Z.to_nat (pointDataFormat h)) expectedPointDataRecordLengths 0 in
  (6 <= pointDataFormat h ->
   loadPointFileLas pa file classMask
   = mkOutcome pa [UnknownPointDataFormat (pointDataFormat h)] None)
  /\ (pointDataFormat h < 6 -> pointDataRecordLength h < expected ->
      loadPointFileLas pa file classMask
      = mkOutcome pa
          [WrongPointRecordLength (pointDataFormat h) (pointDataRecordLength h) expected]
          None)
  /\ (pointDataFormat h < 6 -> expected <= pointDataRecordLength h ->
      pointDataOffset h < 227 ->
      loadPointFileLas pa file classMask
      = mkOutcome pa [ShortFileHeader (pointDataOffset h)] None).
Proof.
  intros Hlen Hsig h expected. unfold loadPointFileLas.
  rewrite SeqFile_read_ok by lia. rewrite Hsig.
  replace (memcmp_eq LASF LASF) with true by reflexivity. cbn [negb].
  rewrite readLasHeader_complete by exact Hlen. cbv zeta. fold h. fold expected.
  repeat split.
  - intros Hf.
    destruct (Z.ltb_spec (pointDataFormat h) 6); [lia|]. cbn [andb].
    destruct (Z.leb_spec 6 (pointDataFormat h)); [reflexivity|lia].
  - intros Hf Hl.
    destruct (Z.ltb_spec (pointDataFormat h) 6); [|lia].
    destruct (Z.ltb_spec (pointDataRecordLength h) expected); [reflexivity|lia].
  - intros Hf Hl Ho.
    destruct (Z.ltb_spec (pointDataFormat h) 6); [|lia].
    destruct (Z.ltb_spec (pointDataRecordLength h) expected); [lia|]. cbn [andb].
    destruct (Z.leb_spec 6 (pointDataFormat h)); [lia|].
    destruct (Z.ltb_spec (pointDataOffset h) 227); [reflexivity|lia].
Qed.

(** The header after the signature takes 223 bytes; with fewer the read
    that runs into the end of the file throws. *)
Lemma readLasHeader_short (f : SeqFile.t) :
  (length f < 223)%nat -> readLasHeader f = Err ReadError.
Proof.
  intros Hlen.
  unfold readLasHeader, SeqFile.read_f64_3, SeqFile.read_f64, SeqFile.read_u32,
    SeqFile.read_u16, SeqFile.read_u8, SeqFile.skip.
  repeat match goal with
         | |- context [SeqFile.read ?n ?g] =>
             unfold SeqFile.read at 1;
             destruct (decide (n <= length g)%nat); [cbn [rbind]|]
         end; try reflexivity.
  exfalso. rewrite ?length_drop in *. lia.
Qed.

(** A file that ends before the end of the header. *)
Lemma loadPointFileLas_truncated (pa : PointAccumulator Transform ColorMask)
    (file : list byte) (classMask : Z) :
  (length file < 227)%nat -> (length file < 4)%nat \/ take 4 file = LASF ->
  loadPointFileLas pa file classMask = mkOutcome pa [] (Some ReadError).
Proof.
  intros Hlen Hsig. unfold loadPointFileLas.
  destruct (le_lt_dec 4 (length file)) as [H4|H4].
  - destruct Hsig as [Hsig|Hsig]; [lia|].
    rewrite SeqFile_read_ok by exact H4. rewrite Hsig.
    replace (memcmp_eq LASF LASF) with true by reflexivity. cbn [negb].
    rewrite readLasHeader_short by (rewrite length_drop; lia). reflexivity.
  - now rewrite SeqFile_read_short.
Qed.

(** The statement under test for the LAS loader: the call returns, no
    exception leaves it. *)
Definition skipped_without_exception (pa : PointAccumulator Transform ColorMask)
    (file : list byte) (classMask : Z) : Prop :=
  thrown (loadPointFileLas pa file classMask) = None.

End LasLoaderFacts.

Section LasLoaderTheorem.
Context {Transform ColorMask : Type}.
Import PointFiles.

(** C10.  The LAS loader never changes the transform or the colour mask
    of the accumulator, however the call ends.  When the call returns,
    after reading all point records or at an early rejection, the point
    offset of the accumulator is the one on entry, and the points of
    before are kept, followed by the new ones.  New points exist only in a
    file with the signature whose header passed every check (a known
    point data format, a record length of at least the expected one, a
    point data offset of at least 227), and each of them was added while
    the point offset was the offset on entry plus the offset of the LAS
    header. *)
Theorem las_loader_restores_point_offset
    (pa : PointAccumulator Transform ColorMask) (file : list byte) (classMask : Z) :
  (transform (accumulator (loadPointFileLas pa file classMask)) = transform pa
   /\ colorMask (accumulator (loadPointFileLas pa file classMask)) = colorMask pa)
  /\ (thrown (loadPointFileLas pa file classMask) = None ->
      pointOffset (accumulator (loadPointFileLas pa file classMask)) = pointOffset pa
      /\ exists new : list AddedPoint,
           added (accumulator (loadPointFileLas pa file classMask)) = added pa ++ new
           /\ (new = []
               \/ exists (h : LasHeader) (f : SeqFile.t),
                    take 4 file = LASF
                    /\ readLasHeader (drop 4 file) = Ok (h, f)
                    /\ pointDataFormat h < 6
                    /\ nth (Z.to_nat (pointDataFormat h)) expectedPointDataRecordLengths 0
                       <= pointDataRecordLength h
                    /\ 227 <= pointDataOffset h
                    /\ Forall (fun q => offsetInForce q
                                        = Primitives.add3 (pointOffset pa) (offset h))
                              new)).
Proof.
  pose proof (loadPointFileLas_run pa file classMask) as Hrun.
  split; [apply LasRun_frame in Hrun; tauto|].
  destruct Hrun as [out e|h f new e Hh Hnew|h f new Hsig Hh Hf Hl Ho Hnew];
    cbn [thrown accumulator pointOffset added]; intros He.
  - split; [reflexivity|]. exists []. rewrite app_nil_r. auto.
  - discriminate He.
  - split; [reflexivity|]. exists new. split; [reflexivity|].
    right. exists h, f. auto 10.
Qed.

End LasLoaderTheorem.

(** ** Facts about the xyzi loader *)

Section XyziLoaderFacts.
Context {Transform ColorMask : Type}.
Variable readNumber : string -> option (float * string).
Variable toFloat : float -> float.
Import PointFiles.

(** A line the loop passes over: a comment, or nothing but whitespace. *)
Definition isCommentOrEmpty (line : string) : bool :=
  Ascii.eqb (peekc (skipWs line)) "#" || Ascii.eqb (peekc (skipWs line)) "010".

(** A line whose numbers fail to parse. *)
Definition malformed (line : string) : bool :=
  negb (isCommentOrEmpty line)
  && match parsePoint readNumber toFloat (skipWs line) with
     | Some _ => false
     | None => true
     end.

(** The point a line adds under the point offset [o], if any. *)
Definition pointOfLine (o : Vec3 float) (line : string) : option AddedPoint :=
  if isCommentOrEmpty line then None
  else match parsePoint readNumber toFloat (skipWs line) with
       | Some (p, c) => Some (mkAddedPoint p c o)
       | None => None
       end.

(** The diagnostics of the lines numbered from [lineNumber]. *)
Fixpoint parseErrors (lineNumber : nat) (lines : list string) : list Diagnostic :=
  match lines with
  | [] => []
  | line :: rest =>
      (if malformed line then [PointParsingError lineNumber] else [])
      ++ parseErrors (S lineNumber) rest
  end.

Lemma readLine_spec (lineNumber : nat) (line : string)
    (pa : PointAccumulator Transform ColorMask) (out : list Diagnostic) :
  readLine readNumber toFloat lineNumber line (pa, out)
  = (mkPointAccumulator (pointOffset pa) (transform pa) (colorMask pa)
       (added pa ++ option_list (pointOfLine (pointOffset pa) line)),
     out ++ if malformed line then [PointParsingError lineNumber] else []).
Proof.
  unfold readLine, malformed, pointOfLine, isCommentOrEmpty.
  rewrite <- negb_orb.
  destruct (_ || _); cbn [negb andb fst snd option_list].
  - rewrite !app_nil_r. now destruct pa.
  - destruct (parsePoint _ _ _) as [[p c]|]; cbn [option_list].
    + now rewrite app_nil_r.
    + rewrite app_nil_r. now destruct pa.
Qed.

Lemma readLines_spec (lines : list string) :
  forall (lineNumber : nat) (pa : PointAccumulator Transform ColorMask)
         (out : list Diagnostic),
    readLines readNumber toFloat lines lineNumber (pa, out)
    = (mkPointAccumulator (pointOffset pa) (transform pa) (colorMask pa)
         (added pa ++ omap (pointOfLine (pointOffset pa)) lines),
       out ++ parseErrors lineNumber lines).
Proof.
  induction lines as [|line rest IH]; intros lineNumber pa out.
  - cbn. rewrite !app_nil_r. now destruct pa.
  - cbn [readLines parseErrors]. rewrite readLine_spec, IH.
    cbn [pointOffset transform colorMask added].
    rewrite <- !app_assoc. f_equal. f_equal. f_equal.
    change (omap ?g (line :: rest))
      with (match g line with Some y => y :: omap g rest | None => omap g rest end).
    now destruct (pointOfLine (pointOffset pa) line).
Qed.

Lemma elem_of_parseErrors (lines : list string) :
  forall (lineNumber k : nat),
    PointParsingError k ∈ parseErrors lineNumber lines
    <-> exists (i : nat) (line : string),
          k = (lineNumber + i)%nat /\ lines !! i = Some line /\ malformed line = true.
Proof.
  induction lines as [|line rest IH]; intros lineNumber k; cbn [parseErrors].
  - split; [intros H; inversion H|intros (i & l & _ & H & _); discriminate H].
  - rewrite elem_of_app, IH. split.
    + intros [H|(i & l & -> & Hi & Hm)].
      * destruct (malformed line) eqn:E; [|inversion H].
        apply list_elem_of_singleton in H. injection H as ->.
        exists 0%nat, line. split; [lia|]. split; [reflexivity|exact E].
      * exists (S i), l. split; [lia|]. split; [exact Hi|exact Hm].
    + intros (i & l & -> & Hi & Hm). destruct i as [|i].
      * left. injection Hi as ->. rewrite Hm.
        apply list_elem_of_singleton. f_equal. lia.
      * right. exists i, l. split; [lia|]. split; [exact Hi|exact Hm].
Qed.

Lemma loadPointFileXyzi_spec (pa : PointAccumulator Transform ColorMask)
    (lines : list string) :
  loadPointFileXyzi readNumber toFloat pa lines
  = mkOutcome
      (mkPointAccumulator (pointOffset pa) (transform pa) (colorMask pa)
         (added pa ++ omap (pointOfLine (pointOffset pa)) lines))
      (parseErrors 1 lines) None.
Proof. unfold loadPointFileXyzi. now rewrite readLines_spec. Qed.

(** C9, as amended.  The xyzi loader never throws on a line whose numbers
    fail to parse: it prints the parsing error with the number of the line,
    for exactly the lines that are neither comments nor empty and whose
    four numbers do not all parse, and goes on, so the accumulator ends
    with the points of before followed by the points of all the lines that
    parse, in order.  The LAS loader returns without an exception and
    leaves the accumulator as it was for a file of at least four bytes
    with another signature than LASF and, when the 227 bytes of the header
    are there, for a point data format of 6 or more, for a point record
    shorter than the format requires and for a point data offset below
    227.  A file of fewer than four bytes, and a file with the signature
    that ends before the 227 bytes of the header are read, is not skipped:
    the loader throws the read error, whatever the part of the header that
    is there says, with the accumulator as it was.  However a call of the
    LAS loader ends, the points accumulated before it are kept. *)
Theorem malformed_input_reported_and_skipped
    (pa : PointAccumulator Transform ColorMask) :
  (forall lines : list string,
     thrown (loadPointFileXyzi readNumber toFloat pa lines) = None
     /\ (forall (i : nat) (line : string), lines !! i = Some line ->
           (malformed line = true
            <-> PointParsingError (S i)
                  ∈ printed (loadPointFileXyzi readNumber toFloat pa lines)))
     /\ accumulator (loadPointFileXyzi readNumber toFloat pa lines)
        = mkPointAccumulator (pointOffset pa) (transform pa) (colorMask pa)
            (added pa ++ omap (pointOfLine (pointOffset pa)) lines))
  /\ (forall (file : list byte) (classMask : Z),
        (4 <= length file)%nat -> take 4 file <> LASF ->
        loadPointFileLas pa file classMask = mkOutcome pa [] None)
  /\ (forall (file : list byte) (classMask : Z),
        (227 <= length file)%nat -> take 4 file = LASF ->
        let h := lasHeaderOf file in
        let expected :=
          nth (Z.to_nat (pointDataFormat h)) expectedPointDataRecordLengths 0 in
        (6 <= pointDataFormat h ->
         loadPointFileLas pa file classMask
         = mkOutcome pa [UnknownPointDataFormat (pointDataFormat h)] None)
        /\ (pointDataFormat h < 6 -> pointDataRecordLength h < expected ->
            loadPointFileLas pa file classMask
            = mkOutcome pa
                [WrongPointRecordLength (pointDataFormat h) (pointDataRecordLength h)
                   expected]
                None)
        /\ (pointDataFormat h < 6 -> expected <= pointDataRecordLength h ->
            pointDataOffset h < 227 ->
            loadPointFileLas pa file classMask
            = mkOutcome pa [ShortFileHeader (pointDataOffset h)] None))
  /\ (forall (file : list byte) (classMask : Z),
        (length file < 227)%nat -> (length file < 4)%nat \/ take 4 file = LASF ->
        loadPointFileLas pa file classMask = mkOutcome pa [] (Some ReadError)
        /\ ~ skipped_without_exception pa file classMask)
  /\ (forall (file : list byte) (classMask : Z),
        exists new : list AddedPoint,
          added (accumulator (loadPointFileLas pa file classMask)) = added pa ++ new).
Proof.
  split.
  { intros lines. rewrite loadPointFileXyzi_spec. cbn [thrown printed accumulator].
    split; [reflexivity|]. split; [|reflexivity].
    intros i line Hi. rewrite elem_of_parseErrors. split.
    - intros Hm. exists i, line. auto.
    - intros (j & l & Hj & Hl & Hm). assert (j = i) by lia. subst j.
      rewrite Hi in Hl. now injection Hl as <-. }
  split; [intros file classMask; apply loadPointFileLas_signature|].
  split; [intros file classMask; apply loadPointFileLas_rejects|].
  split.
  { intros file classMask Hlen Hsig. unfold skipped_without_exception.
    rewrite (loadPointFileLas_truncated pa file classMask Hlen Hsig).
    split; [reflexivity|discriminate]. }
  intros file classMask.
  pose proof (loadPointFileLas_run pa file classMask) as Hrun.
  apply LasRun_frame in Hrun. tauto.
Qed.

End XyziLoaderFacts.

(** *** A LAS file of two points and an xyzi file of six lines *)

Module PointFileSample.
Import PointFiles.

(** An accumulator that holds one point, with point offset (10, 20, 30). *)
Definition pa : PointAccumulator unit unit :=
  mkPointAccumulator (mkVec3 10 20 30)%float tt tt
    [mkAddedPoint (mkVec3 11 22 33)%float (mkVec3 1 1 1)%float (mkVec3 10 20 30)%float].

(** A LAS header: point data at [pointDataOffset], records of
    [pointDataRecordLength] bytes in format [pointDataFormat], two of them,
    scale 0.5 and offset (1000, 2000, 3000). *)
Definition lasHeader (pointDataOffset pointDataFormat pointDataRecordLength : Z)
  : list byte :=
  LASF ++ replicate 92 x00
  ++ LE.encode 4 pointDataOffset ++ LE.encode 4 0
  ++ LE.encode 1 pointDataFormat ++ LE.encode 2 pointDataRecordLength
  ++ LE.encode 4 2 ++ replicate 20 x00
  ++ Primitives.enc3 (mkVec3 0.5 0.5 0.5)%float
  ++ Primitives.enc3 (mkVec3 1000 2000 3000)%float
  ++ replicate 48 x00.

(** A point record of format 0. *)
Definition lasPoint (x y z intensity class : Z) : list byte :=
  LE.encode 4 x ++ LE.encode 4 y ++ LE.encode 4 z ++ LE.encode 2 intensity
  ++ [x00] ++ LE.encode 1 class ++ replicate 4 x00.

Definition lasPoints : list byte := lasPoint 100 200 300 7 2 ++ lasPoint (-100) 0 50 9 5.

Definition lasFile : list byte := lasHeader 227 0 20 ++ lasPoints.

Example lasHeader_length : length (lasHeader 227 0 20) = 227%nat.
Proof. reflexivity. Qed.

Example lasFile_loads :
  loadPointFileLas pa lasFile 0xFFFFFFFF
  = mkOutcome
      (mkPointAccumulator (mkVec3 10 20 30)%float tt tt
         (added pa
          ++ [mkAddedPoint (mkVec3 50 100 150)%float (mkVec3 7 7 7)%float
                (mkVec3 1010 2020 3030)%float;
              mkAddedPoint (mkVec3 (-50) 0 25)%float (mkVec3 9 9 9)%float
                (mkVec3 1010 2020 3030)%float]))
      [] None.
Proof. vm_compute. reflexivity. Qed.

(** Only class 5 selected. *)
Example lasFile_class_mask :
  map rawPosition (added (accumulator (loadPointFileLas pa lasFile 0x20)))
  = [mkVec3 11 22 33; mkVec3 (-50) 0 25]%float.
Proof. vm_compute. reflexivity. Qed.

(** The point data cut short: the read error leaves the loader with the
    combined point offset still set. *)
Example lasFile_truncated :
  loadPointFileLas pa (take 250 lasFile) 0xFFFFFFFF
  = mkOutcome
      (mkPointAccumulator (mkVec3 1010 2020 3030)%float tt tt
         (added pa
          ++ [mkAddedPoint (mkVec3 50 100 150)%float (mkVec3 7 7 7)%float
                (mkVec3 1010 2020 3030)%float]))
      [] (Some ReadError).
Proof. vm_compute. reflexivity. Qed.

(** The header cut short: a read error, whatever the header says. *)
Example lasHeader_truncated :
  loadPointFileLas pa (take 150 (lasHeader 227 9 20)) 0xFFFFFFFF
  = mkOutcome pa [] (Some ReadError).
Proof. vm_compute. reflexivity. Qed.

Example las_rejections :
  loadPointFileLas pa (list_byte_of_string "LAZF" ++ drop 4 lasFile) 0xFFFFFFFF
  = mkOutcome pa [] None
  /\ loadPointFileLas pa (lasHeader 227 9 20 ++ lasPoints) 0xFFFFFFFF
     = mkOutcome pa [UnknownPointDataFormat 9] None
  /\ loadPointFileLas pa (lasHeader 227 1 20 ++ lasPoints) 0xFFFFFFFF
     = mkOutcome pa [WrongPointRecordLength 1 20 28] None
  /\ loadPointFileLas pa (lasHeader 200 0 20 ++ lasPoints) 0xFFFFFFFF
     = mkOutcome pa [ShortFileHeader 200] None.
Proof. repeat split; vm_compute; reflexivity. Qed.

(** A reader of unsigned decimal integers in the place of the toolkit's
    number reader. *)
Definition digit (c : ascii) : option Z :=
  let n := Z.of_N (N_of_ascii c) in
  if (48 <=? n) && (n <=? 57) then Some (n - 48) else None.

Fixpoint digits (acc : Z) (line : string) : Z * string :=
  match line with
  | String c rest =>
      match digit c with
      | Some d => digits (10 * acc + d) rest
      | None => (acc, line)
      end
  | EmptyString => (acc, line)
  end.

Definition readInteger (line : string) : option (float * string) :=
  match line with
  | String c _ =>
      match digit c with
      | Some _ => let '(n, rest) := digits 0 line in Some (float_of_Z n, skipWs rest)
      | None => None
      end
  | EmptyString => None
  end.

Definition xyziLines : list string :=
  ["# x y z i"; "1 2 3 40"; "5 six 7 8"; ""; "  9 10 11 12"; "13 14"]%string.

Example xyziLines_load :
  loadPointFileXyzi readInteger id pa xyziLines
  = mkOutcome
      (mkPointAccumulator (mkVec3 10 20 30)%float tt tt
         (added pa
          ++ [mkAddedPoint (mkVec3 1 2 3)%float (mkVec3 40 40 40)%float
                (mkVec3 10 20 30)%float;
              mkAddedPoint (mkVec3 9 10 11)%float (mkVec3 12 12 12)%float
                (mkVec3 10 20 30)%float]))
      [PointParsingError 3; PointParsingError 6] None.
Proof. vm_compute. reflexivity. Qed.

End PointFileSample.

Lemma las_loader_restores_point_offset_witness :
  PointFiles.thrown
    (PointFiles.loadPointFileLas PointFileSample.pa PointFileSample.lasFile 0xFFFFFFFF)
  = None
  /\ PointFiles.pointOffset
       (PointFiles.accumulator
          (PointFiles.loadPointFileLas PointFileSample.pa PointFileSample.lasFile
             0xFFFFFFFF))
     = PointFiles.pointOffset PointFileSample.pa.
Proof.
  split; [vm_compute; reflexivity|].
  apply (proj2 (las_loader_restores_point_offset PointFileSample.pa
                  PointFileSample.lasFile 0xFFFFFFFF)).
  vm_compute. reflexivity.
Defined.

Lemma malformed_input_reported_and_skipped_witness :
  PointFiles.PointParsingError 3
    ∈ PointFiles.printed
        (PointFiles.loadPointFileXyzi PointFileSample.readInteger id PointFileSample.pa
           PointFileSample.xyziLines)
  /\ PointFiles.loadPointFileLas PointFileSample.pa
       (PointFileSample.lasHeader 227 9 20 ++ PointFileSample.lasPoints) 0xFFFFFFFF
     = PointFiles.mkOutcome PointFileSample.pa [PointFiles.UnknownPointDataFormat 9] None.
Proof.
  pose proof (malformed_input_reported_and_skipped PointFileSample.readInteger id
                PointFileSample.pa) as (Hxyzi & _ & Hlas & _ & _).
  split.
  - apply (proj1 (proj2 (Hxyzi PointFileSample.xyziLines)) 2%nat "5 six 7 8"%string);
      reflexivity.
  - apply (Hlas (PointFileSample.lasHeader 227 9 20 ++ PointFileSample.lasPoints)
             0xFFFFFFFF); [vm_compute; lia|reflexivity|vm_compute; discriminate].
Defined.

(** A LAS file whose header names the unsupported point data format 9 and
    that ends after 150 of the 227 bytes of the header is not skipped: the
    loader throws the read error.  So does a file of three bytes, whose
    signature is bad and whose header is too short. *)
Lemma truncated_las_header_throws :
  LE.decode (take 1 (drop 104 (take 150 (PointFileSample.lasHeader 227 9 20)))) = 9
  /\ ~ skipped_without_exception PointFileSample.pa
        (take 150 (PointFileSample.lasHeader 227 9 20)) 0xFFFFFFFF
  /\ ~ skipped_without_exception PointFileSample.pa (list_byte_of_string "LAZ") 0xFFFFFFFF.
Proof.
  split; [vm_compute; reflexivity|].
  split; unfold skipped_without_exception; vm_compute; discriminate.
Qed.

(** * Further properties of the code *)

(** ** A LAS export read back by the preprocessor *)

Lemma read_u16_encode (n : Z) (rest : list byte) :
  SeqFile.read_u16 (LE.encode 2 n ++ rest) = Ok (n mod 2 ^ 16, rest).
Proof.
  unfold SeqFile.read_u16.
  rewrite <- (encode_length 2 n) at 1. rewrite SeqFile_read_app. cbn [rbind].
  now rewrite decode_encode.
Qed.

Lemma read_u8_encode (n : Z) (rest : list byte) :
  SeqFile.read_u8 (LE.encode 1 n ++ rest) = Ok (n mod 2 ^ 8, rest).
Proof.
  unfold SeqFile.read_u8.
  rewrite <- (encode_length 1 n) at 1. rewrite SeqFile_read_app. cbn [rbind].
  now rewrite decode_encode.
Qed.

Lemma skip_app (d rest : list byte) : SeqFile.skip (length d) (d ++ rest) = Ok rest.
Proof. unfold SeqFile.skip. now rewrite SeqFile_read_app. Qed.

Lemma skip_0 (f : SeqFile.t) : SeqFile.skip 0 f = Ok f.
Proof. exact (skip_app [] f). Qed.

Lemma take_app_len {A : Type} (l k : list A) (n : nat) :
  length l = n -> take n (l ++ k) = l.
Proof. intros <-. apply take_app_length. Qed.

Lemma drop_app_len {A : Type} (l k : list A) (n : nat) :
  length l = n -> drop n (l ++ k) = k.
Proof. intros <-. apply drop_app_length. Qed.

Lemma decode3_enc3 (v : Vec3 float) (rest : list byte) : decode3 (enc3 v ++ rest) = v.
Proof.
  destruct v as [x y z]. unfold decode3, enc3. cbn [vx vy vz].
  rewrite <- !app_assoc.
  rewrite (take_app_len (Float64.encode x)) by apply Float64_encode_length.
  rewrite (drop_app_len (Float64.encode x)) by apply Float64_encode_length.
  rewrite (take_app_len (Float64.encode y)) by apply Float64_encode_length.
  change 16%nat with (8 + 8)%nat. rewrite <- !drop_drop.
  rewrite (drop_app_len (Float64.encode x)) by apply Float64_encode_length.
  rewrite (drop_app_len (Float64.encode y)) by apply Float64_encode_length.
  rewrite (take_app_len (Float64.encode z)) by apply Float64_encode_length.
  now rewrite !Float64_decode_encode.
Qed.

Lemma Z_of_byte_u16 (b : byte) : LE.Z_of_byte b mod 2 ^ 16 = LE.Z_of_byte b.
Proof. pose proof (Z_of_byte_range b). apply Z.mod_small. lia. Qed.

Section LasRoundTrip.
Context {ST : ScalarType} {Transform ColorMask : Type}.
Variable Constants_max Constants_min : float.
Import Exporter PointFiles.

(** What the loader makes of the record the exporter wrote for a point:
    the quantized position, as 32-bit integers, times the scale. *)
Definition dequantized (lasOffset scale : Vec3 float) (p : LidarPoint) : Vec3 float :=
  Vec3_zip PrimFloat.mul
    (Vec3_map float_of_Z
       (Vec3_zip (fun x os => LE.signed 32 (gridIndex x (fst os) (snd os) mod 2 ^ 32))
          (double3 p) (Vec3_zip pair lasOffset scale)))
    scale.

(** The position on the quantization grid: the grid index of each
    coordinate times the scale. *)
Definition gridPosition (lasOffset scale : Vec3 float) (p : LidarPoint) : Vec3 float :=
  Vec3_zip PrimFloat.mul
    (Vec3_map float_of_Z
       (Vec3_zip (fun x os => gridIndex x (fst os) (snd os))
          (double3 p) (Vec3_zip pair lasOffset scale)))
    scale.

Lemma fitsInt_range (f : float) :
  Float64.fitsInt f = true -> - 2 ^ 31 <= Float64.floorZ f < 2 ^ 31.
Proof.
  unfold Float64.fitsInt, Float64.floorZ.
  destruct (Prim2SF f) as [sg| | |sg m e]; try discriminate.
  - intros _. lia.
  - intros H. apply andb_prop in H as [H1 H2]. lia.
Qed.

Lemma signed_32_small (z : Z) :
  - 2 ^ 31 <= z < 2 ^ 31 -> LE.signed 32 (z mod 2 ^ 32) = z.
Proof.
  intros H. unfold LE.signed.
  assert (Hmod : z mod 2 ^ 32 = if z <? 0 then z + 2 ^ 32 else z).
  { destruct (Z.ltb_spec z 0).
    - symmetry. apply (Z.mod_unique z (2 ^ 32) (-1)); lia.
    - apply Z.mod_small. lia. }
  rewrite Hmod. change (2 ^ (32 - 1)) with (2 ^ 31).
  destruct (Z.ltb_spec z 0) as [Hneg|Hpos].
  - destruct (Z.ltb_spec (z + 2 ^ 32) (2 ^ 31)); lia.
  - destruct (Z.ltb_spec z (2 ^ 31)); lia.
Qed.

Lemma dequantized_quantizable (o s : Vec3 float) (p : LidarPoint) :
  quantizable o s p = true -> dequantized o s p = gridPosition o s p.
Proof.
  unfold quantizable. intros H.
  apply andb_prop in H as [H Hz]. apply andb_prop in H as [Hx Hy].
  apply fitsInt_range in Hx, Hy, Hz.
  unfold dequantized, gridPosition, gridIndex.
  destruct o as [ox oy oz], s as [sx sy sz]. cbn [vx vy vz] in *.
  unfold Vec3_zip, Vec3_map. cbn [vx vy vz fst snd].
  now rewrite !signed_32_small by assumption.
Qed.

Definition rgbOf (p : LidarPoint) : Vec3 float :=
  Vec3_map float_of_Z
    (mkVec3 (LE.Z_of_byte (red (value p))) (LE.Z_of_byte (green (value p)))
            (LE.Z_of_byte (blue (value p)))).

Lemma readPointRecord_lasRecord (h : LasHeader) (o s : Vec3 float) (p : LidarPoint)
    (rest : list byte) :
  pointDataFormat h = 2 -> scale h = s ->
  readPointRecord h 1 4 0 (lasRecord o s p ++ rest)
  = Ok (dequantized o s p, rgbOf p, 1, rest).
Proof.
  intros Hf Hs. unfold readPointRecord, lasRecord. rewrite Hf, Hs.
  rewrite <- !app_assoc.
  do 3 (rewrite read_i32_encode; cbn [rbind]).
  rewrite read_u16_encode. cbn [rbind].
  change (LE.encode 1 0) with [x00] at 1.
  rewrite (skip_app [x00]). cbn [rbind].
  rewrite read_u8_encode. cbn [rbind].
  change (LE.encode 1 0 ++ LE.encode 1 0 ++ LE.encode 2 0 ++ ?t)
    with ([x00; x00; x00; x00] ++ t).
  rewrite (skip_app [x00; x00; x00; x00]). cbn [rbind].
  change (nth (Z.to_nat 2) haveRgb false) with true. cbv iota.
  do 3 (rewrite read_u16_encode; cbn [rbind]).
  rewrite !Z_of_byte_u16.
  rewrite skip_0. cbn [rbind].
  destruct s as [sx sy sz], o as [ox oy oz]. reflexivity.
Qed.

Lemma readPointRecords_lasRecords (h : LasHeader) (o s : Vec3 float) (classMask : Z) :
  pointDataFormat h = 2 -> scale h = s -> Z.testbit classMask 0 = true ->
  forall (pts : list LidarPoint) (pa : PointAccumulator Transform ColorMask),
    readPointRecords (length pts) (readPointRecord h 1 4 0) classMask
      (concat (map (lasRecord o s) pts)) pa
    = (mkPointAccumulator (pointOffset pa) (transform pa) (colorMask pa)
         (added pa
          ++ map (fun p => mkAddedPoint (dequantized o s p) (rgbOf p) (pointOffset pa)) pts),
       None).
Proof.
  intros Hf Hs Hbit. induction pts as [|p pts IH]; intros pa.
  - cbn. rewrite app_nil_r. now destruct pa.
  - cbn [length map concat readPointRecords].
    rewrite readPointRecord_lasRecord by assumption.
    replace (Z.land classMask 1 =? 0) with false.
    + rewrite IH. cbn [addPoint pointOffset transform colorMask added map].
      now rewrite <- app_assoc.
    + symmetry. apply Z.eqb_neq. intros H0.
      assert (Hb : Z.testbit (Z.land classMask 1) 0 = true).
      { rewrite Z.land_spec, Hbit. reflexivity. }
      rewrite H0 in Hb. discriminate Hb.
Qed.

(** The header fields of an exported file, read at their byte positions. *)
Lemma lasHead107_field (k m : nat) (rest : list byte) :
  (k + m <= 107)%nat ->
  take m (drop k (lasHead107 ++ rest)) = take m (drop k lasHead107).
Proof.
  intros H. rewrite drop_app_le by (rewrite lasHead107_length; lia).
  apply take_app_le. rewrite length_drop, lasHead107_length. lia.
Qed.

Lemma drop4_encode (z : Z) (rest : list byte) : drop 4 (LE.encode 4 z ++ rest) = rest.
Proof. apply drop_app_len, encode_length. Qed.

Lemma lasHeaderOf_export (n : Z) (s q mx mn : Vec3 float) (records : list byte) :
  lasHeaderOf
    (lasHead107 ++ (LE.encode 4 n ++ LE.encode 4 n) ++ lasMid s q
     ++ bboxBytes mx mn ++ records)
  = mkLasHeader 227 2 26 (n mod 2 ^ 32) s q.
Proof.
  unfold lasHeaderOf.
  rewrite !lasHead107_field by lia.
  change (LE.decode (take 4 (drop 96 lasHead107))) with 227.
  change (LE.decode (take 1 (drop 104 lasHead107))) with 2.
  change (LE.decode (take 2 (drop 105 lasHead107))) with 26.
  change 155%nat with (107 + (4 + (4 + (4 + (4 + (4 + (4 + 24)))))))%nat.
  change 131%nat with (107 + (4 + (4 + (4 + (4 + (4 + 4))))))%nat.
  rewrite <- !drop_drop.
  rewrite (drop_app_len lasHead107) by apply lasHead107_length.
  unfold lasMid. rewrite <- !app_assoc.
  rewrite (take_app_len (LE.encode 4 n)) by apply encode_length.
  rewrite !drop4_encode.
  rewrite (drop_app_len (enc3 s)) by apply enc3_length.
  rewrite !decode3_enc3, decode_encode. reflexivity.
Qed.

End LasRoundTrip.

Section LasRoundTripTheorem.
Context {ST : ScalarType} {Transform ColorMask : Type}.
Variable Constants_max Constants_min : float.
Import Exporter PointFiles.

(** X1.  A LAS file written by the exporter's LasPointSaver for fewer than
    2^32 points whose quantized coordinates all fit a 32-bit integer is
    accepted by the preprocessor's LAS loader: the export is defined, and
    for a class mask with bit 0 set the loader returns, prints nothing and
    adds one point per exported point, in order.  The position of each is
    its position on the quantization grid, the grid index of the record
    times the scale, its colour the exported red, green and blue, and it is
    added under the accumulator's offset plus the header's offset, which is
    the exporter's quantization offset plus the offset of the data set.
    The accumulator's own offset is back in place afterwards. *)
Theorem exported_las_file_loads (lpoOffset scale lasOffset : Vec3 float)
    (pts : list LidarPoint) (pa : PointAccumulator Transform ColorMask) (classMask : Z) :
  Z.of_nat (length pts) < 2 ^ 32 ->
  Z.testbit classMask 0 = true ->
  forallb (quantizable lasOffset scale) pts = true ->
  exists ps : LasPointSaver,
    processWith LasPointSaver_call
      (LasPointSaver_new Constants_max Constants_min lpoOffset scale lasOffset) pts
    = Some ps
    /\ loadPointFileLas pa (LasPointSaver_delete ps) classMask
       = mkOutcome
           (mkPointAccumulator (pointOffset pa) (transform pa) (colorMask pa)
              (added pa
               ++ map (fun p =>
                         mkAddedPoint (gridPosition lasOffset scale p) (rgbOf p)
                           (Primitives.add3 (pointOffset pa)
                              (Vec3_zip PrimFloat.add lasOffset lpoOffset)))
                      pts))
           [] None.
Proof.
  intros Hn Hbit Hq.
  pose proof (LasPointSaver_export Constants_max Constants_min lpoOffset scale lasOffset
                pts) as Hexport.
  destruct (processWith _ _ pts) as [ps|]; [|congruence].
  destruct Hexport as (_ & Hfile & _).
  exists ps. split; [reflexivity|].
  assert (Hmap : forall o : Vec3 float,
             map (fun p => mkAddedPoint (gridPosition lasOffset scale p) (rgbOf p) o) pts
             = map (fun p => mkAddedPoint (dequantized lasOffset scale p) (rgbOf p) o) pts).
  { intros o. apply map_ext_in. intros p Hp. rewrite forallb_forall in Hq.
    now rewrite dequantized_quantizable by (apply Hq, Hp). }
  rewrite Hmap. clear Hmap.
  rewrite Hfile. clear Hfile. unfold lasFileBytes.
  set (q := Vec3_zip PrimFloat.add lasOffset lpoOffset).
  set (n := Z.of_nat (length pts)) in *.
  set (bb := bboxBytes _ _).
  set (records := concat (map (lasRecord lasOffset scale) pts)).
  set (file := lasHead107 ++ _).
  assert (Hlen : (227 <= length file)%nat).
  { unfold file. rewrite !length_app, lasHead107_length, !encode_length, lasMid_length.
    unfold bb. rewrite bboxBytes_length. lia. }
  assert (Hdrop : drop 227 file = records).
  { unfold file.
    change 227%nat with (107 + (8 + (64 + 48)))%nat. rewrite <- !drop_drop.
    rewrite (drop_app_len lasHead107) by apply lasHead107_length.
    rewrite (drop_app_len (LE.encode 4 n ++ LE.encode 4 n))
      by (rewrite length_app, !encode_length; reflexivity).
    rewrite (drop_app_len (lasMid scale q)) by apply lasMid_length.
    apply drop_app_len. apply bboxBytes_length. }
  unfold loadPointFileLas.
  rewrite SeqFile_read_ok by lia.
  replace (take 4 file) with LASF
    by (unfold file; rewrite take_app_le by (rewrite lasHead107_length; lia); reflexivity).
  replace (memcmp_eq LASF LASF) with true by reflexivity. cbn [negb].
  rewrite readLasHeader_complete by exact Hlen.
  rewrite Hdrop. unfold file, bb. rewrite lasHeaderOf_export.
  cbv zeta.
  cbn [pointDataFormat pointDataRecordLength pointDataOffset numPointRecords
       PointFiles.scale offset].
  change (nth (Z.to_nat 2) expectedPointDataRecordLengths 0) with 26.
  change (nth (Z.to_nat 2) haveTimes false) with false.
  change ((2 <? 6) && (26 <? 26)) with false.
  change (6 <=? 2) with false. change (227 <? 227) with false. cbv iota.
  change (Z.to_nat (227 - 227)) with 0%nat. rewrite skip_0.
  change (Z.to_nat (26 - 26)) with 0%nat.
  change (2 * 1 + 2 + 0)%nat with 4%nat.
  rewrite (Z.mod_small n) by (unfold n; lia).
  unfold n. rewrite Nat2Z.id.
  unfold records.
  rewrite (readPointRecords_lasRecords _ lasOffset scale classMask);
    [reflexivity|reflexivity|reflexivity|exact Hbit].
Qed.

End LasRoundTripTheorem.

Lemma exported_las_file_loads_witness :
  exists ps : Exporter.LasPointSaver,
    Exporter.processWith Exporter.LasPointSaver_call
      (Exporter.LasPointSaver_new ExportSample.dblMax ExportSample.dblMin
         (mkVec3 100 0 0)%float ExportSample.scale (mkVec3 0.5 0.5 0.5)%float)
      [ExportSample.stored]
    = Some ps
    /\ PointFiles.loadPointFileLas PointFileSample.pa (Exporter.LasPointSaver_delete ps) 1
       = PointFiles.mkOutcome
           (PointFiles.mkPointAccumulator (mkVec3 10 20 30)%float tt tt
              (PointFiles.added PointFileSample.pa
               ++ [PointFiles.mkAddedPoint
                     (gridPosition (mkVec3 0.5 0.5 0.5)%float ExportSample.scale
                        ExportSample.stored)
                     (mkVec3 10 20 30)%float
                     (Primitives.add3 (mkVec3 10 20 30)%float
                        (mkVec3 100.5 0.5 0.5)%float)]))
           [] None.
Proof.
  apply (exported_las_file_loads ExportSample.dblMax ExportSample.dblMin
           (mkVec3 100 0 0)%float ExportSample.scale (mkVec3 0.5 0.5 0.5)%float
           [ExportSample.stored] PointFileSample.pa 1);
    reflexivity.
Defined.

(** ** The bytes a LAS point record takes *)

Section LasRecords.
Import PointFiles.

(** The bytes one turn of the loop over the point records reads: position,
    intensity, the skip to the class, the class, the skip to the colour,
    the colour if the format has one, and the skip to the end. *)
Definition recordBytes (h : LasHeader) (skipToClass skipToColor skipToEnd : nat) : nat :=
  12 + 2 + skipToClass + 1 + skipToColor
  + (if nth (Z.to_nat (pointDataFormat h)) haveRgb false then 6 else 0) + skipToEnd.

Ltac read_steps :=
  repeat match goal with
         | |- context [SeqFile.read ?n ?g] =>
             unfold SeqFile.read at 1;
             destruct (decide (n <= length g)%nat); [cbn [rbind]|]
         end.

Lemma readPointRecord_reads (h : LasHeader) (a b c : nat) (f : SeqFile.t) :
  (recordBytes h a b c <= length f)%nat ->
  exists (p col : Vec3 float) (classBit : Z),
    readPointRecord h a b c f = Ok (p, col, classBit, drop (recordBytes h a b c) f).
Proof.
  unfold recordBytes, readPointRecord, SeqFile.read_i32, SeqFile.read_u16,
    SeqFile.read_u8, SeqFile.skip.
  intros Hlen.
  destruct (nth (Z.to_nat (pointDataFormat h)) haveRgb false);
    repeat (rewrite SeqFile_read_ok by (rewrite ?length_drop; lia); cbn [rbind]).
  all: do 3 eexists; apply f_equal; apply (f_equal2 pair); try reflexivity.
  all: rewrite !drop_drop; f_equal; lia.
Qed.

Lemma readPointRecord_short (h : LasHeader) (a b c : nat) (f : SeqFile.t) :
  (length f < recordBytes h a b c)%nat ->
  readPointRecord h a b c f = Err ReadError.
Proof.
  unfold recordBytes, readPointRecord, SeqFile.read_i32, SeqFile.read_u16,
    SeqFile.read_u8, SeqFile.skip.
  intros Hlen.
  destruct (nth (Z.to_nat (pointDataFormat h)) haveRgb false);
    read_steps; try reflexivity;
    exfalso; rewrite ?length_drop in *; lia.
Qed.

End LasRecords.

Section LasRecordTheorems.
Context {Transform ColorMask : Type}.
Import PointFiles.

(** The bytes the loader reads per point record, with the skips it
    computes from the header. *)
Definition lasStride (h : LasHeader) : nat :=
  recordBytes h 1
    (2 * 1 + 2 + (if nth (Z.to_nat (pointDataFormat h)) haveTimes false then 8 else 0))
    (Z.to_nat (pointDataRecordLength h
               - nth (Z.to_nat (pointDataFormat h)) expectedPointDataRecordLengths 0)).

(** X2.  For a header that passes the checks, one turn of the loop over
    the point records reads exactly [lasStride] bytes, and throws the read
    error when fewer are left.  For the point data formats 0 to 3 this is
    the point data record length of the header.  For the formats 4 and 5
    it is 29 and 35 bytes less: the wave packet fields, and the colour of
    format 5, are part of the expected length but are not skipped, so the
    second and later records of such a file are read from the wrong
    position. *)
Theorem las_record_bytes_read (h : LasHeader) (f : SeqFile.t) :
  0 <= pointDataFormat h < 6 ->
  nth (Z.to_nat (pointDataFormat h)) expectedPointDataRecordLengths 0
  <= pointDataRecordLength h ->
  let skipToColor :=
    (2 * 1 + 2 + (if nth (Z.to_nat (pointDataFormat h)) haveTimes false then 8 else 0))%nat in
  let skipToEnd :=
    Z.to_nat (pointDataRecordLength h
              - nth (Z.to_nat (pointDataFormat h)) expectedPointDataRecordLengths 0) in
  ((lasStride h <= length f)%nat ->
   exists (p col : Vec3 float) (classBit : Z),
     readPointRecord h 1 skipToColor skipToEnd f
     = Ok (p, col, classBit, drop (lasStride h) f))
  /\ ((length f < lasStride h)%nat ->
      readPointRecord h 1 skipToColor skipToEnd f = Err ReadError)
  /\ (pointDataFormat h <= 3 -> Z.of_nat (lasStride h) = pointDataRecordLength h)
  /\ (pointDataFormat h = 4 -> Z.of_nat (lasStride h) = pointDataRecordLength h - 29)
  /\ (pointDataFormat h = 5 -> Z.of_nat (lasStride h) = pointDataRecordLength h - 35).
Proof.
  intros Hf Hl skipToColor skipToEnd.
  split; [apply readPointRecord_reads|]. split; [apply readPointRecord_short|].
  unfold lasStride, recordBytes.
  assert (Hcases : pointDataFormat h = 0 \/ pointDataFormat h = 1 \/ pointDataFormat h = 2
                   \/ pointDataFormat h = 3 \/ pointDataFormat h = 4
                   \/ pointDataFormat h = 5) by lia.
  repeat split; intros Hfmt;
    destruct Hcases as [E|[E|[E|[E|[E|E]]]]]; rewrite E in *; try lia;
    repeat match goal with
           | |- context [nth (Z.to_nat ?k) ?l ?d] =>
               let v := eval vm_compute in (nth (Z.to_nat k) l d) in
               change (nth (Z.to_nat k) l d) with v
           | H : context [nth (Z.to_nat ?k) ?l ?d] |- _ =>
               let v := eval vm_compute in (nth (Z.to_nat k) l d) in
               change (nth (Z.to_nat k) l d) with v in H
           end;
    cbv iota; lia.
Qed.

(** The class byte of the record at the front of [f]. *)
Definition recordClass (skipToClass : nat) (f : SeqFile.t) : Z :=
  LE.decode (take 1 (drop (12 + 2 + skipToClass) f)).

Lemma land_pow2 (m k : Z) :
  0 <= k -> (Z.land m (2 ^ k) =? 0) = negb (Z.testbit m k).
Proof.
  intros Hk. destruct (Z.testbit m k) eqn:E; cbn [negb].
  - apply Z.eqb_neq. intros H0.
    assert (Hb : Z.testbit (Z.land m (2 ^ k)) k = true).
    { rewrite Z.land_spec, E, Z.pow2_bits_true by lia. reflexivity. }
    rewrite H0, Z.bits_0 in Hb. discriminate Hb.
  - apply Z.eqb_eq. apply Z.bits_inj'. intros i Hi.
    rewrite Z.land_spec, Z.bits_0, Z.pow2_bits_eqb by lia.
    destruct (Z.eqb_spec k i) as [<-|]; [now rewrite E|apply andb_false_r].
Qed.

Lemma readPointRecord_classBit (h : LasHeader) (a b c : nat) (f f' : SeqFile.t)
    (p col : Vec3 float) (classBit : Z) :
  readPointRecord h a b c f = Ok (p, col, classBit, f') ->
  classBit = 2 ^ (recordClass a f mod 32).
Proof.
  unfold readPointRecord, recordClass, SeqFile.read_i32, SeqFile.read_u16,
    SeqFile.read_u8, SeqFile.skip.
  repeat match goal with
         | |- context [SeqFile.read ?n ?g] =>
             unfold SeqFile.read at 1;
             destruct (decide (n <= length g)%nat); [cbn [rbind]|discriminate]
         end.
  intros H.
  assert (Hbit : classBit
                 = Z.shiftl 1 (Z.land (LE.decode
                     (take 1 (drop a (drop 2 (drop 4 (drop 4 (drop 4 f))))))) 31)).
  { destruct (nth (Z.to_nat (pointDataFormat h)) haveRgb false);
      cbn [rbind] in H;
      repeat match type of H with
             | context [SeqFile.read ?n ?g] =>
                 unfold SeqFile.read in H at 1;
                 destruct (decide (n <= length g)%nat); [cbn [rbind] in H|discriminate H]
             end;
      now injection H as _ _ <- _. }
  rewrite Hbit, !drop_drop.
  replace (4 + 4 + 4 + 2 + a)%nat with (12 + 2 + a)%nat by lia.
  change 31 with (Z.ones 5). rewrite Z.land_ones by lia.
  rewrite Z.shiftl_1_l. reflexivity.
Qed.

Lemma readPointRecords_no_class (n : nat) readRecord :
  forall (f : SeqFile.t) (pa : PointAccumulator Transform ColorMask),
    added (fst (readPointRecords n readRecord 0 f pa)) = added pa.
Proof.
  induction n as [|n IH]; intros f pa; cbn [readPointRecords]; [reflexivity|].
  destruct (readRecord f) as [[[[p c] classBit] f']|e]; [|reflexivity].
  change (Z.land 0 classBit) with 0. apply IH.
Qed.

(** X3.  The class of a point record selects one bit of the class mask:
    the record is passed to the accumulator exactly when bit (class mod 32)
    of the mask is set, so the classes 32 to 255 share the bits of the
    classes 0 to 31.  With the class mask 0 the loader adds no point,
    whatever the file holds. *)
Theorem las_class_mask_selects (pa : PointAccumulator Transform ColorMask) :
  (forall (h : LasHeader) (a b c : nat) (f f' : SeqFile.t) (p col : Vec3 float)
          (classBit classMask : Z),
      readPointRecord h a b c f = Ok (p, col, classBit, f') ->
      readPointRecords 1 (readPointRecord h a b c) classMask f pa
      = (if Z.testbit classMask (recordClass a f mod 32) then addPoint p col pa else pa,
         None))
  /\ (forall file : list byte,
        added (accumulator (loadPointFileLas pa file 0)) = added pa).
Proof.
  split.
  - intros h a b c f f' p col classBit classMask Hr.
    cbn [readPointRecords]. rewrite Hr.
    rewrite (readPointRecord_classBit _ _ _ _ _ _ _ _ _ Hr).
    rewrite land_pow2 by (apply Z.mod_pos_bound; lia).
    now destruct (Z.testbit classMask _).
  - intros file. unfold loadPointFileLas.
    destruct (SeqFile.read 4 file) as [[sig f]|e]; [|reflexivity].
    destruct (negb _); [reflexivity|].
    destruct (readLasHeader f) as [[h f1]|e]; [|reflexivity]. cbv zeta.
    destruct (_ && _); [reflexivity|].
    destruct (6 <=? _); [reflexivity|].
    destruct (_ <? 227); [reflexivity|].
    destruct (SeqFile.skip _ f1) as [f2|e]; [|reflexivity].
    match goal with
    | |- context [readPointRecords ?n ?rr 0 ?g ?a] =>
        pose proof (readPointRecords_no_class n rr g a) as Hno;
        destruct (readPointRecords n rr 0 g a) as [pa' [e|]]
    end; cbn [fst] in Hno; cbn [accumulator setPointOffset added] in *; exact Hno.
Qed.

End LasRecordTheorems.

Lemma las_record_bytes_read_witness :
  Z.of_nat (lasStride (PointFiles.mkLasHeader 227 4 57 2
                         (mkVec3 0.5 0.5 0.5)%float (mkVec3 0 0 0)%float))
  = 57 - 29.
Proof.
  apply (proj1 (proj2 (proj2 (proj2
           (las_record_bytes_read
              (PointFiles.mkLasHeader 227 4 57 2
                 (mkVec3 0.5 0.5 0.5)%float (mkVec3 0 0 0)%float)
              [] ltac:(cbn [PointFiles.pointDataFormat]; lia)
              ltac:(vm_compute; discriminate)))))).
  reflexivity.
Defined.

(** Two records of format 4: the second point is read from the wave
    packet fields of the first record. *)
Example las_format_4_misread :
  let record (x y z : Z) : list byte :=
    LE.encode 4 x ++ LE.encode 4 y ++ LE.encode 4 z ++ replicate 45 x00 in
  map PointFiles.rawPosition
    (PointFiles.added
       (PointFiles.accumulator
          (PointFiles.loadPointFileLas PointFileSample.pa
             (PointFileSample.lasHeader 227 4 57 ++ record 2 4 6 ++ record 8 10 12)
             0xFFFFFFFF)))
  = [mkVec3 11 22 33; mkVec3 1 2 3; mkVec3 0 0 0]%float.
Proof. vm_compute. reflexivity. Qed.

Lemma las_class_mask_selects_witness :
  PointFiles.added
    (PointFiles.accumulator
       (PointFiles.loadPointFileLas PointFileSample.pa PointFileSample.lasFile 0))
  = PointFiles.added PointFileSample.pa.
Proof.
  exact (proj2 (las_class_mask_selects PointFileSample.pa) PointFileSample.lasFile).
Defined.

(** ** The list of extracted primitives (LidarViewer.cpp) *)

Module PrimitiveManager.
Section Manager.

(** Primitive::Color, and the grey of the grid lines,
    [Primitive::Color(0.2f,0.2f,0.2f)]. *)
Context {Color : Type}.
Variable gridGrey : Color.

(** A primitive object on the heap: its address, what it is, and the
    members of class Primitive that the list management changes. *)
Record Object := mkObject {
  address : nat;
  shape : Primitives.Primitive;
  surfaceColor : Color;
  gridColor : Color;
  version : Z                 (* unsigned int *)
}.

(** Primitive::setSurfaceColor and Primitive::setGridColor *)
Definition setSurfaceColor (newSurfaceColor : Color) (o : Object) : Object :=
  mkObject (address o) (shape o) newSurfaceColor (gridColor o)
           ((version o + 1) mod 2 ^ 32).
Definition setGridColor (newGridColor : Color) (o : Object) : Object :=
  mkObject (address o) (shape o) (surfaceColor o) newGridColor
           ((version o + 1) mod 2 ^ 32).

(** The members of LidarViewer that hold the extracted primitives. *)
Record State := mkState {
  primitives : list Object;
  primitiveSelectedFlags : list bool;
  lastPickedPrimitive : Z;
  primitiveColor : Color;
  selectedPrimitiveColor : Color
}.

Definition withLists (st : State) (ps : list Object) (flags : list bool) : State :=
  mkState ps flags (lastPickedPrimitive st) (primitiveColor st)
          (selectedPrimitiveColor st).

Definition withLastPicked (st : State) (i : Z) : State :=
  mkState (primitives st) (primitiveSelectedFlags st) i (primitiveColor st)
          (selectedPrimitiveColor st).

(** LidarViewer::addPrimitive: the new state and the index returned. *)
Definition addPrimitive (newPrimitive : Object) (st : State) : State * Z :=
  (* Set the new primitive's color: *)
  let newPrimitive := setSurfaceColor (primitiveColor st) newPrimitive in
  let newPrimitive := setGridColor gridGrey newPrimitive in
  (* Store the new primitive: *)
  let st := withLists st (primitives st ++ [newPrimitive])
              (primitiveSelectedFlags st ++ [false]) in
  (st, Z.of_nat (length (primitives st)) - 1).

(** LidarViewer::togglePrimitive: the loop from index [i] on. *)
Fixpoint togglePrimitiveFrom (primitive : nat) (ps : list Object) (i : nat) (st : State)
  : State :=
  match ps with
  | [] => st
  | o :: rest =>
      if Nat.eqb (address o) primitive then
        (* Toggle the primitive's selection state: *)
        if nth i (primitiveSelectedFlags st) false then
          (* Deselect the primitive: *)
          withLists st (alter (setSurfaceColor (primitiveColor st)) i (primitives st))
                    (<[i := false]> (primitiveSelectedFlags st))
        else
          (* Select the primitive: *)
          withLists st
            (alter (setSurfaceColor (selectedPrimitiveColor st)) i (primitives st))
            (<[i := true]> (primitiveSelectedFlags st))
        (* Stop searching *)
      else togglePrimitiveFrom primitive rest (S i) st
  end.

Definition togglePrimitive (primitive : nat) (st : State) : State :=
  togglePrimitiveFrom primitive (primitives st) 0 st.

(** LidarViewer::selectPrimitive and LidarViewer::deselectPrimitive; both
    set the unselected colour.  The C++ indexes the two vectors without a
    check, so a call is defined only for an index below their size; the
    facts below use these functions for such indices only. *)
Definition selectPrimitive (primitiveIndex : nat) (st : State) : State :=
  if negb (nth primitiveIndex (primitiveSelectedFlags st) false) then
    withLists st
      (alter (setSurfaceColor (primitiveColor st)) primitiveIndex (primitives st))
      (<[primitiveIndex := true]> (primitiveSelectedFlags st))
  else st.

Definition deselectPrimitive (primitiveIndex : nat) (st : State) : State :=
  if nth primitiveIndex (primitiveSelectedFlags st) false then
    withLists st
      (alter (setSurfaceColor (primitiveColor st)) primitiveIndex (primitives st))
      (<[primitiveIndex := false]> (primitiveSelectedFlags st))
  else st.

(** LidarViewer::deletePrimitive, for an index below the size of the two
    vectors; the C++ erases at the index without a check. *)
Definition deletePrimitive (primitiveIndex : nat) (st : State) : State :=
  withLists st (delete primitiveIndex (primitives st))
            (delete primitiveIndex (primitiveSelectedFlags st)).

(** [for(int i=primitives.size()-1;i>=0;--i)] of
    deleteSelectedPrimitivesCallback, with [n] turns left: the next index
    is [n-1]. *)
Fixpoint deleteSelectedFrom (n : nat) (st : State) : State :=
  match n with
  | O => st
  | S i =>
      deleteSelectedFrom i
        (if nth i (primitiveSelectedFlags st) false then deletePrimitive i st else st)
  end.

Definition deleteSelectedPrimitivesCallback (st : State) : State :=
  withLastPicked (deleteSelectedFrom (length (primitives st)) st) (-1).

Definition clearPrimitivesCallback (st : State) : State :=
  withLastPicked (withLists st [] []) (-1).

(** [for(int i=0;i<int(primitives.size());++i) deselectPrimitive(i)] *)
Fixpoint deselectAllFrom (i n : nat) (st : State) : State :=
  match n with
  | O => st
  | S n' => deselectAllFrom (S i) n' (deselectPrimitive i st)
  end.

(** *** Picking and the primitive dragger tool *)

(** The virtual method [pick(pickPoint,maxPickDistance2)] of a primitive:
    nothing for a null result, else the new value of the distance bound,
    which the method updates; the drag state returned names the primitive
    itself. *)
Variable pick : Object -> Vec3 float -> float -> option float.
Variable getPointPickDistance : float.    (* Vrui::getPointPickDistance() *)

(** The loop of pickPrimitive from index [i] on: the drag state (the
    address of its primitive) and the index of the primitive picked. *)
Fixpoint pickFrom (pickPos : Vec3 float) (ps : list Object) (i : Z)
    (maxDistance2 : float) (dragState : option nat) (pickedPrimitiveIndex : Z)
  : option nat * Z :=
  match ps with
  | [] => (dragState, pickedPrimitiveIndex)
  | o :: rest =>
      match pick o pickPos maxDistance2 with
      | Some d =>
          (* Remember the new drag state and the primitive that returned it: *)
          pickFrom pickPos rest (i + 1) d (Some (address o)) i
      | None => pickFrom pickPos rest (i + 1) maxDistance2 dragState pickedPrimitiveIndex
      end
  end.

Definition pickPrimitive (pickPos : Vec3 float) (st : State) : option nat * State :=
  (* Pick against all primitives: *)
  let maxDistance2 := (getPointPickDistance * getPointPickDistance)%float in
  let '(dragState, pickedPrimitiveIndex) :=
    pickFrom pickPos (primitives st) 0 maxDistance2 None (-1) in
  (* Check if there was a successful pick: *)
  (dragState,
   if 0 <=? pickedPrimitiveIndex then withLastPicked st pickedPrimitiveIndex else st).

(** class PrimitiveDraggerTool *)
Record PrimitiveDraggerTool := mkPrimitiveDraggerTool {
  dragState : option nat;
  dragStartTime : float
}.

(** PrimitiveDraggerTool::buttonCallback; [devicePosition] is the button
    device's position in navigational coordinates and [applicationTime]
    the value of Vrui::getApplicationTime(). *)
Definition buttonCallback (newButtonState : bool) (devicePosition : Vec3 float)
    (applicationTime : float) (s : PrimitiveDraggerTool * State)
  : PrimitiveDraggerTool * State :=
  let '(tool, application) := s in
  (* Check if the button was pressed or released: *)
  if newButtonState then
    (* Pick all extracted primitives: *)
    let '(ds, application) := pickPrimitive devicePosition application in
    match ds with
    | Some _ => (mkPrimitiveDraggerTool ds applicationTime, application)
    | None => (mkPrimitiveDraggerTool ds (dragStartTime tool), application)
    end
  else
    (* Check if there is an active drag operation: *)
    match dragState tool with
    | Some primitive =>
        let application :=
          (* Check if this was a click rather than a drag: *)
          if PrimFloat.ltb (applicationTime - dragStartTime tool) 0.25
          then (* Toggle the picked primitive's selection state: *)
               togglePrimitive primitive application
          else application in
        (* Delete the pick result to end the drag operation: *)
        (mkPrimitiveDraggerTool None (dragStartTime tool), application)
    | None => (tool, application)
    end.

(** *** Intersecting the selected primitives *)

(** What intersectPrimitivesCallback reports to the user. *)
Inductive IntersectError : Type :=
| MismatchingSelectedPrimitives       (* "mismatching selected primitives" *)
| ConstructorError (what : string)    (* thrown by a primitive's constructor *).

(** The constructors [LinePrimitive(planes,offsets)],
    [PointPrimitive(planes,offsets)] and [PointPrimitive(plane,line,offsets)],
    which solve for the intersection and can throw. *)
Variable intersectTwoPlanes :
  Primitives.PlanePrimitive_ -> Primitives.PlanePrimitive_ -> Vec3 float
  -> result IntersectError Primitives.Primitive.
Variable intersectThreePlanes :
  Primitives.PlanePrimitive_ -> Primitives.PlanePrimitive_ -> Primitives.PlanePrimitive_
  -> Vec3 float -> result IntersectError Primitives.Primitive.
Variable intersectPlaneLine :
  Primitives.PlanePrimitive_ -> Primitives.LinePrimitive_ -> Vec3 float
  -> result IntersectError Primitives.Primitive.

(** The surface colour the constructor of class Primitive sets,
    [Color(0.6f,0.6f,0.1f,0.5f)]. *)
Variable constructedColor : Color.

(** The dynamic casts to the three base types. *)
Definition asPlane (p : Primitives.Primitive) : option Primitives.PlanePrimitive_ :=
  match p with
  | Primitives.PlanePrimitive d | Primitives.BruntonPrimitive d => Some d
  | _ => None
  end.
Definition asLine (p : Primitives.Primitive) : option Primitives.LinePrimitive_ :=
  match p with
  | Primitives.LinePrimitive d | Primitives.CylinderPrimitive d _ _ => Some d
  | _ => None
  end.
Definition asPoint (p : Primitives.Primitive) : option Primitives.PointPrimitive_ :=
  match p with
  | Primitives.PointPrimitive d | Primitives.SpherePrimitive d _ => Some d
  | _ => None
  end.

(** Sort all selected primitives by their base types. *)
Fixpoint sortSelected (ps : list Object) (flags : list bool)
  : list Primitives.PlanePrimitive_ * list Primitives.LinePrimitive_
    * list Primitives.PointPrimitive_ :=
  match ps, flags with
  | o :: ps', f :: flags' =>
      let '(planes, lines, points) := sortSelected ps' flags' in
      if f then
        match asPlane (shape o) with
        | Some d => (d :: planes, lines, points)
        | None =>
            match asLine (shape o) with
            | Some d => (planes, d :: lines, points)
            | None =>
                match asPoint (shape o) with
                | Some d => (planes, lines, d :: points)
                | None => (planes, lines, points)
                end
            end
        end
      else (planes, lines, points)
  | _, _ => ([], [], [])
  end.

(** intersectPrimitivesCallback on the head node of a session without a
    cluster; [newAddress] is the address operator new returns. *)
Definition intersectPrimitivesCallback (offsets : Vec3 float) (newAddress : nat)
    (st : State) : State * option IntersectError :=
  let '(planes, lines, points) :=
    sortSelected (primitives st) (primitiveSelectedFlags st) in
  let primitive :=
    match planes, lines, points with
    | [p0; p1], [], [] =>
        (* Create a line by intersecting two planes: *)
        intersectTwoPlanes p0 p1 offsets
    | [p0; p1; p2], [], [] =>
        (* Create a point by intersecting three planes: *)
        intersectThreePlanes p0 p1 p2 offsets
    | [p0], [l0], [] =>
        (* Create a point by intersecting a plane and a line: *)
        intersectPlaneLine p0 l0 offsets
    | _, _, _ => Err MismatchingSelectedPrimitives
    end in
  match primitive with
  | Err e => (st, Some e)
  | Ok newShape =>
      (* Store the primitive: *)
      let '(st, index) :=
        addPrimitive (mkObject newAddress newShape constructedColor gridGrey 1) st in
      let st := withLastPicked st index in
      (* Unselect all primitives: *)
      (deselectAllFrom 0 (length (primitives st)) st, None)
  end.

(** *** Facts about the list management *)

(** Every primitive has its selection flag. *)
Definition wellFormed (st : State) : Prop :=
  length (primitiveSelectedFlags st) = length (primitives st).

(** The primitives whose flag is not set, in order. *)
Fixpoint unselected (ps : list Object) (flags : list bool) : list Object :=
  match ps, flags with
  | o :: ps', f :: flags' =>
      if f then unselected ps' flags' else o :: unselected ps' flags'
  | _, _ => []
  end.

(** The index of the first primitive at an address, counted from [i]. *)
Fixpoint findAddress (primitive : nat) (ps : list Object) (i : nat) : option nat :=
  match ps with
  | [] => None
  | o :: rest =>
      if Nat.eqb (address o) primitive then Some i
      else findAddress primitive rest (S i)
  end.

Lemma length_delete_both {A B : Type} (i : nat) (l : list A) (k : list B) :
  length k = length l -> length (delete i k) = length (delete i l).
Proof.
  revert i k. induction l as [|x l IH]; intros i [|y k] H; try discriminate H;
    [reflexivity|].
  destruct i as [|i]; cbn in *; [lia|]. f_equal. apply IH. lia.
Qed.

Lemma wellFormed_alter_insert (st : State) (g : Object -> Object) (i : nat) (b : bool) :
  wellFormed st ->
  wellFormed (withLists st (alter g i (primitives st))
                        (<[i := b]> (primitiveSelectedFlags st))).
Proof.
  unfold wellFormed. cbn. intros H. now rewrite length_alter, length_insert.
Qed.

Lemma wellFormed_togglePrimitiveFrom (primitive : nat) (ps : list Object) :
  forall (i : nat) (st : State),
    wellFormed st -> wellFormed (togglePrimitiveFrom primitive ps i st).
Proof.
  induction ps as [|o ps IH]; intros i st H; cbn [togglePrimitiveFrom]; [exact H|].
  destruct (Nat.eqb (address o) primitive); [|now apply IH].
  destruct (nth i (primitiveSelectedFlags st) false);
    now apply wellFormed_alter_insert.
Qed.

Lemma wellFormed_deletePrimitive (i : nat) (st : State) :
  wellFormed st -> wellFormed (deletePrimitive i st).
Proof. unfold wellFormed. cbn. apply length_delete_both. Qed.

Lemma wellFormed_deselectPrimitive (i : nat) (st : State) :
  wellFormed st -> wellFormed (deselectPrimitive i st).
Proof.
  intros H. unfold deselectPrimitive.
  destruct (nth i _ false); [now apply wellFormed_alter_insert|exact H].
Qed.

Lemma wellFormed_deleteSelectedFrom (n : nat) :
  forall st : State, wellFormed st -> wellFormed (deleteSelectedFrom n st).
Proof.
  induction n as [|n IH]; intros st H; cbn [deleteSelectedFrom]; [exact H|].
  apply IH. destruct (nth n _ false); [now apply wellFormed_deletePrimitive|exact H].
Qed.

Lemma wellFormed_deselectAllFrom (n : nat) :
  forall (i : nat) (st : State), wellFormed st -> wellFormed (deselectAllFrom i n st).
Proof.
  induction n as [|n IH]; intros i st H; cbn [deselectAllFrom]; [exact H|].
  apply IH. now apply wellFormed_deselectPrimitive.
Qed.

Lemma wellFormed_addPrimitive (o : Object) (st : State) :
  wellFormed st -> wellFormed (fst (addPrimitive o st)).
Proof. unfold wellFormed. cbn. intros H. rewrite !length_app, H. reflexivity. Qed.

Lemma pickPrimitive_lists (pickPos : Vec3 float) (st : State) :
  primitives (snd (pickPrimitive pickPos st)) = primitives st
  /\ primitiveSelectedFlags (snd (pickPrimitive pickPos st)) = primitiveSelectedFlags st.
Proof.
  unfold pickPrimitive. destruct (pickFrom _ _ _ _ _ _) as [ds k]. cbn [snd].
  destruct (0 <=? k); split; reflexivity.
Qed.

(** X4.  The list of primitives and the list of selection flags stay of
    one length: adding a primitive, toggling one by its address, whether it
    is in the list or not, selecting, deselecting and deleting the
    primitive at an index below the size of the list, deleting the selected
    ones, clearing the list, picking, the button of the dragger tool and
    intersecting the selected primitives all keep the two lists aligned.
    Selecting and deselecting keep the number of primitives, and deleting
    takes out one. *)
Theorem selection_flags_stay_aligned (st : State) :
  wellFormed st ->
  (forall o : Object, wellFormed (fst (addPrimitive o st)))
  /\ (forall primitive : nat, wellFormed (togglePrimitive primitive st))
  /\ (forall i : nat, (i < length (primitives st))%nat ->
        wellFormed (selectPrimitive i st)
        /\ length (primitives (selectPrimitive i st)) = length (primitives st))
  /\ (forall i : nat, (i < length (primitives st))%nat ->
        wellFormed (deselectPrimitive i st)
        /\ length (primitives (deselectPrimitive i st)) = length (primitives st))
  /\ (forall i : nat, (i < length (primitives st))%nat ->
        wellFormed (deletePrimitive i st)
        /\ S (length (primitives (deletePrimitive i st))) = length (primitives st))
  /\ wellFormed (deleteSelectedPrimitivesCallback st)
  /\ wellFormed (clearPrimitivesCallback st)
  /\ (forall pickPos : Vec3 float, wellFormed (snd (pickPrimitive pickPos st)))
  /\ (forall (pressed : bool) (pos : Vec3 float) (time : float)
             (tool : PrimitiveDraggerTool),
         wellFormed (snd (buttonCallback pressed pos time (tool, st))))
  /\ (forall (offsets : Vec3 float) (newAddress : nat),
         wellFormed (fst (intersectPrimitivesCallback offsets newAddress st))).
Proof.
  intros H.
  assert (Hpick : forall pickPos, wellFormed (snd (pickPrimitive pickPos st))).
  { intros pickPos. unfold wellFormed.
    destruct (pickPrimitive_lists pickPos st) as [-> ->]. exact H. }
  split; [intros o; now apply wellFormed_addPrimitive|].
  split; [intros a; now apply wellFormed_togglePrimitiveFrom|].
  split.
  { intros i Hi. unfold selectPrimitive.
    destruct (negb _); [|split; [exact H|reflexivity]].
    split; [now apply wellFormed_alter_insert|].
    cbn [withLists primitives]. apply length_alter. }
  split.
  { intros i Hi. split; [now apply wellFormed_deselectPrimitive|].
    unfold deselectPrimitive. destruct (nth i _ false); [|reflexivity].
    cbn [withLists primitives]. apply length_alter. }
  split.
  { intros i Hi. split; [now apply wellFormed_deletePrimitive|].
    unfold deletePrimitive. cbn [withLists primitives].
    rewrite length_delete by (apply lookup_lt_is_Some_2; exact Hi). lia. }
  split.
  { unfold deleteSelectedPrimitivesCallback, withLastPicked, wellFormed. cbn.
    now apply wellFormed_deleteSelectedFrom. }
  split; [reflexivity|].
  split; [exact Hpick|].
  split.
  { intros pressed pos time tool. unfold buttonCallback.
    destruct pressed.
    - specialize (Hpick pos). destruct (pickPrimitive pos st) as [[a|] st']; exact Hpick.
    - destruct (dragState tool) as [a|]; [|exact H]. cbn [snd].
      destruct (PrimFloat.ltb _ _); [now apply wellFormed_togglePrimitiveFrom|exact H]. }
  intros offsets newAddress. unfold intersectPrimitivesCallback.
  destruct (sortSelected _ _) as [[planes lines] points].
  match goal with |- wellFormed (fst match ?m with _ => _ end) => destruct m as [sh|e] end;
    [|exact H].
  cbn [addPrimitive fst]. apply wellFormed_deselectAllFrom.
  unfold wellFormed in *. cbn. rewrite !length_app, H. reflexivity.
Qed.

Lemma unselected_snoc (ps : list Object) (flags : list bool) (o : Object) (f : bool) :
  length flags = length ps ->
  unselected (ps ++ [o]) (flags ++ [f])
  = unselected ps flags ++ (if f then [] else [o]).
Proof.
  revert flags. induction ps as [|p ps IH]; intros [|g flags] H; try discriminate H.
  - cbn. now destruct f.
  - cbn [app unselected]. rewrite IH by (cbn in H; lia). now destruct g.
Qed.

Lemma unselected_flags (ps : list Object) (flags : list bool) :
  unselected (unselected ps flags) (replicate (length (unselected ps flags)) false)
  = unselected ps flags.
Proof.
  induction (unselected ps flags) as [|o l IH]; [reflexivity|].
  cbn. now rewrite IH.
Qed.

Lemma snoc_cases {A : Type} (l : list A) : l = [] \/ exists l' x, l = l' ++ [x].
Proof. induction l using List.rev_ind; [now left|right; eauto]. Qed.

Lemma delete_at_length {A : Type} (l1 l2 : list A) (x : A) :
  delete (length l1) (l1 ++ x :: l2) = l1 ++ l2.
Proof. induction l1 as [|y l1 IH]; cbn; [reflexivity|]. now f_equal. Qed.

Lemma deleteSelectedFrom_spec (n : nat) :
  forall (st : State) (ps1 ps2 : list Object) (fl1 fl2 : list bool),
    length ps1 = n -> length fl1 = n ->
    primitives st = ps1 ++ ps2 -> primitiveSelectedFlags st = fl1 ++ fl2 ->
    deleteSelectedFrom n st
    = withLists st (unselected ps1 fl1 ++ ps2)
        (replicate (length (unselected ps1 fl1)) false ++ fl2).
Proof.
  induction n as [|n IH]; intros st ps1 ps2 fl1 fl2 Hp Hf Hps Hfl.
  - destruct ps1; [|discriminate Hp]. destruct fl1; [|discriminate Hf].
    cbn in *. rewrite <- Hps, <- Hfl. now destruct st.
  - destruct (snoc_cases ps1) as [->|(ps1' & o & ->)]; [discriminate Hp|].
    destruct (snoc_cases fl1) as [->|(fl1' & f & ->)]; [discriminate Hf|].
    rewrite length_app in Hp, Hf. cbn in Hp, Hf.
    assert (Hp' : length ps1' = n) by lia. assert (Hf' : length fl1' = n) by lia.
    cbn [deleteSelectedFrom].
    rewrite Hfl, <- app_assoc. cbn [app].
    rewrite app_nth2 by lia. rewrite Hf', Nat.sub_diag. cbn [nth].
    rewrite unselected_snoc by lia.
    destruct f.
    + rewrite (IH _ ps1' ps2 fl1' fl2 Hp' Hf').
      * cbn. now rewrite !app_nil_r.
      * cbn. rewrite Hps, <- app_assoc. cbn [app].
        rewrite <- Hp'. apply delete_at_length.
      * cbn. rewrite Hfl, <- app_assoc. cbn [app].
        rewrite <- Hf'. apply delete_at_length.
    + rewrite (IH _ ps1' (o :: ps2) fl1' (false :: fl2) Hp' Hf').
      * rewrite length_app, replicate_add. cbn. now rewrite <- !app_assoc.
      * rewrite Hps, <- app_assoc. reflexivity.
      * rewrite Hfl, <- app_assoc. reflexivity.
Qed.

(** X5.  "Delete selected primitives" leaves exactly the primitives whose
    flag was not set, in their order and unchanged, with every remaining
    flag cleared, and forgets the last picked primitive. *)
Theorem delete_selected_keeps_the_unselected (st : State) :
  wellFormed st ->
  deleteSelectedPrimitivesCallback st
  = mkState (unselected (primitives st) (primitiveSelectedFlags st))
      (replicate (length (unselected (primitives st) (primitiveSelectedFlags st))) false)
      (-1) (primitiveColor st) (selectedPrimitiveColor st).
Proof.
  intros H. unfold deleteSelectedPrimitivesCallback.
  rewrite (deleteSelectedFrom_spec _ st (primitives st) [] (primitiveSelectedFlags st) []);
    [|reflexivity|exact H|now rewrite app_nil_r|now rewrite app_nil_r].
  unfold withLastPicked, withLists. cbn. now rewrite !app_nil_r.
Qed.

(** *** Toggling *)

(** The body of the loop of togglePrimitive at the index found. *)
Definition toggleAt (i : nat) (st : State) : State :=
  if nth i (primitiveSelectedFlags st) false then
    withLists st (alter (setSurfaceColor (primitiveColor st)) i (primitives st))
              (<[i := false]> (primitiveSelectedFlags st))
  else
    withLists st (alter (setSurfaceColor (selectedPrimitiveColor st)) i (primitives st))
              (<[i := true]> (primitiveSelectedFlags st)).

Lemma togglePrimitiveFrom_find (primitive : nat) (ps : list Object) :
  forall (i : nat) (st : State),
    togglePrimitiveFrom primitive ps i st
    = match findAddress primitive ps i with
      | Some j => toggleAt j st
      | None => st
      end.
Proof.
  induction ps as [|o ps IH]; intros i st; cbn [togglePrimitiveFrom findAddress];
    [reflexivity|].
  destruct (Nat.eqb (address o) primitive); [reflexivity|apply IH].
Qed.

Lemma findAddress_Some (primitive : nat) (ps : list Object) :
  forall i j : nat,
    findAddress primitive ps i = Some j ->
    (i <= j)%nat
    /\ exists o, ps !! (j - i)%nat = Some o /\ address o = primitive.
Proof.
  induction ps as [|o ps IH]; intros i j H; cbn [findAddress] in H; [discriminate H|].
  destruct (Nat.eqb (address o) primitive) eqn:E.
  - injection H as <-. split; [lia|]. rewrite Nat.sub_diag. exists o.
    split; [reflexivity|now apply Nat.eqb_eq].
  - destruct (IH _ _ H) as (Hle & o' & Ho & Ha). split; [lia|]. exists o'.
    split; [|exact Ha]. replace (j - i)%nat with (S (j - S i)) by lia. exact Ho.
Qed.

Lemma findAddress_addresses (primitive : nat) (ps ps' : list Object) :
  map address ps = map address ps' ->
  forall i, findAddress primitive ps i = findAddress primitive ps' i.
Proof.
  revert ps'. induction ps as [|o ps IH]; intros [|o' ps'] H i; try discriminate H;
    [reflexivity|].
  injection H as Ha Hm. cbn [findAddress]. rewrite Ha.
  destruct (Nat.eqb (address o') primitive); [reflexivity|now apply IH].
Qed.

Lemma addresses_alter (c : Color) (i : nat) (ps : list Object) :
  map address (alter (setSurfaceColor c) i ps) = map address ps.
Proof.
  revert i. induction ps as [|o ps IH]; intros [|i]; cbn; try reflexivity.
  now rewrite IH.
Qed.

Lemma addresses_toggleAt (i : nat) (st : State) :
  map address (primitives (toggleAt i st)) = map address (primitives st).
Proof. unfold toggleAt. destruct (nth i _ false); apply addresses_alter. Qed.

Lemma nth_insert_flag (i : nat) (b : bool) (flags : list bool) :
  (i < length flags)%nat -> nth i (<[i := b]> flags) false = b.
Proof.
  revert i. induction flags as [|f flags IH]; intros [|i] H; cbn in *; try lia;
    [reflexivity|]. apply IH. lia.
Qed.

Lemma insert_nth_flag (i : nat) (flags : list bool) :
  <[i := nth i flags false]> flags = flags.
Proof.
  revert i. induction flags as [|f flags IH]; intros [|i]; cbn; try reflexivity.
  now rewrite IH.
Qed.

Lemma flags_toggleAt (i : nat) (st : State) :
  primitiveSelectedFlags (toggleAt i st)
  = <[i := negb (nth i (primitiveSelectedFlags st) false)]> (primitiveSelectedFlags st).
Proof. unfold toggleAt. now destruct (nth i _ false). Qed.

(** X6.  Toggling a primitive that is not in the list changes nothing.
    Toggling one that is changes the flag of its first occurrence and no
    other, and gives that object the selected colour when the flag is set
    and the unselected colour when it is cleared; no primitive is added,
    removed or moved.  Toggling the same primitive twice restores every
    selection flag. *)
Theorem toggle_flips_one_flag (primitive : nat) (st : State) :
  wellFormed st ->
  match findAddress primitive (primitives st) 0 with
  | None => togglePrimitive primitive st = st
  | Some i =>
      (exists o, primitives st !! i = Some o /\ address o = primitive)
      /\ primitiveSelectedFlags (togglePrimitive primitive st)
         = <[i := negb (nth i (primitiveSelectedFlags st) false)]>
             (primitiveSelectedFlags st)
      /\ primitives (togglePrimitive primitive st)
         = alter (setSurfaceColor
                    (if nth i (primitiveSelectedFlags st) false
                     then primitiveColor st else selectedPrimitiveColor st))
                 i (primitives st)
      /\ primitiveSelectedFlags (togglePrimitive primitive (togglePrimitive primitive st))
         = primitiveSelectedFlags st
      /\ map address (primitives (togglePrimitive primitive (togglePrimitive primitive st)))
         = map address (primitives st)
  end.
Proof.
  intros Hwf.
  assert (Htoggle : forall s, togglePrimitive primitive s
                              = match findAddress primitive (primitives s) 0 with
                                | Some j => toggleAt j s
                                | None => s
                                end)
    by (intros s; apply togglePrimitiveFrom_find).
  rewrite (Htoggle st).
  destruct (findAddress primitive (primitives st) 0) as [i|] eqn:Hfind; [|reflexivity].
  destruct (findAddress_Some _ _ _ _ Hfind) as (_ & o & Ho & Ha).
  rewrite Nat.sub_0_r in Ho.
  assert (Hi : (i < length (primitiveSelectedFlags st))%nat).
  { rewrite Hwf. now apply lookup_lt_Some in Ho. }
  split; [eauto|]. split; [apply flags_toggleAt|].
  split; [unfold toggleAt; now destruct (nth i _ false)|].
  rewrite (Htoggle (toggleAt i st)).
  rewrite (findAddress_addresses primitive _ (primitives st) (addresses_toggleAt i st)).
  rewrite Hfind.
  split.
  - rewrite !flags_toggleAt.
    rewrite nth_insert_flag by exact Hi.
    rewrite list_insert_insert_eq, negb_involutive. apply insert_nth_flag.
  - now rewrite !addresses_toggleAt.
Qed.

(** *** The dragger tool *)

Lemma pickFrom_spec (pickPos : Vec3 float) (ps : list Object) :
  forall (i : Z) (m : float) (ds : option nat) (k : Z),
    pickFrom pickPos ps i m ds k = (ds, k)
    \/ exists (j : nat) (o : Object),
         ps !! j = Some o
         /\ pickFrom pickPos ps i m ds k = (Some (address o), i + Z.of_nat j).
Proof.
  induction ps as [|o ps IH]; intros i m ds k; cbn [pickFrom]; [now left|].
  destruct (pick o pickPos m) as [d|].
  - right. destruct (IH (i + 1) d (Some (address o)) i) as [->|(j & o' & Ho & ->)].
    + exists 0%nat, o. split; [reflexivity|]. f_equal. lia.
    + exists (S j), o'. split; [exact Ho|]. f_equal. lia.
  - destruct (IH (i + 1) m ds k) as [->|(j & o' & Ho & ->)]; [now left|].
    right. exists (S j), o'. split; [exact Ho|]. f_equal. lia.
Qed.

(** X7.  A press of the dragger tool's button picks; the release ends the
    drag.  When the press picked nothing, press and release leave the
    application as it was.  When it picked a primitive, that primitive is
    in the list, its index becomes the last picked primitive, and the
    release toggles its selection exactly when less than 0.25 seconds of
    application time have passed since the press; a later release changes
    no flag.  After the release the tool holds no drag state. *)
Theorem dragger_click_toggles (st : State) (tool : PrimitiveDraggerTool)
    (pressPos releasePos : Vec3 float) (pressTime releaseTime : float) :
  let pressed := buttonCallback true pressPos pressTime (tool, st) in
  let released := buttonCallback false releasePos releaseTime pressed in
  match fst (pickPrimitive pressPos st) with
  | None => pressed = (mkPrimitiveDraggerTool None (dragStartTime tool), st)
            /\ released = pressed
  | Some primitive =>
      exists (i : nat) (o : Object),
        primitives st !! i = Some o /\ address o = primitive
        /\ pressed = (mkPrimitiveDraggerTool (Some primitive) pressTime,
                      withLastPicked st (Z.of_nat i))
        /\ released
           = (mkPrimitiveDraggerTool None pressTime,
              if PrimFloat.ltb (releaseTime - pressTime) 0.25
              then togglePrimitive primitive (withLastPicked st (Z.of_nat i))
              else withLastPicked st (Z.of_nat i))
  end.
Proof.
  cbv zeta. unfold buttonCallback, pickPrimitive.
  destruct (pickFrom_spec pressPos (primitives st) 0
              (getPointPickDistance * getPointPickDistance) None (-1))
    as [->|(j & o & Ho & ->)].
  - cbn. split; reflexivity.
  - cbn [fst snd dragState dragStartTime]. exists j, o.
    split; [exact Ho|]. split; [reflexivity|].
    replace (0 <=? 0 + Z.of_nat j) with true by (symmetry; apply Z.leb_le; lia).
    rewrite Z.add_0_l. split; reflexivity.
Qed.

(** *** Intersecting *)

(** The primitives after "unselect all": the selected ones have the
    unselected colour set. *)
Fixpoint deselected (c : Color) (ps : list Object) (flags : list bool) : list Object :=
  match ps, flags with
  | o :: ps', f :: flags' =>
      (if f then setSurfaceColor c o else o) :: deselected c ps' flags'
  | _, _ => ps
  end.

Lemma alter_at_length {A : Type} (g : A -> A) (l1 l2 : list A) (x : A) :
  alter g (length l1) (l1 ++ x :: l2) = l1 ++ g x :: l2.
Proof. induction l1 as [|y l1 IH]; cbn; [reflexivity|]. now f_equal. Qed.

Lemma insert_at_length {A : Type} (l1 l2 : list A) (x y : A) :
  <[length l1 := y]> (l1 ++ x :: l2) = l1 ++ y :: l2.
Proof. induction l1 as [|z l1 IH]; cbn; [reflexivity|]. now f_equal. Qed.

Lemma deselectAllFrom_spec (n : nat) :
  forall (st : State) (ps1 ps2 : list Object) (fl1 fl2 : list bool),
    length ps2 = n -> length fl2 = n -> length fl1 = length ps1 ->
    primitives st = ps1 ++ ps2 -> primitiveSelectedFlags st = fl1 ++ fl2 ->
    deselectAllFrom (length ps1) n st
    = withLists st (ps1 ++ deselected (primitiveColor st) ps2 fl2)
        (fl1 ++ replicate n false).
Proof.
  induction n as [|n IH]; intros st ps1 ps2 fl1 fl2 Hp Hf Hl Hps Hfl.
  - destruct ps2; [|discriminate Hp]. destruct fl2; [|discriminate Hf].
    cbn. rewrite <- Hps, <- Hfl. now destruct st.
  - destruct ps2 as [|o ps2]; [discriminate Hp|].
    destruct fl2 as [|f fl2]; [discriminate Hf|].
    cbn [deselectAllFrom deselected replicate].
    assert (Hst : deselectPrimitive (length ps1) st
                  = withLists st (ps1 ++ (if f then setSurfaceColor (primitiveColor st) o
                                         else o) :: ps2)
                      (fl1 ++ false :: fl2)).
    { unfold deselectPrimitive. rewrite Hfl, Hps.
      rewrite app_nth2 by lia. rewrite Hl, Nat.sub_diag. cbn [nth].
      destruct f.
      - rewrite alter_at_length. rewrite <- Hl. now rewrite insert_at_length.
      - rewrite <- Hps, <- Hfl. now destruct st. }
    rewrite Hst.
    replace (S (length ps1)) with (length (ps1 ++ [if f then setSurfaceColor
                                                         (primitiveColor st) o else o]))
      by (rewrite length_app; cbn; lia).
    rewrite (IH _ _ ps2 (fl1 ++ [false]) fl2).
    + cbn. now rewrite <- !app_assoc.
    + cbn in Hp. lia.
    + cbn in Hf. lia.
    + rewrite !length_app. cbn. lia.
    + cbn. now rewrite <- app_assoc.
    + cbn. now rewrite <- app_assoc.
Qed.

Lemma deselected_app (c : Color) (ps : list Object) (flags : list bool) (o : Object) :
  length flags = length ps ->
  deselected c (ps ++ [o]) (flags ++ [false]) = deselected c ps flags ++ [o].
Proof.
  revert flags. induction ps as [|p ps IH]; intros [|f flags] H; try discriminate H;
    [reflexivity|].
  cbn [app deselected]. rewrite IH by (cbn in H; lia). reflexivity.
Qed.

(** X8.  "Intersect primitives" looks at the selected primitives only, a
    Brunton plane counting as a plane, a cylinder as a line and a sphere
    as a point.  For any selection other than two planes, three planes, or
    one plane and one line it reports "mismatching selected primitives".
    On that and on every error of a constructor the application is left
    as it was.  On success the new primitive is appended with the
    unselected colour, becomes the last picked primitive, and every
    primitive is unselected, the ones that were selected getting the
    unselected colour. *)
Theorem intersect_selected_primitives (offsets : Vec3 float) (newAddress : nat)
    (st : State) :
  wellFormed st ->
  let '(planes, lines, points) :=
    sortSelected (primitives st) (primitiveSelectedFlags st) in
  let counts := (length planes, length lines, length points) in
  (counts <> (2, 0, 0)%nat -> counts <> (3, 0, 0)%nat -> counts <> (1, 1, 0)%nat ->
   intersectPrimitivesCallback offsets newAddress st
   = (st, Some MismatchingSelectedPrimitives))
  /\ match intersectPrimitivesCallback offsets newAddress st with
     | (st', Some _) => st' = st
     | (st', None) =>
         exists newShape : Primitives.Primitive,
           st'
           = mkState
               (deselected (primitiveColor st) (primitives st) (primitiveSelectedFlags st)
                ++ [setGridColor gridGrey
                      (setSurfaceColor (primitiveColor st)
                         (mkObject newAddress newShape constructedColor gridGrey 1))])
               (replicate (S (length (primitives st))) false)
               (Z.of_nat (length (primitives st)))
               (primitiveColor st) (selectedPrimitiveColor st)
     end.
Proof.
  intros Hwf. unfold intersectPrimitivesCallback.
  destruct (sortSelected _ _) as [[planes lines] points]. cbv zeta.
  split.
  - intros H1 H2 H3.
    destruct planes as [|p0 [|p1 [|p2 [|p3 planes]]]];
      destruct lines as [|l0 [|l1 lines]]; destruct points as [|q points];
      cbn in H1, H2, H3; try reflexivity; congruence.
  - match goal with |- match (match ?m with _ => _ end) with _ => _ end =>
      destruct m as [newShape|e] end; [|reflexivity].
    exists newShape. cbn [addPrimitive].
    set (new := setGridColor gridGrey _).
    match goal with
    | |- context [deselectAllFrom 0 ?n ?s] =>
        pose proof (deselectAllFrom_spec n s [] (primitives st ++ [new]) []
                      (primitiveSelectedFlags st ++ [false])) as Hd
    end.
    cbn [length app] in Hd.
    rewrite Hd; [|reflexivity|cbn; rewrite !length_app, Hwf; reflexivity
                 |reflexivity|reflexivity|reflexivity].
    cbn. rewrite deselected_app by exact Hwf.
    rewrite length_app. cbn [length].
    unfold withLists. cbn.
    replace (length (primitives st) + 1)%nat with (S (length (primitives st))) by lia.
    cbn [replicate]. f_equal. lia.
Qed.

End Manager.

Arguments Object : clear implicits.
Arguments State : clear implicits.

End PrimitiveManager.

(** *** A session with three primitives, two of them selected planes *)

Module ManagerSample.
Import PrimitiveManager.

Definition floor : Primitives.Primitive :=
  Primitives.BruntonPrimitive
    (Primitives.mkPlanePrimitive (Primitives.mkPrimitive 800 0.25 "floor")
       (mkVec3 0 0 0)%float (mkVec3 0 0 1)%float
       ((mkVec3 1 0 0)%float, (mkVec3 0 1 0)%float)
       ((-2, 2)%float, (-2, 2)%float) (4, 4)).

Definition edge : Primitives.Primitive :=
  Primitives.LinePrimitive
    (Primitives.mkLinePrimitive (Primitives.mkPrimitive 5800 0.5 "")
       (mkVec3 7 0 0)%float (mkVec3 0 1 0)%float 1%float (-1, 1)%float).

(** Colours by name. *)
Definition primitiveColour : string := "primitive".
Definition selectedColour : string := "selected".
Definition gridColour : string := "grid".
Definition constructedColour : string := "constructed".

Definition state : State string :=
  mkState
    [mkObject 100 PrimitiveSample.wall selectedColour gridColour 4;
     mkObject 200 PrimitiveSample.ball primitiveColour gridColour 3;
     mkObject 300 floor selectedColour gridColour 6]
    [true; false; true] 1 primitiveColour selectedColour.

(** A pick function for the samples below only: PointPrimitive::pick with
    the squared distance summed in the order of the components, applied to
    the centre of a sphere as well (SpherePrimitive::pick also picks near
    the surface); nothing else can be picked. *)
Definition pickPoint (o : Object string) (pickPoint : Vec3 float) (maxPickDistance2 : float)
  : option float :=
  match asPoint (shape o) with
  | Some d =>
      let sqr (x : float) := (x * x)%float in
      let dist2 := (sqr (vx pickPoint - vx (Primitives.point d))
                    + sqr (vy pickPoint - vy (Primitives.point d))
                    + sqr (vz pickPoint - vz (Primitives.point d)))%float in
      if PrimFloat.ltb dist2 maxPickDistance2 then Some dist2 else None
  | None => None
  end.

(** The stand-ins for the intersecting constructors. *)
Definition twoPlanes (p0 p1 : Primitives.PlanePrimitive_) (offsets : Vec3 float)
  : result IntersectError Primitives.Primitive := Ok edge.
Definition threePlanes (p0 p1 p2 : Primitives.PlanePrimitive_) (offsets : Vec3 float)
  : result IntersectError Primitives.Primitive := Ok PrimitiveSample.corner.
Definition planeLine (p : Primitives.PlanePrimitive_) (l : Primitives.LinePrimitive_)
    (offsets : Vec3 float) : result IntersectError Primitives.Primitive :=
  Err (ConstructorError "PointPrimitive::PointPrimitive: Plane and line do not intersect"%string).

Example click_on_the_ball :
  let pressed := buttonCallback pickPoint 0.5%float true (mkVec3 4 5 6.25)%float 10%float
                   (mkPrimitiveDraggerTool None 0%float, state) in
  map (fun release => primitiveSelectedFlags (snd (buttonCallback pickPoint 0.5%float false
                                                     (mkVec3 0 0 0)%float release pressed)))
      [10.125; 10.25; 12]%float
  = [[true; true; true]; [true; false; true]; [true; false; true]].
Proof. reflexivity. Qed.

Example intersect_two_planes :
  intersectPrimitivesCallback gridColour twoPlanes threePlanes planeLine constructedColour
    (mkVec3 0 0 0)%float 400 state
  = (mkState
       [mkObject 100 PrimitiveSample.wall primitiveColour gridColour 5;
        mkObject 200 PrimitiveSample.ball primitiveColour gridColour 3;
        mkObject 300 floor primitiveColour gridColour 7;
        mkObject 400 edge primitiveColour gridColour 3]
       [false; false; false; false] 3 primitiveColour selectedColour,
     None).
Proof. reflexivity. Qed.

End ManagerSample.

Lemma selection_flags_stay_aligned_witness :
  PrimitiveManager.wellFormed
    (PrimitiveManager.deleteSelectedPrimitivesCallback ManagerSample.state).
Proof.
  apply (proj1 (proj2 (proj2 (proj2 (proj2 (proj2
           (PrimitiveManager.selection_flags_stay_aligned ManagerSample.gridColour ManagerSample.pickPoint
              0.5%float ManagerSample.twoPlanes ManagerSample.threePlanes
              ManagerSample.planeLine ManagerSample.constructedColour ManagerSample.state eq_refl))))))).
Defined.

Lemma delete_selected_keeps_the_unselected_witness :
  PrimitiveManager.deleteSelectedPrimitivesCallback ManagerSample.state
  = PrimitiveManager.mkState
      [PrimitiveManager.mkObject 200 PrimitiveSample.ball ManagerSample.primitiveColour ManagerSample.gridColour 3]
      [false] (-1) ManagerSample.primitiveColour ManagerSample.selectedColour.
Proof.
  exact (PrimitiveManager.delete_selected_keeps_the_unselected ManagerSample.state eq_refl).
Defined.

Lemma toggle_flips_one_flag_witness :
  PrimitiveManager.primitiveSelectedFlags
    (PrimitiveManager.togglePrimitive 200 ManagerSample.state)
  = [true; true; true].
Proof.
  exact (proj1 (proj2 (PrimitiveManager.toggle_flips_one_flag 200 ManagerSample.state
                         eq_refl))).
Defined.

Lemma dragger_click_toggles_witness :
  exists (i : nat) (o : PrimitiveManager.Object string),
    PrimitiveManager.primitives ManagerSample.state !! i = Some o
    /\ PrimitiveManager.address o = 200%nat.
Proof.
  destruct (PrimitiveManager.dragger_click_toggles ManagerSample.pickPoint 0.5%float
              ManagerSample.state (PrimitiveManager.mkPrimitiveDraggerTool None 0%float)
              (mkVec3 4 5 6.25)%float (mkVec3 0 0 0)%float 10%float 10.125%float)
    as (i & o & Ho & Ha & _).
  exists i, o. split; [exact Ho|exact Ha].
Defined.

Lemma intersect_selected_primitives_witness :
  PrimitiveManager.intersectPrimitivesCallback ManagerSample.gridColour ManagerSample.twoPlanes
    ManagerSample.threePlanes ManagerSample.planeLine ManagerSample.constructedColour
    (mkVec3 0 0 0)%float 400
    (PrimitiveManager.togglePrimitive 200 ManagerSample.state)
  = (PrimitiveManager.togglePrimitive 200 ManagerSample.state,
     Some PrimitiveManager.MismatchingSelectedPrimitives).
Proof.
  apply (proj1 (PrimitiveManager.intersect_selected_primitives ManagerSample.gridColour
                  ManagerSample.twoPlanes ManagerSample.threePlanes
                  ManagerSample.planeLine ManagerSample.constructedColour (mkVec3 0 0 0)%float 400
                  (PrimitiveManager.togglePrimitive 200 ManagerSample.state) eq_refl));
    discriminate.
Defined.

(** ** Settings of the point selector tools (PointSelectorTool.cpp,
       LidarViewer.cpp) *)

Module ToolSettings.
Import LidarViewer.

(** The two tags of a Misc::ConfigurationFileSection the tool reads and
    writes, with the values the toolkit's value coders give. *)
Record ConfigurationFileSection := mkSection {
  tagRadius : option float;           (* "./radius" *)
  tagSelectorMode : option string     (* "./selectorMode" *)
}.

(** "Invalid selector mode %s" *)
Inductive ConfigError : Type := InvalidSelectorMode (selectorModeName : string).

(** PointSelectorTool::configure: the tool as the call leaves it, and the
    exception thrown, if any. *)
Definition configure (configFileSection : ConfigurationFileSection)
    (t : PointSelectorTool) : PointSelectorTool * option ConfigError :=
  (* Read tool settings from configuration file section: *)
  let t :=
    match tagRadius configFileSection with
    | Some r => mkPointSelectorTool r (selectorMode t) (Z.lor (initMask t) 1) (active t)
    | None => t
    end in
  match tagSelectorMode configFileSection with
  | Some selectorModeName =>
      if String.eqb selectorModeName "Add" then
        (mkPointSelectorTool (radius t) Add (Z.lor (initMask t) 2) (active t), None)
      else if String.eqb selectorModeName "Subtract" then
        (mkPointSelectorTool (radius t) Subtract (Z.lor (initMask t) 2) (active t), None)
      else (t, Some (InvalidSelectorMode selectorModeName))
  | None => (t, None)
  end.

(** PointSelectorTool::storeState *)
Definition storeState (t : PointSelectorTool) (configFileSection : ConfigurationFileSection)
  : ConfigurationFileSection :=
  mkSection (Some (radius t))
    (Some (match selectorMode t with Add => "Add" | Subtract => "Subtract" end)%string).

(** PointSelectorTool::update *)
Definition update (application : Application) (t : PointSelectorTool) : PointSelectorTool :=
  mkPointSelectorTool (defaultSelectorRadius application)
    (defaultSelectorMode application) (initMask t) (active t).

(** The members of LidarViewer behind the interaction dialog; the tools
    of the list are objects, here with their addresses. *)
Record Viewer := mkViewer {
  overrideTools : bool;
  application : Application;
  pointSelectorTools : list (nat * PointSelectorTool)
}.

Definition withDefaults (v : Viewer) (r : float) (m : SelectorMode) : Viewer :=
  mkViewer (overrideTools v)
    (mkApplication (numOctrees (application v)) (showOctrees (application v)) r m)
    (pointSelectorTools v).

(** Apply the settings to all currently existing point selector tools. *)
Definition updateAll (v : Viewer) : Viewer :=
  mkViewer (overrideTools v) (application v)
    (map (fun t => (fst t, update (application v) (snd t))) (pointSelectorTools v)).

(** LidarViewer::changeSelectorModeCallback with the index of the new
    toggle of the radio box. *)
Definition changeSelectorModeCallback (toggleIndex : Z) (v : Viewer) : Viewer :=
  let v :=
    match toggleIndex with
    | 0 => withDefaults v (defaultSelectorRadius (application v)) Add
    | 1 => withDefaults v (defaultSelectorRadius (application v)) Subtract
    | _ => v
    end in
  if overrideTools v then updateAll v else v.

(** LidarViewer::overrideToolsCallback *)
Definition overrideToolsCallback (set : bool) (v : Viewer) : Viewer :=
  let v := mkViewer set (application v) (pointSelectorTools v) in
  if overrideTools v then updateAll v else v.

(** LidarViewer::brushSizeSliderCallback *)
Definition brushSizeSliderCallback (value : float) (v : Viewer) : Viewer :=
  (* Get the new brush size: *)
  let v := withDefaults v value (defaultSelectorMode (application v)) in
  if overrideTools v then updateAll v else v.

(** PointSelectorTool::initialize for the tool at address [this]: the
    settings, and the entry in the application's list of tools. *)
Definition initializeTool (this : nat) (t : PointSelectorTool) (v : Viewer) : Viewer :=
  mkViewer (overrideTools v) (application v)
    (pointSelectorTools v ++ [(this, initialize (application v) t)]).

(** PointSelectorTool::deinitialize: the loop from position [i] on. *)
Fixpoint deinitializeFrom (this : nat) (rest : list (nat * PointSelectorTool)) (i : nat)
    (tools : list (nat * PointSelectorTool)) : list (nat * PointSelectorTool) :=
  match rest with
  | [] => tools
  | t :: rest' =>
      if Nat.eqb (fst t) this then
        (* Remove this tool and stop searching: *)
        removelast (<[i := List.last tools t]> tools)
      else deinitializeFrom this rest' (S i) tools
  end.

Definition deinitialize (this : nat) (v : Viewer) : Viewer :=
  mkViewer (overrideTools v) (application v)
    (deinitializeFrom this (pointSelectorTools v) 0 (pointSelectorTools v)).

End ToolSettings.

Section ToolSettingsFacts.
Import LidarViewer ToolSettings.

Lemma land_lor_same (m k : Z) : Z.land (Z.lor m k) k = k.
Proof.
  apply Z.bits_inj'. intros i _. rewrite Z.land_spec, Z.lor_spec.
  destruct (Z.testbit m i), (Z.testbit k i); reflexivity.
Qed.

Lemma land_lor_2_1 (m : Z) : Z.land (Z.lor m 2) 1 = Z.land m 1.
Proof. rewrite Z.land_lor_distr_l. change (Z.land 2 1) with 0. apply Z.lor_0_r. Qed.

Lemma land_lor_1_2 (m : Z) : Z.land (Z.lor m 1) 2 = Z.land m 2.
Proof. rewrite Z.land_lor_distr_l. change (Z.land 1 2) with 0. apply Z.lor_0_r. Qed.

(** The selector mode a name stands for. *)
Definition modeOfName (name : string) : option SelectorMode :=
  if String.eqb name "Add" then Some Add
  else if String.eqb name "Subtract" then Some Subtract
  else None.

(** X9.  A tool that is configured and then initialized takes each setting
    from the configuration section when the section has the tag, and
    otherwise keeps a setting configured before or, without one, takes the
    application's default.  A selector mode other than "Add" and
    "Subtract" makes configure throw, after the radius of the section has
    been taken.  What storeState writes, configure reads back: a tool
    restored from its stored state has its radius and mode, and
    initializing it does not replace them by the defaults. *)
Theorem configured_settings_override_defaults (cfg : ConfigurationFileSection)
    (app : Application) (t : PointSelectorTool) :
  (forall t' : PointSelectorTool,
     configure cfg t = (t', None) ->
     radius (initialize app t')
     = match tagRadius cfg with
       | Some r => r
       | None => if Z.land (initMask t) 1 =? 0 then defaultSelectorRadius app
                 else radius t
       end
     /\ selectorMode (initialize app t')
        = match tagSelectorMode cfg with
          | Some name => match modeOfName name with Some m => m | None => Add end
          | None => if Z.land (initMask t) 2 =? 0 then defaultSelectorMode app
                    else selectorMode t
          end
     /\ active (initialize app t') = active t)
  /\ (forall (t' : PointSelectorTool) (e : ConfigError),
        configure cfg t = (t', Some e) ->
        exists name : string,
          tagSelectorMode cfg = Some name /\ modeOfName name = None
          /\ e = InvalidSelectorMode name
          /\ selectorMode t' = selectorMode t
          /\ radius t' = match tagRadius cfg with Some r => r | None => radius t end)
  /\ (forall name : string,
        tagSelectorMode cfg = Some name -> modeOfName name = None ->
        snd (configure cfg t) = Some (InvalidSelectorMode name))
  /\ (forall cfg0 : ConfigurationFileSection,
        configure (storeState t cfg0) PointSelectorTool_new
        = (mkPointSelectorTool (radius t) (selectorMode t) 3 false, None)
        /\ radius (initialize app (fst (configure (storeState t cfg0) PointSelectorTool_new)))
           = radius t
        /\ selectorMode
             (initialize app (fst (configure (storeState t cfg0) PointSelectorTool_new)))
           = selectorMode t).
Proof.
  split; [|split; [|split]].
  - intros t' H. unfold configure, modeOfName in *.
    destruct cfg as [[r|] [name|]]; cbn [tagRadius tagSelectorMode] in *;
      try (destruct (String.eqb name "Add"); [|destruct (String.eqb name "Subtract")]);
      try discriminate H; injection H as <-;
      unfold initialize;
      cbn [radius selectorMode initMask active];
      rewrite ?land_lor_same, ?land_lor_2_1, ?land_lor_1_2, ?land_lor_same;
      repeat split; try reflexivity;
      try (change (1 =? 0) with false; reflexivity);
      try (change (2 =? 0) with false; reflexivity).
  - intros t' e H. unfold configure in H.
    destruct cfg as [[r|] [name|]]; cbn [tagRadius tagSelectorMode] in *;
      try (destruct (String.eqb name "Add") eqn:E1;
           [|destruct (String.eqb name "Subtract") eqn:E2]);
      try discriminate H; injection H as <- <-; exists name;
      unfold modeOfName; rewrite E1, E2; repeat split; reflexivity.
  - intros name Hn Hm. unfold configure, modeOfName in *. rewrite Hn.
    destruct (String.eqb name "Add"); [discriminate Hm|].
    destruct (String.eqb name "Subtract"); [discriminate Hm|].
    reflexivity.
  - intros cfg0. destruct t as [r m mask a]. destruct m; repeat split; reflexivity.
Qed.

End ToolSettingsFacts.

Section ToolListFacts.
Import LidarViewer ToolSettings.

Lemma deinitializeFrom_absent (this : nat) (rest : list (nat * PointSelectorTool)) :
  this ∉ map fst rest ->
  forall (i : nat) (tools : list (nat * PointSelectorTool)),
    deinitializeFrom this rest i tools = tools.
Proof.
  induction rest as [|t rest IH]; intros Hn i tools; cbn [deinitializeFrom];
    [reflexivity|].
  cbn [map] in Hn. apply not_elem_of_cons in Hn as [Hne Hn].
  destruct (Nat.eqb_spec (fst t) this) as [E|_]; [now contradiction Hne|].
  now apply IH.
Qed.

Lemma deinitializeFrom_found (this : nat) (pre : list (nat * PointSelectorTool)) :
  this ∉ map fst pre ->
  forall (i : nat) (tools : list (nat * PointSelectorTool))
         (t : nat * PointSelectorTool) (post : list (nat * PointSelectorTool)),
    fst t = this ->
    deinitializeFrom this (pre ++ t :: post) i tools
    = removelast (<[(i + length pre)%nat := List.last tools t]> tools).
Proof.
  induction pre as [|p pre IH]; intros Hn i tools t post Ht; cbn [app deinitializeFrom].
  - rewrite Ht, Nat.eqb_refl. cbn [length]. now rewrite Nat.add_0_r.
  - cbn [map] in Hn. apply not_elem_of_cons in Hn as [Hne Hn].
    destruct (Nat.eqb_spec (fst p) this) as [E|_]; [now contradiction Hne|].
    rewrite (IH Hn (S i) tools t post Ht). cbn [length].
    now replace (S i + length pre)%nat with (i + S (length pre))%nat by lia.
Qed.

Lemma insert_at_length' {A : Type} (l1 l2 : list A) (x y : A) :
  <[length l1 := y]> (l1 ++ x :: l2) = l1 ++ y :: l2.
Proof. induction l1 as [|z l1 IH]; cbn; [reflexivity|]. now f_equal. Qed.

Lemma removelast_snoc {A : Type} (l : list A) (x : A) : removelast (l ++ [x]) = l.
Proof. apply removelast_last. Qed.

Lemma last_snoc {A : Type} (l : list A) (x d : A) : List.last (l ++ [x]) d = x.
Proof. apply last_last. Qed.

(** X10.  Deinitializing a tool that is not in the application's list
    leaves the list alone.  Deinitializing one that is takes out its
    first entry by moving the last entry of the list into its place: the
    other tools stay, one of them possibly at a new position, and the list
    is one shorter.  A tool that was initialized last is taken out without
    moving any other, so initializing a tool and deinitializing it again
    restores the list. *)
Theorem deinitialize_removes_one_entry (this : nat) (v : Viewer) :
  (this ∉ map fst (pointSelectorTools v) -> deinitialize this v = v)
  /\ (forall (pre : list (nat * PointSelectorTool)) (t : PointSelectorTool),
        pointSelectorTools v = pre ++ [(this, t)] -> this ∉ map fst pre ->
        pointSelectorTools (deinitialize this v) = pre)
  /\ (forall (pre post : list (nat * PointSelectorTool)) (t : PointSelectorTool)
             (lastTool : nat * PointSelectorTool),
        pointSelectorTools v = pre ++ (this, t) :: post ++ [lastTool] ->
        this ∉ map fst pre ->
        pointSelectorTools (deinitialize this v) = pre ++ lastTool :: post)
  /\ (forall t : PointSelectorTool,
        this ∉ map fst (pointSelectorTools v) ->
        deinitialize this (initializeTool this t v) = v).
Proof.
  assert (Hlast : forall (pre : list (nat * PointSelectorTool)) (t : PointSelectorTool)
                         (tools : list (nat * PointSelectorTool)),
             tools = pre ++ [(this, t)] -> this ∉ map fst pre ->
             deinitializeFrom this tools 0 tools = pre).
  { intros pre t tools -> Hn.
    rewrite (deinitializeFrom_found this pre Hn 0 _ (this, t) []) at 1 by reflexivity.
    rewrite last_snoc. cbn [Nat.add].
    replace (pre ++ [(this, t)]) with (pre ++ (this, t) :: []) by reflexivity.
    rewrite insert_at_length'. apply removelast_snoc. }
  split; [|split; [|split]].
  - intros Hn. unfold deinitialize.
    rewrite deinitializeFrom_absent by exact Hn. now destruct v.
  - intros pre t Hv Hn. cbn. now apply (Hlast pre t).
  - intros pre post t lastTool Hv Hn. cbn. rewrite Hv.
    rewrite (deinitializeFrom_found this pre Hn 0 _ (this, t) (post ++ [lastTool]))
      by reflexivity.
    cbn [Nat.add].
    replace (pre ++ (this, t) :: post ++ [lastTool])
      with ((pre ++ (this, t) :: post) ++ [lastTool]) at 1
      by (now rewrite <- app_assoc).
    rewrite last_snoc. rewrite insert_at_length'.
    replace (pre ++ lastTool :: post ++ [lastTool])
      with ((pre ++ lastTool :: post) ++ [lastTool]) by (now rewrite <- app_assoc).
    apply removelast_snoc.
  - intros t Hn. unfold deinitialize, initializeTool.
    cbn [pointSelectorTools overrideTools application].
    rewrite (Hlast (pointSelectorTools v) (initialize (application v) t)) by auto.
    now destruct v.
Qed.

End ToolListFacts.

Section OverrideFacts.
Import LidarViewer ToolSettings.

(** A tool carries the application's default radius and mode. *)
Definition hasDefaults (app : Application) (t : nat * PointSelectorTool) : Prop :=
  radius (snd t) = defaultSelectorRadius app
  /\ selectorMode (snd t) = defaultSelectorMode app.

(** What no settings callback touches: which tools there are, which
    settings they were configured with, and whether they are selecting. *)
Definition sameTools (tools tools' : list (nat * PointSelectorTool)) : Prop :=
  map (fun t => (fst t, initMask (snd t), active (snd t))) tools'
  = map (fun t => (fst t, initMask (snd t), active (snd t))) tools.

Lemma updateAll_spec (v : Viewer) :
  Forall (hasDefaults (application v)) (pointSelectorTools (updateAll v))
  /\ sameTools (pointSelectorTools v) (pointSelectorTools (updateAll v)).
Proof.
  unfold updateAll, sameTools. cbn [pointSelectorTools]. split.
  - apply List.Forall_forall. intros t Ht. apply in_map_iff in Ht as (t0 & <- & _).
    split; reflexivity.
  - rewrite map_map. reflexivity.
Qed.

(** The three callbacks of the interaction dialog. *)
Inductive SettingsCallback : Type :=
| ChangeSelectorMode (toggleIndex : Z)
| OverrideTools (set : bool)
| BrushSizeSlider (value : float).

Definition runCallback (c : SettingsCallback) (v : Viewer) : Viewer :=
  match c with
  | ChangeSelectorMode i => changeSelectorModeCallback i v
  | OverrideTools b => overrideToolsCallback b v
  | BrushSizeSlider x => brushSizeSliderCallback x v
  end.

(** X11.  After a change of the selector mode, of the brush size or of the
    "override tools" toggle, with the toggle on, every existing point
    selector tool has both the default radius and the default mode of the
    application, also the setting the callback was not about and settings
    the tool was configured with; with the toggle off no tool is changed.
    No callback adds or removes a tool, or changes whether a tool is
    selecting. *)
Theorem settings_callbacks_override_tools (c : SettingsCallback) (v : Viewer) :
  (if overrideTools (runCallback c v)
   then Forall (hasDefaults (application (runCallback c v)))
               (pointSelectorTools (runCallback c v))
   else pointSelectorTools (runCallback c v) = pointSelectorTools v)
  /\ sameTools (pointSelectorTools v) (pointSelectorTools (runCallback c v))
  /\ overrideTools (runCallback c v)
     = match c with OverrideTools b => b | _ => overrideTools v end
  /\ defaultSelectorRadius (application (runCallback c v))
     = match c with
       | BrushSizeSlider x => x
       | _ => defaultSelectorRadius (application v)
       end
  /\ defaultSelectorMode (application (runCallback c v))
     = match c with
       | ChangeSelectorMode 0 => Add
       | ChangeSelectorMode 1 => Subtract
       | _ => defaultSelectorMode (application v)
       end.
Proof.
  assert (Hstep : forall w : Viewer,
             let w' := if overrideTools w then updateAll w else w in
             (if overrideTools w'
              then Forall (hasDefaults (application w')) (pointSelectorTools w')
              else pointSelectorTools w' = pointSelectorTools w)
             /\ sameTools (pointSelectorTools w) (pointSelectorTools w')
             /\ overrideTools w' = overrideTools w
             /\ application w' = application w).
  { intros w. cbv zeta. destruct (overrideTools w) eqn:E.
    - cbn [updateAll overrideTools application]. rewrite E.
      destruct (updateAll_spec w) as [H1 H2]. repeat split; assumption.
    - rewrite E. repeat split; reflexivity. }
  destruct c as [i|b|x]; unfold runCallback.
  - unfold changeSelectorModeCallback.
    set (w := match i with 0 => _ | 1 => _ | _ => v end).
    destruct (Hstep w) as (H1 & H2 & H3 & H4). cbv zeta in *.
    assert (Hw : pointSelectorTools w = pointSelectorTools v
                 /\ overrideTools w = overrideTools v)
      by (unfold w; destruct i as [|[| |]|]; split; reflexivity).
    destruct Hw as [Hw1 Hw2]. rewrite Hw1 in H1, H2.
    split; [exact H1|]. split; [exact H2|]. split; [now rewrite H3|].
    rewrite H4. unfold w. destruct i as [|[| |]|]; split; reflexivity.
  - unfold overrideToolsCallback.
    set (w := mkViewer b (application v) (pointSelectorTools v)).
    destruct (Hstep w) as (H1 & H2 & H3 & H4). cbv zeta in *.
    split; [exact H1|]. split; [exact H2|]. split; [exact H3|].
    rewrite H4. split; reflexivity.
  - unfold brushSizeSliderCallback.
    set (w := withDefaults v x _).
    destruct (Hstep w) as (H1 & H2 & H3 & H4). cbv zeta in *.
    split; [exact H1|]. split; [exact H2|]. split; [exact H3|].
    rewrite H4. split; reflexivity.
Qed.

End OverrideFacts.

(** *** Two tools, one configured to subtract *)

Module ToolSample.
Import LidarViewer ToolSettings.

Definition app : Application := mkApplication 1 [true] 0.25%float Add.

Definition toolSection : ConfigurationFileSection :=
  mkSection (Some 0.5%float) (Some "Subtract"%string).

Definition configured : PointSelectorTool := fst (configure toolSection PointSelectorTool_new).

Definition viewer : Viewer :=
  initializeTool 20 PointSelectorTool_new
    (initializeTool 10 configured (mkViewer false app [])).

Example viewer_tools :
  pointSelectorTools viewer
  = [(10%nat, mkPointSelectorTool 0.5%float Subtract 3 false);
     (20%nat, mkPointSelectorTool 0.25%float Add 0 false)].
Proof. reflexivity. Qed.

Example invalid_mode :
  configure (mkSection (Some 0.5%float) (Some "Toggle"%string)) PointSelectorTool_new
  = (mkPointSelectorTool 0.5%float Add 1 false, Some (InvalidSelectorMode "Toggle")).
Proof. reflexivity. Qed.

Example brush_size_resets_mode :
  pointSelectorTools (brushSizeSliderCallback 2%float (overrideToolsCallback true viewer))
  = [(10%nat, mkPointSelectorTool 2%float Add 3 false);
     (20%nat, mkPointSelectorTool 2%float Add 0 false)].
Proof. reflexivity. Qed.

Example first_tool_removed :
  pointSelectorTools (deinitialize 10 (initializeTool 30 configured viewer))
  = [(30%nat, mkPointSelectorTool 0.5%float Subtract 3 false);
     (20%nat, mkPointSelectorTool 0.25%float Add 0 false)].
Proof. reflexivity. Qed.

End ToolSample.

Lemma configured_settings_override_defaults_witness :
  LidarViewer.radius (LidarViewer.initialize ToolSample.app ToolSample.configured)
  = 0.5%float.
Proof.
  exact (proj1 (proj1 (configured_settings_override_defaults ToolSample.toolSection
                         ToolSample.app LidarViewer.PointSelectorTool_new)
                  ToolSample.configured eq_refl)).
Defined.

Lemma deinitialize_removes_one_entry_witness :
  ToolSettings.deinitialize 30
    (ToolSettings.initializeTool 30 ToolSample.configured ToolSample.viewer)
  = ToolSample.viewer.
Proof.
  apply (proj2 (proj2 (proj2 (deinitialize_removes_one_entry 30 ToolSample.viewer)))).
  intros H. cbn in H.
  apply elem_of_cons in H as [H|H]; [discriminate H|].
  apply elem_of_cons in H as [H|H]; [discriminate H|].
  now apply elem_of_nil in H.
Defined.

Lemma settings_callbacks_override_tools_witness :
  Forall (hasDefaults
            (ToolSettings.application
               (runCallback (OverrideTools true) ToolSample.viewer)))
         (ToolSettings.pointSelectorTools
            (runCallback (OverrideTools true) ToolSample.viewer)).
Proof.
  exact (proj1 (settings_callbacks_override_tools (OverrideTools true) ToolSample.viewer)).
Defined.

(** ** Primitives on the intra-cluster pipe and in files: every field *)

Module PrimitivePipe.
Section Pipe.
Context {SM : StringMarshaller}.
Import Primitives.

(** *** write to a Cluster::MulticastPipe *)

Definition Primitive_write (b : Primitive_) : list byte :=
  (* Write the number of points and the approximation RMS: *)
  LE.encode 8 (numPoints b) ++ Float64.encode (rms b)
  (* Write the primitive label: *)
  ++ writeCppString (label b).

Definition PointPrimitive_write (p : PointPrimitive_) : list byte :=
  Primitive_write (pointBase p)
  (* Write the point: *)
  ++ enc3 (point p).

Definition SpherePrimitive_write (p : PointPrimitive_) (radius : float) : list byte :=
  PointPrimitive_write p ++ Float64.encode radius.

Definition LinePrimitive_write (l : LinePrimitive_) : list byte :=
  Primitive_write (lineBase l)
  (* Write the center point: *)
  ++ enc3 (lineCenter l)
  (* Write the axis direction and length: *)
  ++ enc3 (axis l) ++ Float64.encode (axisLength l)
  (* Write the extents of the line's visual representation: *)
  ++ enc2 (lineExtents l).

Definition CylinderPrimitive_write (l : LinePrimitive_) (radius : float)
    (numLines : Z * Z) : list byte :=
  LinePrimitive_write l ++ Float64.encode radius ++ encInt2 numLines.

Definition PlanePrimitive_write (p : PlanePrimitive_) : list byte :=
  Primitive_write (planeBase p)
  (* Write the center point and the normal vector: *)
  ++ enc3 (planeCenter p) ++ enc3 (normal p)
  (* Write the plane's visual representation: *)
  ++ enc3 (fst (axes p)) ++ enc3 (snd (axes p))
  ++ enc2 (fst (planeExtents p)) ++ enc2 (snd (planeExtents p))
  ++ encInt2 (planeNumLines p).

(** The virtual call of [write(pipe)]. *)
Definition write (p : Primitive) : list byte :=
  match p with
  | PointPrimitive d => PointPrimitive_write d
  | SpherePrimitive d r => SpherePrimitive_write d r
  | LinePrimitive d => LinePrimitive_write d
  | CylinderPrimitive d r n => CylinderPrimitive_write d r n
  | PlanePrimitive d => PlanePrimitive_write d
  | BruntonPrimitive d => PlanePrimitive_write d
  end.

(** *** read from a Cluster::MulticastPipe *)

Definition Primitive_read (f : SeqFile.t) : result exn (Primitive_ * SeqFile.t) :=
  '(n, f) <- SeqFile.read_u64 f ;;
  '(r, f) <- SeqFile.read_f64 f ;;
  '(l, f) <- readCppString f ;;
  Ok (mkPrimitive n r l, f).

Definition PointPrimitive_read (f : SeqFile.t) : result exn (PointPrimitive_ * SeqFile.t) :=
  '(b, f) <- Primitive_read f ;;
  (* Read the point: *)
  '(pt, f) <- SeqFile.read_f64_3 f ;;
  Ok (mkPointPrimitive b pt, f).

Definition LinePrimitive_read (f : SeqFile.t) : result exn (LinePrimitive_ * SeqFile.t) :=
  '(b, f) <- Primitive_read f ;;
  (* Read the center point: *)
  '(c, f) <- SeqFile.read_f64_3 f ;;
  (* Read the axis direction and length: *)
  '(a, f) <- SeqFile.read_f64_3 f ;;
  '(len, f) <- SeqFile.read_f64 f ;;
  (* Read the extents of the line's visual representation: *)
  '(e0, e1, f) <- SeqFile.read_f64_2 f ;;
  Ok (mkLinePrimitive b c a len (e0, e1), f).

Definition PlanePrimitive_read (f : SeqFile.t) : result exn (PlanePrimitive_ * SeqFile.t) :=
  '(b, f) <- Primitive_read f ;;
  (* Read the center point and the normal vector: *)
  '(c, f) <- SeqFile.read_f64_3 f ;;
  '(n, f) <- SeqFile.read_f64_3 f ;;
  (* Read the plane's visual representation: *)
  '(a0, f) <- SeqFile.read_f64_3 f ;;
  '(a1, f) <- SeqFile.read_f64_3 f ;;
  '(e00, e01, f) <- SeqFile.read_f64_2 f ;;
  '(e10, e11, f) <- SeqFile.read_f64_2 f ;;
  '(l0, l1, f) <- SeqFile.read_i32_2 f ;;
  Ok (mkPlanePrimitive b c n (a0, a1) ((e00, e01), (e10, e11)) (l0, l1), f).

(** The class whose constructor from a pipe the receiving node calls. *)
Inductive PrimitiveClass : Type :=
| PointClass | SphereClass | LineClass | CylinderClass | PlaneClass | BruntonClass.

Definition classOf (p : Primitive) : PrimitiveClass :=
  match p with
  | PointPrimitive _ => PointClass
  | SpherePrimitive _ _ => SphereClass
  | LinePrimitive _ => LineClass
  | CylinderPrimitive _ _ _ => CylinderClass
  | PlanePrimitive _ => PlaneClass
  | BruntonPrimitive _ => BruntonClass
  end.

(** [new PrimitiveParam(pipe)] *)
Definition read (c : PrimitiveClass) (f : SeqFile.t) : result exn (Primitive * SeqFile.t) :=
  match c with
  | PointClass => '(d, f) <- PointPrimitive_read f ;; Ok (PointPrimitive d, f)
  | SphereClass =>
      '(d, f) <- PointPrimitive_read f ;;
      '(r, f) <- SeqFile.read_f64 f ;;
      Ok (SpherePrimitive d r, f)
  | LineClass => '(d, f) <- LinePrimitive_read f ;; Ok (LinePrimitive d, f)
  | CylinderClass =>
      '(d, f) <- LinePrimitive_read f ;;
      '(r, f) <- SeqFile.read_f64 f ;;
      '(n0, n1, f) <- SeqFile.read_i32_2 f ;;
      Ok (CylinderPrimitive d r (n0, n1), f)
  | PlaneClass => '(d, f) <- PlanePrimitive_read f ;; Ok (PlanePrimitive d, f)
  | BruntonClass => '(d, f) <- PlanePrimitive_read f ;; Ok (BruntonPrimitive d, f)
  end.

End Pipe.
End PrimitivePipe.

Section PipeFacts.
Context {SM : StringMarshaller}.
Import Primitives.

(** The values an [int] and a [Misc::UInt64] can hold. *)
Definition isInt32 (z : Z) : Prop := - 2 ^ 31 <= z < 2 ^ 31.
Definition isUInt64 (z : Z) : Prop := 0 <= z < 2 ^ 64.

(** A primitive whose integer members hold values of their types. *)
Definition inRange (p : Primitive) : Prop :=
  isUInt64 (numPoints (primitiveBase p))
  /\ match p with
     | CylinderPrimitive _ _ n => isInt32 (fst n) /\ isInt32 (snd n)
     | PlanePrimitive d | BruntonPrimitive d =>
         isInt32 (fst (planeNumLines d)) /\ isInt32 (snd (planeNumLines d))
     | _ => True
     end.

Lemma signed_int32 (z : Z) : isInt32 z -> LE.signed 32 (z mod 2 ^ 32) = z.
Proof.
  unfold isInt32, LE.signed. intros H.
  change (2 ^ (32 - 1)) with (2 ^ 31). change (2 ^ 31) with 2147483648 in *.
  change (2 ^ 32) with 4294967296.
  destruct (Z_lt_le_dec z 0) as [Hneg|Hpos].
  - replace (z mod 4294967296) with (z + 4294967296)
      by (apply Z.mod_unique with (-1); lia).
    destruct (Z.ltb_spec (z + 4294967296) 2147483648); lia.
  - rewrite Z.mod_small by lia.
    destruct (Z.ltb_spec z 2147483648); lia.
Qed.

Lemma reread_id (x : float) : reread x = x.
Proof. apply Float64_decode_encode. Qed.

Lemma reloadBase_id (b : Primitive_) : isUInt64 (numPoints b) -> reloadBase b = b.
Proof.
  intros H. unfold reloadBase. rewrite reread_id, Z.mod_small by exact H. now destruct b.
Qed.

Lemma reloadInt2_id (n : Z * Z) : isInt32 (fst n) -> isInt32 (snd n) -> reloadInt2 n = n.
Proof.
  intros H1 H2. unfold reloadInt2. rewrite !signed_int32 by assumption. now destruct n.
Qed.

Lemma pipe_Primitive_read_write (b : Primitive_) (rest : list byte) :
  marshallable (label b) -> isUInt64 (numPoints b) ->
  PrimitivePipe.Primitive_read (PrimitivePipe.Primitive_write b ++ rest) = Ok (b, rest).
Proof.
  intros Hl Hn. unfold PrimitivePipe.Primitive_read, PrimitivePipe.Primitive_write.
  rewrite <- !app_assoc.
  rewrite read_u64_encode. cbn [rbind].
  rewrite read_f64_encode. cbn [rbind].
  rewrite readCppString_write by assumption.
  rewrite reread_id, Z.mod_small by exact Hn. now destruct b.
Qed.

Lemma pipe_Point_read_write (d : PointPrimitive_) (rest : list byte) :
  marshallable (label (pointBase d)) -> isUInt64 (numPoints (pointBase d)) ->
  PrimitivePipe.PointPrimitive_read (PrimitivePipe.PointPrimitive_write d ++ rest)
  = Ok (d, rest).
Proof.
  intros Hl Hn.
  unfold PrimitivePipe.PointPrimitive_read, PrimitivePipe.PointPrimitive_write.
  rewrite <- !app_assoc.
  rewrite pipe_Primitive_read_write by assumption. cbn [rbind].
  rewrite read_f64_3_enc3, reread3_id. now destruct d.
Qed.

Lemma pipe_Line_read_write (d : LinePrimitive_) (rest : list byte) :
  marshallable (label (lineBase d)) -> isUInt64 (numPoints (lineBase d)) ->
  PrimitivePipe.LinePrimitive_read (PrimitivePipe.LinePrimitive_write d ++ rest)
  = Ok (d, rest).
Proof.
  intros Hl Hn.
  unfold PrimitivePipe.LinePrimitive_read, PrimitivePipe.LinePrimitive_write.
  rewrite <- !app_assoc.
  rewrite pipe_Primitive_read_write by assumption. cbn [rbind].
  do 2 (rewrite read_f64_3_enc3; cbn [rbind]).
  rewrite read_f64_encode. cbn [rbind].
  rewrite read_f64_2_enc2. rewrite !reread3_id, !reread_id.
  destruct d as [b c a len [e0 e1]]. reflexivity.
Qed.

Lemma pipe_Plane_read_write (d : PlanePrimitive_) (rest : list byte) :
  marshallable (label (planeBase d)) -> isUInt64 (numPoints (planeBase d)) ->
  isInt32 (fst (planeNumLines d)) -> isInt32 (snd (planeNumLines d)) ->
  PrimitivePipe.PlanePrimitive_read (PrimitivePipe.PlanePrimitive_write d ++ rest)
  = Ok (d, rest).
Proof.
  intros Hl Hn H1 H2.
  unfold PrimitivePipe.PlanePrimitive_read, PrimitivePipe.PlanePrimitive_write.
  rewrite <- !app_assoc.
  rewrite pipe_Primitive_read_write by assumption. cbn [rbind].
  do 4 (rewrite read_f64_3_enc3; cbn [rbind]).
  do 2 (rewrite read_f64_2_enc2; cbn [rbind]).
  rewrite read_i32_2_encInt2. rewrite !reread3_id, !reread_id, !signed_int32 by assumption.
  destruct d as [b c n [a0 a1] [[e00 e01] [e10 e11]] [l0 l1]]. reflexivity.
Qed.

(** X12.  A primitive written to the intra-cluster pipe and read by the
    constructor of its class on the receiving node is the primitive that
    was written, in every field and bit for bit, and the reader stops at
    the end of the primitive's bytes.  The label has to be one the
    toolkit's string marshaller can marshal. *)
Theorem pipe_transfers_primitive_exactly (p : Primitive) (rest : list byte) :
  marshallablePrimitive p -> inRange p ->
  PrimitivePipe.read (PrimitivePipe.classOf p) (PrimitivePipe.write p ++ rest)
  = Ok (p, rest).
Proof.
  intros Hl [Hn Hi].
  destruct p as [d|d r|d|d r n|d|d];
    cbn [PrimitivePipe.read PrimitivePipe.classOf PrimitivePipe.write
         marshallablePrimitive primitiveBase] in *.
  - now rewrite pipe_Point_read_write.
  - unfold PrimitivePipe.SpherePrimitive_write. rewrite <- app_assoc.
    rewrite pipe_Point_read_write by assumption. cbn [rbind].
    rewrite read_f64_encode, reread_id. reflexivity.
  - now rewrite pipe_Line_read_write.
  - unfold PrimitivePipe.CylinderPrimitive_write. rewrite <- !app_assoc.
    rewrite pipe_Line_read_write by assumption. cbn [rbind].
    rewrite read_f64_encode. cbn [rbind].
    rewrite read_i32_2_encInt2, reread_id, !signed_int32 by tauto.
    now destruct n.
  - destruct Hi. now rewrite pipe_Plane_read_write.
  - destruct Hi. now rewrite pipe_Plane_read_write.
Qed.

(** A primitive with its characteristic point replaced. *)
Definition withCharacteristicPoint (p : Primitive) (c : Vec3 float) : Primitive :=
  match p with
  | PointPrimitive d => PointPrimitive (mkPointPrimitive (pointBase d) c)
  | SpherePrimitive d r => SpherePrimitive (mkPointPrimitive (pointBase d) c) r
  | LinePrimitive d =>
      LinePrimitive (mkLinePrimitive (lineBase d) c (axis d) (axisLength d) (lineExtents d))
  | CylinderPrimitive d r n =>
      CylinderPrimitive
        (mkLinePrimitive (lineBase d) c (axis d) (axisLength d) (lineExtents d)) r n
  | PlanePrimitive d =>
      PlanePrimitive (mkPlanePrimitive (planeBase d) c (normal d) (axes d)
                        (planeExtents d) (planeNumLines d))
  | BruntonPrimitive d =>
      BruntonPrimitive (mkPlanePrimitive (planeBase d) c (normal d) (axes d)
                          (planeExtents d) (planeNumLines d))
  end.

Lemma reload_fields (offsets : Vec3 float) (p : Primitive) :
  inRange p ->
  reload offsets p
  = withCharacteristicPoint p
      (add3 (add3 (characteristicPoint p) offsets) (neg3 offsets)).
Proof.
  intros [Hn Hi].
  destruct p as [d|d r|d|d r n|d|d];
    cbn [reload withCharacteristicPoint characteristicPoint primitiveBase] in *;
    unfold reloadPoint, reloadLine, reloadPlane, reloadPosition;
    rewrite ?reread3_id, ?reread_id, ?reloadBase_id, ?reloadInt2_id by tauto.
  - reflexivity.
  - reflexivity.
  - destruct d as [b c a len [e0 e1]]. reflexivity.
  - destruct d as [b c a len [e0 e1]]. reflexivity.
  - destruct d as [b c n [a0 a1] [[e00 e01] [e10 e11]] l]. reflexivity.
  - destruct d as [b c n [a0 a1] [[e00 e01] [e10 e11]] l]. reflexivity.
Qed.

(** X13.  Saving a list of primitives to a file and loading the file with
    the same offset vector gives back every primitive with its class, its
    number of points, residual and label, its directions, lengths,
    extents, radius and grid sizes unchanged, bit for bit; only the
    characteristic point has gone through the two additions of the offset
    vector. *)
Theorem saved_primitives_keep_their_fields (offsets : Vec3 float) (ps : list Primitive) :
  Forall marshallablePrimitive ps -> Forall inRange ps ->
  loadPrimitives offsets (savePrimitives offsets ps)
  = (map (fun p =>
            withCharacteristicPoint p
              (add3 (add3 (characteristicPoint p) offsets) (neg3 offsets)))
         ps,
     None).
Proof.
  intros Hl Hr. rewrite loadPrimitives_saved by exact Hl. f_equal.
  induction ps as [|p ps IH]; [reflexivity|].
  inversion Hl as [|? ? _ Hl']; subst. inversion Hr as [|? ? Hp Hr']; subst.
  cbn [map]. rewrite reload_fields by exact Hp. f_equal. now apply IH.
Qed.

End PipeFacts.

(** ** The index ranges of the normal calculator's worker threads *)

Section WorkerRanges.
Import NormalCalculator.

(** Point [i] is in the range of worker [t]. *)
Definition inThreadRange (T n t i : nat) : Prop :=
  (fst (threadRange t T n) <= i < fst (threadRange t T n) + snd (threadRange t T n))%nat.

Lemma firstI_small (T n t : nat) :
  (t <= T)%nat -> Z.of_nat T * Z.of_nat n < 2 ^ 32 ->
  firstI (Z.of_nat t) (Z.of_nat T) (Z.of_nat n) = Z.of_nat t * Z.of_nat n / Z.of_nat T.
Proof.
  intros Ht Hov. unfold firstI. rewrite Z.mod_small; [reflexivity|].
  split; [lia|]. apply Z.le_lt_trans with (Z.of_nat T * Z.of_nat n); [nia|exact Hov].
Qed.

Lemma lastI_first (T n t : nat) :
  (0 < n)%nat -> (t < T)%nat -> Z.of_nat T * Z.of_nat n < 2 ^ 32 ->
  lastI (Z.of_nat t) (Z.of_nat T) (Z.of_nat n)
  = firstI (Z.of_nat (S t)) (Z.of_nat T) (Z.of_nat n).
Proof.
  intros Hn Ht Hov. unfold lastI, firstI.
  change (2 ^ 32) with 4294967296 in *.
  assert (HT32 : Z.of_nat T < 4294967296) by nia.
  rewrite (Z.mod_small (Z.of_nat t + 1)) by lia.
  now rewrite Nat2Z.inj_succ, <- Z.add_1_r.
Qed.

Lemma firstI_mono (T n t t' : nat) :
  (0 < T)%nat -> (t <= t')%nat -> (t' <= T)%nat ->
  Z.of_nat T * Z.of_nat n < 2 ^ 32 ->
  firstI (Z.of_nat t) (Z.of_nat T) (Z.of_nat n)
  <= firstI (Z.of_nat t') (Z.of_nat T) (Z.of_nat n).
Proof.
  intros HT Htt Ht' Hov. rewrite !firstI_small by (assumption || lia).
  apply Z.div_le_mono; [lia|nia].
Qed.

Lemma firstI_nonneg (T n t : nat) :
  (0 < T)%nat -> 0 <= firstI (Z.of_nat t) (Z.of_nat T) (Z.of_nat n).
Proof.
  intros HT. unfold firstI. apply Z.div_pos; [|lia].
  apply Z.mod_pos_bound. lia.
Qed.

Lemma inThreadRange_bounds (T n t i : nat) :
  (0 < n)%nat -> (t < T)%nat -> Z.of_nat T * Z.of_nat n < 2 ^ 32 ->
  inThreadRange T n t i ->
  firstI (Z.of_nat t) (Z.of_nat T) (Z.of_nat n) <= Z.of_nat i
  < firstI (Z.of_nat (S t)) (Z.of_nat T) (Z.of_nat n).
Proof.
  intros Hn Ht Hov. unfold inThreadRange, threadRange. cbn [fst snd].
  rewrite lastI_first by assumption.
  pose proof (firstI_nonneg T n t ltac:(lia)).
  pose proof (firstI_nonneg T n (S t) ltac:(lia)).
  lia.
Qed.

(** X14.  Without overflow of the 32-bit products, the index ranges of the
    worker threads of the normal calculator partition the points of a
    node: every point index lies in the range of exactly one worker, so
    every entry of the normal buffer is computed, and by one thread
    only. *)
Theorem worker_ranges_partition (T n i : nat) :
  (0 < T)%nat -> Z.of_nat T * Z.of_nat n < 2 ^ 32 -> (i < n)%nat ->
  exists t : nat,
    (t < T)%nat /\ inThreadRange T n t i
    /\ forall t' : nat, (t' < T)%nat -> inThreadRange T n t' i -> t' = t.
Proof.
  intros HT Hov Hi.
  destruct (threadRange_cover T n i HT Hov Hi) as (t & Ht & Hin).
  exists t. split; [exact Ht|]. split; [exact Hin|].
  intros t' Ht' Hin'.
  apply inThreadRange_bounds in Hin; [|lia|exact Ht|exact Hov].
  apply inThreadRange_bounds in Hin'; [|lia|exact Ht'|exact Hov].
  destruct (Nat.lt_trichotomy t' t) as [Hlt|[Heq|Hgt]]; [|exact Heq|].
  - pose proof (firstI_mono T n (S t') t HT ltac:(lia) ltac:(lia) Hov). lia.
  - pose proof (firstI_mono T n (S t) t' HT ltac:(lia) ltac:(lia) Hov). lia.
Qed.

End WorkerRanges.

Lemma worker_ranges_partition_witness :
  exists t : nat,
    (t < 4)%nat /\ inThreadRange 4 10 t 7
    /\ forall t' : nat, (t' < 4)%nat -> inThreadRange 4 10 t' 7 -> t' = t.
Proof. apply worker_ranges_partition; [lia|reflexivity|lia]. Defined.

(** With three threads and 2^31 points the products overflow: the second
    worker gets no point, the third starts again at 0, and the points from
    715827882 on are left out. *)
Example worker_ranges_overflow :
  map (fun t => (NormalCalculator.firstI t 3 (2 ^ 31), NormalCalculator.lastI t 3 (2 ^ 31)))
      [0; 1; 2]
  = [(0, 715827882); (715827882, 0); (0, 715827882)].
Proof. vm_compute. reflexivity. Qed.

Lemma pipe_transfers_primitive_exactly_witness :
  PrimitivePipe.read PrimitivePipe.PlaneClass
    (PrimitivePipe.write PrimitiveSample.wall ++ PrimitivePipe.write PrimitiveSample.pipe)
  = Ok (PrimitiveSample.wall, PrimitivePipe.write PrimitiveSample.pipe).
Proof.
  apply (pipe_transfers_primitive_exactly PrimitiveSample.wall).
  - reflexivity.
  - unfold inRange, isUInt64, isInt32. cbn. lia.
Defined.

Lemma saved_primitives_keep_their_fields_witness :
  Primitives.loadPrimitives PrimitiveSample.offsets
    (Primitives.savePrimitives PrimitiveSample.offsets PrimitiveSample.primitives)
  = (map (fun p =>
            withCharacteristicPoint p
              (Primitives.add3
                 (Primitives.add3 (characteristicPoint p) PrimitiveSample.offsets)
                 (Primitives.neg3 PrimitiveSample.offsets)))
         PrimitiveSample.primitives,
     None).
Proof.
  apply saved_primitives_keep_their_fields.
  - repeat constructor.
  - repeat constructor; unfold isUInt64, isInt32; cbn; lia.
Defined.

(** ** The binary point file loader (LidarPreprocessor.cpp) *)

Module Float32.

(** The double that has the value of a [float] with the IEEE binary32 bit
    pattern [z]: sign (1 bit), biased exponent (8 bits), fraction (23
    bits).  Every binary32 value is a double. *)
Definition of_bits (z : Z) : float :=
  let s := Z.testbit z 31 in
  let ex := (z / 2 ^ 23) mod 256 in
  let fr := z mod 2 ^ 23 in
  let magnitude :=
    if ex =? 0 then Z.ldexp (float_of_Z fr) (-149)
    else if ex =? 255 then (if fr =? 0 then infinity else nan)
    else Z.ldexp (float_of_Z (fr + 2 ^ 23)) (ex - 150) in
  if s then (- magnitude)%float else magnitude.

Definition decode (bs : list byte) : float := of_bits (LE.decode bs).

End Float32.

Example Float32_values :
  map Float32.of_bits [0x3F800000; 0xC0200000; 0x00000001; 0x7F800000; 0x3DCCCCCD]
  = [1; -2.5; 0x1p-149; infinity; 0x1.99999ap-4]%float.
Proof. vm_compute. reflexivity. Qed.

Module BinaryPoints.
Section Loader.
Context {Transform ColorMask : Type}.
Import PointFiles.

(** [float rp[4]; file->read(rp,4)] *)
Definition read_f32_4 (f : SeqFile.t) : result exn (float * float * float * float * SeqFile.t) :=
  '(b0, f) <- SeqFile.read 4 f ;;
  '(b1, f) <- SeqFile.read 4 f ;;
  '(b2, f) <- SeqFile.read 4 f ;;
  '(b3, f) <- SeqFile.read 4 f ;;
  Ok (Float32.decode b0, Float32.decode b1, Float32.decode b2, Float32.decode b3, f).

(** The loop over the points; an exception leaves it with the points
    added so far. *)
Fixpoint readPoints (n : nat) (f : SeqFile.t) (pa : PointAccumulator Transform ColorMask)
  : PointAccumulator Transform ColorMask * option exn :=
  match n with
  | O => (pa, None)
  | S n' =>
      (* Read the point position and intensity from the input file: *)
      match read_f32_4 f with
      | Err e => (pa, Some e)
      | Ok (rp0, rp1, rp2, rp3, f') =>
          (* Store the point: *)
          readPoints n' f' (addPoint (mkVec3 rp0 rp1 rp2) (mkVec3 rp3 rp3 rp3) pa)
      end
  end.

(** loadPointFileBin *)
Definition loadPointFileBin (pa : PointAccumulator Transform ColorMask) (file : list byte)
  : Outcome Transform ColorMask :=
  (* Read the number of points in the file: *)
  match SeqFile.read_u32 file with
  | Err e => mkOutcome pa [] (Some e)
  | Ok (numPoints, f) =>
      (* Read all points: *)
      let '(pa, e) := readPoints (Z.to_nat numPoints) f pa in
      mkOutcome pa [] e
  end.

End Loader.
End BinaryPoints.

Section BinaryPointsFacts.
Context {Transform ColorMask : Type}.
Import PointFiles BinaryPoints.

(** The point of the 16-byte record at the front of [f], added under the
    point offset [o]: three coordinates and the intensity, as floats. *)
Definition binPoint (o : Vec3 float) (f : list byte) : AddedPoint :=
  let intensity := Float32.decode (take 4 (drop 12 f)) in
  mkAddedPoint
    (mkVec3 (Float32.decode (take 4 f)) (Float32.decode (take 4 (drop 4 f)))
            (Float32.decode (take 4 (drop 8 f))))
    (mkVec3 intensity intensity intensity) o.

Lemma read_f32_4_ok (f : SeqFile.t) :
  (16 <= length f)%nat ->
  read_f32_4 f
  = Ok (Float32.decode (take 4 f), Float32.decode (take 4 (drop 4 f)),
        Float32.decode (take 4 (drop 8 f)), Float32.decode (take 4 (drop 12 f)),
        drop 16 f).
Proof.
  intros H. unfold read_f32_4.
  repeat (rewrite SeqFile_read_ok by (rewrite ?length_drop; lia); cbn [rbind]).
  rewrite !drop_drop. reflexivity.
Qed.

Lemma read_f32_4_short (f : SeqFile.t) :
  (length f < 16)%nat -> read_f32_4 f = Err ReadError.
Proof.
  intros H. unfold read_f32_4.
  repeat match goal with
         | |- context [SeqFile.read ?n ?g] =>
             unfold SeqFile.read at 1;
             destruct (decide (n <= length g)%nat); [cbn [rbind]|reflexivity]
         end.
  exfalso. rewrite ?length_drop in *. lia.
Qed.

Lemma div16_step (a : nat) : (16 <= a)%nat -> (a / 16 = S ((a - 16) / 16))%nat.
Proof.
  intros H. replace a with ((a - 16) + 1 * 16)%nat at 1 by lia.
  rewrite Nat.div_add by lia. lia.
Qed.

Lemma binPoints_step (o : Vec3 float) (f : list byte) (k : nat) :
  map (fun j => binPoint o (drop (16 * j) f)) (seq 0 (S k))
  = binPoint o f :: map (fun j => binPoint o (drop (16 * j) (drop 16 f))) (seq 0 k).
Proof.
  cbn [seq map]. rewrite <- List.seq_shift, map_map. f_equal.
  apply map_ext. intros j. rewrite drop_drop. do 2 f_equal. lia.
Qed.

Lemma readPoints_spec (n : nat) :
  forall (f : SeqFile.t) (pa : PointAccumulator Transform ColorMask),
    readPoints n f pa
    = (mkPointAccumulator (pointOffset pa) (transform pa) (colorMask pa)
         (added pa
          ++ map (fun j => binPoint (pointOffset pa) (drop (16 * j) f))
                 (seq 0 (min n (length f / 16)))),
       if (n <=? length f / 16)%nat then None else Some ReadError).
Proof.
  induction n as [|n IH]; intros f pa; cbn [readPoints].
  - cbn. rewrite app_nil_r. now destruct pa.
  - destruct (le_lt_dec 16 (length f)) as [Hlen|Hlen].
    + rewrite read_f32_4_ok by exact Hlen. rewrite IH.
      cbn [addPoint pointOffset transform colorMask added].
      rewrite length_drop, (div16_step (length f)) by exact Hlen.
      cbn [Nat.min Nat.leb]. rewrite binPoints_step, <- app_assoc. reflexivity.
    + rewrite read_f32_4_short by exact Hlen.
      rewrite Nat.div_small by exact Hlen. cbn. rewrite app_nil_r. now destruct pa.
Qed.

(** X15.  The binary point file loader reads the 32-bit point count and
    then one 16-byte record per point, four floats: it adds the complete
    records there are, at most as many as the count says, in order, each
    with the intensity as its grey colour.  It returns when the file holds
    all the records counted, ignoring what follows them, and otherwise
    throws the read error after the last complete record, with the points
    read before it kept; a file without the four bytes of the count adds
    nothing. *)
Theorem binary_point_file_loads (pa : PointAccumulator Transform ColorMask)
    (file : list byte) :
  ((length file < 4)%nat -> loadPointFileBin pa file = mkOutcome pa [] (Some ReadError))
  /\ ((4 <= length file)%nat ->
      let numPoints := Z.to_nat (LE.decode (take 4 file)) in
      let body := drop 4 file in
      loadPointFileBin pa file
      = mkOutcome
          (mkPointAccumulator (pointOffset pa) (transform pa) (colorMask pa)
             (added pa
              ++ map (fun j => binPoint (pointOffset pa) (drop (16 * j) body))
                     (seq 0 (min numPoints (length body / 16)))))
          []
          (if (numPoints <=? length body / 16)%nat then None else Some ReadError)).
Proof.
  split; intros Hlen; unfold loadPointFileBin, SeqFile.read_u32.
  - rewrite SeqFile_read_short by exact Hlen. reflexivity.
  - rewrite SeqFile_read_ok by exact Hlen. cbn [rbind]. cbv zeta.
    rewrite readPoints_spec. reflexivity.
Qed.

End BinaryPointsFacts.

Lemma binary_point_file_loads_witness :
  PointFiles.thrown
    (BinaryPoints.loadPointFileBin PointFileSample.pa
       (LE.encode 4 2 ++ LE.encode 4 0x3F800000 ++ LE.encode 4 0xC0200000
        ++ LE.encode 4 0 ++ LE.encode 4 0x42C80000 ++ [x01; x02; x03]))
  = Some ReadError.
Proof.
  rewrite (proj2 (binary_point_file_loads PointFileSample.pa _)); [reflexivity|].
  cbn. lia.
Defined.

Example binary_point_file_one_of_two :
  map PointFiles.rawPosition
    (PointFiles.added
       (PointFiles.accumulator
          (BinaryPoints.loadPointFileBin PointFileSample.pa
             (LE.encode 4 2 ++ LE.encode 4 0x3F800000 ++ LE.encode 4 0xC0200000
              ++ LE.encode 4 0 ++ LE.encode 4 0x42C80000 ++ [x01; x02; x03]))))
  = [mkVec3 11 22 33; mkVec3 1 (-2.5) 0]%float.
Proof. vm_compute. reflexivity. Qed.

(** ** The ASCII xyzrgb loader (LidarPreprocessor.cpp) *)

Module XyzRgb.
Section Loader.
Context {Transform ColorMask : Type}.
Import PointFiles.

(** IO::ValueSource::readNumber and the conversion from double to float,
    as for the xyzi loader. *)
Variable readNumber : string -> option (float * string).
Variable toFloat : float -> float.

(** The body of the try block up to the call of addPoint: three
    coordinates, then three colour components. *)
Definition parsePoint (line : string) : option (Vec3 float * Vec3 float) :=
  match readNumber line with
  | None => None
  | Some (p0, line) =>
  match readNumber line with
  | None => None
  | Some (p1, line) =>
  match readNumber line with
  | None => None
  | Some (p2, line) =>
  match readNumber line with
  | None => None
  | Some (c0, line) =>
  match readNumber line with
  | None => None
  | Some (c1, line) =>
  match readNumber line with
  | None => None
  | Some (c2, line) =>
      Some (mkVec3 p0 p1 p2, mkVec3 (toFloat c0) (toFloat c1) (toFloat c2))
  end
  end
  end
  end
  end
  end.

(** One turn of the loop over the lines; the second component lists the
    lines reported with "loadPointFileXyzrgb: Point parsing error in
    line". *)
Definition readLine (lineNumber : nat) (line : string)
    (s : PointAccumulator Transform ColorMask * list nat)
  : PointAccumulator Transform ColorMask * list nat :=
  let line := skipWs line in
  (* Check for comment or empty lines: *)
  if negb (Ascii.eqb (peekc line) "#") && negb (Ascii.eqb (peekc line) "010") then
    match parsePoint line with
    | Some (p, c) => (* Store the point: *) (addPoint p c (fst s), snd s)
    | None => (fst s, snd s ++ [lineNumber])
    end
  else s.

Fixpoint readLines (lines : list string) (lineNumber : nat)
    (s : PointAccumulator Transform ColorMask * list nat)
  : PointAccumulator Transform ColorMask * list nat :=
  match lines with
  | [] => s
  | line :: rest => readLines rest (S lineNumber) (readLine lineNumber line s)
  end.

(** loadPointFileXyzrgb: the accumulator and the numbers of the lines
    reported. *)
Definition loadPointFileXyzrgb (pa : PointAccumulator Transform ColorMask)
    (lines : list string) : PointAccumulator Transform ColorMask * list nat :=
  readLines lines 1 (pa, []).

End Loader.
End XyzRgb.

Section XyzRgbFacts.
Context {Transform ColorMask : Type}.
Variable readNumber : string -> option (float * string).
Variable toFloat : float -> float.
Import PointFiles.

(** A line the xyzrgb loader reports. *)
Definition malformedRgb (line : string) : bool :=
  negb (isCommentOrEmpty line)
  && match XyzRgb.parsePoint readNumber toFloat (skipWs line) with
     | Some _ => false
     | None => true
     end.

(** The point a line adds under the point offset [o], if any. *)
Definition pointOfLineRgb (o : Vec3 float) (line : string) : option AddedPoint :=
  if isCommentOrEmpty line then None
  else match XyzRgb.parsePoint readNumber toFloat (skipWs line) with
       | Some (p, c) => Some (mkAddedPoint p c o)
       | None => None
       end.

(** The numbers of the lines reported, counted from [lineNumber]. *)
Fixpoint reportedRgb (lineNumber : nat) (lines : list string) : list nat :=
  match lines with
  | [] => []
  | line :: rest =>
      (if malformedRgb line then [lineNumber] else [])
      ++ reportedRgb (S lineNumber) rest
  end.

Lemma XyzRgb_readLines_spec (lines : list string) :
  forall (lineNumber : nat) (pa : PointAccumulator Transform ColorMask) (out : list nat),
    XyzRgb.readLines readNumber toFloat lines lineNumber (pa, out)
    = (mkPointAccumulator (pointOffset pa) (transform pa) (colorMask pa)
         (added pa ++ omap (pointOfLineRgb (pointOffset pa)) lines),
       out ++ reportedRgb lineNumber lines).
Proof.
  induction lines as [|line rest IH]; intros lineNumber pa out.
  - cbn. rewrite !app_nil_r. now destruct pa.
  - cbn [XyzRgb.readLines reportedRgb].
    change (omap ?g (line :: rest))
      with (match g line with Some y => y :: omap g rest | None => omap g rest end).
    unfold XyzRgb.readLine, malformedRgb, pointOfLineRgb, isCommentOrEmpty.
    rewrite <- negb_orb.
    destruct (_ || _); cbn [negb andb fst snd].
    + rewrite IH. now rewrite app_nil_l.
    + destruct (XyzRgb.parsePoint _ _ _) as [[p c]|]; rewrite IH.
      * cbn [addPoint pointOffset transform colorMask added app].
        now rewrite <- app_assoc.
      * now rewrite <- app_assoc.
Qed.

Lemma xyzrgb_line_is_xyzi_line (line : string) (p c : Vec3 float) :
  XyzRgb.parsePoint readNumber toFloat line = Some (p, c) ->
  parsePoint readNumber toFloat line = Some (p, mkVec3 (vx c) (vx c) (vx c)).
Proof.
  unfold XyzRgb.parsePoint, parsePoint.
  destruct (readNumber line) as [[p0 l0]|]; [|discriminate].
  destruct (readNumber l0) as [[p1 l1]|]; [|discriminate].
  destruct (readNumber l1) as [[p2 l2]|]; [|discriminate].
  destruct (readNumber l2) as [[c0 l3]|]; [|discriminate].
  destruct (readNumber l3) as [[c1 l4]|]; [|discriminate].
  destruct (readNumber l4) as [[c2 l5]|]; [|discriminate].
  intros [= <- <-]. reflexivity.
Qed.

(** X16.  The xyzrgb loader adds a point for every line that is neither a
    comment nor empty and starts with six numbers, and reports every other
    such line with its number, going on with the next line; the points of
    before are kept.  A line it accepts is also accepted by the xyzi
    loader, which takes the first colour component for the intensity: an
    xyzrgb file without a reported line, given as an xyzi file, loads
    without any diagnostic and with the same point positions. *)
Theorem xyzrgb_lines_load (pa : PointAccumulator Transform ColorMask)
    (lines : list string) :
  XyzRgb.loadPointFileXyzrgb readNumber toFloat pa lines
  = (mkPointAccumulator (pointOffset pa) (transform pa) (colorMask pa)
       (added pa ++ omap (pointOfLineRgb (pointOffset pa)) lines),
     reportedRgb 1 lines)
  /\ (forall (i : nat) (line : string), lines !! i = Some line ->
        (malformedRgb line = true <-> S i ∈ reportedRgb 1 lines))
  /\ (reportedRgb 1 lines = [] ->
      printed (loadPointFileXyzi readNumber toFloat pa lines) = []
      /\ map rawPosition (added (accumulator (loadPointFileXyzi readNumber toFloat pa lines)))
         = map rawPosition (added (fst (XyzRgb.loadPointFileXyzrgb readNumber toFloat
                                           pa lines)))).
Proof.
  assert (Hrep : forall ls n k,
             k ∈ reportedRgb n ls
             <-> exists i line, k = (n + i)%nat /\ ls !! i = Some line
                                /\ malformedRgb line = true).
  { induction ls as [|l ls IH]; intros n k; cbn [reportedRgb].
    - split; [intros H; inversion H|intros (i & l & _ & H & _); discriminate H].
    - rewrite elem_of_app, IH. split.
      + intros [H|(i & l' & -> & Hi & Hm)].
        * destruct (malformedRgb l) eqn:E; [|inversion H].
          apply list_elem_of_singleton in H as ->.
          exists 0%nat, l. split; [lia|]. split; [reflexivity|exact E].
        * exists (S i), l'. split; [lia|]. split; [exact Hi|exact Hm].
      + intros (i & l' & -> & Hi & Hm). destruct i as [|i].
        * left. injection Hi as ->. rewrite Hm.
          apply list_elem_of_singleton. lia.
        * right. exists i, l'. split; [lia|]. split; [exact Hi|exact Hm]. }
  assert (Hgood : forall ls n,
             reportedRgb n ls = [] ->
             parseErrors readNumber toFloat n ls = []
             /\ map rawPosition (omap (pointOfLine readNumber toFloat (pointOffset pa)) ls)
                = map rawPosition (omap (pointOfLineRgb (pointOffset pa)) ls)).
  { induction ls as [|l ls IH]; intros n H; [split; reflexivity|].
    cbn [reportedRgb parseErrors] in *.
    apply app_eq_nil in H as [Hl Hls]. destruct (IH _ Hls) as [IH1 IH2].
    change (omap ?g (l :: ls))
      with (match g l with Some y => y :: omap g ls | None => omap g ls end).
    unfold malformedRgb, malformed, pointOfLine, pointOfLineRgb in *.
    destruct (isCommentOrEmpty l); cbn [negb andb] in *; [now rewrite IH1|].
    destruct (XyzRgb.parsePoint readNumber toFloat (skipWs l)) as [[p c]|] eqn:E;
      [|discriminate Hl].
    rewrite (xyzrgb_line_is_xyzi_line _ _ _ E). rewrite IH1.
    split; [reflexivity|]. cbn [map rawPosition]. now rewrite IH2. }
  split; [unfold XyzRgb.loadPointFileXyzrgb; now rewrite XyzRgb_readLines_spec|].
  split.
  - intros i line Hi. rewrite Hrep. split.
    + intros Hm. exists i, line. auto.
    + intros (j & l & Hj & Hl & Hm). assert (j = i) by lia. subst j.
      rewrite Hi in Hl. now injection Hl as <-.
  - intros Hnone. destruct (Hgood lines 1%nat Hnone) as [H1 H2].
    rewrite loadPointFileXyzi_spec. cbn [printed accumulator added].
    unfold XyzRgb.loadPointFileXyzrgb. rewrite XyzRgb_readLines_spec.
    cbn [fst added]. split; [exact H1|]. now rewrite !map_app, H2.
Qed.

End XyzRgbFacts.

Module XyzRgbSample.
Import PointFiles PointFileSample.

Definition xyzrgbLines : list string :=
  ["# x y z r g b"; "1 2 3 40 50 60"; ""; "  9 10 11 12 13 14"]%string.

Example xyzrgbLines_load :
  XyzRgb.loadPointFileXyzrgb readInteger id pa xyzrgbLines
  = (mkPointAccumulator (mkVec3 10 20 30)%float tt tt
       (added pa
        ++ [mkAddedPoint (mkVec3 1 2 3)%float (mkVec3 40 50 60)%float
              (mkVec3 10 20 30)%float;
            mkAddedPoint (mkVec3 9 10 11)%float (mkVec3 12 13 14)%float
              (mkVec3 10 20 30)%float]),
     [])
  /\ snd (XyzRgb.loadPointFileXyzrgb readInteger id pa xyziLines) = [2; 3; 5; 6]%nat.
Proof. split; vm_compute; reflexivity. Qed.

End XyzRgbSample.

Lemma xyzrgb_lines_load_witness :
  PointFiles.printed
    (PointFiles.loadPointFileXyzi PointFileSample.readInteger id PointFileSample.pa
       XyzRgbSample.xyzrgbLines) = [].
Proof.
  apply (proj2 (proj2 (xyzrgb_lines_load PointFileSample.readInteger id
                         PointFileSample.pa XyzRgbSample.xyzrgbLines))).
  vm_compute. reflexivity.
Defined.

(** ** The column indices of the command line (LidarPreprocessor.cpp) *)

Module CommandLine.
Section ColumnIndices.

(** strtol(s,&conversionEnd,10) of the C library: the value and the
    characters from conversionEnd on. *)
Variable strtol : string -> Z * string.

(** The conversion int(...) of the long value. *)
Definition toInt (value : Z) : Z := LE.signed 32 (value mod 2 ^ 32).

(** The second loop of readColumnIndexMask, from [i] on for [n] turns;
    [argv] holds argc strings. *)
Fixpoint readIndices (n i : nat) (argv : list string) (argi : Z)
    (columnIndices : list Z) : Z * list Z :=
  match n with
  | O => (argi, columnIndices)
  | S n' =>
      let argi := argi + 1 in
      if argi <? Z.of_nat (length argv) then
        let '(value, conversionEnd) := strtol (nth (Z.to_nat argi) argv EmptyString) in
        match conversionEnd with
        | EmptyString =>
            readIndices n' (S i) argv argi (<[i := toInt value]> columnIndices)
        | String _ _ => (argi - 1, columnIndices)
        end
      else readIndices n' (S i) argv argi columnIndices
  end.

(** readColumnIndexMask: the result, argi and columnIndices on return. *)
Definition readColumnIndexMask (argv : list string) (argi : Z) : bool * Z * list Z :=
  (* Initialize the column indices to invalid: *)
  let columnIndices := replicate 6 (-1) in
  (* Read all parameters that are integers: *)
  let '(argi, columnIndices) := readIndices 6 0 argv argi columnIndices in
  (* Check if the index array at least contains x, y, z components: *)
  ((0 <=? nth 0 columnIndices 0) && (0 <=? nth 1 columnIndices 0)
   && (0 <=? nth 2 columnIndices 0),
   argi, columnIndices).

End ColumnIndices.
End CommandLine.

Section ColumnIndexFacts.
Variable strtol : string -> Z * string.
Import CommandLine.

(** An argument strtol converts to its end. *)
Definition isInteger (arg : string) : bool :=
  match snd (strtol arg) with
  | EmptyString => true
  | String _ _ => false
  end.

(** The arguments converted: the integers at the head of [args], at most
    [n] of them. *)
Fixpoint integerPrefix (n : nat) (args : list string) : list string :=
  match n, args with
  | S n', arg :: rest => if isInteger arg then arg :: integerPrefix n' rest else []
  | _, _ => []
  end.

Lemma integerPrefix_length (n : nat) :
  forall args, (length (integerPrefix n args) <= n)%nat
               /\ (length (integerPrefix n args) <= length args)%nat.
Proof.
  induction n as [|n IH]; intros [|arg rest]; cbn; try lia.
  destruct (isInteger arg); cbn; [|lia]. specialize (IH rest). lia.
Qed.

(** argi on return: before the argument that is no integer, or six
    arguments on. *)
Definition argiAfter (n : nat) (args : list string) (argi : Z) : Z :=
  let k := length (integerPrefix n args) in
  if (k <? n)%nat && (k <? length args)%nat then argi + Z.of_nat k
  else argi + Z.of_nat n.

Lemma nth_drop_hd (argv : list string) (k : nat) (arg : string) (rest : list string) :
  drop k argv = arg :: rest ->
  nth k argv EmptyString = arg /\ drop (S k) argv = rest /\ (k < length argv)%nat.
Proof.
  revert k. induction argv as [|a argv IH]; intros [|k]; cbn; try discriminate.
  - intros [= -> ->]. repeat split. lia.
  - intros H. destruct (IH k H) as (H1 & H2 & H3). repeat split; [exact H1|exact H2|lia].
Qed.

Lemma drop_nil_length (argv : list string) (k : nat) :
  drop k argv = [] -> (length argv <= k)%nat.
Proof.
  revert k. induction argv as [|a argv IH]; intros [|k]; cbn; try lia; try discriminate.
  intros H. specialize (IH k H). lia.
Qed.

Lemma readIndices_spec (n : nat) :
  forall (argv args : list string) (argi : Z) (done : list Z),
    0 <= argi + 1 ->
    drop (Z.to_nat (argi + 1)) argv = args ->
    readIndices strtol n (length done) argv argi (done ++ replicate n (-1))
    = (argiAfter n args argi,
       done ++ map (fun arg => toInt (fst (strtol arg))) (integerPrefix n args)
       ++ replicate (n - length (integerPrefix n args)) (-1)).
Proof.
  induction n as [|n IH]; intros argv args argi done Hargi Hdrop.
  - cbn. unfold argiAfter. cbn. now rewrite Z.add_0_r.
  - cbn [readIndices]. destruct args as [|arg rest].
    + apply drop_nil_length in Hdrop.
      destruct (Z.ltb_spec (argi + 1) (Z.of_nat (length argv))) as [Hlt|_]; [lia|].
      change (replicate (S n) (-1)) with ([-1] ++ replicate n (-1)).
      rewrite app_assoc.
      replace (S (length done)) with (length (done ++ [-1]))
        by (rewrite length_app; cbn; lia).
      rewrite (IH argv [] (argi + 1) (done ++ [-1])).
      * unfold argiAfter. destruct n; cbn; rewrite <- ?app_assoc; cbn;
          (f_equal; lia).
      * lia.
      * apply drop_ge. lia.
    + destruct (nth_drop_hd _ _ _ _ Hdrop) as (Hnth & Hrest & Hlen).
      destruct (Z.ltb_spec (argi + 1) (Z.of_nat (length argv))) as [_|Hge]; [|lia].
      rewrite Hnth. cbn [integerPrefix]. unfold isInteger.
      destruct (strtol arg) as [value conversionEnd] eqn:E. cbn [snd].
      destruct conversionEnd as [|c conversionEnd].
      * change (replicate (S n) (-1)) with ([-1] ++ replicate n (-1)).
        rewrite app_assoc.
        assert (Hins : <[length done := toInt value]> ((done ++ [-1]) ++ replicate n (-1))
                       = (done ++ [toInt value]) ++ replicate n (-1)).
        { rewrite <- !app_assoc. rewrite insert_app_r_alt by lia.
          now rewrite Nat.sub_diag. }
        rewrite Hins.
        replace (S (length done)) with (length (done ++ [toInt value]))
          by (rewrite length_app; cbn; lia).
        rewrite (IH argv rest (argi + 1) (done ++ [toInt value])).
        -- cbn [map length]. rewrite E. cbn [fst]. rewrite <- !app_assoc. cbn [app].
           rewrite Nat.sub_succ. f_equal.
           unfold argiAfter. cbn [integerPrefix length]. unfold isInteger. rewrite E.
           cbn [snd length].
           change (S ?a <? S ?b)%nat with (a <? b)%nat.
           destruct (_ && _); lia.
        -- lia.
        -- rewrite <- Hrest. f_equal. lia.
      * cbn [map length app]. f_equal.
        unfold argiAfter. cbn [integerPrefix]. unfold isInteger. rewrite E. cbn. lia.
Qed.

(** X17.  readColumnIndexMask converts the arguments that follow the
    option, up to the first one that is no integer and six at most: the
    column indices are their values followed by -1, argi is left on the
    last argument converted when the next one is no integer, and six
    arguments further otherwise (also past the end of the command line);
    the result tells that three arguments at least were converted and that
    the first three values are not negative. *)
Theorem column_indices_read (argv : list string) (argi : Z) :
  0 <= argi ->
  let args := drop (Z.to_nat (argi + 1)) argv in
  let indices := map (fun arg => toInt (fst (strtol arg))) (integerPrefix 6 args) in
  readColumnIndexMask strtol argv argi
  = (forallb (fun i => 0 <=? nth i indices (-1)) [0; 1; 2]%nat,
     argiAfter 6 args argi,
     indices ++ replicate (6 - length indices) (-1))
  /\ (length indices <= 6)%nat.
Proof.
  intros Hargi args indices. split.
  - unfold readColumnIndexMask.
    pose proof (readIndices_spec 6 argv args argi [] ltac:(lia) eq_refl) as Hread.
    change (readIndices strtol 6 (length []) argv argi ([] ++ replicate 6 (-1)))
      with (readIndices strtol 6 0 argv argi (replicate 6 (-1))) in Hread.
    cbv zeta. rewrite Hread.
    cbn [app].
    assert (Hlen : length (integerPrefix 6 args) = length indices)
      by (unfold indices; now rewrite length_map).
    rewrite Hlen. fold indices. clear Hread Hlen. clearbody indices.
    f_equal. f_equal.
    destruct indices as [|i0 [|i1 [|i2 rest]]]; cbn;
      rewrite ?andb_true_r, ?andb_false_r, ?andb_assoc; reflexivity.
  - unfold indices. rewrite length_map. apply integerPrefix_length.
Qed.

End ColumnIndexFacts.

Module CommandLineSample.
Import CommandLine.

(** A reader of unsigned decimal integers in the place of strtol, for the
    samples below only: it agrees with strtol on arguments without sign or
    leading blanks whose value fits a 64-bit long. *)
Definition strtol (s : string) : Z * string := PointFileSample.digits 0 s.

Definition argv : list string :=
  ["LidarPreprocessor"; "-ascii"; "0"; "1"; "2"; "points.txt"; "-o"; "points.lidar"]%string.

Example column_indices_samples :
  readColumnIndexMask strtol argv 1 = (true, 4, [0; 1; 2; -1; -1; -1])
  /\ readColumnIndexMask strtol (take 4 argv) 1 = (false, 7, [0; 1; -1; -1; -1; -1])
  /\ readColumnIndexMask strtol ["-ascii"; "3"; "4"; "5"; "0"; "1"; "2"; "7"]%string 0
     = (true, 6, [3; 4; 5; 0; 1; 2])
  /\ readColumnIndexMask strtol ["-ascii"; "4294967295"; "1"; "2"]%string 0
     = (false, 6, [-1; 1; 2; -1; -1; -1]).
Proof. repeat split; vm_compute; reflexivity. Qed.

End CommandLineSample.

Lemma column_indices_read_witness :
  CommandLine.readColumnIndexMask CommandLineSample.strtol CommandLineSample.argv 1
  = (true, 4, [0; 1; 2; -1; -1; -1]).
Proof.
  exact (proj1 (column_indices_read CommandLineSample.strtol CommandLineSample.argv 1
                  ltac:(lia))).
Defined.
